(* ===== verification/_CoqProject ===== *)
-Q . S2P
Prelude.v
CMem.v
CStr.v
StringProps.v
Format.v
FormatProps.v
Pmm.v
Vmm.v
VmmSpec.v
MmProps.v
VmmClone.v
VmmDestroy.v
SpaceProps.v
Ramdisk.v
RamdiskSpec.v
RamdiskArchive.v
RamdiskListing.v
RamdiskImage.v
RamdiskProps.v
Elf.v
ElfProps.v
Keyboard.v
Kernel.v
Loader.v
Syscalls.v
ProcTable.v
Lifecycle.v
LifecycleProps.v
UserMem.v
LoaderSpec.v
StackSpec.v
ProgramSpec.v
FileProps.v
DirProps.v
StdinProps.v
LoaderProps.v
Outcome.v
Console.v
ConsoleProps.v
Font.v
FontRaster.v
FontSafe.v
FontOutline.v
FontShape.v
FontBounds.v
FontMap.v
FontGlyph.v
FontProps.v
BootInfo.v
Shell.v
Feed.v
ShellProps.v
Entry.v
EntryProps.v
Tty.v
Boot.v
BootSpec.v
BootProps.v
Userland.v
UserlandProps.v
ExecProps.v
Triples.v
Confine.v
LoadConfined.v
Safety.v
Isolation.v
