(* ===== verification/Prelude.v ===== *)
(** * A verification of the xbks kernel

    xbks is a small x86-64 kernel in C.  The boot loader hands it a memory map, a frame
    buffer and modules: a tar archive and a font.  It sets up the processor, collects the
    free memory, draws a terminal, mounts the archive as its file system, loads the first
    program from it as an ELF file, enters user mode and serves that program's system calls;
    without a program it runs a shell of its own.  This library models all of that
    and proves what it does.

    ** The program and its model

    Libraries and memory:
    - src/lib/string.c: [CMem] (memory as a finite map from addresses to bytes, [memset],
      [memcpy], [memmove], [memcmp]) and [CStr] (C strings as the bytes up to the end of
      their object, [strlen], [strcmp], [strncmp]); theorems in [StringProps].
    - src/lib/format.c: [Format] ([xbks_vsnprintf] and its sink), theorems in
      [FormatProps].  Variadic arguments are a list of typed values.
    - src/mm/mm.c, frame allocator: [Pmm].  Its record [mm] holds the free list's head,
      the counters, the direct-map offset, the CR3 register and the memory; the free
      list is threaded through that memory as in the code.
    - src/mm/mm.c, page tables: [Vmm] (root creation, mapping, translation, cloning and
      destruction of the user half), [VmmSpec] (index paths, the frames they reach, the
      invariant [space] of a set of address spaces), [VmmClone] and [VmmDestroy] (the
      theory of the two walks), theorems in [MmProps] and [SpaceProps].
    - src/fs/ramdisk.c: [Ramdisk] (the code), [RamdiskSpec] (its string routines),
      [RamdiskArchive] (the archive as a list of entries, and lookup), [RamdiskListing]
      (directory listings), [RamdiskImage] (a tar writer), theorems in [RamdiskProps].
    - src/fs/elf.c: [Elf], theorems in [ElfProps].

    Processes:
    - src/kernel/process.c: [Kernel] (the process table, the state [kernel], the
      monad [K] of computations that may stop the machine, user memory through the page
      tables, copies from user memory), [Loader] (user ranges, the in-kernel ELF loader,
      the initial stack), [Syscalls] (every handler, the dispatcher, the start of the
      first process).  [ProcTable] and [Lifecycle] hold the invariant of the process
      table, [LifecycleProps] its theorems; [UserMem] is the theory of reads and writes
      of user memory, [LoaderSpec], [StackSpec] and [ProgramSpec] that of mapping and
      filling an address space, building a stack and loading segments.  Theorems: [FileProps]
      (pointers, strings, files), [DirProps] (getdents64), [StdinProps] (reads from the
      keyboard), [LoaderProps] (process memory) and [ExecProps] (execve).  On top of the handlers:
      [Triples] (a Hoare logic for them, for any invariant that stores into user memory
      and changes of descriptors keep), [Confine] (changes of memory that are confined to
      some address spaces), [LoadConfined] (loading any file, well-formed or not, is such a
      change), [Safety] (no call leaves the kernel's tables and buffers) and [Isolation]
      (processes cannot touch the memory of a blocked one).

    Devices:
    - src/drivers/serial.c, src/kernel/log.c, the writing half of src/drivers/tty.c and
      the port functions of src/include/xbks/io.h and cpu.h: [Console].  Its monad [IO] runs on
      [devices]: the answers the devices will give, the trace of all accesses so far, and
      whether there is a terminal.  Theorems in [ConsoleProps].  [Feed] counts answers: a
      computation that waits has taken all there were.
    - src/drivers/keyboard.c: [Keyboard].  There, what the ports answer at each poll is a list
      given from outside; [Shell] has the same polls on the ports of [Console].
    - src/drivers/font_ttf.c: [Font] (tables, character maps, outlines) and [FontRaster]
      (metrics, edges, sampling, the 256 cells), in the monad of [Outcome]: an answer, a
      refusal, or a step outside the semantics of C.  [FontSafe], [FontMap],
      [FontOutline], [FontGlyph], [FontShape] and [FontBounds] are their theory,
      [FontProps] the theorems.
    - src/drivers/tty.c, set-up: [Tty].

    The processor:
    - src/arch/x86_64/gdt.c, gdt_entry.S, syscall_entry.S, user_entry.S, src/syscall/syscall.c
      and the calling functions of src/include/xbks/uapi/syscall.h: [Entry], a register
      machine ([cpu]) with the instructions these files use, each routine a list of them;
      theorems in [EntryProps].

    The start and the shells:
    - src/boot/limine_requests.c, src/include/xbks/boot_info.h: [BootInfo].
    - src/kernel/shell.c: [Shell], theorems in [ShellProps].
    - src/kernel/main.c, panic.c, src/arch/x86_64/arch.c and the starting routines with
      their log lines: [Boot], on a [machine] of [devices], [kernel] and [cpu].  [BootSpec] is
      the logic of boot computations ([leads]) and shows that the logged routines do to
      the kernel what those of [Pmm], [Ramdisk] and [Syscalls] do; theorems in [BootProps].
    - src/kernel/userland.c, src/include/xbks/user_api.h: [Userland], theorems in
      [UserlandProps].  A program is a parameter, the tree of its computations and
      calls.  Nothing calls [xbks_userland_start] any more.

    A definition has the name of the function it translates; loops are fixpoints named
    after the function with a suffix ([_loop], [_step]).  Integers are [Z] with the
    wrap-around of their C type written out ([+u], [-u], [u64], [s32]).  Errors are the
    values the code returns.  [None], the [stop] values of [K], [STRAY] of [IO] and the [ending]s of
    [Boot] stand for what the C program does outside its semantics or does not come back
    from: an access outside an object, a page fault in the kernel (which has no handler), a halt,
    waiting for input that never comes.

    ** What the theorems show

    - The start: from the hand-over of the boot loader the kernel reaches the first
      instruction of [/bin/xsh] in ring 3, with its address space, its stack and clean
      registers; without such a program the rest of its run is that of its shell, which
      waits for a key with all answers taken or has asked for a reset.
    - Memory: the allocator implements an abstract pool of distinct frames, hands out
      zeroed frames and is filled with exactly the usable memory; mapping a page changes
      one translation and refusing changes none; a clone shows the bytes of its source
      through frames of its own, destroying gives back exactly its frames.
    - File system: lookup and listing agree with the archive read as a list of entries,
      on every image and every path, and end without leaving their buffers; what a tar
      writer packs is found again; listed names can be looked up.
    - Formatter and strings: the output is the longest prefix of the unbounded rendering
      that fits; numerals read back; overlapping moves and comparisons are right.
    - ELF loader: it accepts exactly the well-formed files, the arena then holds the
      segments over zeros, and a refusal leaves memory alone.
    - Processes: in every state reachable through any system calls exactly the current
      process runs and the blocked ones form the chain of its vfork parents; vfork always
      returns; a child's exit resumes its parent with the saved registers; after wait4 every
      other record of the table is exactly what it was before the vfork ([own_changes] is
      what the child may do between); execve replaces the program of the process and nothing
      else, and every page and table of the old program is free again.
    - Files and user memory: the pointer check accepts exactly the user half; strings
      come over unchanged or are refused; open, read, lseek, write and close do what
      their callers expect and change nothing else, in any address space; getdents64
      writes the listing record by record; a read of the standard input gets what was
      typed.
    - All system calls: whatever the history, the number, the arguments and the contents of
      memory, the dispatcher indexes no table out of range, reads no string past its
      end, and ends.  Every process has an address space of its own; while a process is
      blocked, neither the calls of the others nor their stores change its record or a byte
      of its memory, or give them access to it.
    - Programs: loading an executable gives an address space with its segments, zeros
      after them, the arguments and environment where the ABI wants them and nothing
      else, disturbs no other memory and loses no frame ([refilling] is the account that
      building one address space keeps of frames and other spaces); writes into an address space and the break
      change exactly the bytes and pages they should.
    - Crossing between the modes: a system call reaches the dispatcher with the registers of
      the program and returns with the result, every selector is the one of the
      descriptor table, and a new program finds nothing of the kernel in its registers.
    - Devices: a console write sends exactly its bytes to each device, and ends if the
      line is ready often enough; typed text is read back.
    - Fonts: the parser reads no byte outside the file and accepts only well-formed
      fonts; loading a glyph ends; an encoded glyph reads back; pixels outside the edges
      stay blank; no arithmetic overflows for fonts of a sensible size, and a font of
      one unit makes it overflow.
    - The shell: its line editor is a list, its commands print exactly what is stated, and it
      never ends.
    - Programs inside the kernel: they read the bytes and directory entries of the
      archive, and run one command at a time.

    ** Bounds and fuel

    Loops that the code bounds by a counter take that bound: 16 processes and
    descriptors, 256-byte strings, 512 entries per table, [e_phnum] (at most 65535)
    program headers.  The walk over an archive moves forward at least 512 bytes per round,
    so [length img / 512 + 1] rounds are enough; a copy into an address space moves to
    the next page in each round, so [size / 4096 + 2] are enough; [getdents64] writes at
    least 24 bytes per round and so takes at most [count / 24 + 1].  A composite glyph
    refuses a depth beyond 8, so 10 levels are enough, and each component takes
    bytes of the glyph, so its size bounds their number.  A loop that polls a device takes one answer per
    round, so the answers to come bound the rounds ([Feed] shows that they are all taken when it stops).
    One level of [exec] is enough for the programs inside the kernel.  The lemmas behind
    the theorems show that the fuel is not exhausted where a result is claimed.

    ** What is not modelled

    The terminal emulator and the boot loader are third-party code: the constructors of the
    one are parameters, what it is given is recorded; the tables of the other, the markers of its
    section and the request for a paging mode are data.  The processor's own page walk is
    taken to be the walk of [xbks_vmm_translate], and the registers and stack of [cpu] live in
    a memory of their own, apart from the physical memory of [mm].  In [K] the console is
    the list of bytes written and the keyboard a list of polls; log lines within a
    system call (the one of the last exit) are left out.  The signed process-id counter is followed up to
    its overflow, which C leaves undefined.  The memory of the C stack is not bounded.

    ** Plan

    For arbitrary calls, that the kernel's own memory keeps its bytes ([Confine] has it for each
    change of memory); the texts of uname and getcwd; the log line of the last exit. *)

From Stdlib Require Export ZArith Lia.
From stdpp Require Export base gmap list numbers.

Open Scope Z_scope.

(** ** Machine integers

    A C integer of width [w] is a [Z] in the range of its type.  Unsigned
    arithmetic is written with an explicit reduction; signed conversions go
    through [swrap]. *)

Definition uwrap (w x : Z) : Z := x mod 2 ^ w.
Definition swrap (w x : Z) : Z := (x + 2 ^ (w - 1)) mod 2 ^ w - 2 ^ (w - 1).

Abbreviation u8 := (uwrap 8).
Abbreviation u16 := (uwrap 16).
Abbreviation u32 := (uwrap 32).
Abbreviation u64 := (uwrap 64).
Abbreviation s8 := (swrap 8).
Abbreviation s16 := (swrap 16).
Abbreviation s32 := (swrap 32).
Abbreviation s64 := (swrap 64).

Declare Scope cint_scope.
Delimit Scope cint_scope with cint.
Notation "x +u y" := (uwrap 64 (x + y)) (at level 50, left associativity) : cint_scope.
Notation "x -u y" := (uwrap 64 (x - y)) (at level 50, left associativity) : cint_scope.
Notation "x *u y" := (uwrap 64 (x * y)) (at level 40, left associativity) : cint_scope.
Notation "x & y" := (Z.land x y) (at level 54, left associativity) : cint_scope.
Notation "~u x" := (uwrap 64 (Z.lnot x)) (at level 35, right associativity) : cint_scope.
Open Scope cint_scope.

Definition in_u64 (x : Z) : Prop := 0 <= x < 2 ^ 64.

(** ** Tactics of the development *)

(** Case analysis on the boolean comparisons a goal or a hypothesis matches on,
    turning them into (in)equalities that [lia] uses. *)
Ltac case_bool :=
  match goal with
  | |- context [Z.eqb ?x ?y] => destruct (Z.eqb_spec x y)
  | |- context [Z.ltb ?x ?y] => destruct (Z.ltb_spec x y)
  | |- context [Z.leb ?x ?y] => destruct (Z.leb_spec x y)
  | H : context [Z.eqb ?x ?y] |- _ => destruct (Z.eqb_spec x y)
  | H : context [Z.ltb ?x ?y] |- _ => destruct (Z.ltb_spec x y)
  | H : context [Z.leb ?x ?y] |- _ => destruct (Z.leb_spec x y)
  end.

(** Boolean hypotheses to propositions. *)
Ltac to_prop :=
  repeat match goal with
  | H : (_ && _)%bool = true |- _ => apply andb_true_iff in H as [? ?]
  | H : (_ || _)%bool = false |- _ => apply orb_false_iff in H as [? ?]
  | H : negb _ = true |- _ => apply negb_true_iff in H
  | H : negb _ = false |- _ => apply negb_false_iff in H
  | H : (_ =? _) = true |- _ => apply Z.eqb_eq in H
  | H : (_ =? _) = false |- _ => apply Z.eqb_neq in H
  | H : (_ <? _) = true |- _ => apply Z.ltb_lt in H
  | H : (_ <? _) = false |- _ => apply Z.ltb_ge in H
  | H : (_ <=? _) = true |- _ => apply Z.leb_le in H
  | H : (_ <=? _) = false |- _ => apply Z.leb_gt in H
  end.

Create HintDb xbks.

(** ** Wrap-around *)

Lemma uwrap_small w x : 0 <= x < 2 ^ w -> uwrap w x = x.
Proof. apply Z.mod_small. Qed.

Lemma uwrap_range w x : 0 <= w -> 0 <= uwrap w x < 2 ^ w.
Proof. intros. apply Z.mod_pos_bound. apply Z.pow_pos_nonneg; lia. Qed.

Lemma u64_small x : in_u64 x -> u64 x = x.
Proof. apply uwrap_small. Qed.

Lemma u64_range x : in_u64 (u64 x).
Proof. apply uwrap_range. lia. Qed.

Lemma swrap_small w x : 0 < w -> - 2 ^ (w - 1) <= x < 2 ^ (w - 1) -> swrap w x = x.
Proof.
  intros Hw Hx. unfold swrap.
  assert (2 ^ w = 2 * 2 ^ (w - 1)).
  { replace w with (Z.succ (w - 1)) at 1 by lia. rewrite Z.pow_succ_r by lia. reflexivity. }
  rewrite Z.mod_small by lia. lia.
Qed.

Lemma swrap_range w x : 0 < w -> - 2 ^ (w - 1) <= swrap w x < 2 ^ (w - 1).
Proof.
  intros Hw. unfold swrap.
  assert (2 ^ w = 2 * 2 ^ (w - 1)).
  { replace w with (Z.succ (w - 1)) at 1 by lia. rewrite Z.pow_succ_r by lia. reflexivity. }
  pose proof (Z.pow_pos_nonneg 2 (w - 1)).
  pose proof (Z.mod_pos_bound (x + 2 ^ (w - 1)) (2 ^ w)). lia.
Qed.

#[export] Hint Resolve u64_range uwrap_range : xbks.

(** [word] discharges the goals on machine integers: it removes the wraps whose
    argument [lia] shows in range and leaves the rest to [lia]. *)
Ltac unwrap_step :=
  match goal with
  | |- context [uwrap ?w ?x] => rewrite (uwrap_small w x) by (unfold in_u64 in *; lia)
  | H : context [uwrap ?w ?x] |- _ => rewrite (uwrap_small w x) in H by (unfold in_u64 in *; lia)
  end.
Ltac word := repeat unwrap_step; unfold in_u64 in *; try lia.

(** ** Bits *)

Lemma testbit_high n x i : 0 <= x < 2 ^ n -> 0 <= n <= i -> Z.testbit x i = false.
Proof.
  intros Hx Hi. rewrite <- (Z.mod_small x (2 ^ n)) by lia. apply Z.mod_pow2_bits_high. lia.
Qed.

Lemma testbit_mult_low n x i : x mod 2 ^ n = 0 -> 0 <= i < n -> Z.testbit x i = false.
Proof.
  intros Hx Hi. rewrite <- (Z.mod_pow2_bits_low x n i) by lia. rewrite Hx. apply Z.bits_0.
Qed.

(** Two values with the same bits are equal. *)
Ltac bits i := apply Z.bits_inj'; intros i ?;
  rewrite ?Z.land_spec, ?Z.lor_spec, ?Z.lxor_spec, ?Z.ldiff_spec.

Lemma ones_testbit n i : 0 <= n -> 0 <= i -> Z.testbit (Z.ones n) i = (i <? n).
Proof.
  intros. destruct (Z.ltb_spec i n).
  - apply Z.ones_spec_low. lia.
  - apply Z.ones_spec_high. lia.
Qed.

(** The mask idiom [x & ~(2^k - 1)] of 64-bit code clears the low [k] bits. *)
Lemma land_not_mask k x :
  in_u64 x -> 0 <= k -> Z.land x (~u (2 ^ k - 1)) = x - x mod 2 ^ k.
Proof.
  intros Hx Hk. unfold uwrap.
  replace (2 ^ k - 1) with (Z.ones k) by (rewrite Z.ones_equiv; lia).
  transitivity (Z.ldiff x (Z.ones k)).
  - bits i. rewrite ones_testbit by lia.
    destruct (Z.ltb_spec i 64).
    + rewrite Z.mod_pow2_bits_low, Z.lnot_spec, ones_testbit by lia. reflexivity.
    + rewrite (testbit_high 64 x i) by (unfold in_u64 in *; lia). reflexivity.
  - rewrite Z.ldiff_ones_r, Z.shiftl_mul_pow2, Z.shiftr_div_pow2 by lia.
    pose proof (Z.div_mod x (2 ^ k)). pose proof (Z.pow_pos_nonneg 2 k). lia.
Qed.

Lemma land_low k x : 0 <= k -> Z.land x (2 ^ k - 1) = x mod 2 ^ k.
Proof.
  intros Hk. rewrite <- Z.land_ones, Z.ones_equiv by lia. f_equal.
Qed.

(** Disjoint bit ranges: [hi] is a multiple of [2^k], [lo] is below it. *)
Lemma lor_disjoint k hi lo :
  0 <= k -> hi mod 2 ^ k = 0 -> 0 <= lo < 2 ^ k -> Z.lor hi lo = hi + lo.
Proof.
  intros Hk Hhi Hlo. rewrite <- Z.lxor_lor, Z.add_nocarry_lxor; try reflexivity.
  all: bits i; rewrite Z.bits_0; destruct (Z.lt_ge_cases i k).
  1, 3: rewrite (testbit_mult_low k hi i) by lia; reflexivity.
  all: rewrite (testbit_high k lo i) by lia; apply andb_false_r.
Qed.

Lemma lor_range n x y : 0 <= n -> 0 <= x < 2 ^ n -> 0 <= y < 2 ^ n -> 0 <= Z.lor x y < 2 ^ n.
Proof.
  intros Hn Hx Hy. assert (0 <= Z.lor x y) by (apply Z.lor_nonneg; lia).
  split; [assumption|]. apply Z.bounded_iff_bits_nonneg; [lia..|].
  intros l Hl. rewrite Z.lor_spec, !(testbit_high n) by lia. reflexivity.
Qed.

Lemma land_range_r n x y : 0 <= n -> 0 <= y < 2 ^ n -> 0 <= Z.land x y < 2 ^ n.
Proof.
  intros Hn Hy. assert (0 <= Z.land x y) by (apply Z.land_nonneg; lia).
  split; [assumption|]. apply Z.bounded_iff_bits_nonneg; [lia..|].
  intros l Hl. rewrite Z.land_spec, (testbit_high n y) by lia. apply andb_false_r.
Qed.

(** Testing one bit with [x & (1 << k)]. *)
Lemma land_pow2_zero x k : 0 <= k -> (Z.land x (2 ^ k) =? 0) = negb (Z.testbit x k).
Proof.
  intros Hk. destruct (Z.testbit x k) eqn:E; cbn.
  - apply Z.eqb_neq. intros H0. apply (f_equal (fun z => Z.testbit z k)) in H0.
    rewrite Z.land_spec, Z.pow2_bits_true, E, Z.bits_0 in H0 by lia. discriminate.
  - apply Z.eqb_eq. bits i. rewrite Z.bits_0. destruct (Z.eq_dec i k) as [->|Hne].
    + rewrite E. reflexivity.
    + rewrite Z.pow2_bits_false by lia. apply andb_false_r.
Qed.

(** ** Loops

    [for_range n i f s] runs the body of a counted [for] loop [n] times, the
    counter starting at [i].  [scan_range] is the same loop with early exit:
    the body answers [Next s] to go on and [Exit r] to leave the loop. *)

Fixpoint for_range {S : Type} (n : nat) (i : Z) (f : Z -> S -> S) (s : S) : S :=
  match n with
  | O => s
  | Datatypes.S n' => for_range n' (i + 1) f (f i s)
  end.

Inductive ctl (S R : Type) : Type :=
| Next (s : S)
| Exit (r : R).
Arguments Next {S R} s.
Arguments Exit {S R} r.

Fixpoint scan_range {S R : Type} (n : nat) (i : Z) (f : Z -> S -> ctl S R) (s : S) : ctl S R :=
  match n with
  | O => Next s
  | Datatypes.S n' =>
      match f i s with
      | Next s' => scan_range n' (i + 1) f s'
      | Exit r => Exit r
      end
  end.

(** Loop rule: an invariant of the counter and the state. *)
Lemma for_range_inv {S} (P : Z -> S -> Prop) n i f s :
  P i s ->
  (forall j t, i <= j < i + Z.of_nat n -> P j t -> P (j + 1) (f j t)) ->
  P (i + Z.of_nat n) (for_range n i f s).
Proof.
  revert i s. induction n as [|n IH]; intros i s H0 Hstep; cbn [for_range].
  - replace (i + Z.of_nat 0) with i by lia. exact H0.
  - replace (i + Z.of_nat (Datatypes.S n)) with (i + 1 + Z.of_nat n) by lia.
    apply IH; [apply Hstep; [lia|exact H0]|]. intros; apply Hstep; [lia|assumption].
Qed.

Lemma scan_range_inv {S R} (P : Z -> S -> Prop) (Q : R -> Prop) n i f (s : S) :
  P i s ->
  (forall j t, i <= j < i + Z.of_nat n -> P j t ->
     match f j t with Next t' => P (j + 1) t' | Exit r => Q r end) ->
  match scan_range n i f s with Next s' => P (i + Z.of_nat n) s' | Exit r => Q r end.
Proof.
  revert i s. induction n as [|n IH]; intros i s H0 Hstep; cbn [scan_range].
  - replace (i + Z.of_nat 0) with i by lia. exact H0.
  - pose proof (Hstep i s ltac:(lia) H0) as H1. destruct (f i s) as [s'|r]; [|exact H1].
    replace (i + Z.of_nat (Datatypes.S n)) with (i + 1 + Z.of_nat n) by lia.
    apply IH; [exact H1|]. intros; apply Hstep; [lia|assumption].
Qed.
