(* ===== verification/CMem.v ===== *)
(** * Byte-addressed memory and the [mem*] routines of src/lib/string.c

    Memory is a finite map from addresses to bytes, an absent cell holding 0.
    [memset], [memcpy] and [memmove] are the loops of the source, one byte store
    per iteration, every load reading the memory as the earlier iterations left
    it; a pointer is its address.  Multi-byte loads and stores are little endian,
    as on x86-64. *)

From S2P Require Import Prelude.

Abbreviation mem := (gmap Z Z).

(** ** Loads and stores *)

Definition rd8 (m : mem) (a : Z) : Z := u8 (default 0 (m !! a)).
Definition wr8 (m : mem) (a v : Z) : mem := <[a := u8 v]> m.

Fixpoint ld_le (n : nat) (m : mem) (a : Z) : Z :=
  match n with
  | O => 0
  | S n' => rd8 m a + 256 * ld_le n' m (a + 1)
  end.

Fixpoint st_le (n : nat) (m : mem) (a v : Z) : mem :=
  match n with
  | O => m
  | S n' => st_le n' (wr8 m a v) (a + 1) (v / 256)
  end.

Definition ld16 := ld_le 2.
Definition ld32 := ld_le 4.
Definition ld64 := ld_le 8.
Definition st16 := st_le 2.
Definition st32 := st_le 4.
Definition st64 := st_le 8.

(** The bytes at [a .. a + n - 1], and storing a list of bytes. *)
Fixpoint bytes_at (m : mem) (a : Z) (n : nat) : list Z :=
  match n with
  | O => []
  | S n' => rd8 m a :: bytes_at m (a + 1) n'
  end.

Fixpoint store_bytes (m : mem) (a : Z) (l : list Z) : mem :=
  match l with
  | [] => m
  | b :: l' => store_bytes (wr8 m a b) (a + 1) l'
  end.

(** ** src/lib/string.c *)

Definition memset (m : mem) (dest value count : Z) : mem :=
  for_range (Z.to_nat count) 0 (fun i m => wr8 m (dest + i) (u8 value)) m.

Definition memcpy (m : mem) (dest src count : Z) : mem :=
  for_range (Z.to_nat count) 0 (fun i m => wr8 m (dest + i) (rd8 m (src + i))) m.

(** The descending loop [for (i = count; i > 0; --i)]. *)
Fixpoint memmove_down (i : nat) (m : mem) (dest src : Z) : mem :=
  match i with
  | O => m
  | S i' =>
      memmove_down i' (wr8 m (dest + Z.of_nat i - 1) (rd8 m (src + Z.of_nat i - 1))) dest src
  end.

Definition memmove (m : mem) (dest src count : Z) : mem :=
  if (dest =? src) || (count =? 0) then m
  else if dest <? src then
    for_range (Z.to_nat count) 0 (fun i m => wr8 m (dest + i) (rd8 m (src + i))) m
  else memmove_down (Z.to_nat count) m dest src.

Definition memcmp_step (m : mem) (lhs rhs i : Z) (_ : unit) : ctl unit Z :=
  let left := rd8 m (lhs + i) in
  let right := rd8 m (rhs + i) in
  if negb (left =? right) then Exit (left - right) else Next tt.

Definition memcmp (m : mem) (lhs rhs count : Z) : Z :=
  match scan_range (Z.to_nat count) 0 (memcmp_step m lhs rhs) tt with
  | Exit r => r
  | Next _ => 0
  end.

(** ** Single bytes *)

Lemma rd8_range m a : 0 <= rd8 m a < 256.
Proof. unfold rd8. pose proof (uwrap_range 8 (default 0 (m !! a))). lia. Qed.

Lemma u8_idem x : u8 (u8 x) = u8 x.
Proof. apply uwrap_small, uwrap_range. lia. Qed.

Lemma rd8_wr8 m a v b : rd8 (wr8 m a v) b = if b =? a then u8 v else rd8 m b.
Proof.
  unfold rd8, wr8. destruct (Z.eqb_spec b a) as [->|Hne].
  - rewrite lookup_insert_eq. cbn. apply u8_idem.
  - rewrite lookup_insert_ne by congruence. reflexivity.
Qed.

Lemma u8_rd8 m a : u8 (rd8 m a) = rd8 m a.
Proof. apply u8_idem. Qed.

(** ** Words *)

Lemma rd8_st_le n m a v b :
  rd8 (st_le n m a v) b =
    if (a <=? b) && (b <? a + Z.of_nat n) then u8 (v / 256 ^ (b - a)) else rd8 m b.
Proof.
  revert m a v. induction n as [|n IH]; intros m a v; cbn [st_le].
  - destruct (Z.leb_spec a b), (Z.ltb_spec b (a + Z.of_nat 0)); cbn; lia || reflexivity.
  - rewrite IH, rd8_wr8.
    destruct (Z.leb_spec (a + 1) b), (Z.ltb_spec b (a + 1 + Z.of_nat n)),
      (Z.leb_spec a b), (Z.ltb_spec b (a + Z.of_nat (S n))), (Z.eqb_spec b a);
      cbn; try lia; try reflexivity.
    + rewrite Z.div_div by lia. f_equal. f_equal.
      replace (b - a) with (Z.succ (b - (a + 1))) by lia.
      rewrite Z.pow_succ_r by lia. reflexivity.
    + subst. rewrite Z.sub_diag. cbn. rewrite Z.div_1_r. reflexivity.
Qed.

Lemma rd8_st_le_out n m a v b :
  b < a \/ a + Z.of_nat n <= b -> rd8 (st_le n m a v) b = rd8 m b.
Proof. intros H. rewrite rd8_st_le. repeat (case_bool; cbn; try lia); reflexivity. Qed.

Lemma ld_le_ext n m m' a :
  (forall b, a <= b < a + Z.of_nat n -> rd8 m b = rd8 m' b) -> ld_le n m a = ld_le n m' a.
Proof.
  revert a. induction n as [|n IH]; intros a H; cbn [ld_le]; [reflexivity|].
  rewrite (H a), (IH (a + 1)) by (intros; try apply H; lia). reflexivity.
Qed.

Lemma ld_le_range n m a : 0 <= ld_le n m a < 256 ^ Z.of_nat n.
Proof.
  revert a. induction n as [|n IH]; intros a; cbn [ld_le]; [lia|].
  replace (Z.of_nat (S n)) with (Z.succ (Z.of_nat n)) by lia.
  rewrite Z.pow_succ_r by lia.
  pose proof (IH (a + 1)). pose proof (rd8_range m a). lia.
Qed.

Lemma ld_le_st_le_ne n k m a v b :
  b + Z.of_nat k <= a \/ a + Z.of_nat n <= b ->
  ld_le k (st_le n m a v) b = ld_le k m b.
Proof. intros H. apply ld_le_ext. intros c Hc. apply rd8_st_le_out. lia. Qed.

(** Loading back a stored word. *)
Lemma ld_le_st_le n m a v : ld_le n (st_le n m a v) a = v mod 256 ^ Z.of_nat n.
Proof.
  revert m a v. induction n as [|n IH]; intros m a v; cbn [ld_le st_le].
  - rewrite Z.mod_1_r. reflexivity.
  - rewrite IH, rd8_st_le_out, rd8_wr8, Z.eqb_refl by lia.
    replace (Z.of_nat (S n)) with (Z.succ (Z.of_nat n)) by lia.
    rewrite Z.pow_succ_r, Z.rem_mul_r by (try apply Z.pow_nonzero; lia).
    unfold uwrap. reflexivity.
Qed.

Lemma ld64_st64 m a v : in_u64 v -> ld64 (st64 m a v) a = v.
Proof.
  intros Hv. unfold ld64, st64. rewrite ld_le_st_le. apply Z.mod_small.
  change (256 ^ Z.of_nat 8) with (2 ^ 64). exact Hv.
Qed.

Lemma ld64_st64_ne m a v b : b + 8 <= a \/ a + 8 <= b -> ld64 (st64 m a v) b = ld64 m b.
Proof. intros H. apply ld_le_st_le_ne. lia. Qed.

Lemma rd8_st64_out m a v b : b < a \/ a + 8 <= b -> rd8 (st64 m a v) b = rd8 m b.
Proof. intros H. apply rd8_st_le_out. lia. Qed.

Lemma ld64_range m a : in_u64 (ld64 m a).
Proof. exact (ld_le_range 8 m a). Qed.

Lemma ld64_ext m m' a :
  (forall b, a <= b < a + 8 -> rd8 m b = rd8 m' b) -> ld64 m a = ld64 m' a.
Proof. apply (ld_le_ext 8). Qed.

#[export] Hint Resolve ld64_range rd8_range : xbks.

(** ** Lists of bytes *)

Lemma length_bytes_at m a n : length (bytes_at m a n) = n.
Proof. revert a. induction n; intros a; cbn; congruence. Qed.

Lemma bytes_at_ext m m' a n :
  (forall b, a <= b < a + Z.of_nat n -> rd8 m b = rd8 m' b) ->
  bytes_at m a n = bytes_at m' a n.
Proof.
  revert a. induction n as [|n IH]; intros a H; cbn; [reflexivity|].
  rewrite (H a), (IH (a + 1)) by (intros; try apply H; lia). reflexivity.
Qed.

Lemma lookup_bytes_at m a n i :
  (i < n)%nat -> bytes_at m a n !! i = Some (rd8 m (a + Z.of_nat i)).
Proof.
  revert a i. induction n as [|n IH]; intros a i Hi; [lia|]. destruct i as [|i]; cbn.
  - rewrite Z.add_0_r. reflexivity.
  - rewrite IH by lia. do 2 f_equal. lia.
Qed.

Lemma bytes_at_app m a n k :
  bytes_at m a (n + k) = bytes_at m a n ++ bytes_at m (a + Z.of_nat n) k.
Proof.
  revert a. induction n as [|n IH]; intros a; cbn.
  - rewrite Z.add_0_r. reflexivity.
  - rewrite IH. do 3 f_equal. lia.
Qed.

Lemma rd8_store_bytes_out m a l b :
  b < a \/ a + Z.of_nat (length l) <= b -> rd8 (store_bytes m a l) b = rd8 m b.
Proof.
  revert m a. induction l as [|x l IH]; intros m a H; cbn in *; [reflexivity|].
  rewrite IH, rd8_wr8 by lia. case_bool; [lia|reflexivity].
Qed.

Lemma bytes_at_store_bytes m a l :
  Forall (fun b => 0 <= b < 256) l -> bytes_at (store_bytes m a l) a (length l) = l.
Proof.
  intros Hl. revert m a. induction Hl as [|x l Hx Hl IH]; intros m a; cbn; [reflexivity|].
  rewrite IH. f_equal. rewrite rd8_store_bytes_out, rd8_wr8, Z.eqb_refl by lia.
  apply uwrap_small. lia.
Qed.

(** ** The copy loops *)

Lemma rd8_memset m dest value count b :
  0 <= count ->
  rd8 (memset m dest value count) b =
    if (dest <=? b) && (b <? dest + count) then u8 value else rd8 m b.
Proof.
  intros Hc. unfold memset.
  pose proof (for_range_inv
    (fun i m' => forall b, rd8 m' b =
       if (dest <=? b) && (b <? dest + i) then u8 value else rd8 m b)
    (Z.to_nat count) 0 (fun i m => wr8 m (dest + i) (u8 value)) m) as L.
  rewrite Z2Nat.id, Z.add_0_l in L by lia. apply L; clear L.
  - intros c. repeat (case_bool; cbn; try lia); reflexivity.
  - intros j t Hj IH c. rewrite rd8_wr8, IH, u8_idem.
    repeat (case_bool; cbn; try lia); reflexivity.
Qed.

(** The state of the ascending copy after [i] iterations, when no byte read later
    has been overwritten. *)
Lemma copy_up_spec m dest src count b :
  0 <= count -> dest <= src \/ src + count <= dest ->
  rd8 (for_range (Z.to_nat count) 0 (fun i m => wr8 m (dest + i) (rd8 m (src + i))) m) b =
    if (dest <=? b) && (b <? dest + count) then rd8 m (src + (b - dest)) else rd8 m b.
Proof.
  intros Hc Hd.
  pose proof (for_range_inv
    (fun i m' => forall b, rd8 m' b =
       if (dest <=? b) && (b <? dest + i) then rd8 m (src + (b - dest)) else rd8 m b)
    (Z.to_nat count) 0 (fun i m => wr8 m (dest + i) (rd8 m (src + i))) m) as L.
  rewrite Z2Nat.id, Z.add_0_l in L by lia. apply L; clear L.
  - intros c. repeat (case_bool; cbn; try lia); reflexivity.
  - intros j t Hj IH c. rewrite rd8_wr8, u8_rd8, !IH.
    repeat (case_bool; cbn; try lia); try reflexivity; subst; f_equal; lia.
Qed.

Lemma copy_down_spec n m dest src b :
  src <= dest ->
  rd8 (memmove_down n m dest src) b =
    if (dest <=? b) && (b <? dest + Z.of_nat n) then rd8 m (src + (b - dest)) else rd8 m b.
Proof.
  intros Hs. revert m. induction n as [|n IH]; intros m; cbn [memmove_down].
  - repeat (case_bool; cbn; try lia); reflexivity.
  - rewrite IH, !rd8_wr8, u8_rd8.
    repeat (case_bool; cbn; try lia); try reflexivity; f_equal; lia.
Qed.

Lemma rd8_memcpy m dest src count b :
  0 <= count -> dest <= src \/ src + count <= dest ->
  rd8 (memcpy m dest src count) b =
    if (dest <=? b) && (b <? dest + count) then rd8 m (src + (b - dest)) else rd8 m b.
Proof. apply copy_up_spec. Qed.

Lemma rd8_memmove m dest src count b :
  0 <= count ->
  rd8 (memmove m dest src count) b =
    if (dest <=? b) && (b <? dest + count) then rd8 m (src + (b - dest)) else rd8 m b.
Proof.
  intros Hc. unfold memmove.
  destruct (Z.eqb_spec dest src) as [->|Hne]; cbn [orb].
  { replace (src + (b - src)) with b by lia. destruct (_ && _); reflexivity. }
  destruct (Z.eqb_spec count 0) as [->|Hnz].
  { repeat (case_bool; cbn; try lia); reflexivity. }
  destruct (Z.ltb_spec dest src).
  - apply copy_up_spec; lia.
  - rewrite copy_down_spec, Z2Nat.id by lia. reflexivity.
Qed.

(** A copy between disjoint areas stores the bytes of the source. *)
Lemma memcpy_store m dest src n :
  dest + Z.of_nat n <= src \/ src + Z.of_nat n <= dest ->
  memcpy m dest src (Z.of_nat n) = store_bytes m dest (bytes_at m src n).
Proof.
  unfold memcpy. rewrite Nat2Z.id.
  assert (H : forall i m, 0 <= i -> dest + i + Z.of_nat n <= src \/ src + i + Z.of_nat n <= dest ->
    for_range n i (fun i m => wr8 m (dest + i) (rd8 m (src + i))) m = store_bytes m (dest + i) (bytes_at m (src + i) n)).
  2: { intros Hd. specialize (H 0 m). rewrite !Z.add_0_r in H. apply H; lia. }
  induction n as [|n IH]; intros i m' Hi Hd; cbn [for_range bytes_at store_bytes]; [reflexivity|].
  rewrite IH by lia. rewrite !Z.add_assoc. f_equal. apply bytes_at_ext. intros a Ha. rewrite rd8_wr8.
  destruct (Z.eqb_spec a (dest + i)); [lia|reflexivity].
Qed.

(** Loads, stores and copies are reasoned about through the lemmas above. *)
#[global] Arguments ld_le : simpl never.
#[global] Arguments st_le : simpl never.
#[global] Arguments ld64 : simpl never.
#[global] Arguments st64 : simpl never.
#[global] Arguments memset : simpl never.
#[global] Arguments memcpy : simpl never.
