(* ===== verification/CStr.v ===== *)
(** * C strings and the [str*] routines of src/lib/string.c

    A [const char *] is the list of bytes from the pointer to the end of the
    object it points into: [++p] is the tail, [p + k] drops [k] bytes, and
    reading from the empty list is an access past the end of the object.  The
    routines answer [None] when they make such an access. *)

From Stdlib Require Import Ascii String.
From S2P Require Import Prelude.

(** ** Characters and literals *)

Definition chr (a : ascii) : Z := Z.of_N (N_of_ascii a).

Fixpoint str (s : string) : list Z :=
  match s with
  | EmptyString => []
  | String a s' => chr a :: str s'
  end.

(** A string literal is its characters and the terminator. *)
Definition lit (s : string) : list Z := str s ++ [0].

(** ** src/lib/string.c *)

Fixpoint strlen (text : list Z) : option Z :=
  match text with
  | [] => None
  | c :: t => if c =? 0 then Some 0 else n ← strlen t; Some (n + 1)
  end.

Fixpoint strcmp (lhs rhs : list Z) : option Z :=
  match lhs, rhs with
  | cl :: l, cr :: r =>
      if negb (cl =? 0) && (cl =? cr) then strcmp l r else Some (cl - cr)
  | _, _ => None
  end.

Fixpoint strncmp (lhs rhs : list Z) (count : nat) {struct count} : option Z :=
  match count with
  | O => Some 0
  | S count' =>
      match lhs, rhs with
      | cl :: l, cr :: r =>
          if negb (cl =? cr) || (cl =? 0) then Some (cl - cr)
          else strncmp l r count'
      | _, _ => None
      end
  end.

(** ** Arrays

    [b[i] = v] on an array object. *)
Definition buf_set (b : list Z) (i v : Z) : option (list Z) :=
  if (0 <=? i) && (i <? Z.of_nat (length b)) then Some (<[Z.to_nat i := v]> b) else None.

(** A fresh stack array has unspecified contents; the model fills it with a byte that
    is not a terminator. *)
Definition uninit (n : nat) : list Z := replicate n 170.

(** ** What a buffer holds

    [cstr l] is the string stored at the start of [l]: the bytes before the first
    terminator, [None] when there is none. *)

Fixpoint cstr (l : list Z) : option (list Z) :=
  match l with
  | [] => None
  | c :: t => if c =? 0 then Some [] else s ← cstr t; Some (c :: s)
  end.

(** Lexicographic order of byte strings. *)
Fixpoint lex_lt (a b : list Z) : bool :=
  match a, b with
  | [], [] => false
  | [], _ :: _ => true
  | _ :: _, [] => false
  | x :: a', y :: b' => (x <? y) || ((x =? y) && lex_lt a' b')
  end.

(** A byte string without terminators. *)
Definition text (s : list Z) : Prop := Forall (fun c => 0 < c < 256) s.

Lemma text_cons c s : text (c :: s) <-> 0 < c < 256 /\ text s.
Proof. apply Forall_cons_iff. Qed.

Lemma text_bytes s : text s -> Forall (fun c => 0 <= c < 256) s.
Proof. intros H. eapply List.Forall_impl; [|exact H]. cbn. lia. Qed.

Lemma text_nonzero s : text s -> Forall (fun c => c <> 0) s.
Proof. intros H. eapply List.Forall_impl; [|exact H]. cbn. lia. Qed.

Lemma text_check l : forallb (fun c => (0 <? c) && (c <? 256)) l = true -> text l.
Proof.
  intros H. apply List.Forall_forall. intros c Hc. rewrite forallb_forall in H. apply H in Hc. to_prop. lia.
Qed.

Lemma cstr_app s t : text s -> cstr (s ++ 0 :: t) = Some s.
Proof.
  induction 1 as [|c s Hc Hs IH]; cbn; [reflexivity|].
  destruct (Z.eqb_spec c 0); [lia|]. rewrite IH. reflexivity.
Qed.

Lemma cstr_inv l s : cstr l = Some s -> exists t, l = s ++ 0 :: t /\ Forall (fun c => c <> 0) s.
Proof.
  revert s. induction l as [|c l IH]; intros s H; cbn in H; [discriminate|].
  destruct (Z.eqb_spec c 0) as [->|Hc].
  - injection H as <-. exists l. split; [reflexivity|constructor].
  - destruct (cstr l) as [s'|] eqn:E; cbn in H; [|discriminate]. injection H as <-.
    destruct (IH s' eq_refl) as (t & -> & Hs). exists t. split; [reflexivity|].
    constructor; assumption.
Qed.

Lemma cstr_text l s : Forall (fun b => 0 <= b < 256) l -> cstr l = Some s -> text s.
Proof.
  intros Hl H. apply cstr_inv in H as (t & -> & Hs). apply Forall_app in Hl as [Hl _].
  unfold text. rewrite Forall_forall in *. intros c Hc.
  specialize (Hl c Hc). specialize (Hs c Hc). cbn in *. lia.
Qed.

(** ** Specifications *)

Lemma strlen_cstr l : strlen l = (fun s => Z.of_nat (length s)) <$> cstr l.
Proof.
  induction l as [|c l IH]; cbn [strlen cstr]; [reflexivity|].
  destruct (c =? 0); [reflexivity|]. rewrite IH. destruct (cstr l); [|reflexivity].
  cbn -[Z.of_nat]. f_equal. lia.
Qed.

(** [strcmp] compares the two strings lexicographically, as unsigned bytes. *)
Lemma strcmp_spec l r a b :
  cstr l = Some a -> cstr r = Some b -> text a -> text b ->
  exists d, strcmp l r = Some d /\ (d = 0 <-> a = b) /\ (d < 0 <-> lex_lt a b = true).
Proof.
  revert r a b. induction l as [|x l IH]; intros r a b Ha Hb Ta Tb; [discriminate|].
  destruct r as [|y r]; [discriminate|]. cbn in Ha, Hb |- *.
  destruct (Z.eqb_spec x 0) as [->|Hx].
  - injection Ha as <-. exists (0 - y). split; [reflexivity|].
    destruct (Z.eqb_spec y 0) as [->|Hy].
    + injection Hb as <-. cbn. intuition (lia || discriminate).
    + destruct (cstr r); cbn in Hb; [|discriminate]. injection Hb as <-.
      apply text_cons in Tb as [? ?]. cbn. intuition (lia || discriminate || congruence).
  - destruct (cstr l) as [a'|] eqn:El; cbn in Ha; [|discriminate]. injection Ha as <-.
    apply text_cons in Ta as [? ?]. destruct (Z.eqb_spec x y) as [<-|Hxy]; cbn.
    + destruct (Z.eqb_spec x 0) as [|_]; [congruence|].
      destruct (cstr r) as [b'|] eqn:Er; cbn in Hb; [|discriminate]. injection Hb as <-.
      apply text_cons in Tb as [? ?]. destruct (IH r a' b' eq_refl Er) as (d & -> & Hd0 & Hd1); [assumption..|].
      exists d. rewrite Z.eqb_refl, Z.ltb_irrefl, Hd1, Hd0. cbn.
      split; [reflexivity|]. split; [split; congruence|reflexivity].
    + exists (x - y). split; [reflexivity|]. destruct (Z.eqb_spec y 0) as [->|Hy].
      * injection Hb as <-. cbn. intuition (lia || discriminate).
      * destruct (cstr r); cbn in Hb; [|discriminate]. injection Hb as <-. cbn.
        destruct (Z.eqb_spec x y); [congruence|]. destruct (Z.ltb_spec x y); cbn;
          intuition (lia || congruence || discriminate).
Qed.

Lemma strcmp_eq l r a b :
  cstr l = Some a -> cstr r = Some b -> text a -> text b ->
  exists d, strcmp l r = Some d /\ (d = 0 <-> a = b).
Proof. intros. destruct (strcmp_spec l r a b) as (d & ? & ? & _); eauto. Qed.

(** [strncmp] answers 0 exactly when the first [count] characters agree. *)
Lemma strncmp_eq l r a b count :
  cstr l = Some a -> cstr r = Some b -> text a -> text b ->
  exists d, strncmp l r count = Some d /\ (d = 0 <-> take count a = take count b).
Proof.
  revert l r a b. induction count as [|n IH]; intros l r a b Ha Hb Ta Tb; cbn.
  { exists 0. split; [reflexivity|]. split; reflexivity. }
  destruct l as [|x l]; [discriminate|]. destruct r as [|y r]; [discriminate|].
  cbn in Ha, Hb. destruct (Z.eqb_spec x 0) as [->|Hx].
  - injection Ha as <-. exists (0 - y). rewrite orb_true_r. split; [reflexivity|].
    destruct (Z.eqb_spec y 0) as [->|Hy]; [injection Hb as <-; cbn; intuition lia|].
    destruct (cstr r); cbn in Hb; [|discriminate]. injection Hb as <-. cbn.
    apply text_cons in Tb as [? ?]. intuition (lia || discriminate).
  - destruct (cstr l) as [a'|] eqn:El; cbn in Ha; [|discriminate]. injection Ha as <-.
    apply text_cons in Ta as [? ?]. rewrite orb_false_r. destruct (Z.eqb_spec x y) as [<-|Hxy]; cbn.
    + destruct (Z.eqb_spec x 0); [congruence|].
      destruct (cstr r) as [b'|] eqn:Er; cbn in Hb; [|discriminate]. injection Hb as <-.
      apply text_cons in Tb as [? ?]. destruct (IH l r a' b' El Er) as (d & -> & Hd); [assumption..|].
      exists d. split; [reflexivity|]. rewrite Hd. cbn. intuition congruence.
    + exists (x - y). split; [reflexivity|]. destruct (Z.eqb_spec y 0) as [->|Hy].
      * injection Hb as <-. cbn. intuition (lia || discriminate).
      * destruct (cstr r); cbn in Hb; [|discriminate]. injection Hb as <-. cbn.
        intuition (lia || congruence).
Qed.

(** ** Stores into arrays *)

Lemma buf_set_ok b i v :
  0 <= i < Z.of_nat (length b) -> buf_set b i v = Some (<[Z.to_nat i := v]> b).
Proof. intros H. unfold buf_set. repeat (case_bool; try lia). reflexivity. Qed.

Lemma insert_app_at (l r : list Z) x v : <[length l := v]> (l ++ x :: r) = l ++ v :: r.
Proof. rewrite insert_app_r_alt, Nat.sub_diag by lia. reflexivity. Qed.

(** Storing at the end of a known prefix. *)
Lemma buf_set_app l x r v :
  buf_set (l ++ x :: r) (Z.of_nat (length l)) v = Some (l ++ v :: r).
Proof.
  rewrite buf_set_ok by (rewrite length_app; cbn; lia). rewrite Nat2Z.id. f_equal. apply insert_app_at.
Qed.

Lemma buf_set_split b n v :
  (n < length b)%nat -> buf_set b (Z.of_nat n) v = Some (take n b ++ v :: drop (S n) b).
Proof.
  intros Hn. destruct (nth_lookup_or_length b n 0) as [H|]; [|lia].
  rewrite <- (take_drop_middle b n _ H) at 1.
  replace (Z.of_nat n) with (Z.of_nat (length (take n b))) by (rewrite length_take; lia).
  apply buf_set_app.
Qed.
