(* ===== verification/StringProps.v ===== *)
(** * The string library: the properties

    What src/lib/string.c computes, for overlapping copies and for comparisons. *)

From Stdlib Require Import Ascii String.
From S2P Require Import Prelude CMem CStr.

Lemma bytes_at_copy m m' a b n :
  (forall i, 0 <= i < Z.of_nat n -> rd8 m' (a + i) = rd8 m (b + i)) -> bytes_at m' a n = bytes_at m b n.
Proof.
  revert a b. induction n as [|n IH]; intros a b H; [reflexivity|]. cbn [bytes_at]. f_equal.
  - specialize (H 0 ltac:(lia)). rewrite !Z.add_0_r in H. exact H.
  - apply IH. intros i Hi. rewrite <- !Z.add_assoc. apply (H (1 + i)). lia.
Qed.

(** [memmove] moves the bytes however the two areas overlap, and writes nothing
    else. *)
Theorem memmove_correct m dest src n :
  let m' := memmove m dest src (Z.of_nat n) in
  bytes_at m' dest n = bytes_at m src n /\
  (forall b, ~ (dest <= b < dest + Z.of_nat n) -> rd8 m' b = rd8 m b).
Proof.
  cbn zeta. split.
  - apply bytes_at_copy. intros i Hi. rewrite rd8_memmove by lia.
    destruct (Z.leb_spec dest (dest + i)); [|lia]. destruct (Z.ltb_spec (dest + i) (dest + Z.of_nat n)); [|lia].
    cbn [andb]. f_equal. lia.
  - intros b Hb. rewrite rd8_memmove by lia. destruct (Z.leb_spec dest b), (Z.ltb_spec b (dest + Z.of_nat n)); cbn [andb]; reflexivity || lia.
Qed.

(** The comparison loop on two areas, from index [i]. *)
Lemma memcmp_scan m lhs rhs n i :
  let r := match scan_range n i (memcmp_step m lhs rhs) tt with Exit r => r | Next _ => 0 end in
  let a := bytes_at m (lhs + i) n in
  let b := bytes_at m (rhs + i) n in
  (r = 0 <-> a = b) /\ (r < 0 <-> lex_lt a b = true).
Proof.
  revert i. induction n as [|n IH]; intros i; cbn [scan_range bytes_at lex_lt]; [intuition (lia || discriminate)|].
  unfold memcmp_step at 1 3. destruct (Z.eqb_spec (rd8 m (lhs + i)) (rd8 m (rhs + i))) as [E|E]; cbn [negb].
  - specialize (IH (i + 1)). rewrite !Z.add_assoc in IH. rewrite E, Z.ltb_irrefl. cbn [orb andb].
    destruct IH as [H1 H2]. split; [rewrite H1; split; congruence|exact H2].
  - destruct (Z.ltb_spec (rd8 m (lhs + i)) (rd8 m (rhs + i))); cbn [orb andb]; intuition (lia || congruence || discriminate).
Qed.

(** [memcmp] orders the two areas lexicographically as unsigned bytes: 0 exactly
    when they are equal, negative exactly when the first comes before. *)
Theorem memcmp_correct m lhs rhs n :
  let r := memcmp m lhs rhs (Z.of_nat n) in
  (r = 0 <-> bytes_at m lhs n = bytes_at m rhs n) /\
  (r < 0 <-> lex_lt (bytes_at m lhs n) (bytes_at m rhs n) = true).
Proof.
  cbn zeta. unfold memcmp. rewrite Nat2Z.id. pose proof (memcmp_scan m lhs rhs n 0) as H.
  rewrite !Z.add_0_r in H. exact H.
Qed.

(** [strcmp] reads no further than the terminators and orders strings
    lexicographically as unsigned bytes. *)
Theorem strcmp_correct a b ra rb :
  text a -> text b ->
  exists d, strcmp (a ++ 0 :: ra) (b ++ 0 :: rb) = Some d /\
    (d = 0 <-> a = b) /\ (d < 0 <-> lex_lt a b = true).
Proof. intros Ta Tb. apply strcmp_spec; [apply cstr_app, Ta|apply cstr_app, Tb|exact Ta|exact Tb]. Qed.

Lemma strcmp_correct_witness :
  exists d, strcmp (lit "bin") (lit "binary") = Some d /\
    (d = 0 <-> str "bin" = str "binary") /\ (d < 0 <-> true = true).
Proof. apply (strcmp_correct (str "bin") (str "binary") [] []); apply text_check; reflexivity. Defined.
