(* ===== verification/Format.v ===== *)
(** * The formatter of src/lib/format.c

    [xbks_vsnprintf] writes into a bounded buffer through a sink that keeps
    counting once the buffer is full.  The model keeps the buffer as the list of
    its bytes, answers [None] for a store outside it or a read past the end of the
    format string, and takes the variadic arguments as a list of typed values.
    The specification renders a parsed format to a byte string of unbounded
    length; the refinement theorem says that the code leaves the longest prefix
    that fits, a terminator, and returns the full length. *)

From Stdlib Require Import Ascii String.
From S2P Require Import Prelude CStr.

(** ** The code *)

Record format_sink := Sink {
  buffer : list Z;
  capacity : Z;
  sink_length : Z;
}.

Definition sink_putc (sink : format_sink) (ch : Z) : option format_sink :=
  b ← (if negb (capacity sink =? 0) && (sink_length sink +u 1 <? capacity sink)
       then buf_set (buffer sink) (sink_length sink) ch
       else Some (buffer sink));
  Some (Sink b (capacity sink) (sink_length sink +u 1)).

Fixpoint sink_write (sink : format_sink) (text : list Z) : option format_sink :=
  match text with
  | [] => None
  | c :: t => if c =? 0 then Some sink else s ← sink_putc sink c; sink_write s t
  end.

Definition alphabet (uppercase : bool) : list Z :=
  if uppercase then lit "0123456789ABCDEF" else lit "0123456789abcdef".

(** The digit loop.  [room] is what is left of [digits[32]]; the list holds the
    digits stored so far, the latest first. *)
Fixpoint digit_loop (room : nat) (value base : Z) (uppercase : bool) (digits : list Z)
  : option (list Z) :=
  if value =? 0 then Some digits
  else match room with
       | O => None
       | S room' =>
           d ← alphabet uppercase !! Z.to_nat (value mod base);
           digit_loop room' (value / base) base uppercase (d :: digits)
       end.

Fixpoint put_digits (sink : format_sink) (digits : list Z) : option format_sink :=
  match digits with
  | [] => Some sink
  | d :: ds => s ← sink_putc sink d; put_digits s ds
  end.

Definition sink_write_unsigned (sink : format_sink) (value base : Z) (uppercase : bool)
  : option format_sink :=
  if value =? 0 then sink_putc sink (chr "0")
  else digits ← digit_loop 32 value base uppercase []; put_digits sink digits.

Definition sink_write_signed (sink : format_sink) (value : Z) : option format_sink :=
  if value <? 0 then
    s ← sink_putc sink (chr "-");
    sink_write_unsigned s (u64 (- (value + 1)) +u 1) 10 false
  else sink_write_unsigned sink (u64 value) 10 false.

(** Variadic arguments: a 32-bit value, a 64-bit value, a string pointer ([None] is
    the null pointer), an object pointer. *)
Inductive va :=
| VaInt (v : Z)
| VaLong (v : Z)
| VaStr (p : option (list Z))
| VaPtr (v : Z).

Definition va_32 (args : list va) : option (Z * list va) :=
  match args with VaInt v :: r => Some (v, r) | _ => None end.
Definition va_64 (args : list va) : option (Z * list va) :=
  match args with VaLong v :: r => Some (v, r) | _ => None end.

(** The [switch] on the conversion character. *)
Definition convert (sink : format_sink) (long_value long_long_value : bool) (c : Z)
    (args : list va) : option (format_sink * list va) :=
  if c =? chr "%" then s ← sink_putc sink (chr "%"); Some (s, args)
  else if c =? chr "s" then
    match args with
    | VaStr p :: rest =>
        s ← sink_write sink (match p with Some t => t | None => lit "(null)" end);
        Some (s, rest)
    | _ => None
    end
  else if c =? chr "c" then
    '(v, rest) ← va_32 args; s ← sink_putc sink (u8 v); Some (s, rest)
  else if (c =? chr "d") || (c =? chr "i") then
    if long_long_value || long_value then
      '(v, rest) ← va_64 args; s ← sink_write_signed sink (s64 v); Some (s, rest)
    else '(v, rest) ← va_32 args; s ← sink_write_signed sink (s32 v); Some (s, rest)
  else if c =? chr "u" then
    if long_long_value || long_value then
      '(v, rest) ← va_64 args; s ← sink_write_unsigned sink (u64 v) 10 false; Some (s, rest)
    else
      '(v, rest) ← va_32 args; s ← sink_write_unsigned sink (u32 v) 10 false; Some (s, rest)
  else if (c =? chr "x") || (c =? chr "X") then
    if long_long_value || long_value then
      '(v, rest) ← va_64 args;
      s ← sink_write_unsigned sink (u64 v) 16 (c =? chr "X"); Some (s, rest)
    else
      '(v, rest) ← va_32 args;
      s ← sink_write_unsigned sink (u32 v) 16 (c =? chr "X"); Some (s, rest)
  else if c =? chr "p" then
    match args with
    | VaPtr v :: rest =>
        s ← sink_write sink (lit "0x");
        s ← sink_write_unsigned s (u64 v) 16 false; Some (s, rest)
    | _ => None
    end
  else s ← sink_putc sink (chr "%"); s ← sink_putc s c; Some (s, args).

(** The loop over the format: [fmt] is the pointer [fmt + i]. *)
Fixpoint format_loop (sink : format_sink) (fmt : list Z) (args : list va)
  : option format_sink :=
  match fmt with
  | [] => None
  | c0 :: f0 =>
      if c0 =? 0 then Some sink
      else if negb (c0 =? chr "%") then s ← sink_putc sink c0; format_loop s f0 args
      else match f0 with
           | [] => None
           | c1 :: f1 =>
               if c1 =? 0 then sink_putc sink (chr "%")
               else if c1 =? chr "l" then
                 match f1 with
                 | [] => None
                 | c2 :: f2 =>
                     if c2 =? chr "l" then
                       match f2 with
                       | [] => None
                       | c3 :: f3 =>
                           '(s, args) ← convert sink true true c3 args; format_loop s f3 args
                       end
                     else '(s, args) ← convert sink true false c2 args; format_loop s f2 args
                 end
               else if c1 =? chr "z" then
                 match f1 with
                 | [] => None
                 | c2 :: f2 =>
                     '(s, args) ← convert sink false true c2 args; format_loop s f2 args
                 end
               else '(s, args) ← convert sink false false c1 args; format_loop s f1 args
           end
  end.

Definition INT32_MAX : Z := 2147483647.

Definition xbks_vsnprintf (buf : list Z) (buffer_size : Z) (fmt : list Z) (args : list va)
  : option (list Z * Z) :=
  sink ← format_loop (Sink buf buffer_size 0) fmt args;
  b ← (if negb (buffer_size =? 0) then
         let terminator :=
           if sink_length sink <? buffer_size then sink_length sink else buffer_size -u 1 in
         buf_set (buffer sink) terminator 0
       else Some (buffer sink));
  Some (b, if INT32_MAX <? sink_length sink then INT32_MAX else sink_length sink).

(** ** The specification *)

(** A numeral in base [base], most significant digit first, without leading zero. *)
Definition digit (uppercase : bool) (d : Z) : Z :=
  if d <? 10 then 48 + d else (if uppercase then 55 else 87) + d.

Fixpoint numeral_fuel (fuel : nat) (base : Z) (uppercase : bool) (v : Z) : list Z :=
  match fuel with
  | O => []
  | S fuel' =>
      if v <? base then [digit uppercase v]
      else numeral_fuel fuel' base uppercase (v / base) ++ [digit uppercase (v mod base)]
  end.

Definition numeral (base : Z) (uppercase : bool) (v : Z) : list Z :=
  numeral_fuel 64 base uppercase v.

Definition signed_numeral (v : Z) : list Z :=
  if v <? 0 then chr "-" :: numeral 10 false (- v) else numeral 10 false v.

Inductive width := W32 | W64.

Inductive piece :=
| PChar (c : Z)
| PConv (w : width) (c : Z).

(** The pieces of a format; [None] when it ends inside a length modifier. *)
Fixpoint pieces (s : list Z) : option (list piece) :=
  match s with
  | [] => Some []
  | c0 :: s0 =>
      if negb (c0 =? chr "%") then ps ← pieces s0; Some (PChar c0 :: ps)
      else match s0 with
           | [] => Some [PChar (chr "%")]
           | c1 :: s1 =>
               if c1 =? chr "l" then
                 match s1 with
                 | [] => None
                 | c2 :: s2 =>
                     if c2 =? chr "l" then
                       match s2 with
                       | [] => None
                       | c3 :: s3 => ps ← pieces s3; Some (PConv W64 c3 :: ps)
                       end
                     else ps ← pieces s2; Some (PConv W64 c2 :: ps)
                 end
               else if c1 =? chr "z" then
                 match s1 with
                 | [] => None
                 | c2 :: s2 => ps ← pieces s2; Some (PConv W64 c2 :: ps)
                 end
               else ps ← pieces s1; Some (PConv W32 c1 :: ps)
           end
  end.

Definition va_width (w : width) (args : list va) : option (Z * list va) :=
  match w with W32 => va_32 args | W64 => va_64 args end.
Definition bits_of (w : width) : Z := match w with W32 => 32 | W64 => 64 end.

Definition render_conv (w : width) (c : Z) (args : list va) : option (list Z * list va) :=
  if c =? chr "%" then Some ([chr "%"], args)
  else if c =? chr "s" then
    match args with
    | VaStr (Some t) :: rest => s ← cstr t; Some (s, rest)
    | VaStr None :: rest => Some (str "(null)", rest)
    | _ => None
    end
  else if c =? chr "c" then '(v, rest) ← va_32 args; Some ([u8 v], rest)
  else if (c =? chr "d") || (c =? chr "i") then
    '(v, rest) ← va_width w args; Some (signed_numeral (swrap (bits_of w) v), rest)
  else if c =? chr "u" then
    '(v, rest) ← va_width w args; Some (numeral 10 false (uwrap (bits_of w) v), rest)
  else if (c =? chr "x") || (c =? chr "X") then
    '(v, rest) ← va_width w args;
    Some (numeral 16 (c =? chr "X") (uwrap (bits_of w) v), rest)
  else if c =? chr "p" then
    match args with
    | VaPtr v :: rest => Some (str "0x" ++ numeral 16 false (u64 v), rest)
    | _ => None
    end
  else Some ([chr "%"; c], args).

Fixpoint render (ps : list piece) (args : list va) : option (list Z) :=
  match ps with
  | [] => Some []
  | PChar c :: ps' => o ← render ps' args; Some (c :: o)
  | PConv w c :: ps' => '(o, rest) ← render_conv w c args; o' ← render ps' rest; Some (o ++ o')
  end.

Example render_hex :
  xbks_vsnprintf (replicate 16 7) 16 (lit "a=%llx %d!") [VaLong 48879; VaInt 4294967295] =
  Some (lit "a=beef -1!" ++ replicate 5 7, 10).
Proof. vm_compute. reflexivity. Qed.

(** ** Numerals *)

Lemma alphabet_digit uppercase d :
  0 <= d < 16 -> alphabet uppercase !! Z.to_nat d = Some (digit uppercase d).
Proof.
  intros Hd. rewrite <- (Z2Nat.id d) at 2 by lia.
  assert (Hn : (Z.to_nat d < 16)%nat) by lia. generalize dependent (Z.to_nat d).
  intros n Hn. do 16 (destruct n as [|n]; [destruct uppercase; reflexivity|]). lia.
Qed.

Lemma div_pow_bound base v n :
  2 <= base -> 0 <= v < base ^ Z.of_nat (S n) -> 0 <= v / base < base ^ Z.of_nat n.
Proof.
  intros Hb Hv. replace (Z.of_nat (S n)) with (Z.succ (Z.of_nat n)) in Hv by lia.
  rewrite Z.pow_succ_r in Hv by lia. split; [apply Z.div_pos; lia|].
  apply Z.div_lt_upper_bound; lia.
Qed.

Lemma numeral_fuel_mono base uppercase n m v :
  2 <= base -> 0 <= v < base ^ Z.of_nat n -> (0 < n <= m)%nat ->
  numeral_fuel m base uppercase v = numeral_fuel n base uppercase v.
Proof.
  intros Hb. revert n v. induction m as [|m IH]; intros n v Hv Hn; [lia|].
  destruct n as [|n]; [lia|]. cbn [numeral_fuel].
  destruct (Z.ltb_spec v base); [reflexivity|]. pose proof (div_pow_bound base v n Hb Hv).
  destruct n as [|n]; [cbn in Hv; lia|]. rewrite (IH (S n)) by lia. reflexivity.
Qed.

(** The digit loop fills [digits] with the numeral, within its 32 cells. *)
Lemma digit_loop_numeral room value base uppercase digits :
  2 <= base <= 16 -> 0 < value < base ^ Z.of_nat room ->
  digit_loop room value base uppercase digits =
    Some (numeral_fuel room base uppercase value ++ digits).
Proof.
  intros Hb. revert value digits. induction room as [|n IH]; intros value digits Hv.
  { cbn in Hv. lia. }
  cbn [digit_loop numeral_fuel]. destruct (Z.eqb_spec value 0); [lia|].
  pose proof (Z.mod_pos_bound value base).
  rewrite alphabet_digit by lia. cbn [mbind option_bind].
  destruct (Z.ltb_spec value base).
  - rewrite Z.mod_small, Z.div_small by lia. destruct n; reflexivity.
  - rewrite IH; [rewrite <- app_assoc; reflexivity|].
    pose proof (div_pow_bound base value n). pose proof (Z.div_str_pos value base). lia.
Qed.

Lemma digit_loop_32 value base uppercase :
  4 <= base <= 16 -> 0 < value < 2 ^ 64 ->
  digit_loop 32 value base uppercase [] = Some (numeral base uppercase value).
Proof.
  intros Hb Hv. assert (2 ^ 64 <= base ^ 32).
  { change (2 ^ 64) with (4 ^ 32). apply Z.pow_le_mono_l. lia. }
  rewrite digit_loop_numeral, app_nil_r by (try change (Z.of_nat 32) with 32; lia).
  unfold numeral. rewrite (numeral_fuel_mono base uppercase 32 64); [reflexivity|lia| |lia].
  change (Z.of_nat 32) with 32. lia.
Qed.

(** Reading a numeral back. *)
Definition digit_value (c : Z) : Z :=
  if c <=? 57 then c - 48 else if c <=? 70 then c - 55 else c - 87.
Definition read_numeral (base : Z) (l : list Z) : Z :=
  fold_left (fun acc c => acc * base + digit_value c) l 0.

Lemma digit_value_digit uppercase d : 0 <= d < 16 -> digit_value (digit uppercase d) = d.
Proof.
  intros Hd. unfold digit_value, digit. destruct uppercase; repeat (case_bool; try lia).
Qed.

Lemma read_numeral_fuel base uppercase n v :
  2 <= base <= 16 -> 0 <= v < base ^ Z.of_nat n -> (0 < n)%nat ->
  read_numeral base (numeral_fuel n base uppercase v) = v.
Proof.
  intros Hb. revert v. induction n as [|n IH]; intros v Hv Hn; [lia|]. cbn [numeral_fuel].
  destruct (Z.ltb_spec v base).
  { unfold read_numeral. cbn. rewrite digit_value_digit; lia. }
  unfold read_numeral. rewrite fold_left_app. cbn. fold (read_numeral base).
  pose proof (Z.mod_pos_bound v base). pose proof (Z.div_mod v base).
  destruct n as [|n]; [cbn in Hv; lia|].
  rewrite digit_value_digit by lia.
  change (fold_left _ ?l 0) with (read_numeral base l).
  rewrite IH; [lia| |lia]. apply div_pow_bound; lia.
Qed.

Lemma numeral_length base uppercase n m v :
  2 <= base -> 0 <= v < base ^ Z.of_nat n -> (0 < n)%nat ->
  (1 <= length (numeral_fuel m base uppercase v) <= n)%nat \/ m = O.
Proof.
  intros Hb. revert m v. induction n as [|n IH]; intros m v Hv Hn; [lia|].
  destruct m as [|m]; [right; reflexivity|left]. cbn [numeral_fuel].
  destruct (Z.ltb_spec v base); [cbn; lia|]. rewrite length_app. cbn [length].
  destruct n as [|n]; [cbn in Hv; lia|].
  destruct (IH m (v / base)) as [?| ->]; [apply div_pow_bound; lia|lia|lia|cbn; lia].
Qed.

(** Numerals contain no terminator. *)
Lemma numeral_text base uppercase v : 2 <= base <= 16 -> 0 <= v -> text (numeral base uppercase v).
Proof.
  intros Hb. unfold numeral. generalize 64%nat as n. intros n. revert v.
  assert (D : forall d, 0 <= d < 16 -> text [digit uppercase d]).
  { intros d Hd. apply text_cons. split; [|constructor]. unfold digit. destruct uppercase; case_bool; lia. }
  induction n as [|n IH]; intros v Hv; cbn [numeral_fuel]; [constructor|].
  case_bool; [apply D; lia|]. pose proof (Z.mod_pos_bound v base). apply Forall_app.
  split; [apply IH, Z.div_pos; lia|apply D; lia].
Qed.

(** ** The sink

    [holds b0 s out]: the sink [s], created over the buffer [b0], has been sent
    the bytes [out]; the buffer starts with the part of [out] that leaves room for
    a terminator and is otherwise as in [b0]. *)

Definition kept (b0 out : list Z) : list Z := take (length b0 - 1) out.

Definition holds (b0 : list Z) (s : format_sink) (out : list Z) : Prop :=
  capacity s = Z.of_nat (length b0) /\
  sink_length s = Z.of_nat (length out) /\
  buffer s = kept b0 out ++ drop (length (kept b0 out)) b0.

(** A sink operation that sends exactly the bytes [o]. *)
Definition emits (f : format_sink -> option format_sink) (o : list Z) : Prop :=
  forall b0 s out,
    Z.of_nat (length b0) < 2 ^ 64 -> Z.of_nat (length out + length o) < 2 ^ 64 ->
    holds b0 s out -> exists s', f s = Some s' /\ holds b0 s' (out ++ o).

Lemma length_kept b0 out : length (kept b0 out) = Nat.min (length b0 - 1) (length out).
Proof. apply length_take. Qed.

Lemma length_overlay b0 out :
  length (kept b0 out ++ drop (length (kept b0 out)) b0) = length b0.
Proof. rewrite length_app, length_drop, length_kept. lia. Qed.

Lemma overlay_insert b0 out (c : Z) :
  (length out + 1 < length b0)%nat ->
  <[length out := c]> (out ++ drop (length out) b0) =
    (out ++ [c]) ++ drop (length (out ++ [c])) b0.
Proof.
  intros H. rewrite insert_app_r_alt, Nat.sub_diag, <- app_assoc by lia. f_equal.
  rewrite length_app. cbn. destruct (drop (length out) b0) as [|x r] eqn:E.
  - apply (f_equal length) in E. rewrite length_drop in E. cbn in E. lia.
  - cbn. f_equal. replace (length out + 1)%nat with (1 + length out)%nat by lia.
    rewrite (Nat.add_comm 1), <- drop_drop, E. reflexivity.
Qed.

Lemma emits_putc c : emits (fun s => sink_putc s c) [c].
Proof.
  intros b0 s out Hb Ho (Hc & Hl & Hbuf). cbn in Ho. unfold sink_putc.
  rewrite Hc, Hl, Hbuf, uwrap_small by lia.
  assert (K : forall o : list Z, (length o < length b0)%nat -> kept b0 o = o).
  { intros o Hlt. apply take_ge. lia. }
  destruct (Z.eqb_spec (Z.of_nat (length b0)) 0) as [E|E]; cbn [negb andb].
  { eexists. split; [reflexivity|]. unfold holds; cbn. rewrite length_app. cbn.
    destruct b0; [|cbn in E; lia]. repeat split; lia. }
  destruct (Z.ltb_spec (Z.of_nat (length out) + 1) (Z.of_nat (length b0))); cbn [mbind option_bind].
  - unfold buf_set. rewrite length_overlay.
    destruct (Z.leb_spec 0 (Z.of_nat (length out))); [|lia].
    destruct (Z.ltb_spec (Z.of_nat (length out)) (Z.of_nat (length b0))); [|lia]. cbn.
    eexists. split; [reflexivity|]. unfold holds; cbn.
    rewrite Nat2Z.id, !K, overlay_insert by (rewrite ?length_app; cbn; lia).
    rewrite length_app. cbn. repeat split; lia || reflexivity.
  - eexists. split; [reflexivity|]. unfold holds; cbn. rewrite length_app. cbn [length].
    assert (kept b0 (out ++ [c]) = kept b0 out) as -> by (unfold kept; apply take_app_le; lia).
    repeat split; lia || reflexivity.
Qed.

Lemma emits_nil : emits Some [].
Proof. intros b0 s out _ _ H. exists s. rewrite app_nil_r. split; [reflexivity|exact H]. Qed.

Lemma emits_bind f g o1 o2 :
  emits f o1 -> emits g o2 -> emits (fun s => s' ← f s; g s') (o1 ++ o2).
Proof.
  intros Hf Hg b0 s out Hb Ho H. rewrite length_app in Ho.
  destruct (Hf b0 s out Hb ltac:(lia) H) as (s1 & -> & H1).
  rewrite app_assoc. apply (Hg b0 s1 (out ++ o1) Hb); [rewrite length_app; lia|exact H1].
Qed.

Lemma emits_ext f g o : (forall s, f s = g s) -> emits f o -> emits g o.
Proof. intros E Hf b0 s out Hb Ho H. rewrite <- E. apply Hf; assumption. Qed.

Lemma emits_write t o : cstr t = Some o -> emits (fun s => sink_write s t) o.
Proof.
  revert o. induction t as [|c t IH]; intros o H; cbn in H; [discriminate|].
  cbn [sink_write]. destruct (c =? 0).
  - injection H as <-. apply emits_nil.
  - destruct (cstr t) as [o'|]; cbn in H; [|discriminate]. injection H as <-.
    apply (emits_bind _ _ [c] o' (emits_putc c)). apply IH. reflexivity.
Qed.

Lemma emits_put_digits ds : emits (fun s => put_digits s ds) ds.
Proof.
  induction ds as [|d ds IH]; cbn [put_digits]; [apply emits_nil|].
  apply (emits_bind _ _ [d] ds (emits_putc d) IH).
Qed.

Lemma emits_unsigned v base uppercase :
  4 <= base <= 16 -> in_u64 v ->
  emits (fun s => sink_write_unsigned s v base uppercase) (numeral base uppercase v).
Proof.
  intros Hb Hv. unfold sink_write_unsigned. destruct (Z.eqb_spec v 0) as [->|Hnz].
  - unfold numeral. cbn [numeral_fuel]. destruct (Z.ltb_spec 0 base); [|lia]. apply emits_putc.
  - rewrite digit_loop_32 by (unfold in_u64 in Hv; lia). apply emits_put_digits.
Qed.

(** The magnitude [(uint64_t)(-(value + 1)) + 1] is right for every [int64_t],
    the least one included. *)
Lemma emits_signed v :
  - 2 ^ 63 <= v < 2 ^ 63 -> emits (fun s => sink_write_signed s v) (signed_numeral v).
Proof.
  intros Hv. unfold sink_write_signed, signed_numeral. destruct (Z.ltb_spec v 0).
  - replace (u64 (- (v + 1)) +u 1) with (- v) by (repeat unwrap_step; lia).
    apply (emits_bind _ _ [chr "-"] _ (emits_putc _)). apply emits_unsigned; [lia|].
    unfold in_u64. lia.
  - rewrite (uwrap_small 64 v) by lia. apply emits_unsigned; [lia|]. unfold in_u64. lia.
Qed.

(** ** Conversions *)

Definition width_of (long_value long_long_value : bool) : width :=
  if long_long_value || long_value then W64 else W32.

(** A conversion sends what the specification renders and consumes its argument. *)
Definition conv_ok (f : format_sink -> option (format_sink * list va)) (o : list Z)
    (rest : list va) : Prop :=
  exists g, emits g o /\ forall s, f s = (s' ← g s; Some (s', rest)).

Lemma conv_ok_intro g o rest : emits g o -> conv_ok (fun s => s' ← g s; Some (s', rest)) o rest.
Proof. intros H. exists g. split; [exact H|reflexivity]. Qed.

Lemma convert_ok lv llv c args o rest :
  render_conv (width_of lv llv) c args = Some (o, rest) ->
  conv_ok (fun s => convert s lv llv c args) o rest.
Proof.
  unfold render_conv, convert, width_of, va_width, va_32, va_64, bits_of. intros H.
  destruct (c =? chr "%"); [injection H as <- <-; apply conv_ok_intro, emits_putc|].
  destruct (c =? chr "s").
  { destruct args as [|[| |[t|]|] args]; try discriminate.
    - destruct (cstr t) as [s|] eqn:E; cbn in H; [|discriminate]. injection H as <- <-.
      apply conv_ok_intro, emits_write, E.
    - injection H as <- <-. apply conv_ok_intro, emits_write. reflexivity. }
  destruct (c =? chr "c").
  { destruct args as [|[] args]; try discriminate. injection H as <- <-.
    apply conv_ok_intro, emits_putc. }
  destruct ((c =? chr "d") || (c =? chr "i")).
  { destruct (llv || lv), args as [|[] args]; try discriminate; injection H as <- <-;
      apply conv_ok_intro, emits_signed.
    - apply (swrap_range 64). lia.
    - pose proof (swrap_range 32 v). lia. }
  destruct (c =? chr "u").
  { destruct (llv || lv), args as [|[] args]; try discriminate; injection H as <- <-;
      apply conv_ok_intro, emits_unsigned; try lia.
    - apply u64_range.
    - pose proof (uwrap_range 32 v). unfold in_u64. lia. }
  destruct ((c =? chr "x") || (c =? chr "X")).
  { destruct (llv || lv), args as [|[] args]; try discriminate; injection H as <- <-;
      apply conv_ok_intro, emits_unsigned; try lia.
    - apply u64_range.
    - pose proof (uwrap_range 32 v). unfold in_u64. lia. }
  destruct (c =? chr "p").
  { destruct args as [|[] args]; try discriminate. injection H as <- <-.
    exists (fun s => s' ← sink_write s (lit "0x"); sink_write_unsigned s' (u64 v) 16 false).
    split.
    - apply (emits_bind _ _ (str "0x")); [apply emits_write; reflexivity|].
      apply emits_unsigned; [lia|apply u64_range].
    - intros s. cbn beta. destruct (sink_write s (lit "0x")); reflexivity. }
  injection H as <- <-. exists (fun s => s' ← sink_putc s (chr "%"); sink_putc s' c). split.
  - apply (emits_bind _ _ [chr "%"] [c] (emits_putc _) (emits_putc _)).
  - intros s. cbn beta. destruct (sink_putc s (chr "%")); reflexivity.
Qed.

Lemma emits_conv f o rest (k : format_sink -> list va -> option format_sink) o' :
  conv_ok f o rest -> emits (fun s => k s rest) o' ->
  emits (fun s => '(s', a) ← f s; k s' a) (o ++ o').
Proof.
  intros (g & Hg & E) Hk.
  apply (emits_ext (fun s => s' ← g s; k s' rest)); [|apply emits_bind; assumption].
  intros s. cbn beta. rewrite E. destruct (g s); reflexivity.
Qed.

Lemma format_loop_emits fuel s t args ps o :
  (length s <= fuel)%nat -> Forall (fun c => c <> 0) s ->
  pieces s = Some ps -> render ps args = Some o ->
  emits (fun k => format_loop k (s ++ 0 :: t) args) o.
Proof.
  revert s args ps o. induction fuel as [|n IH]; intros s args ps o Hlen Hs Hp Hr.
  all: destruct s as [|c0 s0]; cbn in Hlen; [|try lia].
  1, 2: injection Hp as <-; injection Hr as <-; apply emits_nil.
  apply Forall_cons_iff in Hs as [Hc0 Hs0]. cbn in Hp. cbn [app format_loop].
  assert (Hconv : forall lv llv c s' k, pieces s' = k -> (length s' <= n)%nat ->
    Forall (fun c => c <> 0) s' -> (ps' ← k; Some (PConv (width_of lv llv) c :: ps')) = Some ps ->
    emits (fun k => '(s, a) ← convert k lv llv c args; format_loop s (s' ++ 0 :: t) a) o).
  { intros lv llv c s' k <- Hl' Hs' Hps. destruct (pieces s') as [ps'|] eqn:E; [|discriminate].
    injection Hps as <-. cbn in Hr.
    destruct (render_conv _ c args) as [[oc rest]|] eqn:Ec; cbn in Hr; [|discriminate].
    destruct (render ps' rest) as [o'|] eqn:Eo; cbn in Hr; [|discriminate]. injection Hr as <-.
    apply emits_conv with (rest := rest); [apply convert_ok, Ec|]. eapply IH; eassumption. }
  destruct (Z.eqb_spec c0 0); [congruence|].
  destruct (negb (c0 =? chr "%")).
  { destruct (pieces s0) as [ps0|] eqn:E; cbn in Hp; [|discriminate]. injection Hp as <-.
    cbn in Hr. destruct (render ps0 args) as [o0|] eqn:Eo; cbn in Hr; [|discriminate].
    injection Hr as <-. apply (emits_bind _ _ [c0] o0 (emits_putc c0)).
    eapply IH; [lia|eassumption..]. }
  destruct s0 as [|c1 s1].
  { injection Hp as <-. injection Hr as <-. apply emits_putc. }
  apply Forall_cons_iff in Hs0 as [Hc1 Hs1]. cbn [app]. cbn in Hlen.
  destruct (Z.eqb_spec c1 0); [congruence|]. destruct (c1 =? chr "l").
  { destruct s1 as [|c2 s2]; [discriminate|]. apply Forall_cons_iff in Hs1 as [Hc2 Hs2].
    cbn [app]. cbn in Hlen. destruct (c2 =? chr "l").
    - destruct s2 as [|c3 s3]; [discriminate|]. apply Forall_cons_iff in Hs2 as [Hc3 Hs3].
      cbn [app]. cbn in Hlen.
      apply (Hconv true true c3 s3 _ eq_refl); [lia|exact Hs3|exact Hp].
    - apply (Hconv true false c2 s2 _ eq_refl); [lia|exact Hs2|exact Hp]. }
  destruct (c1 =? chr "z").
  { destruct s1 as [|c2 s2]; [discriminate|]. apply Forall_cons_iff in Hs1 as [Hc2 Hs2].
    cbn [app]. cbn in Hlen.
    apply (Hconv false true c2 s2 _ eq_refl); [lia|exact Hs2|exact Hp]. }
  apply (Hconv false false c1 s1 _ eq_refl); [lia|exact Hs1|exact Hp].
Qed.
