(* ===== verification/FormatProps.v ===== *)
(** * The formatter: the properties

    [xbks_vsnprintf] against the unbounded rendering of its format, the numeral round
    trip, and what happens when the format ends in a length modifier. *)

From Stdlib Require Import Ascii String.
From S2P Require Import Prelude CStr Format.

(** The buffer after formatting [out] into [buf]. *)
Definition formatted (buf out : list Z) : list Z :=
  match buf with
  | [] => []
  | _ => kept buf out ++ 0 :: drop (S (length (kept buf out))) buf
  end.

Lemma vsnprintf_formatted buf s t args ps out :
  Forall (fun c => c <> 0) s -> pieces s = Some ps -> render ps args = Some out ->
  Z.of_nat (length buf) < 2 ^ 64 -> Z.of_nat (length out) < 2 ^ 64 ->
  xbks_vsnprintf buf (Z.of_nat (length buf)) (s ++ 0 :: t) args =
    Some (formatted buf out, Z.min (Z.of_nat (length out)) INT32_MAX).
Proof.
  intros Hs Hp Hr Hb Ho. unfold xbks_vsnprintf.
  destruct (format_loop_emits (length s) s t args ps out (le_n _) Hs Hp Hr buf
    (Sink buf (Z.of_nat (length buf)) 0) []) as (k & -> & Hcap & Hlen & Hbuf); [lia|cbn; lia| |].
  { split; [reflexivity|]. split; [reflexivity|]. unfold kept. rewrite take_nil. reflexivity. }
  cbn [mbind option_bind app] in *. rewrite Hlen. unfold formatted.
  assert (Hret : (if INT32_MAX <? Z.of_nat (length out) then INT32_MAX else Z.of_nat (length out)) =
                 Z.min (Z.of_nat (length out)) INT32_MAX) by (unfold INT32_MAX; case_bool; lia).
  rewrite Hret. destruct buf as [|x buf'] eqn:Eb; [rewrite Hbuf; unfold kept; reflexivity|]. rewrite <- Eb in *.
  assert (Hpos : (0 < length buf)%nat) by (rewrite Eb; cbn; lia). clear Eb.
  destruct (Z.eqb_spec (Z.of_nat (length buf)) 0); [lia|]. cbn [negb]. rewrite uwrap_small by lia.
  replace (if Z.of_nat (length out) <? Z.of_nat (length buf) then Z.of_nat (length out) else Z.of_nat (length buf) - 1)
    with (Z.of_nat (length (kept buf out))) by (rewrite length_kept; case_bool; lia).
  rewrite Hbuf. rewrite buf_set_split by (rewrite length_app, length_drop, length_kept; lia). cbn [mbind option_bind].
  rewrite take_app_length. do 4 f_equal. rewrite drop_app_ge by lia. rewrite drop_drop. f_equal. lia.
Qed.

(** C35. [xbks_vsnprintf] refines the rendering of its format: for every format that
    does not end inside a length modifier and arguments that match it, the buffer ends
    up with the longest prefix of the output that leaves room for a terminator, the
    terminator, and its old bytes after that; the answer is the full length, cut to
    the range of [int].  No byte outside the buffer is touched, whatever its size. *)
Theorem vsnprintf_refines buf s t args ps out :
  Forall (fun c => c <> 0) s -> pieces s = Some ps -> render ps args = Some out ->
  Z.of_nat (length buf) < 2 ^ 64 -> Z.of_nat (length out) < 2 ^ 64 ->
  xbks_vsnprintf buf (Z.of_nat (length buf)) (s ++ 0 :: t) args =
    Some (formatted buf out, Z.min (Z.of_nat (length out)) INT32_MAX) /\
  (text out -> buf <> [] -> cstr (formatted buf out) = Some (take (length buf - 1) out)).
Proof.
  intros Hs Hp Hr Hb Ho. split; [apply (vsnprintf_formatted buf s t args ps out); assumption|].
  intros Ht Hne. unfold formatted. destruct buf; [congruence|]. apply cstr_app, Forall_take, Ht.
Qed.

Lemma vsnprintf_refines_witness :
  xbks_vsnprintf (replicate 8 7) 8 (lit "%s=%llx") [VaStr (Some (lit "addr")); VaLong 48879] =
    Some (str "addr=be" ++ [0], 9).
Proof.
  apply (vsnprintf_refines (replicate 8 7) (str "%s=%llx") [] _
    [PConv W32 (chr "s"); PChar (chr "="); PConv W64 (chr "x")] (str "addr=beef"));
    [repeat constructor; discriminate|reflexivity|vm_compute; reflexivity|cbn; lia|cbn; lia].
Defined.

(** Printing an unsigned 64-bit number in decimal takes at most 20 characters and
    loses nothing: the digits read back give the number, and a 32-byte buffer always
    holds them. *)
Theorem vsnprintf_u64_roundtrip v buf :
  in_u64 v -> length buf = 32%nat ->
  exists b ds, xbks_vsnprintf buf 32 (lit "%llu") [VaLong v] = Some (b, Z.of_nat (length ds)) /\
    cstr b = Some ds /\ (1 <= length ds <= 20)%nat /\ read_numeral 10 ds = v.
Proof.
  intros Hv Hb. set (ds := numeral 10 false v).
  assert (Hlen : (1 <= length ds <= 20)%nat).
  { destruct (numeral_length 10 false 20 64 v) as [H|H]; [lia| |lia|exact H|discriminate].
    unfold in_u64 in Hv. change (10 ^ Z.of_nat 20) with 100000000000000000000. lia. }
  exists (formatted buf ds), ds. split; [|split; [|split; [exact Hlen|]]].
  - change 32 with (Z.of_nat 32). rewrite <- Hb. rewrite (vsnprintf_formatted buf (str "%llu") [] _ [PConv W64 (chr "u")] ds).
    + do 2 f_equal. unfold INT32_MAX. lia.
    + repeat constructor; discriminate.
    + reflexivity.
    + transitivity (Some (numeral 10 false (u64 v) ++ [])); [reflexivity|].
      rewrite app_nil_r, uwrap_small by exact Hv. reflexivity.
    + lia.
    + lia.
  - unfold formatted. destruct buf; [discriminate|]. unfold kept. rewrite take_ge by lia. apply cstr_app.
    apply numeral_text; unfold in_u64 in Hv; lia.
  - apply read_numeral_fuel; [lia| |lia]. unfold in_u64 in Hv.
    assert (2 ^ 64 <= 10 ^ Z.of_nat 64) by (vm_compute; discriminate). lia.
Qed.

Lemma vsnprintf_u64_roundtrip_witness :
  exists b ds, xbks_vsnprintf (replicate 32 0) 32 (lit "%llu") [VaLong 18446744073709551615] =
      Some (b, Z.of_nat (length ds)) /\
    cstr b = Some ds /\ (1 <= length ds <= 20)%nat /\ read_numeral 10 ds = 18446744073709551615.
Proof. apply (vsnprintf_u64_roundtrip 18446744073709551615 (replicate 32 0)); [unfold in_u64; lia|reflexivity]. Defined.

(** A format that ends in a length modifier is not handled: the terminator is taken
    for the conversion character, the index steps over it, and the loop reads past the
    end of the string, whatever the buffer. *)
Theorem vsnprintf_modifier_overrun buf args modifier :
  In modifier [str "l"; str "ll"; str "z"] -> length buf = 16%nat ->
  xbks_vsnprintf buf 16 (str "%" ++ modifier ++ [0]) args = None /\
  xbks_vsnprintf buf 16 (str "%" ++ modifier ++ [0] ++ lit "!") args =
    Some (formatted buf (str "%" ++ [0] ++ str "!"), 3).
Proof.
  intros Hm Hb. do 16 (destruct buf as [|? buf]; [discriminate|]). destruct buf; [|discriminate].
  destruct Hm as [<-|[<-|[<-|[]]]]; split; reflexivity.
Qed.

Lemma vsnprintf_modifier_overrun_witness :
  xbks_vsnprintf (replicate 16 0) 16 (lit "%l") [] = None.
Proof. apply (vsnprintf_modifier_overrun (replicate 16 0) [] (str "l")); [left; reflexivity|reflexivity]. Defined.
