(* ===== verification/Pmm.v ===== *)
(** * The physical frame allocator of src/mm/mm.c

    Free frames form a linked list threaded through the frames themselves: the
    first eight bytes of a free frame hold the (virtual) address of the next one.
    [mm] is the allocator's static state with the CR3 register and the memory the
    kernel sees, addressed by virtual address; frames are reached through the
    higher-half direct map at [hhdm_offset_value].

    The allocator refines an abstract pool, the list of its free frames: [pool s l]
    ties the two, and the laws of class [FramePool] are what the page-table code
    relies on. *)

From S2P Require Import Prelude CMem.

(** ** State and operations *)

Definition XBKS_PAGE_SIZE : Z := 4096.

Record mm := Mm {
  hhdm_offset_value : Z;
  kernel_cr3_value : Z;
  free_frames : Z;
  free_frame_count : Z;
  cr3_register : Z;
  ram : mem;
}.

Definition align_up (value alignment : Z) : Z :=
  value +u alignment -u 1 & ~u (alignment -u 1).

Definition align_down (value alignment : Z) : Z :=
  value & ~u (alignment -u 1).

Definition set_ram (s : mm) (m : mem) : mm :=
  Mm (hhdm_offset_value s) (kernel_cr3_value s) (free_frames s) (free_frame_count s)
     (cr3_register s) m.

Definition set_free (s : mm) (head count : Z) : mm :=
  Mm (hhdm_offset_value s) (kernel_cr3_value s) head count (cr3_register s) (ram s).

Definition xbks_read_cr3 (s : mm) : Z := cr3_register s.

Definition xbks_write_cr3 (s : mm) (cr3 : Z) : mm :=
  Mm (hhdm_offset_value s) (kernel_cr3_value s) (free_frames s) (free_frame_count s) cr3 (ram s).

Definition xbks_phys_to_virt (s : mm) (physical_address : Z) : Z :=
  physical_address +u hhdm_offset_value s.

Definition xbks_virt_to_phys (s : mm) (virtual_address : Z) : Z :=
  virtual_address -u hhdm_offset_value s.

Definition xbks_kernel_cr3 (s : mm) : Z := kernel_cr3_value s.

Definition xbks_pmm_alloc_frame (s : mm) : Z * mm :=
  if free_frames s =? 0 then (0, s)
  else
    let frame := free_frames s in
    let s := set_free s (ld64 (ram s) frame) (free_frame_count s -u 1) in
    let physical := xbks_virt_to_phys s frame in
    (physical, set_ram s (memset (ram s) frame 0 XBKS_PAGE_SIZE)).

Definition xbks_pmm_free_frame (s : mm) (frame : Z) : mm :=
  if frame =? 0 then s
  else
    let node := xbks_phys_to_virt s (align_down frame XBKS_PAGE_SIZE) in
    let s := set_ram s (st64 (ram s) node (free_frames s)) in
    set_free s node (free_frame_count s +u 1).

(** The loop of [add_usable_range]; [None] when the fuel runs out. *)
Fixpoint add_range_loop (fuel : nat) (frame stop : Z) (s : mm) : option mm :=
  if frame +u XBKS_PAGE_SIZE <=? stop then
    match fuel with
    | O => None
    | S fuel' => add_range_loop fuel' (frame +u XBKS_PAGE_SIZE) stop (xbks_pmm_free_frame s frame)
    end
  else Some s.

Definition add_usable_range (s : mm) (base length : Z) : option mm :=
  let start := align_up base XBKS_PAGE_SIZE in
  let stop := align_down (base +u length) XBKS_PAGE_SIZE in
  add_range_loop (Z.to_nat (length / XBKS_PAGE_SIZE)) start stop s.

(** The boot information [xbks_mm_init] reads: the direct-map offset and the memory
    map, each absent when the loader did not answer.  The entry types are numbers
    of the boot protocol. *)
Record memmap_entry := MemmapEntry { e_base : Z; e_length : Z; e_type : Z }.

Fixpoint add_entries (LIMINE_MEMMAP_USABLE : Z) (entries : list memmap_entry) (s : mm)
  : option mm :=
  match entries with
  | [] => Some s
  | e :: rest =>
      s ← (if e_type e =? LIMINE_MEMMAP_USABLE
           then add_usable_range s (e_base e) (e_length e) else Some s);
      add_entries LIMINE_MEMMAP_USABLE rest s
  end.

Definition xbks_mm_init (LIMINE_MEMMAP_USABLE : Z) (hhdm : option Z)
    (memmap : option (list memmap_entry)) (s : mm) : option mm :=
  let s := Mm (hhdm_offset_value s) (xbks_read_cr3 s & ~u 4095) (free_frames s)
              (free_frame_count s) (cr3_register s) (ram s) in
  match hhdm with
  | None => Some s
  | Some offset =>
      let s := Mm offset (kernel_cr3_value s) (free_frames s) (free_frame_count s)
                  (cr3_register s) (ram s) in
      match memmap with
      | None => Some s
      | Some entries => add_entries LIMINE_MEMMAP_USABLE entries s
      end
  end.

(** ** Alignment *)

Lemma align_down_page x : in_u64 x -> align_down x 4096 = x - x mod 4096.
Proof. intros Hx. exact (land_not_mask 12 x Hx ltac:(lia)). Qed.

Lemma align_up_page x : in_u64 x -> x + 4095 < 2 ^ 64 ->
  align_up x 4096 = x + 4095 - (x + 4095) mod 4096.
Proof.
  intros Hx Hl. unfold align_up. replace (x +u 4096 -u 1) with (x + 4095).
  - apply (land_not_mask 12); [|lia]. unfold in_u64 in *. lia.
  - unfold in_u64 in Hx. destruct (Z.lt_ge_cases (x + 4096) (2 ^ 64)).
    + rewrite (uwrap_small 64 (x + 4096)), uwrap_small by lia. lia.
    + assert (x + 4096 = 2 ^ 64) as -> by lia.
      change (u64 (2 ^ 64) -u 1) with (2 ^ 64 - 1). lia.
Qed.

Lemma align_up_spec x :
  in_u64 x -> x + 4095 < 2 ^ 64 ->
  align_up x 4096 mod 4096 = 0 /\ x <= align_up x 4096 < x + 4096.
Proof.
  intros Hx Hl. rewrite align_up_page by assumption.
  pose proof (Z.mod_pos_bound (x + 4095) 4096). split; [|lia].
  rewrite Zminus_mod_idemp_r, Z.sub_diag. reflexivity.
Qed.

Lemma align_down_spec x :
  in_u64 x -> align_down x 4096 mod 4096 = 0 /\ align_down x 4096 <= x < align_down x 4096 + 4096.
Proof.
  intros Hx. rewrite align_down_page by assumption.
  pose proof (Z.mod_pos_bound x 4096). split; [|lia].
  rewrite Zminus_mod_idemp_r, Z.sub_diag. reflexivity.
Qed.

Lemma align_down_id x : in_u64 x -> x mod 4096 = 0 -> align_down x 4096 = x.
Proof. intros Hx H. rewrite align_down_page by assumption. lia. Qed.

(** ** Frames *)

(** A frame the kernel can manage: page aligned, not frame 0, within the 52 bits a
    page-table entry can name and reached without wrap-around through the direct
    map. *)
Definition frame_ok (hhdm f : Z) : Prop :=
  0 <= hhdm /\ 0 < f /\ f mod 4096 = 0 /\ f + 4096 <= 2 ^ 52 /\ hhdm + f + 4096 <= 2 ^ 64.

(** The kernel address of a frame, and membership of an address in its page. *)
Definition kva (s : mm) (f : Z) : Z := hhdm_offset_value s + f.
Definition in_page (hhdm f a : Z) : Prop := hhdm + f <= a < hhdm + f + 4096.

Lemma pages_disjoint f g : f mod 4096 = 0 -> g mod 4096 = 0 -> f <> g -> f + 4096 <= g \/ g + 4096 <= f.
Proof.
  intros Hf Hg Hne. pose proof (Z.div_mod f 4096). pose proof (Z.div_mod g 4096). lia.
Qed.

Lemma in_page_inj hhdm f g a :
  frame_ok hhdm f -> frame_ok hhdm g -> in_page hhdm f a -> in_page hhdm g a -> f = g.
Proof.
  intros (_ & _ & Hf & _) (_ & _ & Hg & _) Ha Hb. destruct (Z.eq_dec f g) as [|Hne]; [assumption|].
  destruct (pages_disjoint f g Hf Hg Hne); unfold in_page in *; lia.
Qed.

Lemma phys_to_virt_ok s f d :
  frame_ok (hhdm_offset_value s) f -> 0 <= d < 4096 ->
  xbks_phys_to_virt s (f + d) = kva s f + d.
Proof. intros (? & ? & _ & _ & ?) Hd. unfold xbks_phys_to_virt, kva. word. Qed.

Lemma phys_to_virt_frame s f :
  frame_ok (hhdm_offset_value s) f -> xbks_phys_to_virt s f = kva s f.
Proof.
  intros Hf. rewrite <- (Z.add_0_r f) at 1. rewrite phys_to_virt_ok by (assumption || lia). lia.
Qed.

Lemma virt_to_phys_frame s f :
  frame_ok (hhdm_offset_value s) f -> xbks_virt_to_phys s (kva s f) = f.
Proof. intros (? & ? & _ & _ & ?). unfold xbks_virt_to_phys, kva. word. Qed.

Lemma frame_ok_u64 hhdm f : frame_ok hhdm f -> in_u64 f.
Proof. intros (? & ? & _ & ? & ?). unfold in_u64. lia. Qed.

#[export] Hint Resolve frame_ok_u64 : xbks.

(** ** The abstract pool *)

(** The list threaded through memory from the pointer [head] visits the frames [l]. *)
Fixpoint free_list (m : mem) (hhdm head : Z) (l : list Z) : Prop :=
  match l with
  | [] => head = 0
  | f :: l' => head = hhdm + f /\ free_list m hhdm (ld64 m head) l'
  end.

Definition pool (s : mm) (l : list Z) : Prop :=
  NoDup l /\ Forall (frame_ok (hhdm_offset_value s)) l /\
  free_list (ram s) (hhdm_offset_value s) (free_frames s) l /\
  free_frame_count s = u64 (Z.of_nat (length l)).

(** Memory agrees outside the given page. *)
Definition same_but (hhdm f : Z) (m m' : mem) : Prop :=
  forall a, ~ in_page hhdm f a -> rd8 m' a = rd8 m a.

(** The static fields no operation of the allocator changes. *)
Definition same_config (s s' : mm) : Prop :=
  hhdm_offset_value s' = hhdm_offset_value s /\ kernel_cr3_value s' = kernel_cr3_value s /\
  cr3_register s' = cr3_register s.

Definition page_zero (s : mm) (f : Z) : Prop :=
  forall a, in_page (hhdm_offset_value s) f a -> rd8 (ram s) a = 0.

Lemma free_list_agree m m' hhdm head l :
  (forall f a, f ∈ l -> hhdm + f <= a < hhdm + f + 8 -> rd8 m' a = rd8 m a) ->
  free_list m hhdm head l -> free_list m' hhdm head l.
Proof.
  revert head. induction l as [|f l IH]; intros head Hm H; cbn in *; [exact H|].
  destruct H as [-> H]. split; [reflexivity|].
  rewrite (ld64_ext m' m) by (intros a Ha; apply (Hm f a); [left|exact Ha]).
  apply IH; [|exact H]. intros g a Hg. apply Hm. right. exact Hg.
Qed.

(** Writing outside the pool's pages keeps the pool. *)
Lemma pool_set_ram s l m :
  pool s l ->
  (forall f a, f ∈ l -> in_page (hhdm_offset_value s) f a -> rd8 m a = rd8 (ram s) a) ->
  pool (set_ram s m) l.
Proof.
  intros (Hnd & Hok & Hfl & Hc) Hm. split; [exact Hnd|]. split; [exact Hok|].
  split; [|exact Hc]. cbn. eapply free_list_agree; [|exact Hfl].
  intros f a Hf Ha. apply (Hm f a Hf). unfold in_page. lia.
Qed.

Lemma pool_nonnull s f l : pool s (f :: l) -> free_frames s <> 0.
Proof.
  intros (_ & Hok & Hfl & _). cbn in Hfl. destruct Hfl as [-> _].
  apply Forall_cons_iff in Hok as [(? & ? & _) _]. lia.
Qed.

Lemma alloc_nil s : pool s [] -> xbks_pmm_alloc_frame s = (0, s).
Proof.
  intros (_ & _ & Hfl & _). cbn in Hfl. unfold xbks_pmm_alloc_frame. rewrite Hfl. reflexivity.
Qed.

Lemma u64_pred x : u64 (u64 (x + 1) - 1) = u64 x.
Proof. unfold uwrap. rewrite Zminus_mod_idemp_l. f_equal. lia. Qed.

Lemma alloc_cons s f l :
  pool s (f :: l) ->
  exists s', xbks_pmm_alloc_frame s = (f, s') /\ pool s' l /\ page_zero s' f /\
    same_but (hhdm_offset_value s) f (ram s) (ram s') /\ same_config s s'.
Proof.
  intros Hp. pose proof (pool_nonnull s f l Hp) as Hnn.
  destruct Hp as (Hnd & Hok & Hfl & Hc). cbn in Hfl. destruct Hfl as [Hh Hfl].
  apply list.NoDup_cons in Hnd as [Hnin Hnd]. apply Forall_cons_iff in Hok as [Hf Hok].
  unfold xbks_pmm_alloc_frame. rewrite (proj2 (Z.eqb_neq _ 0) Hnn). rewrite Hh in Hfl |- *.
  change (hhdm_offset_value s + f) with (kva s f) in *.
  set (s1 := set_free s _ _). change (kva s f) with (kva s1 f).
  rewrite virt_to_phys_frame by exact Hf. eexists. split; [reflexivity|].
  assert (Hram : forall a, ~ in_page (hhdm_offset_value s) f a ->
    rd8 (memset (ram s1) (kva s1 f) 0 XBKS_PAGE_SIZE) a = rd8 (ram s) a).
  { intros a Ha. rewrite rd8_memset by (unfold XBKS_PAGE_SIZE; lia).
    unfold kva, s1, in_page, XBKS_PAGE_SIZE in *. cbn in *.
    repeat (case_bool; cbn; try lia); reflexivity. }
  split; [|split; [|split; [exact Hram|repeat split]]].
  - split; [exact Hnd|]. split; [exact Hok|]. split.
    + cbn -[memset]. eapply free_list_agree; [|exact Hfl]. intros g a Hg Ha. apply Hram.
      intros Hfa. assert (f = g); [|congruence].
      eapply in_page_inj; [exact Hf| |exact Hfa|unfold in_page; lia].
      rewrite Forall_forall in Hok. apply Hok, list_elem_of_In. exact Hg.
    + cbn. rewrite Hc. cbn [length].
      replace (Z.of_nat (S (length l))) with (Z.of_nat (length l) + 1) by lia. apply u64_pred.
  - intros a Ha. cbn -[memset] in *. rewrite rd8_memset by (unfold XBKS_PAGE_SIZE; lia).
    unfold kva, in_page, XBKS_PAGE_SIZE in *. cbn in *.
    repeat (case_bool; cbn; try lia); reflexivity.
Qed.

Lemma free_cons s g l frame :
  pool s l -> frame_ok (hhdm_offset_value s) g -> g ∉ l -> g <= frame < g + 4096 ->
  let s' := xbks_pmm_free_frame s frame in
  pool s' (g :: l) /\ same_but (hhdm_offset_value s) g (ram s) (ram s') /\ same_config s s'.
Proof.
  intros (Hnd & Hok & Hfl & Hc) Hg Hnin Hfr. pose proof Hg as (Hh & Hg0 & Hgm & Hg52 & Hg64).
  unfold xbks_pmm_free_frame. destruct (Z.eqb_spec frame 0); [lia|].
  assert (align_down frame XBKS_PAGE_SIZE = g) as ->.
  { unfold XBKS_PAGE_SIZE. rewrite align_down_page by (unfold in_u64; lia).
    pose proof (Z.div_mod frame 4096). pose proof (Z.mod_pos_bound frame 4096).
    pose proof (Z.div_mod g 4096). lia. }
  rewrite phys_to_virt_frame by exact Hg.
  assert (Hst : forall a, ~ in_page (hhdm_offset_value s) g a ->
    rd8 (st64 (ram s) (kva s g) (free_frames s)) a = rd8 (ram s) a).
  { intros a Ha. apply rd8_st64_out. unfold in_page, kva in *. lia. }
  cbn -[st64]. split; [|split; [exact Hst|repeat split]].
  split; [|split; [|split]].
  - apply list.NoDup_cons. split; assumption.
  - constructor; assumption.
  - cbn -[st64]. split; [reflexivity|]. change (hhdm_offset_value s + g) with (kva s g).
    rewrite ld64_st64.
    + eapply free_list_agree; [|exact Hfl]. intros f a Hf Ha. apply Hst. intros Hga.
      assert (f = g); [|congruence]. apply (in_page_inj (hhdm_offset_value s) f g a);
        [|exact Hg|unfold in_page; lia|exact Hga].
      rewrite Forall_forall in Hok. apply Hok, list_elem_of_In. exact Hf.
    + destruct l as [|f l]; cbn in Hfl; [rewrite Hfl; unfold in_u64; lia|].
      destruct Hfl as [-> _]. apply Forall_cons_iff in Hok as [(? & ? & _ & _ & ?) _].
      unfold in_u64. lia.
  - cbn [set_free free_frame_count set_ram length]. rewrite Hc, Nat2Z.inj_succ.
    unfold uwrap. rewrite Zplus_mod_idemp_l. reflexivity.
Qed.

(** ** What the allocator promises its clients *)

Class FramePool (alloc : mm -> Z * mm) (free : mm -> Z -> mm) (own : mm -> list Z -> Prop) := {
  fp_frames s l : own s l -> NoDup l /\ Forall (frame_ok (hhdm_offset_value s)) l;
  fp_empty s : own s [] -> alloc s = (0, s);
  fp_alloc s f l : own s (f :: l) ->
    exists s', alloc s = (f, s') /\ own s' l /\ page_zero s' f /\
      same_but (hhdm_offset_value s) f (ram s) (ram s') /\ same_config s s';
  fp_free s f l : own s l -> frame_ok (hhdm_offset_value s) f -> f ∉ l ->
    own (free s f) (f :: l) /\
    same_but (hhdm_offset_value s) f (ram s) (ram (free s f)) /\ same_config s (free s f);
  fp_write s l m : own s l ->
    (forall f a, f ∈ l -> in_page (hhdm_offset_value s) f a -> rd8 m a = rd8 (ram s) a) ->
    own (set_ram s m) l;
}.

#[export] Instance pmm_frame_pool : FramePool xbks_pmm_alloc_frame xbks_pmm_free_frame pool.
Proof.
  constructor.
  - intros s l (? & ? & _). split; assumption.
  - apply alloc_nil.
  - apply alloc_cons.
  - intros s f l Hp Hf Hnin. apply free_cons; try assumption. lia.
  - apply pool_set_ram.
Qed.

(** ** Memory ranges *)

(** [n] consecutive frames from [start]; frame 0 is never handed out. *)
Fixpoint run (start : Z) (n : nat) : list Z :=
  match n with
  | O => []
  | S n' => start :: run (start + 4096) n'
  end.

Definition nonzero (l : list Z) : list Z := filter (fun f => f <> 0) l.

Lemma elem_of_run start n f :
  f ∈ run start n <-> exists i, 0 <= i < Z.of_nat n /\ f = start + 4096 * i.
Proof.
  revert start. induction n as [|n IH]; intros start; cbn [run].
  - split; [intros H; inversion H|intros (i & ? & _); lia].
  - rewrite elem_of_cons, IH. split.
    + intros [->|(i & Hi & ->)]; [exists 0|exists (i + 1)]; lia.
    + intros (i & Hi & ->). destruct (Z.eq_dec i 0) as [->|]; [left; lia|].
      right. exists (i - 1). lia.
Qed.

Lemma elem_of_rev (l : list Z) f : f ∈ rev l <-> f ∈ l.
Proof. rewrite !list_elem_of_In. symmetry. apply in_rev. Qed.

Lemma elem_of_nonzero l f : f ∈ nonzero l <-> f ∈ l /\ f <> 0.
Proof. unfold nonzero. rewrite list_elem_of_filter. tauto. Qed.

(** Memory agrees outside the pages of [fs]. *)
Definition same_outside (hhdm : Z) (fs : list Z) (m m' : mem) : Prop :=
  forall a, (forall f, f ∈ fs -> ~ in_page hhdm f a) -> rd8 m' a = rd8 m a.

Lemma same_outside_refl hhdm fs m : same_outside hhdm fs m m.
Proof. intros a _. reflexivity. Qed.

Lemma same_outside_trans hhdm fs m1 m2 m3 :
  same_outside hhdm fs m1 m2 -> same_outside hhdm fs m2 m3 -> same_outside hhdm fs m1 m3.
Proof. intros H1 H2 a Ha. rewrite (H2 a Ha). exact (H1 a Ha). Qed.

Lemma same_outside_weaken hhdm fs fs' m m' :
  fs ⊆ fs' -> same_outside hhdm fs m m' -> same_outside hhdm fs' m m'.
Proof. intros Hs H a Ha. apply H. intros f Hf. apply Ha, Hs, Hf. Qed.

Lemma same_but_outside hhdm f fs m m' :
  f ∈ fs -> same_but hhdm f m m' -> same_outside hhdm fs m m'.
Proof. intros Hf H a Ha. apply H, Ha, Hf. Qed.

Lemma same_config_refl s : same_config s s.
Proof. repeat split. Qed.

Lemma same_config_trans s1 s2 s3 : same_config s1 s2 -> same_config s2 s3 -> same_config s1 s3.
Proof. unfold same_config. intuition congruence. Qed.

#[export] Hint Resolve same_outside_refl same_outside_trans same_config_refl same_config_trans : xbks.

Lemma add_range_loop_pool n fuel start s l :
  pool s l -> (n <= fuel)%nat -> 0 <= start -> start + 4096 * Z.of_nat n + 4096 < 2 ^ 64 ->
  (forall f, f ∈ nonzero (run start n) -> frame_ok (hhdm_offset_value s) f /\ f ∉ l) ->
  exists s', add_range_loop fuel start (start + 4096 * Z.of_nat n) s = Some s' /\
    pool s' (rev (nonzero (run start n)) ++ l) /\ same_config s s' /\
    same_outside (hhdm_offset_value s) (nonzero (run start n)) (ram s) (ram s').
Proof.
  revert fuel start s l. induction n as [|n IH]; intros fuel start s l Hp Hfu H0 H64 Hok.
  { exists s. replace (start + 4096 * Z.of_nat 0) with start by lia.
    destruct fuel; cbn [add_range_loop]; unfold XBKS_PAGE_SIZE; rewrite uwrap_small by lia;
      (destruct (Z.leb_spec (start + 4096) start); [lia|]); auto with xbks. }
  destruct fuel as [|fuel]; [lia|]. cbn [add_range_loop]. unfold XBKS_PAGE_SIZE.
  rewrite uwrap_small by lia. destruct (Z.leb_spec (start + 4096) (start + 4096 * Z.of_nat (S n))); [|lia].
  replace (start + 4096 * Z.of_nat (S n)) with (start + 4096 + 4096 * Z.of_nat n) by lia.
  assert (Hrest : forall f, f ∈ nonzero (run (start + 4096) n) -> f <> start).
  { intros f Hf. apply elem_of_nonzero in Hf as [(i & ? & ->)%elem_of_run _]. lia. }
  destruct (Z.eq_dec start 0) as [->|Hnz].
  - assert (Hns : nonzero (run 0 (S n)) = nonzero (run (0 + 4096) n)).
    { unfold nonzero. cbn [run]. rewrite filter_cons_False by lia. reflexivity. }
    rewrite Hns in Hok |- *. change (xbks_pmm_free_frame s 0) with s.
    apply IH; try assumption; lia.
  - assert (Hns : nonzero (run start (S n)) = start :: nonzero (run (start + 4096) n)).
    { unfold nonzero. cbn [run]. rewrite filter_cons_True by exact Hnz. reflexivity. }
    rewrite Hns in Hok |- *. destruct (Hok start ltac:(left)) as [Hs Hnin].
    destruct (free_cons s start l start Hp Hs Hnin ltac:(lia)) as (Hp1 & Hm1 & Hc1).
    set (s1 := xbks_pmm_free_frame s start) in *.
    destruct (IH fuel (start + 4096) s1 (start :: l)) as (s' & He & Hp' & Hc' & Hm');
      [assumption|lia|lia|lia| |].
    { intros f Hf. rewrite (proj1 Hc1). destruct (Hok f ltac:(right; exact Hf)). split; [assumption|].
      apply not_elem_of_cons. split; [apply Hrest; exact Hf|assumption]. }
    exists s'. split; [exact He|]. split; [|split; [eauto with xbks|]].
    + cbn [rev]. rewrite <- app_assoc. exact Hp'.
    + rewrite (proj1 Hc1) in Hm'. eapply same_outside_trans.
      * eapply same_but_outside; [left|exact Hm1].
      * eapply same_outside_weaken; [|exact Hm']. intros f Hf. right. exact Hf.
Qed.

(** The whole pages of a byte range, frame 0 apart. *)
Definition page_count (base length : Z) : nat :=
  Z.to_nat ((align_down (base + length) 4096 - align_up base 4096) / 4096).
Definition usable_pages (base length : Z) : list Z :=
  nonzero (run (align_up base 4096) (page_count base length)).

Lemma elem_of_usable_pages base length f :
  0 <= base -> 0 <= length -> base + length + 4096 <= 2 ^ 64 ->
  f ∈ usable_pages base length <->
    f mod 4096 = 0 /\ f <> 0 /\ base <= f /\ f + 4096 <= base + length.
Proof.
  intros Hb Hl H64. unfold usable_pages, page_count. rewrite elem_of_nonzero, elem_of_run.
  destruct (align_up_spec base) as [Ha1 Ha2]; [unfold in_u64; lia..|].
  destruct (align_down_spec (base + length)) as [Hd1 Hd2]; [unfold in_u64; lia|].
  set (u := align_up base 4096) in *. set (d := align_down (base + length) 4096) in *.
  pose proof (Z.div_mod u 4096). pose proof (Z.div_mod d 4096).
  pose proof (Z.div_mod (d - u) 4096). pose proof (Z.mod_pos_bound (d - u) 4096).
  assert ((d - u) mod 4096 = 0) by (rewrite Zminus_mod, Ha1, Hd1; reflexivity).
  split.
  - intros [(i & Hi & ->) Hnz]. rewrite (Z.mul_comm 4096), Z_mod_plus_full. lia.
  - intros (Hf & Hnz & Hbf & Hfl). pose proof (Z.div_mod f 4096).
    split; [|exact Hnz]. exists (f / 4096 - u / 4096). lia.
Qed.

(** A byte range the loader reports as usable RAM: physical addresses of at most 52
    bits, covered by the direct map. *)
Definition range_ok (hhdm base length : Z) : Prop :=
  0 <= hhdm /\ 0 <= base /\ 0 <= length /\ base + length <= 2 ^ 52 /\ hhdm + base + length <= 2 ^ 64.

Lemma usable_pages_ok hhdm base length f :
  range_ok hhdm base length -> f ∈ usable_pages base length -> frame_ok hhdm f.
Proof.
  intros (? & ? & ? & ? & ?) Hf. apply elem_of_usable_pages in Hf; [|lia..].
  unfold frame_ok. lia.
Qed.

Lemma add_usable_range_pool s l base length :
  pool s l -> range_ok (hhdm_offset_value s) base length ->
  (forall f, f ∈ usable_pages base length -> f ∉ l) ->
  exists s', add_usable_range s base length = Some s' /\
    pool s' (rev (usable_pages base length) ++ l) /\ same_config s s' /\
    same_outside (hhdm_offset_value s) (usable_pages base length) (ram s) (ram s').
Proof.
  intros Hp Hr Hfresh. pose proof Hr as (Hh & Hb & Hl & H52 & H64).
  unfold add_usable_range, XBKS_PAGE_SIZE. rewrite (uwrap_small 64 (base + length)) by lia.
  destruct (align_up_spec base) as [Ha1 Ha2]; [unfold in_u64; lia..|].
  destruct (align_down_spec (base + length)) as [Hd1 Hd2]; [unfold in_u64; lia|].
  set (u := align_up base 4096) in *. set (d := align_down (base + length) 4096) in *.
  destruct (Z.lt_ge_cases d u) as [Hlt|Hge].
  - assert (usable_pages base length = []) as ->.
    { unfold usable_pages, page_count. fold u d.
      replace (Z.to_nat ((d - u) / 4096)) with O; [reflexivity|].
      assert ((d - u) / 4096 < 0) by (apply Z.div_lt_upper_bound; lia). lia. }
    exists s. split; [|auto with xbks].
    destruct (Z.to_nat (length / 4096)); cbn [add_range_loop]; unfold XBKS_PAGE_SIZE;
      rewrite uwrap_small by lia; (destruct (Z.leb_spec (u + 4096) d); [lia|reflexivity]).
  - assert (Hn : d = u + 4096 * Z.of_nat (page_count base length)).
    { unfold page_count. fold u d. pose proof (Z.div_mod (d - u) 4096).
      assert ((d - u) mod 4096 = 0) by (rewrite Zminus_mod, Ha1, Hd1; reflexivity). lia. }
    rewrite Hn. apply add_range_loop_pool; try assumption; try lia.
    + assert (Z.of_nat (page_count base length) <= length / 4096); [|lia].
      apply Z.div_le_lower_bound; lia.
    + intros f Hf. split; [eapply usable_pages_ok; eassumption|apply Hfresh, Hf].
Qed.

(** ** Initialisation *)

Section MmInit.
Variable LIMINE_MEMMAP_USABLE : Z.

Definition usable (e : memmap_entry) : Prop := e_type e = LIMINE_MEMMAP_USABLE.

(** The page [f] lies in some usable entry. *)
Definition in_usable (entries : list memmap_entry) (f : Z) : Prop :=
  exists e, e ∈ entries /\ usable e /\ f ∈ usable_pages (e_base e) (e_length e).

(** The loader's guarantee on the memory map: usable entries are ranges of RAM and
    do not overlap. *)
Fixpoint memmap_ok (hhdm : Z) (entries : list memmap_entry) : Prop :=
  match entries with
  | [] => True
  | e :: rest =>
      (usable e -> range_ok hhdm (e_base e) (e_length e)) /\
      (usable e -> forall e', e' ∈ rest -> usable e' ->
         e_base e + e_length e <= e_base e' \/ e_base e' + e_length e' <= e_base e) /\
      memmap_ok hhdm rest
  end.

Lemma memmap_ok_elem hhdm entries e :
  memmap_ok hhdm entries -> e ∈ entries -> usable e -> range_ok hhdm (e_base e) (e_length e).
Proof.
  induction entries as [|x r IH]; intros H He Hu; [inversion He|]. cbn in H.
  apply elem_of_cons in He as [->|He]; [apply H, Hu|]. apply IH; tauto.
Qed.

Lemma add_entries_pool entries s l :
  pool s l -> memmap_ok (hhdm_offset_value s) entries ->
  (forall f, in_usable entries f -> f ∉ l) ->
  exists s' l', add_entries LIMINE_MEMMAP_USABLE entries s = Some s' /\ pool s' l' /\
    same_config s s' /\ (forall f, f ∈ l' <-> in_usable entries f \/ f ∈ l) /\
    (forall a, (forall f, in_usable entries f -> ~ in_page (hhdm_offset_value s) f a) -> rd8 (ram s') a = rd8 (ram s) a).
Proof.
  revert s l. induction entries as [|e rest IH]; intros s l Hp Hok Hfresh.
  { exists s, l. split; [reflexivity|]. split; [exact Hp|]. split; [apply same_config_refl|]. split; [|reflexivity].
    intros f. split; [auto|]. intros [(x & Hx & _)|?]; [inversion Hx|assumption]. }
  destruct Hok as (Hr & Hdis & Hok). cbn [add_entries].
  destruct (Z.eqb_spec (e_type e) LIMINE_MEMMAP_USABLE) as [Hu|Hu].
  - destruct (add_usable_range_pool s l (e_base e) (e_length e) Hp (Hr Hu)) as (s1 & E & Hp1 & Hc1 & Hm1).
    { intros f Hf. apply Hfresh. exists e. repeat split; [left|exact Hu|exact Hf]. }
    rewrite E. cbn [mbind option_bind]. rewrite <- (proj1 Hc1) in Hok.
    destruct (IH s1 _ Hp1 Hok) as (s' & l' & E' & Hp' & Hc' & Hl' & Hm').
    { intros f (e' & He' & Hu' & Hf'). rewrite elem_of_app. intros [Hin|Hin].
      - rewrite elem_of_rev in Hin.
        pose proof (memmap_ok_elem _ _ e' Hok He' Hu') as R'. pose proof (Hr Hu) as R.
        destruct R as (_ & ? & ? & ? & _), R' as (_ & ? & ? & ? & _).
        apply elem_of_usable_pages in Hin; [|lia..]. apply elem_of_usable_pages in Hf'; [|lia..].
        destruct (Hdis Hu e' He' Hu'); lia.
      - apply (Hfresh f); [|exact Hin]. exists e'. repeat split; [right|..]; assumption. }
    exists s', l'. split; [exact E'|]. split; [exact Hp'|]. split; [eauto with xbks|]. split.
    2: { intros a Ha. rewrite (proj1 Hc1) in Hm'. rewrite Hm'.
         - apply Hm1. intros f Hf. apply Ha. exists e. repeat split; [left|exact Hu|exact Hf].
         - intros f (e' & ? & ? & ?). apply Ha. exists e'. repeat split; [right|..]; assumption. }
    intros f. rewrite Hl', elem_of_app, elem_of_rev.
    unfold in_usable. setoid_rewrite elem_of_cons. split.
    + intros [(e' & ? & ? & ?)|[?|?]]; [left; exists e'; tauto|left; exists e; tauto|tauto].
    + intros [(e' & [->|?] & ? & ?)|?]; [tauto|left; exists e'; tauto|tauto].
  - cbn [mbind option_bind]. destruct (IH s l Hp Hok) as (s' & l' & E & Hp' & Hc & Hl' & Hm').
    { intros f (e' & ? & ? & ?). apply Hfresh. exists e'. repeat split; [right|..]; assumption. }
    exists s', l'. split; [exact E|]. split; [exact Hp'|]. split; [exact Hc|]. split.
    2: { intros a Ha. apply Hm'. intros f (e' & ? & ? & ?). apply Ha. exists e'. repeat split; [right|..]; assumption. }
    intros f. rewrite Hl'. unfold in_usable. setoid_rewrite elem_of_cons. split.
    + intros [(e' & ? & ? & ?)|?]; [left; exists e'; tauto|tauto].
    + intros [(e' & [->|?] & ? & ?)|?]; [contradiction|left; exists e'; tauto|tauto].
Qed.
End MmInit.
