(* ===== verification/Vmm.v ===== *)
(** * Page tables: the virtual-memory half of src/mm/mm.c

    Four-level x86-64 page tables, kept in frames of the pool and edited through
    the direct map.  A table is named by its kernel address in the code and by its
    frame in the specification; [node s r p] is the frame reached from the root [r]
    along the index path [p], and an address space is well formed ([space]) when
    the frames reached from the roots along user paths are distinct, managed, and
    not free.  Mapping, translation, cloning and destruction are specified by
    their effect on [node]. *)

From S2P Require Import Prelude CMem Pmm.

(** ** The code *)

Definition XBKS_PAGE_PRESENT : Z := 1.
Definition XBKS_PAGE_WRITABLE : Z := 2.
Definition XBKS_PAGE_USER : Z := 4.

Definition ADDRESS_MASK : Z := 4503599627366400.

(** [table[index]] on a [uint64_t *]. *)
Definition get_entry (s : mm) (table index : Z) : Z := ld64 (ram s) (table + 8 * index).
Definition set_entry (s : mm) (table index v : Z) : mm :=
  set_ram s (st64 (ram s) (table + 8 * index) v).

(** The copy loop of [xbks_create_kernel_mapped_pml4]. *)
Definition xbks_create_kernel_mapped_pml4 (s : mm) : Z * mm :=
  let '(pml4_frame, s) := xbks_pmm_alloc_frame s in
  if pml4_frame =? 0 then (0, s)
  else
    let new_pml4 := xbks_phys_to_virt s pml4_frame in
    let kernel_pml4 := xbks_phys_to_virt s (kernel_cr3_value s & ~u 4095) in
    (pml4_frame,
     for_range 256 256 (fun i s => set_entry s new_pml4 i (get_entry s kernel_pml4 i)) s).

Definition page_table_from_entry (s : mm) (entry : Z) : Z :=
  xbks_phys_to_virt s (entry & ADDRESS_MASK).

Definition ensure_next_table (s : mm) (table index flags : Z) : option Z * mm :=
  if (get_entry s table index & XBKS_PAGE_PRESENT) =? 0 then
    let '(frame, s) := xbks_pmm_alloc_frame s in
    if frame =? 0 then (None, s)
    else
      let s := set_entry s table index
        (Z.lor (Z.lor (Z.lor (Z.lor frame flags) XBKS_PAGE_PRESENT) XBKS_PAGE_WRITABLE)
               XBKS_PAGE_USER) in
      (Some (page_table_from_entry s (get_entry s table index)), s)
  else (Some (page_table_from_entry s (get_entry s table index)), s).

Definition table_index (virtual_address shift : Z) : Z :=
  Z.shiftr virtual_address shift & 511.

Definition xbks_vmm_map_page (s : mm) (pml4_frame virtual_address physical_address flags : Z)
  : bool * mm :=
  let pml4_index := table_index virtual_address 39 in
  let pdpt_index := table_index virtual_address 30 in
  let pd_index := table_index virtual_address 21 in
  let pt_index := table_index virtual_address 12 in
  let pml4 := xbks_phys_to_virt s pml4_frame in
  if negb ((virtual_address & (XBKS_PAGE_SIZE - 1)) =? 0) ||
     negb ((physical_address & (XBKS_PAGE_SIZE - 1)) =? 0)
  then (false, s)
  else
    match ensure_next_table s pml4 pml4_index flags with
    | (None, s) => (false, s)
    | (Some pdpt, s) =>
        match ensure_next_table s pdpt pdpt_index flags with
        | (None, s) => (false, s)
        | (Some pd, s) =>
            match ensure_next_table s pd pd_index flags with
            | (None, s) => (false, s)
            | (Some pt, s) =>
                if negb ((get_entry s pt pt_index & XBKS_PAGE_PRESENT) =? 0) then (false, s)
                else
                  (true, set_entry s pt pt_index
                           (Z.lor (Z.lor physical_address flags) XBKS_PAGE_PRESENT))
            end
        end
    end.

(** [None] is the answer [false]; [Some pa] is [true] with [*out_physical_address = pa]. *)
Definition xbks_vmm_translate (s : mm) (pml4_frame virtual_address : Z) : option Z :=
  let pml4_index := table_index virtual_address 39 in
  let pdpt_index := table_index virtual_address 30 in
  let pd_index := table_index virtual_address 21 in
  let pt_index := table_index virtual_address 12 in
  let pml4 := xbks_phys_to_virt s pml4_frame in
  if (get_entry s pml4 pml4_index & XBKS_PAGE_PRESENT) =? 0 then None
  else
    let pdpt := page_table_from_entry s (get_entry s pml4 pml4_index) in
    if (get_entry s pdpt pdpt_index & XBKS_PAGE_PRESENT) =? 0 then None
    else
      let pd := page_table_from_entry s (get_entry s pdpt pdpt_index) in
      if (get_entry s pd pd_index & XBKS_PAGE_PRESENT) =? 0 then None
      else
        let pt := page_table_from_entry s (get_entry s pd pd_index) in
        if (get_entry s pt pt_index & XBKS_PAGE_PRESENT) =? 0 then None
        else Some (Z.lor (get_entry s pt pt_index & ADDRESS_MASK)
                         (virtual_address & (XBKS_PAGE_SIZE - 1))).

Definition clone_page_flags (source_entry : Z) : Z := source_entry & 4095.

Definition address_of (pml4_index pdpt_index pd_index pt_index : Z) : Z :=
  Z.lor (Z.lor (Z.lor (Z.shiftl pml4_index 39) (Z.shiftl pdpt_index 30))
               (Z.shiftl pd_index 21)) (Z.shiftl pt_index 12).

(** The four nested loops of [xbks_vmm_clone_user_space], innermost first; [Exit]
    is the early [return false]. *)
Definition clone_pt_step (dest_pml4_frame user_top pml4_index pdpt_index pd_index source_pt
    pt_index : Z) (s : mm) : ctl mm mm :=
  let source_entry := get_entry s source_pt pt_index in
  if (source_entry & XBKS_PAGE_PRESENT) =? 0 then Next s
  else
    let virtual_address := address_of pml4_index pdpt_index pd_index pt_index in
    if user_top <=? virtual_address then Next s
    else
      let source_physical := source_entry & ADDRESS_MASK in
      let '(dest_physical, s) := xbks_pmm_alloc_frame s in
      if dest_physical =? 0 then Exit s
      else
        let s := set_ram s (memcpy (ram s) (xbks_phys_to_virt s dest_physical)
                              (xbks_phys_to_virt s source_physical) XBKS_PAGE_SIZE) in
        match xbks_vmm_map_page s dest_pml4_frame virtual_address dest_physical
                (clone_page_flags source_entry) with
        | (true, s) => Next s
        | (false, s) => Exit (xbks_pmm_free_frame s dest_physical)
        end.

Definition clone_pd_step (dest_pml4_frame user_top pml4_index pdpt_index source_pd pd_index : Z)
    (s : mm) : ctl mm mm :=
  if (get_entry s source_pd pd_index & XBKS_PAGE_PRESENT) =? 0 then Next s
  else
    let source_pt := page_table_from_entry s (get_entry s source_pd pd_index) in
    scan_range 512 0
      (clone_pt_step dest_pml4_frame user_top pml4_index pdpt_index pd_index source_pt) s.

Definition clone_pdpt_step (dest_pml4_frame user_top pml4_index source_pdpt pdpt_index : Z)
    (s : mm) : ctl mm mm :=
  if (get_entry s source_pdpt pdpt_index & XBKS_PAGE_PRESENT) =? 0 then Next s
  else
    let source_pd := page_table_from_entry s (get_entry s source_pdpt pdpt_index) in
    scan_range 512 0 (clone_pd_step dest_pml4_frame user_top pml4_index pdpt_index source_pd) s.

Definition clone_pml4_step (dest_pml4_frame user_top source_pml4 pml4_index : Z) (s : mm)
  : ctl mm mm :=
  if (get_entry s source_pml4 pml4_index & XBKS_PAGE_PRESENT) =? 0 then Next s
  else
    let source_pdpt := page_table_from_entry s (get_entry s source_pml4 pml4_index) in
    scan_range 512 0 (clone_pdpt_step dest_pml4_frame user_top pml4_index source_pdpt) s.

Definition xbks_vmm_clone_user_space (s : mm) (source_pml4_frame dest_pml4_frame user_top : Z)
  : bool * mm :=
  let source_pml4 := xbks_phys_to_virt s source_pml4_frame in
  match scan_range 256 0 (clone_pml4_step dest_pml4_frame user_top source_pml4) s with
  | Next s => (true, s)
  | Exit s => (false, s)
  end.

(** The four nested loops of [xbks_vmm_destroy_user_space], innermost first. *)
Definition destroy_pt_step (user_top pml4_index pdpt_index pd_index pt pt_index : Z) (s : mm) : mm :=
  let entry := get_entry s pt pt_index in
  if (entry & XBKS_PAGE_PRESENT) =? 0 then s
  else
    let virtual_address := address_of pml4_index pdpt_index pd_index pt_index in
    if virtual_address <? user_top then
      let s := xbks_pmm_free_frame s (entry & ADDRESS_MASK) in
      set_entry s pt pt_index 0
    else s.

Definition destroy_pd_step (user_top pml4_index pdpt_index pd pd_index : Z) (s : mm) : mm :=
  if (get_entry s pd pd_index & XBKS_PAGE_PRESENT) =? 0 then s
  else
    let pt := page_table_from_entry s (get_entry s pd pd_index) in
    let s := for_range 512 0 (destroy_pt_step user_top pml4_index pdpt_index pd_index pt) s in
    let s := xbks_pmm_free_frame s (get_entry s pd pd_index & ADDRESS_MASK) in
    set_entry s pd pd_index 0.

Definition destroy_pdpt_step (user_top pml4_index pdpt pdpt_index : Z) (s : mm) : mm :=
  if (get_entry s pdpt pdpt_index & XBKS_PAGE_PRESENT) =? 0 then s
  else
    let pd := page_table_from_entry s (get_entry s pdpt pdpt_index) in
    let s := for_range 512 0 (destroy_pd_step user_top pml4_index pdpt_index pd) s in
    let s := xbks_pmm_free_frame s (get_entry s pdpt pdpt_index & ADDRESS_MASK) in
    set_entry s pdpt pdpt_index 0.

Definition destroy_pml4_step (user_top pml4 pml4_index : Z) (s : mm) : mm :=
  if (get_entry s pml4 pml4_index & XBKS_PAGE_PRESENT) =? 0 then s
  else
    let pdpt := page_table_from_entry s (get_entry s pml4 pml4_index) in
    let s := for_range 512 0 (destroy_pdpt_step user_top pml4_index pdpt) s in
    let s := xbks_pmm_free_frame s (get_entry s pml4 pml4_index & ADDRESS_MASK) in
    set_entry s pml4 pml4_index 0.

Definition xbks_vmm_destroy_user_space (s : mm) (pml4_frame user_top : Z) : mm :=
  if pml4_frame =? 0 then s
  else
    let pml4 := xbks_phys_to_virt s pml4_frame in
    let s := for_range 256 0 (destroy_pml4_step user_top pml4) s in
    xbks_pmm_free_frame s pml4_frame.
