(* ===== verification/VmmSpec.v ===== *)
(** * Page tables: specification of mapping and translation

    The theory behind src/mm/mm.c's page-table code: index paths, the frames they
    reach, the invariant of a set of address spaces, and the effect of
    [ensure_next_table], [xbks_vmm_map_page] and [xbks_vmm_translate] on it. *)

From S2P Require Import Prelude CMem Pmm Vmm.

(** ** Entries *)

(** A page-table entry built from a frame and low flag bits gives the frame back. *)
Lemma entry_frame f lo :
  f mod 2 ^ 12 = 0 -> 0 <= f < 2 ^ 52 -> 0 <= lo < 2 ^ 12 -> Z.land (Z.lor f lo) ADDRESS_MASK = f.
Proof.
  intros Hm Hf Hlo. change ADDRESS_MASK with (Z.ldiff (Z.ones 52) (Z.ones 12)).
  bits i. rewrite !ones_testbit by lia. destruct (Z.ltb_spec i 12).
  - rewrite (testbit_mult_low 12 f i) by lia. rewrite !andb_false_r. reflexivity.
  - rewrite (testbit_high 12 lo i), orb_false_r by lia. destruct (Z.ltb_spec i 52).
    + apply andb_true_r.
    + rewrite (testbit_high 52 f i) by lia. reflexivity.
Qed.

Lemma entry_mask_ok e :
  0 <= (e & ADDRESS_MASK) < 2 ^ 52 /\ (e & ADDRESS_MASK) mod 4096 = 0.
Proof.
  split; [apply land_range_r; [lia|vm_compute; split; [discriminate|reflexivity]]|].
  change 4096 with (2 ^ 12). rewrite <- Z.land_ones, <- Z.land_assoc by lia.
  change (ADDRESS_MASK & Z.ones 12) with 0. apply Z.land_0_r.
Qed.

Lemma present_bit e : ((e & XBKS_PAGE_PRESENT) =? 0) = negb (Z.testbit e 0).
Proof. exact (land_pow2_zero e 0 ltac:(lia)). Qed.

(** The entry [ensure_next_table] writes: its flags are below the address field. *)
Lemma table_entry f flags :
  0 <= flags < 4096 ->
  exists lo, 0 <= lo < 2 ^ 12 /\ Z.testbit lo 0 = true /\
    Z.lor (Z.lor (Z.lor (Z.lor f flags) XBKS_PAGE_PRESENT) XBKS_PAGE_WRITABLE) XBKS_PAGE_USER
      = Z.lor f lo.
Proof.
  intros Hf. exists (Z.lor flags 7). split; [apply (lor_range 12); lia|].
  split; [rewrite Z.lor_spec; apply orb_true_r|].
  unfold XBKS_PAGE_PRESENT, XBKS_PAGE_WRITABLE, XBKS_PAGE_USER.
  rewrite <- !Z.lor_assoc. reflexivity.
Qed.

Lemma leaf_entry f flags :
  0 <= flags < 4096 ->
  exists lo, 0 <= lo < 2 ^ 12 /\ Z.testbit lo 0 = true /\
    Z.lor (Z.lor f flags) XBKS_PAGE_PRESENT = Z.lor f lo.
Proof.
  intros Hf. exists (Z.lor flags 1). split; [apply (lor_range 12); lia|].
  split; [rewrite Z.lor_spec; apply orb_true_r|]. unfold XBKS_PAGE_PRESENT.
  rewrite <- !Z.lor_assoc. reflexivity.
Qed.

(** ** Index paths *)

Lemma table_index_eq va k : 0 <= k -> table_index va k = va / 2 ^ k mod 512.
Proof.
  intros Hk. unfold table_index. change 511 with (2 ^ 9 - 1).
  rewrite land_low, Z.shiftr_div_pow2 by lia. reflexivity.
Qed.

Definition path (va : Z) : list Z :=
  [table_index va 39; table_index va 30; table_index va 21; table_index va 12].

Definition user_va (va : Z) : Prop := 0 <= va < 2 ^ 47.

(** A path through the user half of an address space. *)
Definition upath (p : list Z) : Prop :=
  (length p <= 4)%nat /\ Forall (fun i => 0 <= i < 512) p /\
  match p with [] => True | i :: _ => i < 256 end.

Lemma table_index_range va k : 0 <= k -> 0 <= table_index va k < 512.
Proof. intros Hk. rewrite table_index_eq by lia. apply Z.mod_pos_bound. lia. Qed.

Lemma upath_path va : user_va va -> upath (path va).
Proof.
  intros Hva. split; [cbn; lia|]. split.
  - repeat constructor; apply table_index_range; lia.
  - cbn. rewrite table_index_eq by lia. unfold user_va in Hva.
    assert (0 <= va / 2 ^ 39 < 256); [|rewrite Z.mod_small; lia].
    split; [apply Z.div_pos; lia|apply Z.div_lt_upper_bound; lia].
Qed.

(** The page number of a user address in base 512. *)
Lemma path_digits va :
  user_va va ->
  va / 4096 = ((table_index va 39 * 512 + table_index va 30) * 512 + table_index va 21) * 512
              + table_index va 12.
Proof.
  intros Hva. unfold user_va in Hva. rewrite !table_index_eq by lia.
  change (2 ^ 39) with (4096 * (512 * (512 * 512))). change (2 ^ 30) with (4096 * (512 * 512)).
  change (2 ^ 21) with (4096 * 512). change (2 ^ 12) with 4096.
  rewrite <- !Z.div_div by lia. set (a := va / 4096).
  assert (0 <= a < 2 ^ 35) by
    (unfold a; split; [apply Z.div_pos; lia|apply Z.div_lt_upper_bound; lia]).
  assert (0 <= a / 512 / 512 / 512 < 512).
  { rewrite !Z.div_div by lia. split; [apply Z.div_pos; lia|apply Z.div_lt_upper_bound; lia]. }
  rewrite (Z.mod_small (a / 512 / 512 / 512)) by lia.
  pose proof (Z.div_mod a 512). pose proof (Z.div_mod (a / 512) 512).
  pose proof (Z.div_mod (a / 512 / 512) 512). lia.
Qed.

Lemma path_inj va va' :
  user_va va -> user_va va' -> path va = path va' -> va / 4096 = va' / 4096.
Proof.
  intros H H' E. rewrite (path_digits va H), (path_digits va' H').
  injection E as -> -> -> ->. reflexivity.
Qed.

Lemma table_index_page va d k :
  0 <= d < 4096 -> va mod 4096 = 0 -> 12 <= k -> table_index (va + d) k = table_index va k.
Proof.
  intros Hd Hm Hk. rewrite !table_index_eq by lia. f_equal.
  replace k with (12 + (k - 12)) by lia. rewrite Z.pow_add_r by lia. change (2 ^ 12) with 4096.
  pose proof (Z.pow_pos_nonneg 2 (k - 12)).
  rewrite <- !Z.div_div by lia. f_equal.
  pose proof (Z.div_mod va 4096). symmetry.
  apply (Z.div_unique (va + d) 4096 (va / 4096) d); lia.
Qed.

Lemma path_page va d : 0 <= d < 4096 -> va mod 4096 = 0 -> path (va + d) = path va.
Proof. intros Hd Hm. unfold path. rewrite !table_index_page by lia. reflexivity. Qed.

Lemma upath_app_inv p q : upath (p ++ q) -> upath p.
Proof.
  intros (Hl & Hf & Hh). rewrite length_app in Hl. apply Forall_app in Hf as [Hf _].
  split; [lia|]. split; [exact Hf|]. destruct p; [exact I|exact Hh].
Qed.

(** ** Nodes *)

Definition entry_at (s : mm) (t i : Z) : Z := get_entry s (kva s t) i.

(** The frame reached from the table [t] along the path [p]. *)
Fixpoint node (s : mm) (t : Z) (p : list Z) : option Z :=
  match p with
  | [] => Some t
  | i :: p' =>
      if Z.testbit (entry_at s t i) 0 then node s (entry_at s t i & ADDRESS_MASK) p' else None
  end.

Lemma node_app s t p q : node s t (p ++ q) = (t' ← node s t p; node s t' q).
Proof.
  revert t. induction p as [|i p IH]; intros t; cbn [app node]; [reflexivity|].
  destruct (Z.testbit _ 0); [apply IH|reflexivity].
Qed.

Lemma node_snoc s t p i t' :
  node s t p = Some t' ->
  node s t (p ++ [i]) =
    if Z.testbit (entry_at s t' i) 0 then Some (entry_at s t' i & ADDRESS_MASK) else None.
Proof. intros H. rewrite node_app, H. reflexivity. Qed.

(** A walk only depends on the entries it reads. *)
Lemma node_agree s s' t q :
  (forall q1 j q2 x, q = q1 ++ j :: q2 -> node s t q1 = Some x -> entry_at s' x j = entry_at s x j) ->
  node s' t q = node s t q.
Proof.
  revert t. induction q as [|i q IH]; intros t H; cbn [node]; [reflexivity|].
  rewrite (H [] i q t) by reflexivity. destruct (Z.testbit (entry_at s t i) 0) eqn:E; [|reflexivity].
  apply IH. intros q1 j q2 x -> Hx. apply (H (i :: q1) j q2 x); [reflexivity|]. cbn [node]. rewrite E. exact Hx.
Qed.

Lemma entry_at_agree s s' x j :
  hhdm_offset_value s' = hhdm_offset_value s -> 0 <= j < 512 ->
  (forall a, in_page (hhdm_offset_value s) x a -> rd8 (ram s') a = rd8 (ram s) a) ->
  entry_at s' x j = entry_at s x j.
Proof.
  intros Hh Hj Hm. unfold entry_at, get_entry, kva. rewrite Hh. apply ld64_ext.
  intros b Hb. apply Hm. unfold in_page. lia.
Qed.

(** ** The invariant of a set of address spaces *)

Record space (s : mm) (roots : list Z) (l : list Z) : Prop := {
  sp_pool : pool s l;
  sp_frame r p f : r ∈ roots -> upath p -> node s r p = Some f ->
    frame_ok (hhdm_offset_value s) f /\ f ∉ l;
  sp_inj r r' p p' f : r ∈ roots -> r' ∈ roots -> upath p -> upath p' ->
    node s r p = Some f -> node s r' p' = Some f -> r = r' /\ p = p';
}.

Lemma space_root s roots l r :
  space s roots l -> r ∈ roots -> frame_ok (hhdm_offset_value s) r /\ r ∉ l.
Proof.
  intros H Hr. apply (sp_frame _ _ _ H r []); [exact Hr| |reflexivity].
  split; [cbn; lia|]. split; [constructor|exact I].
Qed.

Lemma upath_index p i q : upath (p ++ i :: q) -> 0 <= i < 512.
Proof.
  intros (_ & Hf & _). apply Forall_app in Hf as [_ Hf]. apply Forall_cons_iff in Hf. apply Hf.
Qed.

(** Changing memory outside the pages of user nodes keeps every walk. *)
Lemma node_other_page s s' roots l r q f :
  space s roots l -> r ∈ roots -> upath q ->
  hhdm_offset_value s' = hhdm_offset_value s -> same_but (hhdm_offset_value s) f (ram s) (ram s') ->
  frame_ok (hhdm_offset_value s) f ->
  (forall q1 x, upath q1 -> (length q1 < 4)%nat -> node s r q1 = Some x -> x <> f) ->
  node s' r q = node s r q.
Proof.
  intros Hsp Hr Hq Hh Hm Hf Hne. apply node_agree. intros q1 j q2 x -> Hx.
  pose proof (upath_app_inv _ _ Hq) as Hq1.
  destruct (sp_frame _ _ _ Hsp r q1 x Hr Hq1 Hx) as [Hx1 _].
  apply entry_at_agree; [exact Hh|eapply upath_index, Hq|].
  intros a Ha. apply Hm. intros Hfa. apply (Hne q1 x Hq1); [|exact Hx|].
  - destruct Hq as [Hl _]. rewrite length_app in Hl. cbn in Hl. lia.
  - eapply in_page_inj; eassumption.
Qed.

Lemma space_alloc s roots f l :
  space s roots (f :: l) ->
  exists s', xbks_pmm_alloc_frame s = (f, s') /\ space s' roots l /\ page_zero s' f /\
    same_but (hhdm_offset_value s) f (ram s) (ram s') /\ same_config s s' /\
    frame_ok (hhdm_offset_value s) f /\ (f ∉ l) /\
    (forall r q, r ∈ roots -> upath q -> node s' r q = node s r q) /\
    (forall r q, r ∈ roots -> upath q -> node s r q <> Some f).
Proof.
  intros Hsp. destruct (fp_alloc s f l (sp_pool _ _ _ Hsp)) as (s' & E & Hp & Hz & Hm & Hc).
  destruct (fp_frames s (f :: l) (sp_pool _ _ _ Hsp)) as [Hnd Hok].
  apply list.NoDup_cons in Hnd as [Hnin _]. apply Forall_cons_iff in Hok as [Hf _].
  assert (Hfresh : forall r q, r ∈ roots -> upath q -> node s r q <> Some f).
  { intros r q Hr Hq Hn. apply (sp_frame _ _ _ Hsp r q f Hr Hq Hn). left. }
  assert (Hnode : forall r q, r ∈ roots -> upath q -> node s' r q = node s r q).
  { intros r q Hr Hq. eapply node_other_page; [exact Hsp|exact Hr|exact Hq|apply Hc|exact Hm|exact Hf|].
    intros q1 x Hq1 _ Hx ->. exact (Hfresh r q1 Hr Hq1 Hx). }
  exists s'. split; [exact E|]. split; [|repeat (split; [assumption|]); assumption]. split.
  - exact Hp.
  - intros r p g Hr Hq Hn. rewrite Hnode in Hn by assumption. rewrite (proj1 Hc).
    destruct (sp_frame _ _ _ Hsp r p g Hr Hq Hn) as [? Hg]. split; [assumption|].
    apply not_elem_of_cons in Hg. apply Hg.
  - intros r r' p p' g Hr Hr' Hq Hq' Hn Hn'. rewrite Hnode in Hn, Hn' by assumption.
    eapply sp_inj; eassumption.
Qed.

(** ** Writing one entry *)

Section SetEntry.
Context (s : mm) (roots l : list Z) (r : Z) (p : list Z) (t i : Z).
Context (Hsp : space s roots l) (Hr : r ∈ roots) (Hpi : upath (p ++ [i])) (Ht : node s r p = Some t).

Let Hp : upath p := upath_app_inv _ _ Hpi.
Let Hi : 0 <= i < 512 := upath_index p i [] Hpi.

Lemma set_entry_bytes v a :
  a < kva s t + 8 * i \/ kva s t + 8 * i + 8 <= a ->
  rd8 (ram (set_entry s (kva s t) i v)) a = rd8 (ram s) a.
Proof using. intros Ha. cbn. apply rd8_st64_out. exact Ha. Qed.

Lemma set_entry_same_but v :
  same_but (hhdm_offset_value s) t (ram s) (ram (set_entry s (kva s t) i v)).
Proof using Hpi.
  intros a Ha. apply set_entry_bytes. unfold in_page, kva in *. lia.
Qed.

Lemma entry_at_set_eq v : in_u64 v -> entry_at (set_entry s (kva s t) i v) t i = v.
Proof using. intros Hv. unfold entry_at, get_entry, set_entry, kva. cbn. apply ld64_st64, Hv. Qed.

Lemma entry_at_set_ne v x j :
  frame_ok (hhdm_offset_value s) x -> 0 <= j < 512 -> x <> t \/ j <> i ->
  entry_at (set_entry s (kva s t) i v) x j = entry_at s x j.
Proof using Hsp Hr Hpi Ht.
  intros Hx Hj Hne. unfold entry_at, get_entry. cbn. apply ld64_st64_ne. unfold kva. cbn.
  destruct (sp_frame _ _ _ Hsp r p t Hr Hp Ht) as [Htf _].
  destruct (Z.eq_dec x t) as [->|Hxt]; [lia|].
  destruct Hx as (_ & _ & Hxm & _), Htf as (_ & _ & Htm & _).
  destruct (pages_disjoint x t Hxm Htm Hxt); lia.
Qed.

Lemma node_set_entry_other v r' q :
  r' ∈ roots -> upath q -> ~ (r' = r /\ (p ++ [i]) `prefix_of` q) ->
  node (set_entry s (kva s t) i v) r' q = node s r' q.
Proof using Hsp Hr Hpi Ht.
  intros Hr' Hq Hno. apply node_agree. intros q1 j q2 x -> Hx.
  pose proof (upath_app_inv _ _ Hq) as Hq1.
  apply entry_at_set_ne; [apply (sp_frame _ _ _ Hsp r' q1 x Hr' Hq1 Hx)|eapply upath_index, Hq|].
  destruct (Z.eq_dec x t) as [->|]; [|left; assumption]. right. intros ->. apply Hno.
  destruct (sp_inj _ _ _ Hsp r' r q1 p t Hr' Hr Hq1 Hp Hx Ht) as [-> ->].
  split; [reflexivity|]. exists q2. rewrite <- app_assoc. reflexivity.
Qed.

Lemma pool_set_entry v : pool (set_entry s (kva s t) i v) l.
Proof using Hsp Hr Hpi Ht.
  apply fp_write; [apply (sp_pool _ _ _ Hsp)|]. intros f a Hf Ha. apply set_entry_same_but.
  intros Hta. destruct (sp_frame _ _ _ Hsp r p t Hr Hp Ht) as [Htf Htl]. apply Htl.
  destruct (fp_frames s l (sp_pool _ _ _ Hsp)) as [_ Hok]. rewrite Forall_forall in Hok.
  rewrite (in_page_inj _ t f a Htf (Hok f ltac:(apply list_elem_of_In, Hf)) Hta Ha). exact Hf.
Qed.

(** Linking a fresh frame below an absent entry adds exactly one node. *)
Lemma space_link f lo :
  node s r (p ++ [i]) = None -> frame_ok (hhdm_offset_value s) f -> f ∉ l ->
  (forall r' q, r' ∈ roots -> upath q -> node s r' q <> Some f) ->
  (length p = 3%nat \/ page_zero s f) ->
  0 <= lo < 2 ^ 12 -> Z.testbit lo 0 = true ->
  let s' := set_entry s (kva s t) i (Z.lor f lo) in
  space s' roots l /\ node s' r (p ++ [i]) = Some f /\
  (forall r' q, r' ∈ roots -> upath q -> (r', q) <> (r, p ++ [i]) -> node s' r' q = node s r' q).
Proof using Hsp Hr Hpi Ht.
  intros Habs Hf Hfl Hfresh Hleaf Hlo Hlo0 s'.
  pose proof Hf as (Hh0 & Hf0 & Hfm & Hf52 & Hf64).
  assert (Hv : in_u64 (Z.lor f lo)).
  { pose proof (lor_range 52 f lo). unfold in_u64. lia. }
  assert (Hnew : node s' r (p ++ [i]) = Some f).
  { assert (node s' r p = Some t) as Hpt.
    { unfold s'. rewrite node_set_entry_other; [exact Ht|exact Hr|exact Hp|].
      intros [_ [k Hk]]. apply (f_equal length) in Hk. rewrite !length_app in Hk. cbn in Hk. lia. }
    rewrite (node_snoc s' r p i t Hpt). unfold s'. rewrite entry_at_set_eq by exact Hv.
    rewrite Z.lor_spec, Hlo0, orb_true_r. f_equal. apply entry_frame; [exact Hfm|lia|lia]. }
  assert (Hother : forall r' q, r' ∈ roots -> upath q -> (r', q) <> (r, p ++ [i]) ->
    node s' r' q = node s r' q).
  { intros r' q Hr' Hq Hne. destruct (decide (r' = r /\ (p ++ [i]) `prefix_of` q)) as [[-> [k ->]]|Hno].
    - destruct k as [|j k]; [rewrite app_nil_r in Hne; congruence|].
      rewrite !(node_app _ r (p ++ [i])), Habs, Hnew. cbn [mbind option_bind node].
      destruct Hleaf as [H3|Hz].
      { destruct Hq as [Hl _]. rewrite !length_app in Hl. cbn in Hl. lia. }
      assert (entry_at s' f j = 0) as ->; [|reflexivity].
      unfold s'. rewrite entry_at_set_ne; [|exact Hf|eapply upath_index, Hq|].
      + unfold entry_at, get_entry. rewrite (ld64_ext _ ∅); [reflexivity|]. intros b Hb.
        pose proof (upath_index _ _ _ Hq). apply Hz. unfold in_page, kva in *. lia.
      + left. intros ->. exact (Hfresh r p Hr Hp Ht).
    - apply node_set_entry_other; assumption. }
  split; [|split; assumption]. split.
  - apply pool_set_entry.
  - intros r' q g Hr' Hq Hg. destruct (decide ((r', q) = (r, p ++ [i]))) as [E|E].
    + injection E as -> ->. rewrite Hnew in Hg. injection Hg as <-. split; assumption.
    + rewrite Hother in Hg by assumption. exact (sp_frame _ _ _ Hsp r' q g Hr' Hq Hg).
  - intros r1 r2 q1 q2 g Hr1 Hr2 Hq1 Hq2 Hg1 Hg2.
    destruct (decide ((r1, q1) = (r, p ++ [i]))) as [E1|E1], (decide ((r2, q2) = (r, p ++ [i]))) as [E2|E2].
    + injection E1 as -> ->. injection E2 as -> ->. split; reflexivity.
    + injection E1 as -> ->. rewrite Hnew in Hg1. injection Hg1 as <-.
      rewrite Hother in Hg2 by assumption. destruct (Hfresh _ _ Hr2 Hq2 Hg2).
    + injection E2 as -> ->. rewrite Hnew in Hg2. injection Hg2 as <-.
      rewrite Hother in Hg1 by assumption. destruct (Hfresh _ _ Hr1 Hq1 Hg1).
    + rewrite Hother in Hg1, Hg2 by assumption. eapply sp_inj; eassumption.
Qed.
End SetEntry.

(** ** Growing an address space

    [grow roots r s s' l l']: from [s] to [s'] the space of root [r] may have gained
    tables taken from the free list; every node of [s] is kept, and only the pages
    of tables of [r] and of free frames may have changed. *)

Definition untouched (s : mm) (r : Z) (l : list Z) (a : Z) : Prop :=
  (forall f, f ∈ l -> ~ in_page (hhdm_offset_value s) f a) /\
  (forall q x, upath q -> (length q < 4)%nat -> node s r q = Some x ->
     ~ in_page (hhdm_offset_value s) x a).

Record grow (roots : list Z) (r : Z) (s s' : mm) (l l' : list Z) : Prop := {
  g_space : space s' roots l';
  g_config : same_config s s';
  g_suffix : l' `suffix_of` l;
  g_node r' q x : r' ∈ roots -> upath q -> node s r' q = Some x -> node s' r' q = Some x;
  g_new r' q x : r' ∈ roots -> upath q -> node s' r' q = Some x ->
    node s r' q = Some x \/ (r' = r /\ (length q < 4)%nat /\ x ∈ l);
  g_mem a : untouched s r l a -> rd8 (ram s') a = rd8 (ram s) a;
  g_used x : x ∈ l -> x ∈ l' \/ exists q, upath q /\ q <> [] /\ node s' r q = Some x;
}.

Lemma grow_refl roots r s l : space s roots l -> grow roots r s s l l.
Proof. intros H. split; auto with xbks. Qed.

Lemma suffix_elem (l l' : list Z) f : l' `suffix_of` l -> f ∈ l' -> f ∈ l.
Proof. intros [k ->] Hf. apply elem_of_app. right. exact Hf. Qed.

Lemma grow_trans roots r s1 s2 s3 l1 l2 l3 :
  r ∈ roots -> grow roots r s1 s2 l1 l2 -> grow roots r s2 s3 l2 l3 -> grow roots r s1 s3 l1 l3.
Proof.
  intros Hr [] []. split; try assumption.
  - eauto with xbks.
  - etransitivity; eassumption.
  - auto.
  - intros r' q x Hr' Hq H. destruct (g_new1 r' q x Hr' Hq H) as [H1|(-> & Hl & Hx)].
    + apply g_new0; assumption.
    + right. eauto using suffix_elem.
  - intros a [Ha1 Ha2]. rewrite g_mem1; [apply g_mem0; split; assumption|].
    destruct g_config0 as [Hh _]. split; rewrite Hh.
    + intros f Hf. apply Ha1. eapply suffix_elem; eassumption.
    + intros q x Hq Hl Hx. destruct (g_new0 r q x Hr Hq Hx) as [H1|(_ & _ & H1)].
      * eapply Ha2; eassumption.
      * apply Ha1, H1.
  - intros x Hx. destruct (g_used0 x Hx) as [H|(q & Hq & Hq0 & H)]; [apply g_used1, H|]. right. eauto 6.
Qed.

(** Data pages are kept: a four-step walk ends where it did. *)
Lemma grow_leaf roots r s s' l l' r' q :
  grow roots r s s' l l' -> r' ∈ roots -> upath q -> length q = 4%nat ->
  node s' r' q = node s r' q.
Proof.
  intros [] Hr' Hq Hl. destruct (node s' r' q) as [x|] eqn:E.
  - destruct (g_new0 r' q x Hr' Hq E) as [H|(_ & H & _)]; [symmetry; exact H|lia].
  - destruct (node s r' q) as [x|] eqn:E'; [|reflexivity].
    rewrite (g_node0 r' q x Hr' Hq E') in E. discriminate.
Qed.

(** ** [ensure_next_table] *)

Lemma page_table_frame s e f :
  frame_ok (hhdm_offset_value s) f -> (e & ADDRESS_MASK) = f -> page_table_from_entry s e = kva s f.
Proof. intros Hf <-. apply phys_to_virt_frame, Hf. Qed.

Lemma same_but_untouched s r l f m' a :
  f ∈ l \/ (exists q, upath q /\ (length q < 4)%nat /\ node s r q = Some f) ->
  same_but (hhdm_offset_value s) f (ram s) m' -> untouched s r l a -> rd8 m' a = rd8 (ram s) a.
Proof.
  intros [Hf|(q & Hq & Hl & Hn)] Hm [H1 H2]; apply Hm; [apply H1, Hf|eapply H2; eassumption].
Qed.

Lemma ensure_spec s roots l r p t i flags :
  space s roots l -> r ∈ roots -> upath (p ++ [i]) -> (length p <= 2)%nat ->
  node s r p = Some t -> 0 <= flags < 4096 ->
  match ensure_next_table s (kva s t) i flags with
  | (Some nt, s') => exists l' t', nt = kva s' t' /\ grow roots r s s' l l' /\
      node s' r (p ++ [i]) = Some t' /\ (length l <= length l' + 1)%nat /\
      (node s r (p ++ [i]) <> None -> s' = s)
  | (None, s') => l = [] /\ s' = s /\ node s r (p ++ [i]) = None
  end.
Proof.
  intros Hsp Hr Hpi Hl Ht Hfl. pose proof (upath_app_inv _ _ Hpi) as Hp.
  pose proof (node_snoc s r p i t Ht) as Hsn.
  unfold ensure_next_table. change (get_entry s (kva s t) i) with (entry_at s t i).
  rewrite present_bit. destruct (Z.testbit (entry_at s t i) 0) eqn:Ep; cbn [negb].
  { exists l, (entry_at s t i & ADDRESS_MASK).
    destruct (sp_frame _ _ _ Hsp r (p ++ [i]) _ Hr Hpi Hsn) as [Hc _].
    split; [apply page_table_frame; [exact Hc|reflexivity]|]. split; [apply grow_refl, Hsp|].
    split; [exact Hsn|]. split; [lia|reflexivity]. }
  destruct l as [|f l].
  { rewrite (fp_empty s (sp_pool _ _ _ Hsp)). cbn. auto. }
  destruct (space_alloc s roots f l Hsp)
    as (s1 & -> & Hsp1 & Hz & Hm1 & Hc1 & Hf & Hfl1 & Hn1 & Hfr).
  pose proof Hf as (_ & Hf0 & _). destruct (Z.eqb_spec f 0); [lia|].
  destruct (table_entry f flags Hfl) as (lo & Hlo & Hlo0 & ->).
  assert (kva s t = kva s1 t) as -> by (unfold kva; rewrite (proj1 Hc1); reflexivity).
  assert (Ht1 : node s1 r p = Some t) by (rewrite Hn1 by assumption; exact Ht).
  destruct (space_link s1 roots l r p t i Hsp1 Hr Hpi Ht1 f lo) as (Hsp2 & Hnew & Hoth).
  { rewrite Hn1 by assumption. exact Hsn. }
  { rewrite (proj1 Hc1). exact Hf. }
  { exact Hfl1. }
  { intros r' q Hr' Hq. rewrite Hn1 by assumption. apply Hfr; assumption. }
  { right. exact Hz. }
  { exact Hlo. }
  { exact Hlo0. }
  set (s2 := set_entry s1 (kva s1 t) i (Z.lor f lo)) in *.
  exists l, f. split; [|split; [|split; [exact Hnew|split; [cbn; lia|congruence]]]].
  - apply page_table_frame; [change (hhdm_offset_value s2) with (hhdm_offset_value s1);
      rewrite (proj1 Hc1); exact Hf|].
    change (get_entry s2 (kva s1 t) i) with (entry_at s2 t i). unfold s2.
    destruct Hf as (_ & _ & Hfm & Hf52 & _). pose proof (lor_range 52 f lo).
    rewrite entry_at_set_eq by (unfold in_u64; lia). apply entry_frame; [exact Hfm|lia|lia].
  - split.
    + exact Hsp2.
    + exact Hc1.
    + exists [f]. reflexivity.
    + intros r' q x Hr' Hq Hx. rewrite Hoth; [rewrite Hn1 by assumption; exact Hx|assumption..|].
      intros E. injection E as -> ->. rewrite Hsn in Hx. discriminate.
    + intros r' q x Hr' Hq Hx. destruct (decide ((r', q) = (r, p ++ [i]))) as [E|E].
      * injection E as -> ->. rewrite Hnew in Hx. injection Hx as <-. right.
        split; [reflexivity|]. rewrite length_app. cbn. split; [lia|left].
      * left. rewrite Hoth, Hn1 in Hx by assumption. exact Hx.
    + intros a Ha. transitivity (rd8 (ram s1) a).
      * apply (set_entry_same_but s1 p t i Hpi). rewrite (proj1 Hc1). apply (proj2 Ha p t Hp); [lia|exact Ht].
      * eapply same_but_untouched; [left; left|exact Hm1|exact Ha].
    + intros x [->|Hx]%elem_of_cons; [right|left; exact Hx]. exists (p ++ [i]).
      split; [exact Hpi|]. split; [destruct p; discriminate|exact Hnew].
Qed.

(** ** [xbks_vmm_translate] *)

(** A data frame that no address space and no free list holds. *)
Definition fresh_frame (s : mm) (roots l : list Z) (f : Z) : Prop :=
  frame_ok (hhdm_offset_value s) f /\ (f ∉ l) /\
  (forall r q, r ∈ roots -> upath q -> node s r q <> Some f).

Lemma upath_4 a b c d : upath [a; b; c; d] -> upath [a] /\ upath [a; b] /\ upath [a; b; c].
Proof.
  intros H. split; [|split].
  - exact (upath_app_inv [a] [b; c; d] H).
  - exact (upath_app_inv [a; b] [c; d] H).
  - exact (upath_app_inv [a; b; c] [d] H).
Qed.

Lemma walk_step s roots l r p t i :
  space s roots l -> r ∈ roots -> upath (p ++ [i]) -> node s r p = Some t ->
  if (get_entry s (kva s t) i & XBKS_PAGE_PRESENT) =? 0 then node s r (p ++ [i]) = None
  else node s r (p ++ [i]) = Some (get_entry s (kva s t) i & ADDRESS_MASK) /\
       page_table_from_entry s (get_entry s (kva s t) i) = kva s (get_entry s (kva s t) i & ADDRESS_MASK).
Proof.
  intros Hsp Hr Hpi Ht. rewrite present_bit. pose proof (node_snoc s r p i t Ht) as Hn.
  unfold entry_at in Hn. destruct (Z.testbit (get_entry s (kva s t) i) 0); cbn [negb]; [|exact Hn].
  split; [exact Hn|]. apply page_table_frame; [|reflexivity].
  apply (sp_frame _ _ _ Hsp r _ _ Hr Hpi Hn).
Qed.

Lemma node_cut s r p q k : node s r p = None -> p ++ q = k -> node s r k = None.
Proof. intros H <-. rewrite node_app, H. reflexivity. Qed.

Lemma translate_node s roots l r va :
  space s roots l -> r ∈ roots -> user_va va ->
  xbks_vmm_translate s r va = (fun f => f + va mod 4096) <$> node s r (path va).
Proof.
  intros Hsp Hr Hva. pose proof (upath_path va Hva) as Hu. unfold path in *.
  set (a := table_index va 39) in *. set (b := table_index va 30) in *.
  set (c := table_index va 21) in *. set (d := table_index va 12) in *.
  destruct (upath_4 a b c d Hu) as (H1 & H2 & H3).
  unfold xbks_vmm_translate. fold a b c d.
  rewrite phys_to_virt_frame by (eapply space_root; eassumption).
  pose proof (walk_step s roots l r [] r a Hsp Hr H1 eq_refl) as W1.
  destruct (_ =? 0); [rewrite (node_cut s r [a] [b; c; d] [a; b; c; d] W1 eq_refl); reflexivity|].
  destruct W1 as [N1 ->].
  pose proof (walk_step s roots l r [a] _ b Hsp Hr H2 N1) as W2. cbn [app] in W2.
  destruct (_ =? 0); [rewrite (node_cut s r [a; b] [c; d] [a; b; c; d] W2 eq_refl); reflexivity|].
  destruct W2 as [N2 ->].
  pose proof (walk_step s roots l r [a; b] _ c Hsp Hr H3 N2) as W3. cbn [app] in W3.
  destruct (_ =? 0); [rewrite (node_cut s r [a; b; c] [d] [a; b; c; d] W3 eq_refl); reflexivity|].
  destruct W3 as [N3 ->].
  pose proof (walk_step s roots l r [a; b; c] _ d Hsp Hr Hu N3) as W4. cbn [app] in W4.
  destruct (_ =? 0); [rewrite W4; reflexivity|]. destruct W4 as [N4 _]. rewrite N4. cbn [fmap option_fmap option_map].
  f_equal. change (XBKS_PAGE_SIZE - 1) with (2 ^ 12 - 1). rewrite land_low by lia.
  apply (lor_disjoint 12); [lia|apply entry_mask_ok|apply Z.mod_pos_bound; lia].
Qed.

(** ** [xbks_vmm_map_page] *)

Lemma page_mask_zero x : ((x & (XBKS_PAGE_SIZE - 1)) =? 0) = (x mod 4096 =? 0).
Proof. change (XBKS_PAGE_SIZE - 1) with (2 ^ 12 - 1). rewrite land_low by lia. reflexivity. Qed.

(** The three nested calls of [ensure_next_table] as a walk that creates what it
    misses. *)
Fixpoint ensure_path (s : mm) (table : Z) (p : list Z) (flags : Z) : option Z * mm :=
  match p with
  | [] => (Some table, s)
  | i :: p' =>
      match ensure_next_table s table i flags with
      | (None, s) => (None, s)
      | (Some t, s) => ensure_path s t p' flags
      end
  end.

Lemma ensure_path_spec s roots l r p t q flags :
  space s roots l -> r ∈ roots -> upath (p ++ q) -> (length (p ++ q) <= 3)%nat ->
  node s r p = Some t -> 0 <= flags < 4096 ->
  match ensure_path s (kva s t) q flags with
  | (Some nt, s') => exists l' t', nt = kva s' t' /\ grow roots r s s' l l' /\
      node s' r (p ++ q) = Some t' /\ (length l <= length q + length l')%nat /\
      (node s r (p ++ q) <> None -> s' = s)
  | (None, s') => exists l', grow roots r s s' l l' /\ (length l < length q)%nat /\
      node s r (p ++ q) = None
  end.
Proof.
  revert s l p t. induction q as [|i q IH]; intros s l p t Hsp Hr Hu Hl Ht Hfl; cbn [ensure_path].
  { exists l, t. rewrite app_nil_r. split; [reflexivity|]. split; [apply grow_refl, Hsp|].
    split; [exact Ht|]. split; [cbn; lia|reflexivity]. }
  assert (Hsnoc : p ++ i :: q = (p ++ [i]) ++ q) by (rewrite <- app_assoc; reflexivity).
  rewrite Hsnoc in Hu, Hl |- *. pose proof (upath_app_inv _ _ Hu) as Hpi.
  assert (Hl2 : (length p <= 2)%nat) by (rewrite !length_app in Hl; cbn in Hl; lia).
  pose proof (ensure_spec s roots l r p t i flags Hsp Hr Hpi Hl2 Ht Hfl) as E.
  destruct (ensure_next_table s (kva s t) i flags) as [[nt|] s1].
  - destruct E as (l1 & t1 & -> & G1 & N1 & L1 & S1).
    pose proof (IH s1 l1 (p ++ [i]) t1 (g_space _ _ _ _ _ _ G1) Hr Hu Hl N1 Hfl) as E2.
    destruct (ensure_path s1 (kva s1 t1) q flags) as [[nt|] s2].
    + destruct E2 as (l2 & t2 & -> & G2 & N2 & L2 & S2). exists l2, t2. split; [reflexivity|].
      split; [eapply grow_trans; eassumption|]. split; [exact N2|]. split; [cbn; lia|]. intros Hn.
      assert (s1 = s) as ->; [|exact (S2 Hn)].
      apply S1. intros Hnone. exact (Hn (node_cut s r (p ++ [i]) q _ Hnone eq_refl)).
    + destruct E2 as (l2 & G2 & L2 & N2). exists l2. split; [eapply grow_trans; eassumption|].
      split; [cbn; lia|]. destruct (node s r ((p ++ [i]) ++ q)) as [x|] eqn:E; [|reflexivity].
      rewrite (g_node _ _ _ _ _ _ G1 r _ x Hr Hu E) in N2. discriminate.
  - destruct E as (-> & -> & E). exists []. split; [apply grow_refl, Hsp|]. split; [cbn; lia|].
    exact (node_cut s r (p ++ [i]) q _ E eq_refl).
Qed.

Lemma map_page_alt s r va pa flags :
  va mod 4096 = 0 -> pa mod 4096 = 0 ->
  xbks_vmm_map_page s r va pa flags =
    match ensure_path s (xbks_phys_to_virt s r)
            [table_index va 39; table_index va 30; table_index va 21] flags with
    | (None, s) => (false, s)
    | (Some pt, s) =>
        if negb ((get_entry s pt (table_index va 12) & XBKS_PAGE_PRESENT) =? 0) then (false, s)
        else (true, set_entry s pt (table_index va 12) (Z.lor (Z.lor pa flags) XBKS_PAGE_PRESENT))
    end.
Proof.
  intros Hva Hpa. unfold xbks_vmm_map_page. rewrite !page_mask_zero, Hva, Hpa. cbn [negb orb Z.eqb ensure_path].
  destruct (ensure_next_table s _ _ flags) as [[t1|] s1]; [|reflexivity].
  destruct (ensure_next_table s1 _ _ flags) as [[t2|] s2]; [|reflexivity].
  destruct (ensure_next_table s2 _ _ flags) as [[t3|] s3]; reflexivity.
Qed.

(** The outcome of a mapping request in terms of nodes. *)
Lemma map_page_spec s roots l r va pa flags :
  space s roots l -> r ∈ roots -> user_va va -> va mod 4096 = 0 ->
  fresh_frame s roots l pa -> 0 <= flags < 4096 ->
  match xbks_vmm_map_page s r va pa flags with
  | (true, s') => node s r (path va) = None /\ exists s1 l', grow roots r s s1 l l' /\
      (length l <= 3 + length l')%nat /\ space s' roots l' /\ same_config s1 s' /\ node s' r (path va) = Some pa /\
      (forall a, untouched s r l a -> rd8 (ram s') a = rd8 (ram s) a) /\
      (forall r' q, r' ∈ roots -> upath q -> (r', q) <> (r, path va) -> node s' r' q = node s1 r' q)
  | (false, s') => exists l', grow roots r s s' l l' /\
      ((node s r (path va) <> None /\ s' = s) \/ (node s r (path va) = None /\ (length l < 3)%nat))
  end.
Proof.
  intros Hsp Hr Hva Hal (Hpa & Hpal & Hpan) Hfl. pose proof (upath_path va Hva) as Hu.
  rewrite map_page_alt by (assumption || apply Hpa).
  rewrite phys_to_virt_frame by (eapply space_root; eassumption).
  unfold path in *. set (a := table_index va 39) in *. set (b := table_index va 30) in *.
  set (c := table_index va 21) in *. set (d := table_index va 12) in *.
  destruct (upath_4 a b c d Hu) as (_ & _ & H3).
  pose proof (ensure_path_spec s roots l r [] r [a; b; c] flags Hsp Hr H3 ltac:(cbn; lia) eq_refl Hfl) as E.
  destruct (ensure_path s (kva s r) [a; b; c] flags) as [[pt|] s3]; cbn [app] in E.
  2:{ destruct E as (l' & G & L & N). exists l'. split; [exact G|]. right.
      split; [exact (node_cut s r [a; b; c] [d] _ N eq_refl)|exact L]. }
  destruct E as (l3 & t3 & -> & G & N3 & L3 & S3).
  pose proof (grow_leaf _ _ _ _ _ _ _ _ G Hr Hu eq_refl) as Hleaf.
  pose proof (g_space _ _ _ _ _ _ G) as Hsp3.
  pose proof (walk_step s3 roots l3 r [a; b; c] t3 d Hsp3 Hr Hu N3) as W. cbn [app] in W.
  destruct (_ =? 0); cbn [negb].
  2:{ exists l3. split; [exact G|]. left. destruct W as [W _]. rewrite Hleaf in W.
      split; [rewrite W; discriminate|]. apply S3. intros Hnone.
      rewrite (node_cut s r [a; b; c] [d] [a; b; c; d] Hnone eq_refl) in W. discriminate. }
  split; [rewrite <- Hleaf; exact W|].
  destruct (leaf_entry pa flags Hfl) as (lo & Hlo & Hlo0 & ->).
  pose proof (g_config _ _ _ _ _ _ G) as Hc3.
  destruct (space_link s3 roots l3 r [a; b; c] t3 d Hsp3 Hr Hu N3 pa lo) as (Hsp' & Hn' & Ho');
    [exact W|rewrite (proj1 Hc3); exact Hpa| | |left; reflexivity|exact Hlo|exact Hlo0|].
  { intros Hin. apply Hpal. eapply suffix_elem; [apply (g_suffix _ _ _ _ _ _ G)|exact Hin]. }
  { intros r' q Hr' Hq Hx. destruct (g_new _ _ _ _ _ _ G r' q pa Hr' Hq Hx) as [Hx'|(_ & _ & Hx')].
    - exact (Hpan r' q Hr' Hq Hx').
    - exact (Hpal Hx'). }
  exists s3, l3. split; [exact G|]. split; [exact L3|]. split; [exact Hsp'|]. split; [repeat split|].
  split; [exact Hn'|]. split; [|exact Ho'].
  intros x Hx. rewrite <- (g_mem _ _ _ _ _ _ G x Hx).
  apply (set_entry_same_but s3 [a; b; c] t3 d Hu). rewrite (proj1 Hc3).
  destruct (g_new _ _ _ _ _ _ G r [a; b; c] t3 Hr H3 N3) as [Ht|(_ & _ & Ht)].
  - apply (proj2 Hx [a; b; c] t3 H3); [cbn; lia|exact Ht].
  - apply (proj1 Hx), Ht.
Qed.

(** ** What a process sees *)

(** The byte a process with root [r] sees at user address [va]. *)
Definition user_byte (s : mm) (r va : Z) : option Z :=
  (fun pa => rd8 (ram s) (xbks_phys_to_virt s pa)) <$> xbks_vmm_translate s r va.

Lemma upath_length va : length (path va) = 4%nat.
Proof. reflexivity. Qed.

(** Leaf pages are neither tables nor free. *)
Lemma leaf_untouched s roots l r r' q x a :
  space s roots l -> r ∈ roots -> r' ∈ roots -> upath q -> length q = 4%nat ->
  node s r' q = Some x -> in_page (hhdm_offset_value s) x a -> untouched s r l a.
Proof.
  intros Hsp Hr Hr' Hq Hl Hx Ha. destruct (sp_frame _ _ _ Hsp r' q x Hr' Hq Hx) as [Hxo Hxl].
  destruct (fp_frames s l (sp_pool _ _ _ Hsp)) as [_ Hok]. rewrite Forall_forall in Hok. split.
  - intros f Hf Hfa. apply Hxl. rewrite (in_page_inj _ x f a Hxo (Hok f ltac:(apply list_elem_of_In, Hf)) Ha Hfa).
    exact Hf.
  - intros q1 y Hq1 Hl1 Hy Hya. destruct (sp_frame _ _ _ Hsp r q1 y Hr Hq1 Hy) as [Hyo _].
    pose proof (in_page_inj _ x y a Hxo Hyo Ha Hya) as <-.
    destruct (sp_inj _ _ _ Hsp r' r q q1 x Hr' Hr Hq Hq1 Hx Hy) as [_ <-]. lia.
Qed.

Lemma user_byte_node s roots l r va :
  space s roots l -> r ∈ roots -> user_va va ->
  user_byte s r va = (fun f => rd8 (ram s) (kva s f + va mod 4096)) <$> node s r (path va).
Proof.
  intros Hsp Hr Hva. unfold user_byte. rewrite (translate_node s roots l r va Hsp Hr Hva).
  destruct (node s r (path va)) as [f|] eqn:E; cbn [fmap option_fmap option_map]; [|reflexivity].
  do 2 f_equal. apply phys_to_virt_ok; [|apply Z.mod_pos_bound; lia].
  apply (sp_frame _ _ _ Hsp r _ f Hr (upath_path va Hva) E).
Qed.

(** Two states in which a user address leads to the same, unchanged page. *)
Lemma user_byte_agree s s' roots l l' r va :
  space s roots l -> space s' roots l' -> r ∈ roots -> user_va va ->
  hhdm_offset_value s' = hhdm_offset_value s ->
  node s' r (path va) = node s r (path va) ->
  (forall x a, node s r (path va) = Some x -> in_page (hhdm_offset_value s) x a ->
     rd8 (ram s') a = rd8 (ram s) a) ->
  xbks_vmm_translate s' r va = xbks_vmm_translate s r va /\ user_byte s' r va = user_byte s r va.
Proof.
  intros Hsp Hsp' Hr Hva Hh Hn Hm. split.
  - rewrite (translate_node s roots l), (translate_node s' roots l'), Hn by assumption. reflexivity.
  - rewrite (user_byte_node s roots l), (user_byte_node s' roots l'), Hn by assumption.
    destruct (node s r (path va)) as [x|] eqn:E; cbn; [|reflexivity]. f_equal.
    unfold kva. rewrite Hh. apply (Hm x); [reflexivity|]. unfold in_page.
    pose proof (Z.mod_pos_bound va 4096). lia.
Qed.

Lemma grow_user roots r s s' l l' r' va :
  space s roots l -> grow roots r s s' l l' -> r ∈ roots -> r' ∈ roots -> user_va va ->
  xbks_vmm_translate s' r' va = xbks_vmm_translate s r' va /\ user_byte s' r' va = user_byte s r' va.
Proof.
  intros Hsp G Hr Hr' Hva. pose proof (upath_path va Hva) as Hu.
  eapply user_byte_agree; [exact Hsp|apply (g_space _ _ _ _ _ _ G)|exact Hr'|exact Hva|apply (g_config _ _ _ _ _ _ G)|..].
  - eapply grow_leaf; [exact G|exact Hr'|exact Hu|reflexivity].
  - intros x a Hx Ha. apply (g_mem _ _ _ _ _ _ G).
    eapply leaf_untouched; [exact Hsp|exact Hr|exact Hr'|exact Hu|reflexivity|exact Hx|exact Ha].
Qed.

(** ** A new address space *)

(** The loop that copies the kernel half of the root table [k] into the page [f]. *)
Lemma copy_kernel_half s l f k :
  pool s l -> frame_ok (hhdm_offset_value s) f -> frame_ok (hhdm_offset_value s) k -> k <> f ->
  f ∉ l -> page_zero s f ->
  let t := for_range 256 256 (fun i s' => set_entry s' (kva s f) i (get_entry s' (kva s k) i)) s in
  same_config s t /\ same_but (hhdm_offset_value s) f (ram s) (ram t) /\ pool t l /\
  (forall j, 0 <= j < 256 -> entry_at t f j = 0) /\
  (forall j, 256 <= j < 512 -> entry_at t f j = entry_at s k j).
Proof.
  intros Hp0 Hf Hk Hkf Hfl Hz. cbn zeta. change 512 with (256 + Z.of_nat 256).
  apply (for_range_inv (fun i t => same_config s t /\
    same_but (hhdm_offset_value s) f (ram s) (ram t) /\ pool t l /\
    (forall j, 0 <= j < 256 -> entry_at t f j = 0) /\
    (forall j, 256 <= j < i -> entry_at t f j = entry_at s k j))).
  { split; [apply same_config_refl|]. split; [intros a _; reflexivity|].
    split; [exact Hp0|]. split; [|lia].
    intros j Hj. unfold entry_at, get_entry. rewrite (ld64_ext _ ∅); [reflexivity|]. intros b Hb.
    apply Hz. unfold in_page, kva in *. lia. }
  intros i t Hi (Hc & Hb & Hp & H0 & Hkern).
  assert (get_entry t (kva s k) i = entry_at s k i) as ->.
  { apply ld64_ext. intros b Hb'. apply Hb. intros Hfb. apply Hkf.
    eapply in_page_inj; [exact Hk|exact Hf| |exact Hfb]. unfold in_page, kva in *. lia. }
  assert (kva s f = kva t f) as -> by (unfold kva; rewrite (proj1 Hc); reflexivity).
  assert (Hat : forall j, entry_at (set_entry t (kva t f) i (entry_at s k i)) f j =
    if j =? i then entry_at s k i else entry_at t f j).
  { intros j. destruct (Z.eqb_spec j i) as [->|Hne]; unfold entry_at, get_entry, set_entry, kva; cbn.
    - apply ld64_st64, ld64_range.
    - apply ld64_st64_ne. lia. }
  assert (Hsb : same_but (hhdm_offset_value s) f (ram t) (ram (set_entry t (kva t f) i (entry_at s k i)))).
  { intros a Ha'. cbn. apply rd8_st64_out. unfold in_page, kva in *. rewrite (proj1 Hc). lia. }
  split; [exact Hc|]. split; [intros a Ha'; rewrite (Hsb a Ha'); apply Hb, Ha'|]. split.
  { apply fp_write; [exact Hp|]. intros g a Hg Ha'. apply Hsb. intros Hfa. apply Hfl.
    destruct (fp_frames t l Hp) as [_ Hok]. rewrite Forall_forall in Hok.
    pose proof (Hok g ltac:(apply list_elem_of_In, Hg)) as Hgo. rewrite (proj1 Hc) in Hgo, Ha'.
    rewrite (in_page_inj _ f g a Hf Hgo Hfa Ha'). exact Hg. }
  split; intros j Hj; rewrite Hat; (destruct (Z.eqb_spec j i) as [->|]; [lia || reflexivity|]).
  - apply H0, Hj.
  - apply Hkern. lia.
Qed.

(** A page whose user half is absent is a new root. *)
Lemma space_new_root s s' roots l f :
  space s roots l -> pool s' l -> same_config s s' ->
  same_but (hhdm_offset_value s) f (ram s) (ram s') -> fresh_frame s roots l f ->
  (forall j, 0 <= j < 256 -> entry_at s' f j = 0) ->
  space s' (f :: roots) l /\ (forall i q, upath (i :: q) -> node s' f (i :: q) = None) /\
  (forall r q, r ∈ roots -> upath q -> node s' r q = node s r q).
Proof.
  intros Hsp Hp Hc Hm (Hf & Hfl & Hfr) H0.
  assert (Hn' : forall r q, r ∈ roots -> upath q -> node s' r q = node s r q).
  { intros r q Hr Hq. eapply node_other_page; [exact Hsp|exact Hr|exact Hq|apply Hc|exact Hm|exact Hf|].
    intros q1 x Hq1 _ Hx ->. exact (Hfr r q1 Hr Hq1 Hx). }
  assert (Hnone : forall i q, upath (i :: q) -> node s' f (i :: q) = None).
  { intros i q (_ & Hi & Hi'). apply Forall_cons_iff in Hi as [Hi _]. cbn [node].
    rewrite H0 by lia. reflexivity. }
  split; [|split; assumption].
  assert (Hroot : forall p g, upath p -> node s' f p = Some g -> p = [] /\ g = f).
  { intros [|i p] g Hp' Hg; [cbn in Hg; split; congruence|]. rewrite Hnone in Hg by exact Hp'. discriminate. }
  split.
  - exact Hp.
  - intros r p g Hr Hp' Hg. rewrite (proj1 Hc). apply elem_of_cons in Hr as [->|Hr].
    + destruct (Hroot p g Hp' Hg) as [_ ->]. split; assumption.
    + rewrite Hn' in Hg by assumption. exact (sp_frame _ _ _ Hsp r p g Hr Hp' Hg).
  - intros r r' p p' g Hr Hr' Hp1 Hp2 Hg Hg'. apply elem_of_cons in Hr as [->|Hr], Hr' as [->|Hr'].
    + destruct (Hroot p g Hp1 Hg) as [-> _], (Hroot p' g Hp2 Hg') as [-> _]. split; reflexivity.
    + destruct (Hroot p g Hp1 Hg) as [-> ->]. rewrite Hn' in Hg' by assumption. destruct (Hfr _ _ Hr' Hp2 Hg').
    + destruct (Hroot p' g Hp2 Hg') as [-> ->]. rewrite Hn' in Hg by assumption. destruct (Hfr _ _ Hr Hp1 Hg).
    + rewrite Hn' in Hg, Hg' by assumption. exact (sp_inj _ _ _ Hsp r r' p p' g Hr Hr' Hp1 Hp2 Hg Hg').
Qed.

Lemma create_pml4_spec s roots l f :
  space s roots (f :: l) -> frame_ok (hhdm_offset_value s) (kernel_cr3_value s) ->
  kernel_cr3_value s <> f ->
  exists s', xbks_create_kernel_mapped_pml4 s = (f, s') /\ space s' (f :: roots) l /\
    same_config s s' /\ same_but (hhdm_offset_value s) f (ram s) (ram s') /\
    (forall i q, upath (i :: q) -> node s' f (i :: q) = None) /\
    (forall r q, r ∈ roots -> upath q -> node s' r q = node s r q) /\
    (forall i, 256 <= i < 512 -> entry_at s' f i = entry_at s (kernel_cr3_value s) i).
Proof.
  intros Hsp Hk Hkf. destruct (space_alloc s roots f l Hsp)
    as (s1 & Ha & Hsp1 & Hz & Hm1 & Hc1 & Hf & Hfl & Hn1 & Hfr).
  unfold xbks_create_kernel_mapped_pml4. rewrite Ha. pose proof Hf as (_ & Hf0 & _).
  destruct (Z.eqb_spec f 0); [lia|]. pose proof Hc1 as (Hh1 & Hk1 & _).
  rewrite Hk1. replace (kernel_cr3_value s & ~u 4095) with (kernel_cr3_value s).
  2:{ pose proof Hk as (_ & _ & Hkm & _). change (~u 4095) with (~u (2 ^ 12 - 1)).
      rewrite land_not_mask; [change (2 ^ 12) with 4096; lia|eauto with xbks|lia]. }
  rewrite !phys_to_virt_frame by (rewrite Hh1; assumption).
  set (k := kernel_cr3_value s) in *. rewrite <- Hh1 in Hf, Hk.
  destruct (copy_kernel_half s1 l f k (sp_pool _ _ _ Hsp1) Hf Hk Hkf Hfl Hz) as (Hc & Hb & Hp & H0 & Hkern).
  set (s' := for_range 256 256 _ s1) in *.
  destruct (space_new_root s1 s' roots l f Hsp1 Hp Hc Hb) as (Hsp' & Hnone & Hn'); [|exact H0|].
  { split; [exact Hf|]. split; [exact Hfl|]. intros r q Hr Hq. rewrite Hn1 by assumption. apply Hfr; assumption. }
  exists s'. split; [reflexivity|]. split; [exact Hsp'|]. split; [eauto with xbks|].
  split; [|split; [exact Hnone|split]].
  - intros a Ha'. rewrite Hb by (rewrite Hh1; exact Ha'). apply Hm1, Ha'.
  - intros r q Hr Hq. rewrite Hn', Hn1 by assumption. reflexivity.
  - intros i Hi. rewrite Hkern by lia. apply entry_at_agree; [exact Hh1|lia|].
    intros a Hka. apply Hm1. intros Hfa. apply Hkf. rewrite Hh1 in *.
    exact (in_page_inj _ k f a Hk Hf Hka Hfa).
Qed.
