(* ===== verification/MmProps.v ===== *)
(** * Properties of the memory manager (src/mm/mm.c)

    The theorems on the frame allocator and on mapping and translation, each with
    a run of the code on a small machine where its hypotheses hold. *)

From S2P Require Import Prelude CMem Pmm Vmm VmmSpec.

(** ** A small machine

    Nine usable frames from 0x1000, the direct map where Limine puts it, the kernel
    root table in a frame outside the pool. *)

Definition demo_hhdm : Z := 18446603336221196288.
Definition demo_cold : mm := Mm 0 0 0 0 1048576 ∅.
Definition demo_map : list memmap_entry := [MemmapEntry 4000 37000 0; MemmapEntry 41000 4096 1].
Definition demo_boot : mm := Mm demo_hhdm 1048576 0 0 1048576 ∅.
Definition demo_pool : mm := default demo_boot (add_usable_range demo_boot 4096 36864).
Definition demo_frames : list Z := rev (usable_pages 4096 36864).
Definition demo_space : mm := snd (xbks_create_kernel_mapped_pml4 demo_pool).

Lemma demo_boot_pool : pool demo_boot [].
Proof. repeat split; constructor. Qed.

Lemma demo_pool_ok : pool demo_pool demo_frames /\ same_config demo_boot demo_pool.
Proof.
  destruct (add_usable_range_pool demo_boot [] 4096 36864 demo_boot_pool) as (s & E & Hp & Hc & _).
  - vm_compute. intuition discriminate.
  - intros f _ H. inversion H.
  - unfold demo_pool. rewrite E. unfold demo_frames. rewrite app_nil_r in Hp. split; assumption.
Qed.

Lemma demo_frames_eq :
  demo_frames = [36864; 32768; 28672; 24576; 20480; 16384; 12288; 8192; 4096].
Proof. reflexivity. Qed.

Lemma demo_space_ok :
  space demo_space [36864] (tail demo_frames) /\ hhdm_offset_value demo_space = demo_hhdm /\
  (forall i q, upath (i :: q) -> node demo_space 36864 (i :: q) = None).
Proof.
  destruct demo_pool_ok as [Hp Hc]. destruct (create_pml4_spec demo_pool [] (tail demo_frames) 36864)
    as (s & E & Hsp & Hc' & _ & Hn & _).
  - rewrite demo_frames_eq in Hp. split; [exact Hp|intros r p f H; inversion H|intros r r' p p' f H; inversion H].
  - rewrite (proj1 Hc), (proj1 (proj2 Hc)). vm_compute. intuition discriminate.
  - rewrite (proj1 (proj2 Hc)). discriminate.
  - unfold demo_space. rewrite E. split; [exact Hsp|]. split; [|exact Hn].
    cbn. rewrite (proj1 Hc'), (proj1 Hc). reflexivity.
Qed.

Lemma demo_fresh : fresh_frame demo_space [36864] (tail demo_frames) 65536.
Proof.
  destruct demo_space_ok as (_ & Hh & Hn). split; [rewrite Hh; vm_compute; intuition discriminate|].
  split; [apply (bool_decide_unpack _); vm_compute; exact I|].
  intros r [|i q] Hr Hq; apply list_elem_of_singleton in Hr as ->; [discriminate|].
  rewrite Hn by exact Hq. discriminate.
Qed.

(** ** The frame allocator *)

(** C24. [xbks_pmm_alloc_frame] implements the abstract pool: on an empty pool it
    answers 0 and changes nothing; otherwise it hands out the frame at the head of
    the list, zeroed, leaves the rest of the pool as it was, and writes no other
    byte of memory. *)
Theorem pmm_alloc_correct s l :
  pool s l ->
  match l with
  | [] => xbks_pmm_alloc_frame s = (0, s)
  | f :: l' => exists s', xbks_pmm_alloc_frame s = (f, s') /\ f <> 0 /\ pool s' l' /\
      page_zero s' f /\ same_but (hhdm_offset_value s) f (ram s) (ram s') /\ same_config s s'
  end.
Proof.
  intros Hp. destruct l as [|f l]; [apply alloc_nil, Hp|].
  destruct (alloc_cons s f l Hp) as (s' & E & H). exists s'. split; [exact E|].
  split; [|exact H]. destruct Hp as (_ & Hok & _). apply Forall_cons_iff in Hok as [(_ & ? & _) _]. lia.
Qed.

Lemma pmm_alloc_correct_witness :
  pool demo_pool demo_frames /\
  exists s', xbks_pmm_alloc_frame demo_pool = (36864, s') /\ pool s' (tail demo_frames).
Proof.
  destruct demo_pool_ok as [Hp _]. split; [exact Hp|].
  destruct (pmm_alloc_correct demo_pool demo_frames Hp) as (s' & E & _ & Hp' & _).
  exists s'. split; [exact E|exact Hp'].
Defined.

(** Freeing a frame and allocating again gives the same frame back, zeroed, with
    the pool as it was before and no byte outside that frame changed. *)
Theorem pmm_free_alloc_roundtrip s l f :
  pool s l -> frame_ok (hhdm_offset_value s) f -> f ∉ l ->
  exists s', xbks_pmm_alloc_frame (xbks_pmm_free_frame s f) = (f, s') /\ pool s' l /\
    page_zero s' f /\ same_but (hhdm_offset_value s) f (ram s) (ram s') /\ same_config s s'.
Proof.
  intros Hp Hf Hn. destruct (fp_free s f l Hp Hf Hn) as (Hp1 & Hm1 & Hc1).
  destruct (alloc_cons _ f l Hp1) as (s' & E & Hp' & Hz & Hm' & Hc').
  exists s'. repeat (split; [assumption|]). split; [|eauto with xbks].
  intros a Ha. rewrite Hm' by (rewrite (proj1 Hc1); exact Ha). apply Hm1, Ha.
Qed.

Lemma pmm_free_alloc_roundtrip_witness :
  exists s', xbks_pmm_alloc_frame (xbks_pmm_free_frame demo_pool 65536) = (65536, s') /\
    pool s' demo_frames.
Proof.
  destruct demo_pool_ok as [Hp Hc]. destruct (pmm_free_alloc_roundtrip demo_pool demo_frames 65536 Hp)
    as (s' & E & Hp' & _).
  - rewrite (proj1 Hc). vm_compute. intuition discriminate.
  - apply (bool_decide_unpack _). vm_compute. exact I.
  - exists s'. split; [exact E|exact Hp'].
Defined.

Lemma mm_init_pool USABLE offset entries s :
  free_frames s = 0 -> free_frame_count s = 0 -> in_u64 (cr3_register s) ->
  memmap_ok USABLE offset entries ->
  exists s' l, xbks_mm_init USABLE (Some offset) (Some entries) s = Some s' /\ pool s' l /\
    hhdm_offset_value s' = offset /\
    kernel_cr3_value s' = cr3_register s - cr3_register s mod 4096 /\
    (forall f, f ∈ l <-> in_usable USABLE entries f) /\
    (forall a, (forall f, in_usable USABLE entries f -> ~ in_page offset f a) -> rd8 (ram s') a = rd8 (ram s) a).
Proof.
  intros Hf Hc Hr Hok. unfold xbks_mm_init, xbks_read_cr3. cbn zeta. cbn [kernel_cr3_value cr3_register free_frames free_frame_count ram].
  set (s1 := Mm offset _ _ _ _ _).
  destruct (add_entries_pool USABLE entries s1 []) as (s' & l & E & Hp & Hcfg & Hl & Hm).
  - repeat split; [constructor|constructor|exact Hf|exact Hc].
  - exact Hok.
  - intros f _ H. inversion H.
  - exists s', l. split; [exact E|]. split; [exact Hp|]. destruct Hcfg as (Hh & Hk & _).
    split; [exact Hh|]. split; [rewrite Hk; exact (land_not_mask 12 _ Hr ltac:(lia))|]. split; [|exact Hm].
    intros f. rewrite Hl. split; [intros [H|H]; [exact H|inversion H]|tauto].
Qed.

(** C37. After [xbks_mm_init] the pool holds exactly the whole pages of the usable
    memory-map entries, frame 0 apart, each once; the kernel root table is the one
    CR3 names and the direct-map offset is the loader's. *)
Theorem mm_init_collects_usable USABLE offset entries s :
  free_frames s = 0 -> free_frame_count s = 0 -> in_u64 (cr3_register s) ->
  memmap_ok USABLE offset entries ->
  exists s' l, xbks_mm_init USABLE (Some offset) (Some entries) s = Some s' /\ pool s' l /\
    hhdm_offset_value s' = offset /\
    kernel_cr3_value s' = cr3_register s - cr3_register s mod 4096 /\
    forall f, f ∈ l <-> exists e, e ∈ entries /\ e_type e = USABLE /\
      f mod 4096 = 0 /\ f <> 0 /\ e_base e <= f /\ f + 4096 <= e_base e + e_length e.
Proof.
  intros Hf Hc Hr Hok. destruct (mm_init_pool USABLE offset entries s Hf Hc Hr Hok) as (s' & l & E & Hp & Hh & Hk & Hl & _).
  exists s', l. split; [exact E|]. split; [exact Hp|]. split; [exact Hh|]. split; [exact Hk|].
  intros f. rewrite Hl. split.
  - intros (e & He & Hu & Hp'). pose proof (memmap_ok_elem _ _ _ e Hok He Hu) as (_ & ? & ? & ? & _).
    apply elem_of_usable_pages in Hp'; [|lia..]. exists e. tauto.
  - intros (e & He & Hu & Hp'). exists e. split; [exact He|]. split; [exact Hu|].
    pose proof (memmap_ok_elem _ _ _ e Hok He Hu) as (_ & ? & ? & ? & _).
    apply elem_of_usable_pages; [lia..|exact Hp'].
Qed.

Lemma mm_init_collects_usable_witness :
  exists s' l, xbks_mm_init 0 (Some demo_hhdm) (Some demo_map) demo_cold = Some s' /\ pool s' l /\
    8192 ∈ l.
Proof.
  destruct (mm_init_collects_usable 0 demo_hhdm demo_map demo_cold) as (s' & l & E & Hp & _ & _ & Hl).
  - reflexivity.
  - reflexivity.
  - vm_compute. intuition discriminate.
  - cbn. unfold usable, range_ok, demo_hhdm. cbn. split; [lia|]. split; [|split; [lia|split; [|exact I]]].
    + intros _ e' He' Hu. apply list_elem_of_singleton in He' as ->. cbn. lia.
    + intros _ e' He'. inversion He'.
  - exists s', l. split; [exact E|]. split; [exact Hp|]. apply Hl. exists (MemmapEntry 4000 37000 0).
    split; [left|]. vm_compute. intuition discriminate.
Defined.

(** ** Mapping and translation *)

(** C8. When [xbks_vmm_map_page] maps a fresh frame at a page-aligned user address it
    returns [true] only for an unmapped page, afterwards every address of the page
    translates into the frame, and no other page of any address space changes its
    translation or the bytes seen through it; the address spaces stay well formed. *)
Theorem map_page_then_translate s roots l r va pa flags s' :
  space s roots l -> r ∈ roots -> user_va va -> va mod 4096 = 0 ->
  fresh_frame s roots l pa -> 0 <= flags < 4096 ->
  xbks_vmm_map_page s r va pa flags = (true, s') ->
  (exists l', space s' roots l' /\ l' `suffix_of` l) /\
  xbks_vmm_translate s r va = None /\
  (forall d, 0 <= d < 4096 -> xbks_vmm_translate s' r (va + d) = Some (pa + d)) /\
  (forall r' va', r' ∈ roots -> user_va va' -> r' <> r \/ va' / 4096 <> va / 4096 ->
     xbks_vmm_translate s' r' va' = xbks_vmm_translate s r' va' /\
     user_byte s' r' va' = user_byte s r' va').
Proof.
  intros Hsp Hr Hva Hal Hfr Hfl E.
  pose proof (map_page_spec s roots l r va pa flags Hsp Hr Hva Hal Hfr Hfl) as H. rewrite E in H.
  destruct H as (Hnone & s1 & l' & G & _ & Hsp' & Hc & Hn & Hm & Ho). split; [|split; [|split]].
  - exists l'. split; [exact Hsp'|apply (g_suffix _ _ _ _ _ _ G)].
  - rewrite (translate_node s roots l r va Hsp Hr Hva), Hnone. reflexivity.
  - intros d Hd. unfold user_va in *. assert (Hvad : user_va (va + d)).
    { unfold user_va. pose proof (Z.div_mod va 4096). lia. }
    rewrite (translate_node s' roots l' r (va + d) Hsp' Hr Hvad), path_page, Hn by assumption.
    cbn [fmap option_fmap option_map]. rewrite Z.add_mod, Hal, Z.add_0_l, Z.mod_mod, Z.mod_small by lia.
    reflexivity.
  - intros r' va' Hr' Hva' Hne. pose proof (upath_path va' Hva') as Hu'.
    assert (Hpne : (r', path va') <> (r, path va)).
    { intros Eq. injection Eq as -> Ep. destruct Hne as [?|Hne]; [congruence|].
      apply Hne. apply path_inj; [assumption..|]. unfold path. congruence. }
    eapply user_byte_agree; [exact Hsp|exact Hsp'|exact Hr'|exact Hva'|..].
    + rewrite (proj1 Hc). apply (g_config _ _ _ _ _ _ G).
    + rewrite Ho by assumption. eapply grow_leaf; [exact G|exact Hr'|exact Hu'|reflexivity].
    + intros x a Hx Ha. apply Hm.
      eapply leaf_untouched; [exact Hsp|exact Hr|exact Hr'|exact Hu'|reflexivity|exact Hx|exact Ha].
Qed.

Lemma demo_user_va : user_va 4194304.
Proof. vm_compute. intuition discriminate. Qed.

(** Mapping frame 0x10000 at 0x400000 on the small machine. *)
Lemma demo_map_page : exists s', xbks_vmm_map_page demo_space 36864 4194304 65536 2 = (true, s').
Proof.
  assert (E : fst (xbks_vmm_map_page demo_space 36864 4194304 65536 2) = true)
    by (vm_compute; reflexivity).
  destruct (xbks_vmm_map_page demo_space 36864 4194304 65536 2) as [b s'].
  cbn [fst] in E. subst b. exists s'. reflexivity.
Qed.

Lemma map_page_then_translate_witness :
  exists s', xbks_vmm_map_page demo_space 36864 4194304 65536 2 = (true, s') /\
    xbks_vmm_translate s' 36864 (4194304 + 96) = Some (65536 + 96).
Proof.
  destruct demo_space_ok as (Hsp & _). destruct demo_map_page as [s' E]. exists s'. split; [exact E|].
  destruct (map_page_then_translate demo_space [36864] (tail demo_frames) 36864 4194304 65536 2
    s' Hsp ltac:(left) demo_user_va eq_refl demo_fresh ltac:(lia) E) as (_ & _ & H & _).
  apply (H 96). lia.
Defined.

(** With three free frames left a request for an unmapped page always succeeds:
    at most three tables are missing on the way to a page. *)
Theorem map_page_succeeds s roots l r va pa flags :
  space s roots l -> r ∈ roots -> user_va va -> va mod 4096 = 0 ->
  fresh_frame s roots l pa -> 0 <= flags < 4096 ->
  xbks_vmm_translate s r va = None -> (3 <= length l)%nat ->
  exists s', xbks_vmm_map_page s r va pa flags = (true, s').
Proof.
  intros Hsp Hr Hva Hal Hfr Hfl Ht Hl.
  pose proof (map_page_spec s roots l r va pa flags Hsp Hr Hva Hal Hfr Hfl) as H.
  destruct (xbks_vmm_map_page s r va pa flags) as [[] s']; [exists s'; reflexivity|].
  destruct H as (l' & _ & [[Hn _]|[_ ?]]); [|lia]. destruct Hn.
  rewrite (translate_node s roots l r va Hsp Hr Hva) in Ht.
  destruct (node s r (path va)); [discriminate|reflexivity].
Qed.

Lemma map_page_succeeds_witness :
  exists s', xbks_vmm_map_page demo_space 36864 140737488347136 65536 6 = (true, s').
Proof.
  destruct demo_space_ok as (Hsp & _ & Hn).
  apply (map_page_succeeds demo_space [36864] (tail demo_frames)); try exact Hsp.
  - left.
  - vm_compute. intuition discriminate.
  - reflexivity.
  - exact demo_fresh.
  - lia.
  - vm_compute. reflexivity.
  - vm_compute. lia.
Defined.

(** A request that [xbks_vmm_map_page] refuses changes no translation and no
    byte any process sees; for a page that is already mapped it changes nothing at
    all. *)
Theorem map_page_refusal s roots l r va pa flags s' :
  space s roots l -> r ∈ roots -> user_va va -> va mod 4096 = 0 ->
  fresh_frame s roots l pa -> 0 <= flags < 4096 ->
  xbks_vmm_map_page s r va pa flags = (false, s') ->
  (exists l', space s' roots l' /\ l' `suffix_of` l) /\
  (xbks_vmm_translate s r va <> None -> s' = s) /\
  (forall r' va', r' ∈ roots -> user_va va' ->
     xbks_vmm_translate s' r' va' = xbks_vmm_translate s r' va' /\
     user_byte s' r' va' = user_byte s r' va').
Proof.
  intros Hsp Hr Hva Hal Hfr Hfl E.
  pose proof (map_page_spec s roots l r va pa flags Hsp Hr Hva Hal Hfr Hfl) as H. rewrite E in H.
  destruct H as (l' & G & Hcase). split; [|split].
  - exists l'. split; [apply (g_space _ _ _ _ _ _ G)|apply (g_suffix _ _ _ _ _ _ G)].
  - rewrite (translate_node s roots l r va Hsp Hr Hva).
    destruct Hcase as [[_ ->]|[-> _]]; [reflexivity|]. intros Hx. destruct Hx. reflexivity.
  - intros r' va' Hr' Hva'. eapply grow_user; eassumption.
Qed.

Lemma demo_mapped_fresh s :
  xbks_vmm_map_page demo_space 36864 4194304 65536 2 = (true, s) ->
  exists l, space s [36864] l /\ node s 36864 (path 4194304) = Some 65536 /\
    forall g, frame_ok demo_hhdm g -> g ∉ demo_frames -> g <> 65536 -> fresh_frame s [36864] l g.
Proof.
  intros E. destruct demo_space_ok as (Hsp & Hh & Hn).
  pose proof (map_page_spec demo_space [36864] (tail demo_frames) 36864 4194304 65536 2 Hsp
    ltac:(left) demo_user_va eq_refl demo_fresh ltac:(lia)) as M.
  rewrite E in M. destruct M as (_ & s1 & l' & G & _ & Hsp' & Hc & Hn' & _ & Ho).
  exists l'. split; [exact Hsp'|]. split; [exact Hn'|]. intros g Hg Hnin Hne.
  pose proof (g_config _ _ _ _ _ _ G) as Hcg. rewrite demo_frames_eq in Hnin. apply not_elem_of_cons in Hnin as [H0 Hnin].
  split; [rewrite (proj1 Hc), (proj1 Hcg), Hh; exact Hg|].
  split; [intros Hx; apply Hnin; exact (suffix_elem _ _ _ (g_suffix _ _ _ _ _ _ G) Hx)|].
  intros r q Hr Hq Hx. apply list_elem_of_singleton in Hr as ->.
  destruct (decide (q = path 4194304)) as [->|Eq].
  - rewrite Hn' in Hx. congruence.
  - rewrite Ho in Hx; [|left|exact Hq|congruence].
    destruct (g_new _ _ _ _ _ _ G 36864 q g ltac:(left) Hq Hx) as [Hx'|(_ & _ & Hx')]; [|exact (Hnin Hx')].
    destruct q as [|i q]; [cbn in Hx'; congruence|]. rewrite Hn in Hx' by exact Hq. discriminate.
Qed.

Lemma demo_mapped s :
  xbks_vmm_map_page demo_space 36864 4194304 65536 2 = (true, s) ->
  exists l, space s [36864] l /\ fresh_frame s [36864] l 131072 /\
    node s 36864 (path 4194304) = Some 65536.
Proof.
  intros E. destruct (demo_mapped_fresh s E) as (l & Hsp & Hn & Hfr). exists l. split; [exact Hsp|]. split; [|exact Hn].
  apply Hfr; [vm_compute; intuition discriminate|apply (bool_decide_unpack _); vm_compute; exact I|discriminate].
Qed.

(** A second request for the page mapped above. *)
Lemma map_page_refusal_witness :
  exists s, xbks_vmm_map_page demo_space 36864 4194304 65536 2 = (true, s) /\
    xbks_vmm_map_page s 36864 4194304 131072 2 = (false, s).
Proof.
  destruct demo_map_page as [s E]. exists s. split; [exact E|].
  destruct (demo_mapped s E) as (l & Hsp & Hfr & N).
  pose proof (map_page_spec s [36864] l 36864 4194304 131072 2 Hsp
    ltac:(left) demo_user_va eq_refl Hfr ltac:(lia)) as M.
  destruct (xbks_vmm_map_page s 36864 4194304 131072 2) as [[] s'] eqn:R.
  { destruct M as [M _]. rewrite N in M. discriminate. }
  destruct (map_page_refusal s [36864] l 36864 4194304 131072 2 s' Hsp
    ltac:(left) demo_user_va eq_refl Hfr ltac:(lia) R) as (_ & Hsame & _).
  rewrite Hsame; [reflexivity|].
  rewrite (translate_node _ _ _ _ _ Hsp ltac:(left) demo_user_va), N. discriminate.
Defined.

(** A new address space has an empty user half, the kernel half of the kernel's
    root table, and its own root frame; the address spaces that exist keep their
    translations. *)
Theorem create_pml4_new_space s roots l f :
  space s roots (f :: l) -> frame_ok (hhdm_offset_value s) (kernel_cr3_value s) ->
  kernel_cr3_value s <> f ->
  exists s', xbks_create_kernel_mapped_pml4 s = (f, s') /\ space s' (f :: roots) l /\
    (forall va, user_va va -> xbks_vmm_translate s' f va = None) /\
    (forall r va, r ∈ roots -> user_va va -> xbks_vmm_translate s' r va = xbks_vmm_translate s r va) /\
    (forall i, 256 <= i < 512 ->
       get_entry s' (kva s' f) i = get_entry s (kva s (kernel_cr3_value s)) i).
Proof.
  intros Hsp Hk Hne. destruct (create_pml4_spec s roots l f Hsp Hk Hne)
    as (s' & E & Hsp' & Hc & _ & Hnone & Hn & Hkern).
  exists s'. split; [exact E|]. split; [exact Hsp'|]. split; [|split].
  - intros va Hva. rewrite (translate_node s' _ _ f va Hsp' ltac:(left) Hva). unfold path.
    rewrite Hnone by (apply (upath_path va Hva)). reflexivity.
  - intros r va Hr Hva.
    rewrite (translate_node s' _ _ r va Hsp' ltac:(right; exact Hr) Hva), (translate_node s _ _ r va Hsp Hr Hva).
    rewrite Hn by (assumption || apply upath_path, Hva). reflexivity.
  - exact Hkern.
Qed.

Lemma create_pml4_new_space_witness :
  exists s', xbks_create_kernel_mapped_pml4 demo_pool = (36864, s') /\
    xbks_vmm_translate s' 36864 65536 = None.
Proof.
  destruct demo_pool_ok as [Hp Hc].
  destruct (create_pml4_new_space demo_pool [] (tail demo_frames) 36864) as (s' & E & _ & H & _).
  - rewrite demo_frames_eq in Hp. split; [exact Hp|intros r p f H; inversion H|intros r r' p p' f H; inversion H].
  - rewrite (proj1 Hc), (proj1 (proj2 Hc)). vm_compute. intuition discriminate.
  - rewrite (proj1 (proj2 Hc)). discriminate.
  - exists s'. split; [exact E|]. apply H. vm_compute. intuition discriminate.
Defined.
