(* ===== verification/VmmClone.v ===== *)
(** * Page tables: cloning the user half of an address space

    The four nested loops of [xbks_vmm_clone_user_space] visit the pages of the source in
    the order of their numbers.  [cloned] is the state after the pages below a number:
    the destination maps copies of the source's pages so far and nothing else, and
    every other address space is as it was. *)

From S2P Require Import Prelude CMem Pmm Vmm VmmSpec.

(** ** Page numbers *)

Definition page_number (a b c d : Z) : Z := ((a * 512 + b) * 512 + c) * 512 + d.

(** The path of a page. *)
Definition page_path (v : Z) : list Z := path (4096 * v).

Lemma div_add_mul a b k : 0 <= b < k -> (a * k + b) / k = a.
Proof. intros H. rewrite Z.div_add_l, (Z.div_small b) by lia. lia. Qed.

Lemma mod_add_mul a b k : 0 <= b < k -> (a * k + b) mod k = b.
Proof. intros H. rewrite Z.add_comm, Z_mod_plus_full. apply Z.mod_small, H. Qed.

Lemma page_path_number a b c d :
  0 <= a < 512 -> 0 <= b < 512 -> 0 <= c < 512 -> 0 <= d < 512 -> page_path (page_number a b c d) = [a; b; c; d].
Proof.
  intros Ha Hb Hc Hd. unfold page_path, path. rewrite !table_index_eq by lia.
  change (2 ^ 39) with (4096 * (512 * (512 * 512))). change (2 ^ 30) with (4096 * (512 * 512)).
  change (2 ^ 21) with (4096 * 512). change (2 ^ 12) with 4096.
  rewrite <- !Z.div_div by (clear; lia). rewrite (Z.mul_comm 4096), Z.div_mul by discriminate. unfold page_number.
  rewrite (div_add_mul _ d 512 Hd), (div_add_mul _ c 512 Hc), (div_add_mul _ b 512 Hb).
  rewrite (mod_add_mul _ d 512 Hd), (mod_add_mul _ c 512 Hc), (mod_add_mul _ b 512 Hb), (Z.mod_small a 512 Ha). reflexivity.
Qed.

Lemma page_user v : 0 <= v < 2 ^ 35 -> user_va (4096 * v).
Proof. unfold user_va. lia. Qed.

Lemma page_upath v : 0 <= v < 2 ^ 35 -> upath (page_path v).
Proof. intros H. apply upath_path, page_user, H. Qed.

Lemma page_path_inj v w : 0 <= v < 2 ^ 35 -> 0 <= w < 2 ^ 35 -> page_path v = page_path w -> v = w.
Proof.
  intros Hv Hw E. pose proof (path_inj _ _ (page_user v Hv) (page_user w Hw) E) as H.
  rewrite (Z.mul_comm 4096 v), (Z.mul_comm 4096 w), !Z.div_mul in H by discriminate. exact H.
Qed.

(** Every page has a number made of its four indices. *)
Lemma page_number_split v : 0 <= v < 2 ^ 35 ->
  exists a b c d, 0 <= a < 256 /\ 0 <= b < 512 /\ 0 <= c < 512 /\ 0 <= d < 512 /\ v = page_number a b c d.
Proof.
  intros Hv. pose proof (Z.div_mod v 512 ltac:(discriminate)) as H1.
  pose proof (Z.mod_pos_bound v 512 ltac:(lia)) as M1. set (v1 := v / 512) in *. set (d := v mod 512) in *.
  pose proof (Z.div_mod v1 512 ltac:(discriminate)) as H2.
  pose proof (Z.mod_pos_bound v1 512 ltac:(lia)) as M2. set (v2 := v1 / 512) in *. set (c := v1 mod 512) in *.
  pose proof (Z.div_mod v2 512 ltac:(discriminate)) as H3.
  pose proof (Z.mod_pos_bound v2 512 ltac:(lia)) as M3. set (a := v2 / 512) in *. set (b := v2 mod 512) in *.
  clearbody a b c d v1 v2. exists a, b, c, d. unfold page_number. lia.
Qed.

(** Joining an index below a multiple. *)
Lemma lor_index x k i : 0 <= k -> 0 <= i < 512 -> Z.lor (x * 2 ^ (k + 9)) (i * 2 ^ k) = (x * 512 + i) * 2 ^ k.
Proof.
  intros Hk Hi. pose proof (Z.pow_pos_nonneg 2 k ltac:(lia) Hk). rewrite Z.pow_add_r by lia. change (2 ^ 9) with 512.
  rewrite (lor_disjoint (k + 9)); [lia|lia| |].
  - rewrite Z.pow_add_r by lia. apply Z_mod_mult.
  - rewrite Z.pow_add_r by lia. nia.
Qed.

Lemma address_of_number a b c d :
  0 <= b < 512 -> 0 <= c < 512 -> 0 <= d < 512 -> address_of a b c d = 4096 * page_number a b c d.
Proof.
  intros Hb Hc Hd. unfold address_of, page_number. rewrite !Z.shiftl_mul_pow2 by lia.
  pose proof (lor_index a 30 b ltac:(lia) Hb) as E1. pose proof (lor_index (a * 512 + b) 21 c ltac:(lia) Hc) as E2.
  pose proof (lor_index ((a * 512 + b) * 512 + c) 12 d ltac:(lia) Hd) as E3.
  change (2 ^ (30 + 9)) with (2 ^ 39) in E1. change (2 ^ (21 + 9)) with (2 ^ 30) in E2. change (2 ^ (12 + 9)) with (2 ^ 21) in E3.
  rewrite E1, E2, E3. change (2 ^ 12) with 4096. apply Z.mul_comm.
Qed.

(** ** Giving a frame back *)

Lemma space_free s roots l f :
  space s roots l -> fresh_frame s roots l f ->
  let s' := xbks_pmm_free_frame s f in
  space s' roots (f :: l) /\ same_config s s' /\ same_but (hhdm_offset_value s) f (ram s) (ram s') /\
  (forall r q, r ∈ roots -> upath q -> node s' r q = node s r q).
Proof.
  intros Hsp (Hf & Hfl & Hfr) s'. destruct (fp_free s f l (sp_pool _ _ _ Hsp) Hf Hfl) as (Hp & Hm & Hc). fold s' in Hp, Hm, Hc.
  assert (Hn : forall r q, r ∈ roots -> upath q -> node s' r q = node s r q).
  { intros r q Hr Hq. eapply node_other_page; [exact Hsp|exact Hr|exact Hq|apply Hc|exact Hm|exact Hf|].
    intros q1 x Hq1 _ Hx ->. exact (Hfr r q1 Hr Hq1 Hx). }
  split; [|auto]. split.
  - exact Hp.
  - intros r p g Hr Hq Hg. rewrite Hn in Hg by assumption. rewrite (proj1 Hc).
    destruct (sp_frame _ _ _ Hsp r p g Hr Hq Hg) as [? Hgl]. split; [assumption|].
    apply not_elem_of_cons. split; [intros ->; exact (Hfr r p Hr Hq Hg)|exact Hgl].
  - intros r r' p p' g Hr Hr' Hq Hq' Hg Hg'. rewrite Hn in Hg, Hg' by assumption. eapply sp_inj; eassumption.
Qed.

(** Writing a page that is nobody's. *)
Lemma space_write s roots l f m :
  space s roots l -> fresh_frame s roots l f -> same_but (hhdm_offset_value s) f (ram s) m ->
  space (set_ram s m) roots l /\ (forall r q, r ∈ roots -> upath q -> node (set_ram s m) r q = node s r q).
Proof.
  intros Hsp (Hf & Hfl & Hfr) Hm.
  assert (Hn : forall r q, r ∈ roots -> upath q -> node (set_ram s m) r q = node s r q).
  { intros r q Hr Hq. eapply node_other_page; [exact Hsp|exact Hr|exact Hq|reflexivity|exact Hm|exact Hf|].
    intros q1 x Hq1 _ Hx ->. exact (Hfr r q1 Hr Hq1 Hx). }
  split; [|exact Hn]. split.
  - apply fp_write; [apply (sp_pool _ _ _ Hsp)|]. intros g a Hg Ha. apply Hm. intros Hfa. apply Hfl.
    destruct (fp_frames s l (sp_pool _ _ _ Hsp)) as [_ Hok]. rewrite Forall_forall in Hok.
    rewrite (in_page_inj _ f g a Hf (Hok g ltac:(apply list_elem_of_In, Hg)) Hfa Ha). exact Hg.
  - intros r p g Hr Hp Hg. rewrite Hn in Hg by assumption. exact (sp_frame _ _ _ Hsp r p g Hr Hp Hg).
  - intros r r' p p' g Hr Hr' Hp Hp' Hg Hg'. rewrite Hn in Hg, Hg' by assumption. eapply sp_inj; eassumption.
Qed.

(** ** The state of the loops *)

Section Clone.
Context (s0 : mm) (roots l0 : list Z) (src dst : Z).
Context (Hsp0 : space s0 roots l0) (Hsrc : src ∈ roots) (Hdst : dst ∈ roots) (Hne : src <> dst).

(** The page [g] holds what the page [f] held at the start. *)
Definition copied (s : mm) (f g : Z) : Prop :=
  forall x, 0 <= x < 4096 -> rd8 (ram s) (kva s0 g + x) = rd8 (ram s0) (kva s0 f + x).

(** [vs] are pages of the source: each costs at most four frames. *)
Definition paid_for (n : Z) (vs : list Z) : Prop :=
  NoDup vs /\ Forall (fun v => 0 <= v < n /\ node s0 src (page_path v) <> None) vs.

Record kept (s : mm) (l : list Z) : Prop := {
  kp_space : space s roots l;
  kp_config : same_config s0 s;
  kp_other r q : r ∈ roots -> r <> dst -> upath q -> node s r q = node s0 r q;
  kp_mem a : untouched s0 dst l0 a -> rd8 (ram s) a = rd8 (ram s0) a;
}.

(** Every frame the pool had is still in it or went to the destination. *)
Definition ledger (s : mm) (l : list Z) : Prop :=
  forall f, f ∈ l0 <-> f ∈ l \/ exists q, upath q /\ q <> [] /\ node s dst q = Some f.

Record cloned (n : Z) (s : mm) (l : list Z) : Prop := {
  cl_kept : kept s l;
  cl_suffix : l `suffix_of` l0;
  cl_cost : exists vs, paid_for n vs /\ (length l0 <= length l + 4 * length vs)%nat;
  cl_ledger : ledger s l;
  cl_done v : 0 <= v < n ->
    match node s0 src (page_path v) with
    | Some f => exists g, node s dst (page_path v) = Some g /\ copied s f g
    | None => node s dst (page_path v) = None
    end;
  cl_todo v : n <= v < 2 ^ 35 -> node s dst (page_path v) = None;
}.

(** The early return: the pool was too small for the pages met so far. *)
Definition failed (s : mm) : Prop :=
  exists l, kept s l /\ ledger s l /\ exists n vs, paid_for n vs /\ n <= 2 ^ 35 /\ (length l0 < 4 * length vs)%nat.

Lemma kp_hhdm s l : kept s l -> hhdm_offset_value s = hhdm_offset_value s0.
Proof using. intros H. apply (kp_config s l H). Qed.

Lemma kp_kva s l t : kept s l -> kva s t = kva s0 t.
Proof using. intros H. unfold kva. rewrite (kp_hhdm s l H). reflexivity. Qed.

Lemma cl_nodes n s l q x : cloned n s l -> upath q -> node s dst q = Some x -> q = [] \/ x ∈ l0.
Proof using.
  intros H Hq Hx. destruct (decide (q = [])) as [|Hq0]; [left; assumption|]. right. apply (cl_ledger _ _ _ H). right. eauto.
Qed.

(** Pages without a frame in the source are done at once. *)
Lemma cloned_skip n m s l :
  cloned n s l -> n <= m <= 2 ^ 35 -> (forall v, n <= v < m -> node s0 src (page_path v) = None) -> cloned m s l.
Proof using.
  intros [K S (vs & [Hnd Hvs] & Hl) N D T] Hm Hnone. split; try assumption.
  - exists vs. split; [|exact Hl]. split; [exact Hnd|]. eapply List.Forall_impl; [|exact Hvs]. intros v [Hv Hs]. split; [lia|exact Hs].
  - intros v Hv. destruct (Z.lt_ge_cases v n); [apply D; lia|]. rewrite Hnone by lia. apply T. lia.
  - intros v Hv. apply T. lia.
Qed.

(** A byte no one may have touched stays so while the destination grows out of the
    pool. *)
Lemma untouched_later n s l a : cloned n s l -> untouched s0 dst l0 a -> untouched s dst l a.
Proof using.
  intros H [H1 H2]. pose proof (kp_hhdm _ _ (cl_kept _ _ _ H)) as Hh. split; rewrite Hh.
  - intros f Hf. apply H1. eapply suffix_elem; [apply (cl_suffix _ _ _ H)|exact Hf].
  - intros q x Hq Hlen Hx. destruct (cl_nodes n s l q x H Hq Hx) as [->|Hin].
    + cbn in Hx. injection Hx as <-. apply (H2 [] dst); [exact Hq|cbn; lia|reflexivity].
    + apply H1, Hin.
Qed.

(** A data page of another address space, and the copies already made, are untouched. *)
Lemma source_page_untouched r q f a :
  r ∈ roots -> r <> dst -> upath q -> node s0 r q = Some f -> in_page (hhdm_offset_value s0) f a -> untouched s0 dst l0 a.
Proof using Hsp0 Hdst.
  intros Hr Hrd Hq Hf Ha. destruct (sp_frame _ _ _ Hsp0 r q f Hr Hq Hf) as [Hfo Hfl].
  destruct (fp_frames s0 l0 (sp_pool _ _ _ Hsp0)) as [_ Hok]. rewrite Forall_forall in Hok. split.
  - intros g Hg Hga. apply Hfl. rewrite (in_page_inj _ f g a Hfo (Hok g ltac:(apply list_elem_of_In, Hg)) Ha Hga). exact Hg.
  - intros q1 y Hq1 _ Hy Hya. destruct (sp_frame _ _ _ Hsp0 dst q1 y Hdst Hq1 Hy) as [Hyo _].
    pose proof (in_page_inj _ f y a Hfo Hyo Ha Hya) as <-.
    destruct (sp_inj _ _ _ Hsp0 r dst q q1 f Hr Hdst Hq Hq1 Hf Hy) as [E _]. exact (Hrd E).
Qed.

(** ** One page *)

(** The frame taken for a page and filled with the source's bytes. *)
Lemma clone_page_copy n s f l p :
  cloned n s (f :: l) -> 0 <= n < 2 ^ 35 -> node s0 src (page_path n) = Some p ->
  exists s1, xbks_pmm_alloc_frame s = (f, s1) /\ f <> 0 /\
    let s2 := set_ram s1 (memcpy (ram s1) (xbks_phys_to_virt s1 f) (xbks_phys_to_virt s1 p) XBKS_PAGE_SIZE) in
    fresh_frame s2 roots l f /\ space s2 roots l /\ same_config s0 s2 /\
    same_but (hhdm_offset_value s0) f (ram s) (ram s2) /\ copied s2 p f /\
    (forall r q, r ∈ roots -> upath q -> node s2 r q = node s r q).
Proof using Hsp0 Hsrc Hdst Hne.
  intros H Hn Hp. pose proof (cl_kept _ _ _ H) as K. pose proof (kp_hhdm _ _ K) as Hh. pose proof (page_upath n Hn) as Hu.
  destruct (space_alloc s roots f l (kp_space _ _ K)) as (s1 & Ha & Hsp1 & _ & Hm1 & Hc1 & Hf & Hfl & Hn1 & Hfr).
  exists s1. split; [exact Ha|]. split; [destruct Hf as (_ & ? & _); lia|]. cbn zeta.
  destruct (sp_frame _ _ _ Hsp0 src _ p Hsrc Hu Hp) as [Hpo Hpl].
  assert (Hc : same_config s0 s1) by (eapply same_config_trans; [apply (kp_config _ _ K)|exact Hc1]).
  rewrite Hh in Hf, Hm1. assert (Hh1 : hhdm_offset_value s1 = hhdm_offset_value s0) by apply Hc.
  assert (Hpf : p <> f) by (intros ->; apply Hpl; eapply suffix_elem; [apply (cl_suffix _ _ _ H)|left]).
  rewrite !phys_to_virt_frame by (rewrite Hh1; assumption).
  assert (Hk : forall t, kva s1 t = kva s0 t) by (intros t; unfold kva; rewrite Hh1; reflexivity). rewrite !Hk.
  assert (Hdis : kva s0 f <= kva s0 p \/ kva s0 p + XBKS_PAGE_SIZE <= kva s0 f).
  { destruct Hf as (_ & _ & Hfm & _), Hpo as (_ & _ & Hpm & _). unfold kva, XBKS_PAGE_SIZE.
    destruct (pages_disjoint p f Hpm Hfm Hpf); lia. }
  set (m2 := memcpy _ _ _ _).
  assert (Hcpy : forall b, rd8 m2 b = if (kva s0 f <=? b) && (b <? kva s0 f + 4096) then rd8 (ram s1) (kva s0 p + (b - kva s0 f)) else rd8 (ram s1) b).
  { intros b. apply rd8_memcpy; [unfold XBKS_PAGE_SIZE; lia|exact Hdis]. }
  assert (Hm2 : same_but (hhdm_offset_value s0) f (ram s1) m2).
  { intros b Hb. rewrite Hcpy. unfold in_page, kva in *. destruct (Z.leb_spec (hhdm_offset_value s0 + f) b), (Z.ltb_spec b (hhdm_offset_value s0 + f + 4096)); cbn; lia || reflexivity. }
  assert (Hfresh : fresh_frame s1 roots l f).
  { split; [rewrite Hh1; exact Hf|]. split; [exact Hfl|]. intros r q Hr Hq. rewrite Hn1 by assumption. apply Hfr; assumption. }
  destruct (space_write s1 roots l f m2 Hsp1 Hfresh) as [Hsp2 Hn2]; [rewrite Hh1; exact Hm2|].
  split; [|split; [exact Hsp2|split; [exact Hc|split; [|split]]]].
  - destruct Hfresh as (F1 & F2 & F3). split; [exact F1|]. split; [exact F2|]. intros r q Hr Hq. rewrite Hn2 by assumption. apply F3; assumption.
  - intros b Hb. cbn [ram set_ram]. rewrite Hm2 by exact Hb. apply Hm1, Hb.
  - intros x Hx. cbn [ram set_ram]. rewrite Hcpy. destruct (Z.leb_spec (kva s0 f) (kva s0 f + x)), (Z.ltb_spec (kva s0 f + x) (kva s0 f + 4096)); try lia. cbn [andb].
    replace (kva s0 p + (kva s0 f + x - kva s0 f)) with (kva s0 p + x) by lia.
    assert (Hpx : in_page (hhdm_offset_value s0) p (kva s0 p + x)) by (unfold in_page, kva; lia).
    rewrite Hm1.
    + apply (kp_mem _ _ K). eapply source_page_untouched; [exact Hsrc|exact Hne|exact Hu|exact Hp|exact Hpx].
    + intros Hfx. apply Hpf. exact (in_page_inj _ p f _ Hpo Hf Hpx Hfx).
  - intros r q Hr Hq. rewrite Hn2, Hn1 by assumption. reflexivity.
Qed.
(** What the copy leaves for the mapping that follows. *)
Record ready_to_map (n : Z) (s s2 : mm) (f : Z) (l : list Z) : Prop := {
  rm_fresh : fresh_frame s2 roots l f;
  rm_space : space s2 roots l;
  rm_config : same_config s0 s2;
  rm_mem : same_but (hhdm_offset_value s0) f (ram s) (ram s2);
  rm_node r q : r ∈ roots -> upath q -> node s2 r q = node s r q;
}.

Section Page.
Context (n : Z) (s s2 : mm) (f : Z) (l : list Z).
Context (H : cloned n s (f :: l)) (R : ready_to_map n s s2 f l) (Hn : 0 <= n < 2 ^ 35).

Let K : kept s (f :: l) := cl_kept _ _ _ H.
Let Hh : hhdm_offset_value s2 = hhdm_offset_value s0 := proj1 (rm_config _ _ _ _ _ R).

Lemma page_in_pool : f ∈ l0.
Proof using H. eapply suffix_elem; [apply (cl_suffix _ _ _ H)|left]. Qed.

Lemma page_untouched a : untouched s0 dst l0 a -> untouched s2 dst l a /\ rd8 (ram s2) a = rd8 (ram s0) a.
Proof using H R Hdst.
  intros Ha. pose proof (untouched_later _ _ _ _ H Ha) as [H1 H2]. rewrite (kp_hhdm _ _ K) in H1, H2. split.
  - split; rewrite Hh; [intros g Hg; apply H1; right; exact Hg|].
    intros q x Hq Hl Hx. rewrite (rm_node _ _ _ _ _ R) in Hx by assumption. eapply H2; eassumption.
  - rewrite (rm_mem _ _ _ _ _ R a) by (apply H1; left). apply (kp_mem _ _ K), Ha.
Qed.

(** The state after the tables have grown, whether the page was entered or not. *)
Lemma grown_kept s3 l3 s4 :
  grow roots dst s2 s3 l l3 -> space s4 roots l3 -> same_config s3 s4 ->
  (forall r q, r ∈ roots -> r <> dst -> upath q -> node s4 r q = node s3 r q) ->
  (forall a, untouched s2 dst l a -> rd8 (ram s4) a = rd8 (ram s2) a) -> kept s4 l3.
Proof using H R Hdst.
  intros G Hsp4 Hc Ho Hm. split.
  - exact Hsp4.
  - eapply same_config_trans; [apply (rm_config _ _ _ _ _ R)|]. eapply same_config_trans; [apply (g_config _ _ _ _ _ _ G)|exact Hc].
  - intros r q Hr Hrd Hq. rewrite Ho by assumption. rewrite <- (kp_other _ _ K r q Hr Hrd Hq), <- (rm_node _ _ _ _ _ R r q Hr Hq).
    destruct (node s3 r q) as [x|] eqn:E.
    + destruct (g_new _ _ _ _ _ _ G r q x Hr Hq E) as [E2|(E2 & _)]; [symmetry; exact E2|congruence].
    + destruct (node s2 r q) as [x|] eqn:E2; [|reflexivity]. rewrite (g_node _ _ _ _ _ _ G r q x Hr Hq E2) in E. discriminate.
  - intros a Ha. destruct (page_untouched a Ha) as [Hu Hr]. rewrite (Hm a Hu). exact Hr.
Qed.

Lemma page_cost : node s0 src (page_path n) <> None ->
  exists vs, paid_for (n + 1) vs /\ (length l0 + 3 <= length l + 4 * length vs)%nat.
Proof using H Hn.
  intros Hs. destruct (cl_cost _ _ _ H) as (vs & [Hnd Hvs] & Hl). exists (n :: vs). split.
  - split.
    + apply list.NoDup_cons. split; [|exact Hnd]. intros Hin. rewrite List.Forall_forall in Hvs.
      destruct (Hvs n ltac:(apply list_elem_of_In, Hin)). lia.
    + constructor; [split; [lia|exact Hs]|]. eapply List.Forall_impl; [|exact Hvs]. intros v [? ?]. split; [lia|assumption].
  - cbn [length] in *. lia.
Qed.

Lemma page_path_nil v : page_path v <> [].
Proof using. discriminate. Qed.

(** Where the pool's frames are once the tables have grown: the page's own frame is in hand. *)
Lemma grown_ledger s3 l3 x :
  grow roots dst s2 s3 l l3 ->
  x ∈ l0 <-> x = f \/ x ∈ l3 \/ exists q, upath q /\ q <> [] /\ q <> page_path n /\ node s3 dst q = Some x.
Proof using H R Hn Hdst.
  intros G. pose proof (page_upath n Hn) as Hu.
  assert (Hnone : node s3 dst (page_path n) = None).
  { rewrite (grow_leaf _ _ _ _ _ _ _ _ G Hdst Hu eq_refl), (rm_node _ _ _ _ _ R) by assumption. apply (cl_todo _ _ _ H). lia. }
  assert (Hnp : forall q y, node s3 dst q = Some y -> q <> page_path n) by (intros q y Hy ->; congruence).
  rewrite (cl_ledger _ _ _ H x), elem_of_cons. split.
  - intros [[->|Hx]|(q & Hq & Hq0 & Hx)]; [left; reflexivity| |].
    + right. destruct (g_used _ _ _ _ _ _ G x Hx) as [H1|(q & Hq & Hq0 & H1)]; [left; exact H1|right; eauto 6].
    + right. right. exists q. rewrite <- (rm_node _ _ _ _ _ R) in Hx by assumption.
      pose proof (g_node _ _ _ _ _ _ G dst q x Hdst Hq Hx) as H1. eauto.
  - intros [->|[Hx|(q & Hq & Hq0 & _ & Hx)]]; [left; left; reflexivity|left; right; eapply suffix_elem; [apply (g_suffix _ _ _ _ _ _ G)|exact Hx]|].
    destruct (g_new _ _ _ _ _ _ G dst q x Hdst Hq Hx) as [Hx2|(_ & _ & Hx2)]; [|left; right; exact Hx2].
    rewrite (rm_node _ _ _ _ _ R) in Hx2 by assumption. right. eauto.
Qed.

(** The page is entered: one more page is cloned. *)
Lemma page_entered p s3 l3 s4 :
  node s0 src (page_path n) = Some p -> copied s2 p f ->
  grow roots dst s2 s3 l l3 -> (length l <= 3 + length l3)%nat -> space s4 roots l3 -> same_config s3 s4 ->
  node s4 dst (page_path n) = Some f ->
  (forall a, untouched s2 dst l a -> rd8 (ram s4) a = rd8 (ram s2) a) ->
  (forall r q, r ∈ roots -> upath q -> (r, q) <> (dst, page_path n) -> node s4 r q = node s3 r q) ->
  cloned (n + 1) s4 l3.
Proof using H R Hn Hsp0 Hdst.
  intros Hp Hcp G Hl3 Hsp4 Hc Hnew Hm Ho. pose proof (page_upath n Hn) as Hu.
  assert (Hfo : frame_ok (hhdm_offset_value s0) f /\ (f ∉ l) /\ (forall r q, r ∈ roots -> upath q -> node s2 r q <> Some f)).
  { rewrite <- Hh. apply (rm_fresh _ _ _ _ _ R). }
  destruct Hfo as (Hfo & Hfl & Hfn).
  assert (Hleaf : forall v, 0 <= v < 2 ^ 35 -> v <> n -> node s4 dst (page_path v) = node s dst (page_path v)).
  { intros v Hv Hvn. pose proof (page_upath v Hv) as Huv. rewrite Ho, <- (rm_node _ _ _ _ _ R dst _ Hdst Huv); [|exact Hdst|exact Huv|].
    - eapply grow_leaf; [exact G|exact Hdst|exact Huv|reflexivity].
    - intros E. apply Hvn, page_path_inj; [exact Hv|exact Hn|exact (f_equal snd E)]. }
  split.
  - eapply (grown_kept s3); [exact G|exact Hsp4|exact Hc| |exact Hm]. intros r q Hr Hrd Hq. apply Ho; [exact Hr|exact Hq|congruence].
  - etransitivity; [apply (g_suffix _ _ _ _ _ _ G)|]. etransitivity; [|apply (cl_suffix _ _ _ H)]. exists [f]. reflexivity.
  - destruct page_cost as (vs & Hvs & Hl); [congruence|]. exists vs. split; [exact Hvs|]. lia.
  - intros x. rewrite (grown_ledger s3 l3 x G). split.
    + intros [->|[Hx|(q & Hq & Hq0 & Hqn & Hx)]]; [right; exists (page_path n); auto using page_path_nil|left; exact Hx|right; exists q].
      rewrite Ho; [auto|exact Hdst|exact Hq|congruence].
    + intros [Hx|(q & Hq & Hq0 & Hx)]; [right; left; exact Hx|]. destruct (decide (q = page_path n)) as [->|Hqn]; [left; congruence|].
      rewrite Ho in Hx by (assumption || congruence). right. right. eauto 6.
  - intros v Hv. destruct (Z.eq_dec v n) as [->|Hvn].
    + rewrite Hp. exists f. split; [exact Hnew|]. intros x Hx. rewrite Hm; [apply Hcp, Hx|]. split; rewrite Hh.
      * intros g Hg Hga. apply Hfl. destruct (fp_frames s2 l (sp_pool _ _ _ (rm_space _ _ _ _ _ R))) as [_ Hok]. rewrite Hh, Forall_forall in Hok.
        rewrite (in_page_inj _ f g (kva s0 f + x) Hfo (Hok g ltac:(apply list_elem_of_In, Hg))); [exact Hg|unfold in_page, kva; lia|exact Hga].
      * intros q y Hq _ Hy Hya. apply (Hfn dst q Hdst Hq). destruct (sp_frame _ _ _ (rm_space _ _ _ _ _ R) dst q y Hdst Hq Hy) as [Hyo _].
        rewrite Hh in Hyo. rewrite (in_page_inj _ f y (kva s0 f + x) Hfo Hyo); [exact Hy|unfold in_page, kva; lia|exact Hya].
    + pose proof (cl_done _ _ _ H v ltac:(lia)) as D. rewrite Hleaf by lia.
      destruct (node s0 src (page_path v)) as [pv|]; [|exact D]. destruct D as (g & Hg & Hcg). exists g. split; [exact Hg|].
      pose proof (page_upath v ltac:(lia)) as Huv.
      assert (Hg2 : node s2 dst (page_path v) = Some g) by (rewrite (rm_node _ _ _ _ _ R) by assumption; exact Hg).
      destruct (sp_frame _ _ _ (rm_space _ _ _ _ _ R) dst _ g Hdst Huv Hg2) as [Hgo _]. rewrite Hh in Hgo.
      intros x Hx. assert (Hgx : in_page (hhdm_offset_value s0) g (kva s0 g + x)) by (unfold in_page, kva; lia).
      rewrite Hm, (rm_mem _ _ _ _ _ R); [apply Hcg, Hx| |].
      * intros Hfx. apply (Hfn dst _ Hdst Huv). rewrite <- (in_page_inj _ g f _ Hgo Hfo Hgx Hfx). exact Hg2.
      * eapply leaf_untouched; [apply (rm_space _ _ _ _ _ R)|exact Hdst|exact Hdst|exact Huv|reflexivity|exact Hg2|rewrite Hh; exact Hgx].
  - intros v Hv. rewrite Hleaf by lia. apply (cl_todo _ _ _ H). lia.
Qed.

(** The page is refused for want of tables: its frame goes back to the pool. *)
Lemma page_refused s3 l3 :
  node s0 src (page_path n) <> None -> grow roots dst s2 s3 l l3 -> (length l < 3)%nat ->
  failed (xbks_pmm_free_frame s3 f).
Proof using H R Hn Hdst.
  intros Hp G Hl. destruct (rm_fresh _ _ _ _ _ R) as (Hfo & Hfl & Hfn). pose proof (g_config _ _ _ _ _ _ G) as Hc.
  destruct (space_free s3 roots l3 f (g_space _ _ _ _ _ _ G)) as (Hsp4 & Hc4 & Hm4 & Hn4).
  { split; [rewrite (proj1 Hc); exact Hfo|]. split; [intros Hin; apply Hfl; eapply suffix_elem; [apply (g_suffix _ _ _ _ _ _ G)|exact Hin]|].
    intros r q Hr Hq Hx. destruct (g_new _ _ _ _ _ _ G r q f Hr Hq Hx) as [E|(_ & _ & E)]; [exact (Hfn r q Hr Hq E)|exact (Hfl E)]. }
  assert (Hk3 : kept s3 l3).
  { eapply (grown_kept s3); [exact G|apply (g_space _ _ _ _ _ _ G)|apply same_config_refl|reflexivity|apply (g_mem _ _ _ _ _ _ G)]. }
  exists (f :: l3). split.
  - split.
    + exact Hsp4.
    + eapply same_config_trans; [apply (kp_config _ _ Hk3)|exact Hc4].
    + intros r q Hr Hrd Hq. rewrite Hn4 by assumption. apply (kp_other _ _ Hk3); assumption.
    + intros a Ha. rewrite Hm4; [apply (kp_mem _ _ Hk3), Ha|]. rewrite (kp_hhdm _ _ Hk3). apply (proj1 Ha). apply page_in_pool.
  - split.
    + intros x. rewrite (grown_ledger s3 l3 x G), elem_of_cons. split.
      * intros [->|[Hx|(q & Hq & Hq0 & _ & Hx)]]; [left; left; reflexivity|left; right; exact Hx|right; exists q].
        rewrite Hn4 by assumption. auto.
      * intros [[->|Hx]|(q & Hq & Hq0 & Hx)]; [left; reflexivity|right; left; exact Hx|]. rewrite Hn4 in Hx by assumption.
        right. right. exists q. split; [exact Hq|]. split; [exact Hq0|]. split; [|exact Hx]. intros ->.
        rewrite (grow_leaf _ _ _ _ _ _ _ _ G Hdst Hq eq_refl), (rm_node _ _ _ _ _ R), (cl_todo _ _ _ H) in Hx by (assumption || lia). discriminate.
    + destruct (page_cost Hp) as (vs & Hvs & Hcost). exists (n + 1), vs. split; [exact Hvs|]. lia.
Qed.
End Page.

(** ** The loops *)

Context (user_top : Z) (Htop : 2 ^ 47 <= user_top).

Definition clone_inv (n : Z) (r : ctl mm mm) : Prop :=
  match r with Next s => exists l, cloned n s l | Exit s => failed s end.

(** The source's tables are where they were. *)
Lemma source_walk n s l p t i :
  cloned n s l -> upath (p ++ [i]) -> node s0 src p = Some t ->
  if (get_entry s (kva s0 t) i & XBKS_PAGE_PRESENT) =? 0 then node s0 src (p ++ [i]) = None
  else exists t', node s0 src (p ++ [i]) = Some t' /\ (get_entry s (kva s0 t) i & ADDRESS_MASK) = t' /\
       page_table_from_entry s (get_entry s (kva s0 t) i) = kva s0 t'.
Proof using Hsrc Hne.
  intros H Hu Ht. pose proof (cl_kept _ _ _ H) as K. pose proof (upath_app_inv _ _ Hu) as Hp.
  pose proof (walk_step s roots l src p t i (kp_space _ _ K) Hsrc Hu) as W.
  rewrite (kp_other _ _ K src p Hsrc Hne Hp), (kp_other _ _ K src (p ++ [i]) Hsrc Hne Hu), (kp_kva _ _ _ K) in W.
  specialize (W Ht). destruct (_ =? 0); [exact W|]. destruct W as [W1 W2]. eexists. split; [exact W1|]. split; [reflexivity|].
  rewrite W2. apply (kp_kva _ _ _ K).
Qed.

Lemma clone_page a b c d t s l :
  0 <= a < 256 -> 0 <= b < 512 -> 0 <= c < 512 -> 0 <= d < 512 -> node s0 src [a; b; c] = Some t ->
  cloned (page_number a b c d) s l ->
  clone_inv (page_number a b c d + 1) (clone_pt_step dst user_top a b c (kva s0 t) d s).
Proof using Hsp0 Hsrc Hdst Hne Htop.
  intros Ha Hb Hc Hd Ht H. set (n := page_number a b c d) in *.
  assert (Hn : 0 <= n < 2 ^ 35) by (unfold n, page_number; lia). pose proof (page_upath n Hn) as Hu.
  assert (Hpath : [a; b; c] ++ [d] = page_path n) by (unfold n; rewrite page_path_number by lia; reflexivity).
  unfold clone_pt_step. pose proof (source_walk n s l [a; b; c] t d H ltac:(rewrite Hpath; exact Hu) Ht) as W. rewrite Hpath in W.
  destruct (_ =? 0).
  { exists l. eapply cloned_skip; [exact H|lia|]. intros v Hv. replace v with n by lia. exact W. }
  destruct W as (p & Hp & -> & _). rewrite address_of_number by lia. fold n.
  destruct (Z.leb_spec user_top (4096 * n)); [lia|].
  pose proof (cl_kept _ _ _ H) as K. destruct l as [|f l].
  { rewrite (fp_empty s (sp_pool _ _ _ (kp_space _ _ K))). cbn [Z.eqb]. exists []. split; [exact K|]. split; [apply (cl_ledger _ _ _ H)|].
    destruct (cl_cost _ _ _ H) as (vs & [Hnd Hvs] & Hl). exists (n + 1), (n :: vs). split; [|split; [lia|cbn [length] in *; lia]]. split.
    - apply list.NoDup_cons. split; [|exact Hnd]. intros Hin. rewrite List.Forall_forall in Hvs. destruct (Hvs n ltac:(apply list_elem_of_In, Hin)). lia.
    - constructor; [split; [lia|congruence]|]. eapply List.Forall_impl; [|exact Hvs]. intros v [? ?]. split; [lia|assumption]. }
  destruct (clone_page_copy n s f l p H Hn Hp) as (s1 & -> & Hf0 & R1 & R2 & R3 & R4 & Hcp & R5).
  destruct (Z.eqb_spec f 0); [lia|]. set (s2 := set_ram s1 _) in *.
  assert (R : ready_to_map n s s2 f l) by (split; assumption).
  assert (Hfl : 0 <= clone_page_flags (get_entry s (kva s0 t) d) < 4096) by (apply (land_range_r 12); lia).
  assert (Hal : (4096 * n) mod 4096 = 0) by (rewrite Z.mul_comm; apply Z_mod_mult).
  pose proof (map_page_spec s2 roots l dst (4096 * n) f _ R2 Hdst (page_user n Hn) Hal R1 Hfl) as M.
  destruct (xbks_vmm_map_page s2 dst (4096 * n) f _) as [[] s4].
  - destruct M as (_ & s3 & l3 & G & Hl3 & Hsp4 & Hc4 & Hnew & Hm & Ho). exists l3.
    eapply (page_entered n s s2 f l H R Hn p s3 l3 s4); eassumption.
  - destruct M as (l3 & G & [[Hmapped _]|[_ Hl]]).
    + exfalso. apply Hmapped. rewrite R5 by assumption. apply (cl_todo _ _ _ H). lia.
    + eapply (page_refused n s s2 f l H R Hn); [congruence|exact G|exact Hl].
Qed.

(** A loop over an index that covers [k] pages per round. *)
Lemma clone_scan base k m (step : Z -> mm -> ctl mm mm) s :
  (exists l, cloned base s l) ->
  (forall i s', 0 <= i < Z.of_nat m -> (exists l, cloned (base + i * k) s' l) -> clone_inv (base + i * k + k) (step i s')) ->
  clone_inv (base + Z.of_nat m * k) (scan_range m 0 step s).
Proof using.
  intros H0 Hstep.
  pose proof (scan_range_inv (fun i s' => exists l, cloned (base + i * k) s' l) failed m 0 step s) as L.
  unfold clone_inv. destruct (scan_range m 0 step s) as [s'|s'].
  - apply L; [rewrite Z.add_0_r; exact H0|]. intros j t Hj Ht. pose proof (Hstep j t ltac:(lia) Ht) as Hs. unfold clone_inv in Hs.
    replace (base + (j + 1) * k) with (base + j * k + k) by lia. exact Hs.
  - apply L; [rewrite Z.add_0_r; exact H0|]. intros j t Hj Ht. pose proof (Hstep j t ltac:(lia) Ht) as Hs. unfold clone_inv in Hs.
    replace (base + (j + 1) * k) with (base + j * k + k) by lia. exact Hs.
Qed.

(** A table that is not there covers pages that are not there. *)
Lemma clone_absent base k p s l :
  cloned base s l -> node s0 src p = None -> 0 <= k -> base + k <= 2 ^ 35 ->
  (forall v, base <= v < base + k -> exists q, page_path v = p ++ q) -> exists l', cloned (base + k) s l'.
Proof using.
  intros H Hp Hk Hb Hq. exists l. eapply cloned_skip; [exact H|lia|]. intros v Hv. destruct (Hq v Hv) as [q ->].
  exact (node_cut s0 src p q _ Hp eq_refl).
Qed.

Lemma clone_pd a b c t s l :
  0 <= a < 256 -> 0 <= b < 512 -> 0 <= c < 512 -> node s0 src [a; b] = Some t -> cloned (page_number a b c 0) s l ->
  clone_inv (page_number a b c 0 + 512) (clone_pd_step dst user_top a b (kva s0 t) c s).
Proof using Hsp0 Hsrc Hdst Hne Htop.
  intros Ha Hb Hc Ht H. set (n := page_number a b c 0) in *. assert (Hn : 0 <= n /\ n + 512 <= 2 ^ 35) by (unfold n, page_number; lia).
  assert (Hpath : forall v, n <= v < n + 512 -> exists d, 0 <= d < 512 /\ v = page_number a b c d).
  { intros v Hv. exists (v - n). unfold n, page_number in *. lia. }
  assert (Hu : upath ([a; b] ++ [c])).
  { apply (upath_app_inv _ [0]). pose proof (page_upath n ltac:(lia)) as Hu. unfold n in Hu. rewrite page_path_number in Hu by lia. exact Hu. }
  unfold clone_pd_step. pose proof (source_walk n s l [a; b] t c H Hu Ht) as W. cbn [app] in W. destruct (_ =? 0).
  - eapply clone_absent; [exact H|exact W|lia|lia|]. intros v Hv. destruct (Hpath v Hv) as (d & Hd & ->). exists [d]. apply page_path_number; lia.
  - destruct W as (t' & Ht' & _ & ->). change 512 with (Z.of_nat 512 * 1) at 1. apply clone_scan; [rewrite ?Z.add_0_r; eauto|].
    intros d s' Hd [l' H']. replace (n + d * 1) with (page_number a b c d) in * by (unfold n, page_number; lia).
    eapply clone_page; [lia|lia|lia|lia|exact Ht'|exact H'].
Qed.

Lemma clone_pdpt a b t s l :
  0 <= a < 256 -> 0 <= b < 512 -> node s0 src [a] = Some t -> cloned (page_number a b 0 0) s l ->
  clone_inv (page_number a b 0 0 + 512 * 512) (clone_pdpt_step dst user_top a (kva s0 t) b s).
Proof using Hsp0 Hsrc Hdst Hne Htop.
  intros Ha Hb Ht H. set (n := page_number a b 0 0) in *. assert (Hn : 0 <= n /\ n + 512 * 512 <= 2 ^ 35) by (unfold n, page_number; lia).
  assert (Hu : upath ([a] ++ [b])).
  { apply (upath_app_inv _ [0; 0]). pose proof (page_upath n ltac:(lia)) as Hu. unfold n in Hu. rewrite page_path_number in Hu by lia. exact Hu. }
  unfold clone_pdpt_step. pose proof (source_walk n s l [a] t b H Hu Ht) as W. cbn [app] in W. destruct (_ =? 0).
  - eapply clone_absent; [exact H|exact W|lia|lia|]. intros v Hv.
    destruct (page_number_split v ltac:(lia)) as (a' & b' & c & d & Ha' & Hb' & Hc & Hd & ->).
    assert (a' = a /\ b' = b) as [-> ->] by (unfold n, page_number in *; lia). exists [c; d]. apply page_path_number; lia.
  - destruct W as (t' & Ht' & _ & ->). change (512 * 512) with (Z.of_nat 512 * 512). apply clone_scan; [rewrite ?Z.add_0_r; eauto|].
    intros c s' Hc [l' H']. replace (n + c * 512) with (page_number a b c 0) in * by (unfold n, page_number; lia).
    eapply clone_pd; [lia|lia|lia|exact Ht'|exact H'].
Qed.

Lemma clone_pml4 a s l :
  0 <= a < 256 -> cloned (page_number a 0 0 0) s l ->
  clone_inv (page_number a 0 0 0 + 512 * 512 * 512) (clone_pml4_step dst user_top (kva s0 src) a s).
Proof using Hsp0 Hsrc Hdst Hne Htop.
  intros Ha H. set (n := page_number a 0 0 0) in *. assert (Hn : 0 <= n /\ n + 512 * 512 * 512 <= 2 ^ 35) by (unfold n, page_number; lia).
  assert (Hu : upath ([] ++ [a])).
  { apply (upath_app_inv _ [0; 0; 0]). pose proof (page_upath n ltac:(lia)) as Hu. unfold n in Hu. rewrite page_path_number in Hu by lia. exact Hu. }
  unfold clone_pml4_step. pose proof (source_walk n s l [] src a H Hu eq_refl) as W. cbn [app] in W. destruct (_ =? 0).
  - eapply clone_absent; [exact H|exact W|lia|lia|]. intros v Hv.
    destruct (page_number_split v ltac:(lia)) as (a' & b & c & d & Ha' & Hb & Hc & Hd & ->).
    assert (a' = a) as -> by (unfold n, page_number in *; lia). exists [b; c; d]. apply page_path_number; lia.
  - destruct W as (t' & Ht' & _ & ->). change (512 * 512 * 512) with (Z.of_nat 512 * (512 * 512)). apply clone_scan; [rewrite ?Z.add_0_r; eauto|].
    intros b s' Hb [l' H']. replace (n + b * (512 * 512)) with (page_number a b 0 0) in * by (unfold n, page_number; lia).
    eapply clone_pdpt; [lia|lia|exact Ht'|exact H'].
Qed.

Lemma clone_start : (forall i q, upath (i :: q) -> node s0 dst (i :: q) = None) -> cloned 0 s0 l0.
Proof using Hsp0.
  intros Hempty. split.
  - split; [exact Hsp0|apply same_config_refl|reflexivity|reflexivity].
  - reflexivity.
  - exists []. split; [split; constructor|cbn; lia].
  - intros f. split; [left; assumption|]. intros [Hf|([|i q] & Hq & Hq0 & Hf)]; [exact Hf|congruence|].
    rewrite Hempty in Hf by exact Hq. discriminate.
  - lia.
  - intros v Hv. pose proof (page_upath v Hv) as Hu. unfold page_path, path in *. apply Hempty, Hu.
Qed.

Lemma clone_ok :
  (forall i q, upath (i :: q) -> node s0 dst (i :: q) = None) ->
  match xbks_vmm_clone_user_space s0 src dst user_top with
  | (true, s) => exists l, cloned (2 ^ 35) s l
  | (false, s) => failed s
  end.
Proof using Hsp0 Hsrc Hdst Hne Htop.
  intros Hempty. unfold xbks_vmm_clone_user_space.
  rewrite phys_to_virt_frame by (eapply space_root; eassumption).
  assert (H : clone_inv (0 + Z.of_nat 256 * (512 * 512 * 512)) (scan_range 256 0 (clone_pml4_step dst user_top (kva s0 src)) s0)).
  { apply clone_scan; [exists l0; apply clone_start, Hempty|]. intros a s Ha [l Hl].
    replace (0 + a * (512 * 512 * 512)) with (page_number a 0 0 0) in * by (unfold page_number; lia).
    eapply clone_pml4; [lia|exact Hl]. }
  destruct (scan_range 256 0 _ s0) as [s|s]; [|exact H]. exact H.
Qed.

(** ** What the processes see *)

Lemma user_va_page va : user_va va -> exists v, 0 <= v < 2 ^ 35 /\ path va = page_path v.
Proof using.
  intros Hva. exists (va / 4096). unfold user_va in Hva. pose proof (Z.div_mod va 4096 ltac:(discriminate)) as E.
  pose proof (Z.mod_pos_bound va 4096 ltac:(lia)). split; [lia|].
  replace va with (4096 * (va / 4096) + va mod 4096) at 1 by lia. apply path_page; [lia|]. rewrite Z.mul_comm. apply Z_mod_mult.
Qed.

(** Other processes see what they saw. *)
Lemma kept_user s l r va :
  kept s l -> r ∈ roots -> r <> dst -> user_va va ->
  xbks_vmm_translate s r va = xbks_vmm_translate s0 r va /\ user_byte s r va = user_byte s0 r va.
Proof using Hsp0 Hdst.
  intros K Hr Hrd Hva. pose proof (upath_path va Hva) as Hu.
  eapply user_byte_agree; [exact Hsp0|apply (kp_space _ _ K)|exact Hr|exact Hva|apply (kp_hhdm _ _ K)|apply (kp_other _ _ K); assumption|].
  intros x a Hx Ha. apply (kp_mem _ _ K). eapply source_page_untouched; [exact Hr|exact Hrd|exact Hu|exact Hx|exact Ha].
Qed.

(** The destination sees what the source saw. *)
Lemma cloned_user s l va : cloned (2 ^ 35) s l -> user_va va -> user_byte s dst va = user_byte s0 src va.
Proof using Hsp0 Hsrc Hdst.
  intros H Hva. pose proof (cl_kept _ _ _ H) as K. rewrite (user_byte_node s roots l), (user_byte_node s0 roots l0); [|assumption..|apply (kp_space _ _ K)|assumption|assumption].
  destruct (user_va_page va Hva) as (v & Hv & ->). pose proof (cl_done _ _ _ H v Hv) as D.
  destruct (node s0 src (page_path v)) as [f|]; [|rewrite D; reflexivity]. destruct D as (g & -> & Hg).
  cbn [fmap option_fmap option_map]. f_equal. rewrite (kp_kva _ _ _ K). apply Hg, Z.mod_pos_bound. lia.
Qed.
End Clone.
