(* ===== verification/VmmDestroy.v ===== *)
(** * Page tables: destroying an address space

    [xbks_vmm_destroy_user_space] walks the tables in order and frees each table after what
    it leads to.  [pruned m] is the state when the walk stands at the index path [m]:
    the paths before [m] are gone from the space and their frames are in the pool,
    the others are as they were. *)

From S2P Require Import Prelude CMem Pmm Vmm VmmSpec VmmClone.

(** ** The order of the walk *)

(** [q] is, or goes through, an entry that comes before position [m]. *)
Fixpoint before (q m : list Z) : bool :=
  match q, m with
  | i :: q', j :: m' => (i <? j) || ((i =? j) && before q' m')
  | _, _ => false
  end.

Lemma before_nil q : before q [] = false.
Proof. destruct q; reflexivity. Qed.

Lemma before_prefix p m : before p (p ++ m) = false.
Proof. induction p as [|i p IH]; cbn; [reflexivity|]. rewrite Z.ltb_irrefl, Z.eqb_refl, IH. reflexivity. Qed.

Lemma before_self p : before p p = false.
Proof. pose proof (before_prefix p []) as H. rewrite app_nil_r in H. exact H. Qed.

(** Nothing comes before the first entry of a table. *)
Lemma before_first q m : Forall (fun i => 0 <= i) q -> before q (m ++ [0]) = before q m.
Proof.
  intros Hq. revert m. induction Hq as [|i q Hi Hq IH]; intros [|j m]; cbn; try reflexivity.
  - rewrite before_nil. destruct (Z.ltb_spec i 0), (Z.eqb_spec i 0); cbn; lia || reflexivity.
  - rewrite IH. reflexivity.
Qed.

(** After an entry come the paths through it. *)
Lemma before_next q p i :
  before q (p ++ [i + 1]) = before q (p ++ [i]) || bool_decide ((p ++ [i]) `prefix_of` q).
Proof.
  revert q. induction p as [|j p IH]; intros q; destruct q as [|k q]; cbn [app before].
  - symmetry. apply orb_false_iff. split; [reflexivity|]. apply bool_decide_eq_false. intros [x Hx]. discriminate.
  - rewrite !before_nil, !andb_false_r, !orb_false_r. destruct (Z.ltb_spec k (i + 1)), (Z.ltb_spec k i); cbn [orb]; try lia; try reflexivity.
    + symmetry. apply bool_decide_eq_true. exists q. cbn. f_equal. lia.
    + symmetry. apply bool_decide_eq_false. intros [x Hx]. injection Hx as -> _. lia.
  - symmetry. apply orb_false_iff. split; [reflexivity|]. apply bool_decide_eq_false. intros [x Hx]. discriminate.
  - rewrite IH. destruct (Z.ltb_spec k j) as [Hlt|Hge]; cbn [orb]; [reflexivity|].
    destruct (Z.eqb_spec k j) as [->|Hne]; cbn [andb orb].
    + f_equal. apply bool_decide_ext. split; intros [x Hx]; exists x; [cbn; rewrite Hx; reflexivity|]. injection Hx as Hx. exact Hx.
    + symmetry. apply bool_decide_eq_false. intros [x Hx]. injection Hx as -> _. lia.
Qed.

(** Past the last entry of a table come the paths through the table. *)
Lemma before_last q p : Forall (fun i => i < 512) q ->
  before q (p ++ [512]) = before q p || bool_decide (p `prefix_of` q /\ q <> p).
Proof.
  intros Hq. revert p. induction Hq as [|i q Hi Hq IH]; intros [|j p]; cbn [app before].
  - symmetry. apply bool_decide_eq_false. intros [_ H]. apply H. reflexivity.
  - symmetry. apply bool_decide_eq_false. intros [[x Hx] _]. discriminate.
  - rewrite (proj2 (Z.ltb_lt _ _)) by lia. cbn. symmetry. apply bool_decide_eq_true. split; [exists (i :: q); reflexivity|discriminate].
  - rewrite IH. destruct (Z.ltb_spec i j) as [Hlt|Hge]; cbn [orb]; [reflexivity|].
    destruct (Z.eqb_spec i j) as [->|Hne]; cbn [andb orb].
    + f_equal. apply bool_decide_ext. split; intros [[x Hx] Hn].
      * split; [exists x; cbn; rewrite Hx; reflexivity|]. intros E. apply Hn. congruence.
      * injection Hx as Hx. split; [exists x; exact Hx|]. intros ->. apply Hn. reflexivity.
    + symmetry. apply bool_decide_eq_false. intros [[x Hx] _]. injection Hx as -> _. lia.
Qed.

Lemma upath_nonneg q : upath q -> Forall (fun i => 0 <= i) q.
Proof. intros (_ & H & _). eapply List.Forall_impl; [|exact H]. cbn. lia. Qed.

Lemma upath_small q : upath q -> Forall (fun i => i < 512) q.
Proof. intros (_ & H & _). eapply List.Forall_impl; [|exact H]. cbn. lia. Qed.

(** ** Taking an entry away *)

Section Unlink.
Context (s : mm) (roots l : list Z) (r : Z) (p : list Z) (t i f : Z).
Context (Hsp : space s roots l) (Hr : r ∈ roots) (Hu : upath (p ++ [i])).
Context (Ht : node s r p = Some t) (Hf : node s r (p ++ [i]) = Some f).
Context (Hchild : forall j q, upath ((p ++ [i]) ++ j :: q) -> node s r ((p ++ [i]) ++ j :: q) = None).

Let s1 := xbks_pmm_free_frame s f.
Let s2 := set_entry s1 (kva s t) i 0.

Lemma unlink_frames : frame_ok (hhdm_offset_value s) f /\ (f ∉ l) /\ frame_ok (hhdm_offset_value s) t /\ (t ∉ l) /\ t <> f.
Proof using Hsp Hr Hu Ht Hf.
  pose proof (upath_app_inv _ _ Hu) as Hp.
  destruct (sp_frame _ _ _ Hsp r _ f Hr Hu Hf) as [F1 F2], (sp_frame _ _ _ Hsp r _ t Hr Hp Ht) as [T1 T2].
  repeat (split; [assumption|]). intros ->. destruct (sp_inj _ _ _ Hsp r r p (p ++ [i]) f Hr Hr Hp Hu Ht Hf) as [_ E].
  apply (f_equal length) in E. rewrite length_app in E. cbn in E. lia.
Qed.

Lemma unlink_pool : pool s2 (f :: l) /\ same_config s s2 /\
  (forall a, ~ in_page (hhdm_offset_value s) f a -> ~ in_page (hhdm_offset_value s) t a -> rd8 (ram s2) a = rd8 (ram s) a).
Proof using Hsp Hr Hu Ht Hf.
  destruct unlink_frames as (F1 & F2 & T1 & T2 & Htf). destruct (fp_free s f l (sp_pool _ _ _ Hsp) F1 F2) as (Hp1 & Hm1 & Hc1).
  fold s1 in Hp1, Hm1, Hc1. pose proof (upath_index _ _ _ Hu) as Hi.
  assert (Hm2 : forall a, ~ in_page (hhdm_offset_value s) t a -> rd8 (ram s2) a = rd8 (ram s1) a).
  { intros a Ha. cbn. apply rd8_st64_out. unfold in_page, kva in *. lia. }
  split; [|split; [exact Hc1|intros a Hfa Hta; rewrite Hm2 by exact Hta; apply Hm1, Hfa]].
  apply fp_write; [exact Hp1|]. intros g a Hg Ha. rewrite (proj1 Hc1) in Ha. apply Hm2. intros Hta.
  assert (Hgo : frame_ok (hhdm_offset_value s) g).
  { destruct (fp_frames s1 (f :: l) Hp1) as [_ Hok]. rewrite Forall_forall, (proj1 Hc1) in Hok. apply Hok, list_elem_of_In, Hg. }
  rewrite <- (in_page_inj _ t g a T1 Hgo Hta Ha) in Hg. apply elem_of_cons in Hg as [E|Hg]; [exact (Htf E)|exact (T2 Hg)].
Qed.

Lemma unlink_entry r' q1 x j :
  r' ∈ roots -> upath (q1 ++ [j]) -> node s r' q1 = Some x -> ~ (r' = r /\ (p ++ [i]) `prefix_of` (q1 ++ [j])) ->
  entry_at s2 x j = entry_at s x j.
Proof using Hsp Hr Hu Ht Hf.
  intros Hr' Hq Hx Hno. pose proof (upath_app_inv _ _ Hq) as Hq1. destruct unlink_frames as (F1 & F2 & T1 & T2 & Htf).
  destruct unlink_pool as (_ & Hc & Hm). destruct (sp_frame _ _ _ Hsp r' q1 x Hr' Hq1 Hx) as [Xo _].
  assert (Hxf : x <> f).
  { intros ->. destruct (sp_inj _ _ _ Hsp r' r q1 (p ++ [i]) f Hr' Hr Hq1 Hu Hx Hf) as [-> ->]. apply Hno. split; [reflexivity|]. exists [j]. reflexivity. }
  destruct (Z.eq_dec x t) as [->|Hxt].
  - destruct (sp_inj _ _ _ Hsp r' r q1 p t Hr' Hr Hq1 (upath_app_inv _ _ Hu) Hx Ht) as [-> ->].
    assert (Hji : j <> i) by (intros ->; apply Hno; split; [reflexivity|exists []; rewrite app_nil_r; reflexivity]).
    unfold entry_at, get_entry. replace (kva s2 t) with (kva s t) by (unfold kva; rewrite (proj1 Hc); reflexivity).
    transitivity (ld64 (ram s1) (kva s t + 8 * j)); [apply ld64_st64_ne; lia|]. apply ld64_ext. intros b Hb.
    destruct (fp_free s f l (sp_pool _ _ _ Hsp) F1 F2) as (_ & Hm1 & _). apply Hm1. intros Hfb. apply Hxf.
    pose proof (upath_index _ _ _ Hq). apply (in_page_inj _ t f b T1 F1); [unfold in_page, kva in *; lia|exact Hfb].
  - apply entry_at_agree; [apply Hc|eapply upath_index, Hq|]. intros a Ha. apply Hm; intros Ha'.
    + apply Hxf. exact (in_page_inj _ x f a Xo F1 Ha Ha').
    + apply Hxt. exact (in_page_inj _ x t a Xo T1 Ha Ha').
Qed.

Lemma unlink_node_other r' q : r' ∈ roots -> upath q -> ~ (r' = r /\ (p ++ [i]) `prefix_of` q) -> node s2 r' q = node s r' q.
Proof using Hsp Hr Hu Ht Hf.
  intros Hr' Hq Hno. apply node_agree. intros q1 j q2 x -> Hx. apply (unlink_entry r' q1 x j Hr').
  - apply (upath_app_inv _ q2). rewrite <- app_assoc. exact Hq.
  - exact Hx.
  - intros [-> [k Hk]]. apply Hno. split; [reflexivity|]. exists (k ++ q2). rewrite app_assoc, <- Hk, <- app_assoc. reflexivity.
Qed.

Lemma unlink_node q : upath q -> (p ++ [i]) `prefix_of` q -> node s2 r q = None.
Proof using Hsp Hr Hu Ht Hf.
  intros Hq [k ->]. pose proof (upath_app_inv _ _ Hu) as Hp. apply (node_cut s2 r (p ++ [i]) k _); [|reflexivity].
  assert (Hp2 : node s2 r p = Some t).
  { rewrite unlink_node_other; [exact Ht|exact Hr|exact Hp|]. intros [_ [x Hx]]. apply (f_equal length) in Hx. rewrite !length_app in Hx. cbn in Hx. lia. }
  rewrite (node_snoc s2 r p i t Hp2). replace (entry_at s2 t i) with 0; [reflexivity|]. symmetry.
  unfold entry_at, get_entry. replace (kva s2 t) with (kva s t) by (unfold kva; rewrite (proj1 (proj1 (proj2 unlink_pool))); reflexivity).
  apply ld64_st64. unfold in_u64. lia.
Qed.

Lemma space_unlink : space s2 roots (f :: l).
Proof using Hsp Hr Hu Ht Hf Hchild.
  destruct unlink_pool as (Hp & Hc & _).
  assert (Hsub : forall r' q x, r' ∈ roots -> upath q -> node s2 r' q = Some x -> node s r' q = Some x /\ (r', q) <> (r, p ++ [i])).
  { intros r' q x Hr' Hq Hx. destruct (decide (r' = r /\ (p ++ [i]) `prefix_of` q)) as [[-> Hpre]|Hno].
    - rewrite unlink_node in Hx by assumption. discriminate.
    - rewrite unlink_node_other in Hx by assumption. split; [exact Hx|]. intros E. injection E as -> ->. apply Hno. split; reflexivity. }
  split.
  - exact Hp.
  - intros r' q x Hr' Hq Hx. destruct (Hsub r' q x Hr' Hq Hx) as [Hx' Hne]. rewrite (proj1 Hc).
    destruct (sp_frame _ _ _ Hsp r' q x Hr' Hq Hx') as [Xo Xl]. split; [exact Xo|]. apply not_elem_of_cons. split; [|exact Xl].
    intros ->. destruct (sp_inj _ _ _ Hsp r' r q (p ++ [i]) f Hr' Hr Hq Hu Hx' Hf) as [-> ->]. apply Hne. reflexivity.
  - intros r1 r2 q1 q2 x Hr1 Hr2 Hq1 Hq2 Hx1 Hx2.
    destruct (Hsub r1 q1 x Hr1 Hq1 Hx1) as [Hy1 _], (Hsub r2 q2 x Hr2 Hq2 Hx2) as [Hy2 _]. eapply sp_inj; eassumption.
Qed.
End Unlink.

(** ** The walk *)

Lemma space_sub s roots roots' l :
  space s roots l -> (forall r, r ∈ roots' -> r ∈ roots) -> space s roots' l.
Proof.
  intros [Hp Hf Hi] Hsub. split; [exact Hp|intros r p f Hr; apply Hf, Hsub, Hr|].
  intros r r' p p' f Hr Hr'. apply Hi; apply Hsub; assumption.
Qed.

Section Destroy.
Context (s0 : mm) (roots l0 : list Z) (r : Z) (Hsp0 : space s0 roots l0) (Hr : r ∈ roots).

(** A byte of none of the pages the address space [r] is made of. *)
Definition not_of_space (a : Z) : Prop :=
  forall q x, upath q -> node s0 r q = Some x -> ~ in_page (hhdm_offset_value s0) x a.

Record pruned (m : list Z) (s : mm) (l : list Z) : Prop := {
  pr_space : space s roots l;
  pr_config : same_config s0 s;
  pr_other r' q : r' ∈ roots -> r' <> r -> upath q -> node s r' q = node s0 r' q;
  pr_node q : upath q -> node s r q = if before q m then None else node s0 r q;
  pr_free f : f ∈ l <-> f ∈ l0 \/ exists q, upath q /\ before q m = true /\ node s0 r q = Some f;
  pr_mem a : not_of_space a -> rd8 (ram s) a = rd8 (ram s0) a;
}.

Lemma pruned_start : pruned [] s0 l0.
Proof using Hsp0.
  split; [exact Hsp0|apply same_config_refl|reflexivity| |intros f|reflexivity].
  - intros q _. rewrite before_nil. reflexivity.
  - split; [left; assumption|]. intros [H|(q & _ & Hb & _)]; [exact H|]. rewrite before_nil in Hb. discriminate.
Qed.

(** Only the paths that are there matter for the position. *)
Lemma pruned_same m m' s l :
  pruned m s l -> (forall q, upath q -> node s0 r q <> None -> before q m' = before q m) -> pruned m' s l.
Proof using.
  intros [S C O N F M] H. split; try assumption.
  - intros q Hq. rewrite N by exact Hq. destruct (node s0 r q) as [x|] eqn:E; [|destruct (before q m), (before q m'); reflexivity].
    rewrite H; [reflexivity|exact Hq|rewrite E; discriminate].
  - intros f. rewrite F. apply or_iff_compat_l.
    split; intros (q & Hq & Hb & Hf); exists q; (split; [exact Hq|]; split; [|exact Hf]).
    + rewrite H; [exact Hb|exact Hq|congruence].
    + rewrite <- H; [exact Hb|exact Hq|congruence].
Qed.

Lemma pruned_kva m s l t : pruned m s l -> kva s t = kva s0 t.
Proof using. intros H. unfold kva. rewrite (proj1 (pr_config _ _ _ H)). reflexivity. Qed.

(** The entry of a table that has been emptied is taken away and its frame freed. *)
Lemma pruned_unlink p i t f s l :
  upath (p ++ [i]) -> node s0 r p = Some t -> node s0 r (p ++ [i]) = Some f -> pruned ((p ++ [i]) ++ [512]) s l ->
  pruned (p ++ [i + 1]) (set_entry (xbks_pmm_free_frame s f) (kva s t) i 0) (f :: l).
Proof using Hr.
  intros Hu Ht Hf P. pose proof (upath_app_inv _ _ Hu) as Hp. pose proof (pr_space _ _ _ P) as Hsp.
  assert (Ht' : node s r p = Some t) by (rewrite (pr_node _ _ _ P), <- app_assoc, before_prefix by exact Hp; exact Ht).
  assert (Hf' : node s r (p ++ [i]) = Some f) by (rewrite (pr_node _ _ _ P), before_prefix by exact Hu; exact Hf).
  assert (Hlast : forall q, upath q -> before q ((p ++ [i]) ++ [512]) = before q (p ++ [i]) || bool_decide ((p ++ [i]) `prefix_of` q /\ q <> p ++ [i])).
  { intros q Hq. apply before_last, upath_small, Hq. }
  assert (Hchild : forall j q, upath ((p ++ [i]) ++ j :: q) -> node s r ((p ++ [i]) ++ j :: q) = None).
  { intros j q Hq. rewrite (pr_node _ _ _ P), Hlast by exact Hq. rewrite bool_decide_eq_true_2, orb_true_r; [reflexivity|].
    split; [eexists; reflexivity|]. intros E. apply (f_equal length) in E. rewrite length_app in E. cbn in E. lia. }
  destruct (unlink_pool s roots l r p t i f Hsp Hr Hu Ht' Hf') as (_ & Hc & Hm). split.
  - eapply space_unlink; eassumption.
  - eapply same_config_trans; [apply (pr_config _ _ _ P)|exact Hc].
  - intros r' q Hr' Hne Hq. rewrite (unlink_node_other s roots l r p t i f Hsp Hr Hu Ht' Hf') by (assumption || (intros [E _]; exact (Hne E))).
    apply (pr_other _ _ _ P); assumption.
  - intros q Hq. rewrite before_next. destruct (decide ((p ++ [i]) `prefix_of` q)) as [Hpre|Hno].
    + rewrite bool_decide_eq_true_2, orb_true_r by exact Hpre. eapply unlink_node; eassumption.
    + rewrite (unlink_node_other s roots l r p t i f Hsp Hr Hu Ht' Hf') by (assumption || (intros [_ E]; exact (Hno E))).
      rewrite (pr_node _ _ _ P), Hlast, !bool_decide_eq_false_2 by (assumption || (intros [E _]; exact (Hno E)) || exact Hno). reflexivity.
  - intros g. rewrite elem_of_cons, (pr_free _ _ _ P). split.
    + intros [->|[Hg|(q & Hq & Hb & Hg)]]; [right; exists (p ++ [i])|left; exact Hg|right; exists q].
      * split; [exact Hu|]. split; [|exact Hf]. rewrite before_next, bool_decide_eq_true_2, orb_true_r by reflexivity. reflexivity.
      * split; [exact Hq|]. split; [|exact Hg]. rewrite Hlast in Hb by exact Hq. rewrite before_next.
        apply orb_true_iff in Hb as [->|Hb]; [reflexivity|]. apply bool_decide_eq_true in Hb as [Hb _].
        rewrite bool_decide_eq_true_2, orb_true_r by exact Hb. reflexivity.
    + intros [Hg|(q & Hq & Hb & Hg)]; [right; left; exact Hg|]. destruct (decide (q = p ++ [i])) as [->|Hne]; [left; congruence|].
      right. right. exists q. split; [exact Hq|]. split; [|exact Hg]. rewrite before_next in Hb. rewrite Hlast by exact Hq.
      apply orb_true_iff in Hb as [->|Hb]; [reflexivity|]. apply bool_decide_eq_true in Hb.
      rewrite bool_decide_eq_true_2, orb_true_r by (split; assumption). reflexivity.
  - intros a Ha. rewrite Hm; [apply (pr_mem _ _ _ P), Ha|rewrite (proj1 (pr_config _ _ _ P)); exact (Ha _ _ Hu Hf)|rewrite (proj1 (pr_config _ _ _ P)); exact (Ha _ _ Hp Ht)].
Qed.

(** One entry of a table: nothing there, or what [loop] does below it and the entry itself. *)
Lemma destroy_entry p i t s l (loop : Z -> mm -> mm) :
  upath (p ++ [i]) -> node s0 r p = Some t -> pruned (p ++ [i]) s l ->
  (forall f, node s0 r (p ++ [i]) = Some f -> exists l', pruned ((p ++ [i]) ++ [512]) (loop (kva s0 f) s) l') ->
  exists l', pruned (p ++ [i + 1])
    (if (get_entry s (kva s0 t) i & XBKS_PAGE_PRESENT) =? 0 then s
     else let s1 := loop (page_table_from_entry s (get_entry s (kva s0 t) i)) s in
          set_entry (xbks_pmm_free_frame s1 (get_entry s1 (kva s0 t) i & ADDRESS_MASK)) (kva s0 t) i 0) l'.
Proof using Hr.
  intros Hu Ht P Hloop. pose proof (upath_app_inv _ _ Hu) as Hp.
  assert (Hw : forall m s1 l1, pruned m s1 l1 -> before p m = false -> before (p ++ [i]) m = false ->
    if (get_entry s1 (kva s0 t) i & XBKS_PAGE_PRESENT) =? 0 then node s0 r (p ++ [i]) = None
    else node s0 r (p ++ [i]) = Some (get_entry s1 (kva s0 t) i & ADDRESS_MASK) /\
         page_table_from_entry s1 (get_entry s1 (kva s0 t) i) = kva s0 (get_entry s1 (kva s0 t) i & ADDRESS_MASK)).
  { intros m s1 l1 P1 B1 B2. pose proof (walk_step s1 roots l1 r p t i (pr_space _ _ _ P1) Hr Hu) as W.
    rewrite !(pr_node _ _ _ P1), B1, B2, !(pruned_kva _ _ _ _ P1) in W by assumption. exact (W Ht). }
  pose proof (Hw _ _ _ P (before_prefix p [i]) (before_self _)) as W.
  destruct (_ =? 0).
  - exists l. eapply pruned_same; [exact P|]. intros q Hq Hx. rewrite before_next, bool_decide_eq_false_2, orb_false_r; [reflexivity|].
    intros [k ->]. apply Hx. exact (node_cut s0 r (p ++ [i]) k _ W eq_refl).
  - destruct W as [Hf ->]. destruct (Hloop _ Hf) as [l1 P1]. cbn zeta. set (s1 := loop _ s) in *.
    assert (B1 : before p ((p ++ [i]) ++ [512]) = false) by (rewrite <- app_assoc; apply before_prefix).
    pose proof (Hw _ _ _ P1 B1 (before_prefix _ _)) as W1. destruct (_ =? 0); [congruence|]. destruct W1 as [Hf1 _].
    exists ((get_entry s1 (kva s0 t) i & ADDRESS_MASK) :: l1). rewrite <- (pruned_kva _ _ _ t P1) at 2.
    eapply pruned_unlink; eassumption.
Qed.

(** The loop over a table's entries. *)
Lemma destroy_table n q (step : Z -> mm -> mm) s l :
  pruned q s l ->
  (forall i s' l', 0 <= i < Z.of_nat n -> pruned (q ++ [i]) s' l' -> exists l'', pruned (q ++ [i + 1]) (step i s') l'') ->
  exists l', pruned (q ++ [Z.of_nat n]) (for_range n 0 step s) l'.
Proof using.
  intros P Hstep. change (Z.of_nat n) with (0 + Z.of_nat n) at 1.
  apply (for_range_inv (fun i s' => exists l', pruned (q ++ [i]) s' l')).
  - exists l. eapply pruned_same; [exact P|]. intros q' Hq _. apply before_first, upath_nonneg, Hq.
  - intros i s' Hi [l' P']. eapply Hstep; [lia|exact P'].
Qed.

(** *** The four loops *)

Context (user_top : Z) (Htop : 2 ^ 47 <= user_top).

Lemma upath_in a b c d p q :
  0 <= a < 256 -> 0 <= b < 512 -> 0 <= c < 512 -> 0 <= d < 512 -> [a; b; c; d] = p ++ q -> upath p.
Proof using.
  intros Ha Hb Hc Hd E. apply (upath_app_inv p q). rewrite <- E. split; [cbn; lia|]. split; [|cbn; lia].
  repeat constructor; lia.
Qed.

Lemma destroy_pt a b c d t s l :
  0 <= a < 256 -> 0 <= b < 512 -> 0 <= c < 512 -> 0 <= d < 512 -> node s0 r [a; b; c] = Some t ->
  pruned [a; b; c; d] s l -> exists l', pruned [a; b; c; d + 1] (destroy_pt_step user_top a b c (kva s0 t) d s) l'.
Proof using Hr Htop.
  intros Ha Hb Hc Hd Ht P. unfold destroy_pt_step. rewrite address_of_number by lia.
  destruct (Z.ltb_spec (4096 * page_number a b c d) user_top) as [_|H]; [|unfold page_number in H; lia].
  assert (Hu : upath ([a; b; c] ++ [d])) by (apply (upath_in a b c d _ []); trivial).
  apply (destroy_entry [a; b; c] d t s l (fun _ s => s) Hu Ht P).
  intros f _. exists l. eapply pruned_same; [exact P|]. intros q Hq _.
  change (before q (([a; b; c] ++ [d]) ++ [512]) = before q ([a; b; c] ++ [d])).
  rewrite before_last by (apply upath_small, Hq). rewrite bool_decide_eq_false_2, orb_false_r; [reflexivity|].
  intros [[k ->] Hk]. destruct Hq as [Hl _]. rewrite length_app in Hl. destruct k; [exact (Hk (app_nil_r _))|cbn in Hl; lia].
Qed.

Lemma destroy_pd a b c t s l :
  0 <= a < 256 -> 0 <= b < 512 -> 0 <= c < 512 -> node s0 r [a; b] = Some t ->
  pruned [a; b; c] s l -> exists l', pruned [a; b; c + 1] (destroy_pd_step user_top a b (kva s0 t) c s) l'.
Proof using Hr Htop.
  intros Ha Hb Hc Ht P. assert (Hu : upath ([a; b] ++ [c])) by (apply (upath_in a b c 0 _ [0]); trivial; lia).
  apply (destroy_entry [a; b] c t s l (fun pt => for_range 512 0 (destroy_pt_step user_top a b c pt)) Hu Ht P).
  intros f Hf. eapply (destroy_table 512); [exact P|]. intros d s' l' Hd P'. eapply destroy_pt; [lia|lia|lia|lia|exact Hf|exact P'].
Qed.

Lemma destroy_pdpt a b t s l :
  0 <= a < 256 -> 0 <= b < 512 -> node s0 r [a] = Some t ->
  pruned [a; b] s l -> exists l', pruned [a; b + 1] (destroy_pdpt_step user_top a (kva s0 t) b s) l'.
Proof using Hr Htop.
  intros Ha Hb Ht P. assert (Hu : upath ([a] ++ [b])) by (apply (upath_in a b 0 0 _ [0; 0]); trivial; lia).
  apply (destroy_entry [a] b t s l (fun pd => for_range 512 0 (destroy_pd_step user_top a b pd)) Hu Ht P).
  intros f Hf. eapply (destroy_table 512); [exact P|]. intros c s' l' Hc P'. eapply destroy_pd; [lia|lia|lia|exact Hf|exact P'].
Qed.

Lemma destroy_pml4 a s l :
  0 <= a < 256 -> pruned [a] s l -> exists l', pruned [a + 1] (destroy_pml4_step user_top (kva s0 r) a s) l'.
Proof using Hr Htop.
  intros Ha P. assert (Hu : upath ([] ++ [a])) by (apply (upath_in a 0 0 0 _ [0; 0; 0]); trivial; lia).
  apply (destroy_entry [] a r s l (fun pdpt => for_range 512 0 (destroy_pdpt_step user_top a pdpt)) Hu eq_refl P).
  intros f Hf. eapply (destroy_table 512); [exact P|]. intros b s' l' Hb P'. eapply destroy_pdpt; [lia|lia|exact Hf|exact P'].
Qed.

(** After the loop only the root is left. *)
Lemma destroy_loop :
  exists l, pruned [256] (for_range 256 0 (destroy_pml4_step user_top (kva s0 r)) s0) l.
Proof using Hsp0 Hr Htop.
  apply (destroy_table 256 []  _ s0 l0 pruned_start). intros a s l Ha P. exact (destroy_pml4 a s l ltac:(lia) P).
Qed.

Lemma before_all q : upath q -> before q [256] = bool_decide (q <> []).
Proof using.
  intros (_ & _ & Hq). destruct q as [|i q]; [reflexivity|]. cbn. rewrite (proj2 (Z.ltb_lt i 256)) by lia. reflexivity.
Qed.

(** *** The whole operation *)

Record destroyed (s : mm) (l : list Z) : Prop := {
  ds_space : space s (filter (fun x => x <> r) roots) l;
  ds_config : same_config s0 s;
  ds_other r' q : r' ∈ roots -> r' <> r -> upath q -> node s r' q = node s0 r' q;
  ds_free f : f ∈ l <-> f ∈ l0 \/ exists q, upath q /\ node s0 r q = Some f;
  ds_mem a : not_of_space a -> rd8 (ram s) a = rd8 (ram s0) a;
}.

Lemma destroy_ok : exists l, destroyed (xbks_vmm_destroy_user_space s0 r user_top) l.
Proof using Hsp0 Hr Htop.
  destruct (space_root s0 roots l0 r Hsp0 Hr) as [Hro Hrl]. pose proof Hro as (_ & Hr0 & _).
  unfold xbks_vmm_destroy_user_space. destruct (Z.eqb_spec r 0); [lia|]. rewrite phys_to_virt_frame by exact Hro.
  destruct destroy_loop as [l P]. set (s1 := for_range 256 0 _ s0) in *.
  assert (Hnil : upath []) by (split; [cbn; lia|]; split; [constructor|exact I]).
  pose proof (pr_config _ _ _ P) as Hc1.
  assert (Hsub : forall x, x ∈ filter (fun x => x <> r) roots -> x ∈ roots /\ x <> r) by (intros x Hx; apply list_elem_of_filter in Hx; tauto).
  assert (Hfr : fresh_frame s1 (filter (fun x => x <> r) roots) l r).
  { destruct (space_root s1 roots l r (pr_space _ _ _ P) Hr) as [H1 H2]. split; [exact H1|]. split; [exact H2|].
    intros r' q Hr' Hq Hx. destruct (Hsub r' Hr') as [Hr2 Hne]. rewrite (pr_other _ _ _ P) in Hx by assumption.
    destruct (sp_inj _ _ _ Hsp0 r' r q [] r Hr2 Hr Hq Hnil Hx eq_refl) as [E _]. exact (Hne E). }
  destruct (space_free s1 _ l r (space_sub s1 roots _ l (pr_space _ _ _ P) (fun x Hx => proj1 (Hsub x Hx))) Hfr) as (Hsp & Hc & Hm & Hn).
  exists (r :: l). split.
  - exact Hsp.
  - eapply same_config_trans; eassumption.
  - intros r' q Hr' Hne Hq. rewrite Hn; [apply (pr_other _ _ _ P); assumption|apply list_elem_of_filter; split; assumption|exact Hq].
  - intros f. rewrite elem_of_cons, (pr_free _ _ _ P). split.
    + intros [->|[Hf|(q & Hq & _ & Hf)]]; [right; exists []; split; [exact Hnil|reflexivity]|left; exact Hf|right; exists q; split; assumption].
    + intros [Hf|(q & Hq & Hf)]; [right; left; exact Hf|]. destruct q as [|i q]; [left; cbn in Hf; congruence|].
      right. right. exists (i :: q). split; [exact Hq|]. split; [rewrite before_all by exact Hq; reflexivity|exact Hf].
  - intros a Ha. rewrite Hm; [apply (pr_mem _ _ _ P), Ha|]. rewrite (proj1 Hc1). exact (Ha [] r Hnil eq_refl).
Qed.

(** What the other processes see. *)
Lemma destroyed_user s l r' va :
  destroyed s l -> r' ∈ roots -> r' <> r -> user_va va ->
  xbks_vmm_translate s r' va = xbks_vmm_translate s0 r' va /\ user_byte s r' va = user_byte s0 r' va.
Proof using Hsp0 Hr.
  intros D Hr' Hne Hva. pose proof (upath_path va Hva) as Hu.
  assert (Hin : r' ∈ filter (fun x => x <> r) roots) by (apply list_elem_of_filter; split; assumption).
  eapply (user_byte_agree s0 s (filter (fun x => x <> r) roots) l0 l); [|apply (ds_space _ _ D)|exact Hin|exact Hva|apply (ds_config _ _ D)|apply (ds_other _ _ D); assumption|].
  - apply (space_sub s0 roots); [exact Hsp0|]. intros x Hx. apply list_elem_of_filter in Hx. apply Hx.
  - intros x a Hx Ha. apply (ds_mem _ _ D). intros q y Hq Hy Hya.
    destruct (sp_frame _ _ _ Hsp0 r' _ x Hr' Hu Hx) as [Hxo _], (sp_frame _ _ _ Hsp0 r q y Hr Hq Hy) as [Hyo _].
    pose proof (in_page_inj _ x y a Hxo Hyo Ha Hya) as <-. destruct (sp_inj _ _ _ Hsp0 r' r _ q x Hr' Hr Hu Hq Hx Hy) as [E _]. exact (Hne E).
Qed.
End Destroy.
