(* ===== verification/SpaceProps.v ===== *)
(** * Properties of whole address spaces (src/mm/mm.c)

    Cloning and destroying the user half of an address space, on top of the theory of
    VmmClone and VmmDestroy, each with a run on the small machine of MmProps. *)

From S2P Require Import Prelude CMem Pmm Vmm VmmSpec VmmClone VmmDestroy MmProps.

(** ** Shared facts *)

(** A root table without a present user entry leads nowhere. *)
Lemma empty_root s roots l r :
  space s roots l -> r ∈ roots ->
  (forall i, 0 <= i < 256 -> (get_entry s (kva s r) i & XBKS_PAGE_PRESENT) = 0) ->
  forall i q, upath (i :: q) -> node s r (i :: q) = None.
Proof.
  intros Hsp Hr Hempty i q Hu. assert (Hi : 0 <= i < 256) by (destruct Hu as (_ & Hf & Hi); apply Forall_cons_iff in Hf as [Hf _]; lia).
  pose proof (walk_step s roots l r [] r i Hsp Hr (upath_app_inv [i] q Hu) eq_refl) as W.
  rewrite (Hempty i Hi) in W. exact (node_cut s r [i] q _ W eq_refl).
Qed.

(** The page [v] of the user half is mapped. *)
Definition mapped_page (s : mm) (r v : Z) : Prop := 0 <= v < 2 ^ 35 /\ xbks_vmm_translate s r (4096 * v) <> None.

Lemma mapped_page_node s roots l r v :
  space s roots l -> r ∈ roots -> 0 <= v < 2 ^ 35 -> node s r (page_path v) <> None -> mapped_page s r v.
Proof.
  intros Hsp Hr Hv Hn. split; [exact Hv|]. rewrite (translate_node s roots l r _ Hsp Hr (page_user v Hv)).
  change (path (4096 * v)) with (page_path v). destruct (node s r (page_path v)); [discriminate|congruence].
Qed.

(** A new root table changes nothing the others see. *)
Lemma created_user s s1 roots l l' f r va :
  space s roots l -> space s1 (f :: roots) l' -> f ∈ l -> same_config s s1 -> same_but (hhdm_offset_value s) f (ram s) (ram s1) ->
  (forall r q, r ∈ roots -> upath q -> node s1 r q = node s r q) -> r ∈ roots -> user_va va ->
  xbks_vmm_translate s1 r va = xbks_vmm_translate s r va /\ user_byte s1 r va = user_byte s r va.
Proof.
  intros Hsp Hsp1 Hf Hc Hm Hn Hr Hva. pose proof (upath_path va Hva) as Hu.
  eapply user_byte_agree; [exact Hsp|exact (space_sub s1 _ roots l' Hsp1 (fun x Hx => list_elem_of_further x f roots Hx))|exact Hr|exact Hva|apply Hc|apply Hn; assumption|].
  intros x a Hx Ha. apply Hm. intros Hfa. destruct (sp_frame _ _ _ Hsp r _ x Hr Hu Hx) as [Hxo Hxl]. apply Hxl.
  destruct (fp_frames s l (sp_pool _ _ _ Hsp)) as [_ Hok]. rewrite Forall_forall in Hok.
  rewrite (in_page_inj _ x f a Hxo (Hok f ltac:(apply list_elem_of_In, Hf)) Ha Hfa). exact Hf.
Qed.

(** ** Cloning *)

(** C9. [xbks_vmm_clone_user_space] into a root table with an empty user half: on
    success the destination sees, at every user address, exactly what the source sees
    there (the same byte, or nothing), through frames of its own; it fails only when
    the pool holds fewer than four frames for every mapped page of the source.  Either
    way no other address space, the source included, sees any change, the
    address spaces stay well formed, and no frame is lost: each frame the pool had
    is still in it or reachable from the destination. *)
Theorem clone_user_space_correct s roots l src dst user_top :
  space s roots l -> src ∈ roots -> dst ∈ roots -> src <> dst -> 2 ^ 47 <= user_top ->
  (forall i, 0 <= i < 256 -> (get_entry s (kva s dst) i & XBKS_PAGE_PRESENT) = 0) ->
  let '(done, s') := xbks_vmm_clone_user_space s src dst user_top in
  (exists l', space s' roots l' /\
     forall f, f ∈ l <-> f ∈ l' \/ exists q, upath q /\ q <> [] /\ node s' dst q = Some f) /\
  (forall r va, r ∈ roots -> r <> dst -> user_va va ->
     xbks_vmm_translate s' r va = xbks_vmm_translate s r va /\ user_byte s' r va = user_byte s r va) /\
  if done
  then forall va, user_va va -> user_byte s' dst va = user_byte s src va
  else exists vs, NoDup vs /\ Forall (mapped_page s src) vs /\ (length l < 4 * length vs)%nat.
Proof.
  intros Hsp Hsrc Hdst Hne Htop Hempty. pose proof (empty_root s roots l dst Hsp Hdst Hempty) as Hnone.
  pose proof (clone_ok s roots l src dst Hsp Hsrc Hdst Hne user_top Htop Hnone) as C.
  destruct (xbks_vmm_clone_user_space s src dst user_top) as [[] s'].
  - destruct C as [l' C]. pose proof (cl_kept _ _ _ _ _ _ _ _ C) as K. split; [|split].
    + exists l'. split; [apply (kp_space _ _ _ _ _ _ K)|apply (cl_ledger _ _ _ _ _ _ _ _ C)].
    + intros r va Hr Hrd Hva. exact (kept_user s roots l dst Hsp Hdst s' l' r va K Hr Hrd Hva).
    + intros va Hva. exact (cloned_user s roots l src dst Hsp Hsrc Hdst s' l' va C Hva).
  - destruct C as (l' & K & L & n & vs & [Hnd Hvs] & Hn & Hl). split; [|split].
    + exists l'. split; [apply (kp_space _ _ _ _ _ _ K)|exact L].
    + intros r va Hr Hrd Hva. exact (kept_user s roots l dst Hsp Hdst s' l' r va K Hr Hrd Hva).
    + exists vs. split; [exact Hnd|]. split; [|exact Hl]. eapply List.Forall_impl; [|exact Hvs]. cbn. intros v [Hv Hs].
      eapply mapped_page_node; [exact Hsp|exact Hsrc|lia|exact Hs].
Qed.

(** A second address space beside the one that has a page at 0x400000. *)
Definition demo_one : mm := snd (xbks_vmm_map_page demo_space 36864 4194304 65536 2).
Definition demo_two : mm := snd (xbks_create_kernel_mapped_pml4 demo_one).

Lemma demo_one_ok :
  exists l, space demo_one [36864] (20480 :: l) /\ frame_ok (hhdm_offset_value demo_one) (kernel_cr3_value demo_one) /\
    kernel_cr3_value demo_one = 1048576.
Proof.
  destruct demo_map_page as [s E]. destruct (demo_mapped s E) as (l & Hsp & _ & _).
  assert (Es : s = demo_one) by (unfold demo_one; rewrite E; reflexivity). subst s.
  assert (Hh : hhdm_offset_value demo_one = demo_hhdm) by (vm_compute; reflexivity).
  assert (Hk : kernel_cr3_value demo_one = 1048576) by (vm_compute; reflexivity).
  assert (Ha : fst (xbks_pmm_alloc_frame demo_one) = 20480) by (vm_compute; reflexivity).
  destruct l as [|f l]; [rewrite (fp_empty _ (sp_pool _ _ _ Hsp)) in Ha; discriminate|].
  destruct (fp_alloc _ _ _ (sp_pool _ _ _ Hsp)) as (s' & Ef & _). rewrite Ef in Ha. cbn [fst] in Ha. subst f.
  exists l. rewrite Hk, Hh. split; [exact Hsp|]. split; [vm_compute; intuition discriminate|reflexivity].
Qed.

Lemma demo_two_ok :
  exists l, space demo_two [20480; 36864] l /\
    forall i, 0 <= i < 256 -> (get_entry demo_two (kva demo_two 20480) i & XBKS_PAGE_PRESENT) = 0.
Proof.
  destruct demo_one_ok as (l & Hsp & Hk & Hkv).
  destruct (create_pml4_spec demo_one [36864] l 20480 Hsp Hk ltac:(rewrite Hkv; discriminate)) as (s' & E & Hsp' & _ & _ & Hnone & _).
  assert (Es : s' = demo_two) by (unfold demo_two; rewrite E; reflexivity). subst s'. exists l. split; [exact Hsp'|].
  intros i Hi. assert (Hu : upath ([] ++ [i])) by (split; [cbn; lia|]; split; [repeat constructor; lia|cbn; lia]).
  pose proof (walk_step demo_two _ l 20480 [] 20480 i Hsp' ltac:(left) Hu eq_refl) as W. cbn [app] in W.
  rewrite (Hnone i [] Hu) in W. destruct (Z.eqb_spec (get_entry demo_two (kva demo_two 20480) i & XBKS_PAGE_PRESENT) 0) as [E0|_]; [exact E0|].
  destruct W as [W _]. discriminate.
Qed.

Lemma demo_clone_done : fst (xbks_vmm_clone_user_space demo_two 36864 20480 (2 ^ 47)) = true.
Proof. vm_compute. reflexivity. Qed.

Lemma clone_user_space_correct_witness :
  exists s', xbks_vmm_clone_user_space demo_two 36864 20480 (2 ^ 47) = (true, s') /\
    user_byte s' 20480 4194309 = user_byte demo_two 36864 4194309.
Proof.
  destruct demo_two_ok as (l & Hsp & Hempty).
  pose proof (clone_user_space_correct demo_two [20480; 36864] l 36864 20480 (2 ^ 47) Hsp
    ltac:(right; left) ltac:(left) ltac:(discriminate) ltac:(apply Z.le_refl) Hempty) as C.
  pose proof demo_clone_done as D. destruct (xbks_vmm_clone_user_space demo_two 36864 20480 (2 ^ 47)) as [b s'].
  cbn [fst] in D. subst b. exists s'. split; [reflexivity|]. destruct C as (_ & _ & C). apply C.
  split; [discriminate|reflexivity].
Defined.

(** ** Destroying *)

(** C10. [xbks_vmm_destroy_user_space] gives back exactly the frames the address space is
    made of, its pages, its tables and its root: afterwards the pool holds those and
    what it held before, each once, and every other address space keeps its
    translations and its bytes. *)
Theorem destroy_user_space_correct s roots l r user_top :
  space s roots l -> r ∈ roots -> 2 ^ 47 <= user_top ->
  let s' := xbks_vmm_destroy_user_space s r user_top in
  exists l', space s' (filter (fun x => x <> r) roots) l' /\
    (forall f, f ∈ l' <-> f ∈ l \/ exists q, upath q /\ node s r q = Some f) /\
    (forall r' va, r' ∈ roots -> r' <> r -> user_va va ->
       xbks_vmm_translate s' r' va = xbks_vmm_translate s r' va /\ user_byte s' r' va = user_byte s r' va).
Proof.
  intros Hsp Hr Htop s'. destruct (destroy_ok s roots l r Hsp Hr user_top Htop) as [l' D]. fold s' in D. exists l'.
  split; [apply (ds_space _ _ _ _ _ _ D)|]. split; [apply (ds_free _ _ _ _ _ _ D)|].
  intros r' va Hr' Hne Hva. exact (destroyed_user s roots l r Hsp Hr s' l' r' va D Hr' Hne Hva).
Qed.

Lemma destroy_user_space_correct_witness :
  exists l', space (xbks_vmm_destroy_user_space demo_one 36864 (2 ^ 47)) [] l' /\ 65536 ∈ l' /\ 36864 ∈ l'.
Proof.
  destruct demo_map_page as [s E]. destruct (demo_mapped s E) as (l & Hsp & _ & N).
  assert (Es : s = demo_one) by (unfold demo_one; rewrite E; reflexivity). subst s.
  destruct (destroy_user_space_correct demo_one [36864] l 36864 (2 ^ 47) Hsp ltac:(left) ltac:(apply Z.le_refl)) as (l' & Hsp' & Hl & _).
  exists l'. split; [exact Hsp'|]. split; apply Hl; right; [exists (path 4194304)|exists []].
  - split; [apply upath_path, demo_user_va|exact N].
  - split; [split; [cbn; lia|split; [constructor|exact I]]|reflexivity].
Defined.

(** ** The life of a cloned space *)

(** C16. Creating a root table, cloning a space into it, whether the clone succeeds or
    stops half way, and destroying it leaves the pool with exactly the frames it had
    (in another order) and every address space with the translations and the bytes it
    had: the error path of fork and the exit of a child leak no frame. *)
Theorem clone_destroy_roundtrip s roots l f src user_top :
  space s roots (f :: l) -> frame_ok (hhdm_offset_value s) (kernel_cr3_value s) -> kernel_cr3_value s <> f ->
  src ∈ roots -> 2 ^ 47 <= user_top ->
  let '(child, s1) := xbks_create_kernel_mapped_pml4 s in
  let '(_, s2) := xbks_vmm_clone_user_space s1 src child user_top in
  let s3 := xbks_vmm_destroy_user_space s2 child user_top in
  child = f /\ (exists l', space s3 roots l' /\ l' ≡ₚ f :: l) /\
  forall r va, r ∈ roots -> user_va va ->
    xbks_vmm_translate s3 r va = xbks_vmm_translate s r va /\ user_byte s3 r va = user_byte s r va.
Proof.
  intros Hsp Hk Hkf Hsrc Htop. destruct (create_pml4_spec s roots l f Hsp Hk Hkf) as (s1 & -> & Hsp1 & Hc1 & Hm1 & Hnone & Hn1 & _).
  assert (Hne : forall r, r ∈ roots -> r <> f).
  { intros r Hr ->. destruct (space_root s roots (f :: l) f Hsp Hr) as [_ Hin]. apply Hin. left. }
  pose proof (Hne src Hsrc) as Hsf. assert (Hsrc1 : src ∈ f :: roots) by (right; exact Hsrc).
  pose proof (clone_ok s1 (f :: roots) l src f Hsp1 Hsrc1 ltac:(left) Hsf user_top Htop Hnone) as C.
  destruct (xbks_vmm_clone_user_space s1 src f user_top) as [b s2].
  assert (CK : exists l2, kept s1 (f :: roots) l f s2 l2 /\ ledger l f s2 l2).
  { destruct b; destruct C as [l2 C]; exists l2; [split; [exact (cl_kept _ _ _ _ _ _ _ _ C)|exact (cl_ledger _ _ _ _ _ _ _ _ C)]|].
    destruct C as (K & L & _). split; assumption. }
  destruct CK as (l2 & K & L). pose proof (kp_space _ _ _ _ _ _ K) as Hsp2.
  destruct (destroy_ok s2 (f :: roots) l2 f Hsp2 ltac:(left) user_top Htop) as [l3 D].
  set (s3 := xbks_vmm_destroy_user_space s2 f user_top) in *. split; [reflexivity|]. split.
  - exists l3. split.
    + eapply space_sub; [apply (ds_space _ _ _ _ _ _ D)|]. intros r Hr. apply list_elem_of_filter.
      split; [apply Hne, Hr|right; exact Hr].
    + apply NoDup_Permutation.
      * apply (fp_frames s3 l3 (sp_pool _ _ _ (ds_space _ _ _ _ _ _ D))).
      * apply (fp_frames s (f :: l) (sp_pool _ _ _ Hsp)).
      * intros x. rewrite (ds_free _ _ _ _ _ _ D), elem_of_cons, (L x). split.
        -- intros [Hx|([|i q] & Hq & Hx)]; [right; left; exact Hx|left; cbn in Hx; congruence|right; right].
           exists (i :: q). split; [exact Hq|]. split; [discriminate|exact Hx].
        -- intros [->|[Hx|(q & Hq & _ & Hx)]]; [right; exists []; split; [apply (upath_app_inv [] []); split; [cbn; lia|split; [constructor|exact I]]|reflexivity]|left; exact Hx|right; eauto].
  - intros r va Hr Hva. assert (Hr1 : r ∈ f :: roots) by (right; exact Hr).
    destruct (destroyed_user s2 _ l2 f Hsp2 ltac:(left) s3 l3 r va D Hr1 (Hne r Hr) Hva) as [-> ->].
    destruct (kept_user s1 _ l f Hsp1 ltac:(left) s2 l2 r va K Hr1 (Hne r Hr) Hva) as [-> ->].
    exact (created_user s s1 roots (f :: l) l f r va Hsp Hsp1 ltac:(left) Hc1 Hm1 Hn1 Hr Hva).
Qed.

Lemma clone_destroy_roundtrip_witness :
  let s2 := snd (xbks_vmm_clone_user_space demo_two 36864 20480 (2 ^ 47)) in
  exists l l3, space demo_one [36864] l /\ space (xbks_vmm_destroy_user_space s2 20480 (2 ^ 47)) [36864] l3 /\ l3 ≡ₚ l.
Proof.
  destruct demo_one_ok as (l & Hsp & Hk & Hkv).
  pose proof (clone_destroy_roundtrip demo_one [36864] l 20480 36864 (2 ^ 47) Hsp Hk
    ltac:(rewrite Hkv; discriminate) ltac:(left) ltac:(apply Z.le_refl)) as C.
  assert (Ec : fst (xbks_create_kernel_mapped_pml4 demo_one) = 20480) by (vm_compute; reflexivity).
  unfold demo_two. destruct (xbks_create_kernel_mapped_pml4 demo_one) as [child s1]. cbn [fst snd] in *. subst child.
  destruct (xbks_vmm_clone_user_space s1 36864 20480 (2 ^ 47)) as [b s2]. destruct C as (_ & (l3 & Hsp3 & Hl) & _).
  exists (20480 :: l), l3. split; [exact Hsp|]. split; [exact Hsp3|exact Hl].
Defined.
