(* ===== verification/Ramdisk.v ===== *)
(** * The tar ramdisk of src/fs/ramdisk.c

    The ramdisk is a tar archive the boot loader leaves in memory.  The model takes
    its bytes as a list [img] (so [ramdisk_size] is its length) and its address
    [ramdisk_data]; paths are C strings in 256-byte stack buffers.  Every function
    answers [None] when it would read or write outside an object, or when the loop
    fuel runs out; RamdiskSpec shows that neither happens. *)

From Stdlib Require Import Ascii String.
From S2P Require Import Prelude CStr.

Definition TAR_BLOCK_SIZE : Z := 512.
Definition TAR_NAME_SIZE : nat := 100.
Definition TAR_PREFIX_SIZE : nat := 155.
Definition RAMDISK_PATH_SIZE : nat := 256.

(** ** The tar header

    The packed 512-byte [struct tar_header], by field offset. *)

Definition tar_field (header : list Z) (offset size : nat) : list Z :=
  take size (drop offset header).

Definition header_name (h : list Z) : list Z := tar_field h 0 100.
Definition header_mode (h : list Z) : list Z := tar_field h 100 8.
Definition header_size (h : list Z) : list Z := tar_field h 124 12.
Definition header_typeflag (h : list Z) : list Z := tar_field h 156 1.
Definition header_prefix (h : list Z) : list Z := tar_field h 345 155.

(** [struct xbks_ramdisk_file]; [f_data] is an address, 0 for the null pointer. *)
Record xbks_ramdisk_file := RamdiskFile {
  f_path : list Z;
  f_data : Z;
  f_size : Z;
  f_directory : bool;
  f_executable : bool;
}.

(** ** Helpers *)

Fixpoint bounded_strlen (text : list Z) (limit : nat) : option nat :=
  match limit with
  | O => Some O
  | S limit' =>
      match text with
      | [] => None
      | c :: t => if c =? 0 then Some O else n ← bounded_strlen t limit'; Some (S n)
      end
  end.

Fixpoint block_is_zero_loop (n : nat) (bytes : list Z) : option bool :=
  match n with
  | O => Some true
  | S n' =>
      match bytes with
      | [] => None
      | b :: t => if negb (b =? 0) then Some false else block_is_zero_loop n' t
      end
  end.

Definition block_is_zero (bytes : list Z) : option bool := block_is_zero_loop 512 bytes.

(** The digit loop of [parse_octal]; [char] is signed. *)
Fixpoint octal_digits (limit : nat) (text : list Z) (value : Z) : option Z :=
  match limit with
  | O => Some value
  | S limit' =>
      match text with
      | [] => None
      | c :: t =>
          if (s8 c <? chr "0") || (chr "7" <? s8 c) then Some value
          else octal_digits limit' t (u64 (Z.shiftl value 3) +u (s8 c - chr "0"))
      end
  end.

Fixpoint parse_octal (text : list Z) (limit : nat) : option Z :=
  match limit with
  | O => Some 0
  | S limit' =>
      match text with
      | [] => None
      | c :: t => if (c =? chr " ") || (c =? 0) then parse_octal t limit'
                  else octal_digits limit text 0
      end
  end.

Definition align_to_tar_block (value : Z) : Z :=
  value +u TAR_BLOCK_SIZE -u 1 & ~u (TAR_BLOCK_SIZE - 1).

Definition string_ends_with (text suffix : list Z) : option bool :=
  text_length ← strlen text;
  suffix_length ← strlen suffix;
  if text_length <? suffix_length then Some false
  else d ← strcmp (drop (Z.to_nat (text_length - suffix_length)) text) suffix; Some (d =? 0).

(** [copy_bytes (dest + pos, capacity, src, length)]. *)
Fixpoint copy_loop (count : nat) (dest : list Z) (pos : Z) (src : list Z) : option (list Z) :=
  match count with
  | O => buf_set dest pos 0
  | S count' =>
      match src with
      | [] => None
      | c :: s => d ← buf_set dest pos c; copy_loop count' d (pos + 1) s
      end
  end.

Definition copy_bytes (dest : list Z) (pos capacity : Z) (src : list Z) (length : Z)
  : option (list Z) :=
  if capacity =? 0 then Some dest
  else
    let count := if capacity <=? length then capacity -u 1 else length in
    copy_loop (Z.to_nat count) dest pos src.

(** ** Paths *)

(** [while ( *path == '/') ++path;] *)
Fixpoint skip_slashes (path : list Z) : option (list Z) :=
  match path with
  | [] => None
  | c :: t => if c =? chr "/" then skip_slashes t else Some path
  end.

(** The loop that removes leading ["./"] components. *)
Fixpoint skip_dots (fuel : nat) (path : list Z) : option (list Z) :=
  match fuel with
  | O => None
  | S fuel' =>
      match path with
      | [] => None
      | c0 :: t =>
          if c0 =? chr "." then
            match t with
            | [] => None
            | c1 :: _ =>
                if (c1 =? chr "/") || (c1 =? 0) then
                  p ← skip_slashes t; skip_dots fuel' p
                else Some path
            end
          else Some path
      end
  end.

(** The copy loop; answers the buffer and [output_length]. *)
Fixpoint copy_path (path : list Z) (out : list Z) (output_length capacity : Z)
  : option (list Z * Z) :=
  match path with
  | [] => None
  | c :: t =>
      if negb (c =? 0) && (output_length +u 1 <? capacity) then
        o ← buf_set out output_length c; copy_path t o (output_length + 1) capacity
      else Some (out, output_length)
  end.

(** The loop that drops trailing slashes. *)
Fixpoint trim_slashes (out : list Z) (output_length : nat) : option nat :=
  match output_length with
  | O => Some O
  | S n => c ← out !! n; if c =? chr "/" then trim_slashes out n else Some (S n)
  end.

Definition normalize_path (path out : list Z) (capacity : Z) : option (list Z) :=
  if capacity =? 0 then Some out
  else
    p ← skip_slashes path;
    p ← skip_dots (length p) p;
    '(o, output_length) ← copy_path p out 0 capacity;
    n ← trim_slashes o (Z.to_nat output_length);
    buf_set o (Z.of_nat n) 0.

Definition make_public_path (normalized out : list Z) (capacity : Z) : option (list Z) :=
  if capacity =? 0 then Some out
  else
    c ← head normalized;
    if c =? 0 then copy_bytes out 0 capacity (lit "/") 1
    else
      o ← buf_set out 0 (chr "/");
      n ← strlen normalized;
      copy_bytes o 1 (capacity -u 1) normalized n.

(** [None] inside stands for the answer [false]; [out] is 256 bytes. *)
Definition tar_path (header : list Z) (out : list Z) : option (bool * list Z) :=
  prefix_length ← bounded_strlen (header_prefix header) TAR_PREFIX_SIZE;
  name_length ← bounded_strlen (header_name header) TAR_NAME_SIZE;
  if (name_length =? 0)%nat then Some (false, out)
  else
    let combined := uninit RAMDISK_PATH_SIZE in
    '(combined, offset) ←
      (if negb (prefix_length =? 0)%nat then
         c ← copy_bytes combined 0 256 (header_prefix header) (Z.of_nat prefix_length);
         offset ← strlen c;
         if offset + 1 <? 256 then
           c ← buf_set c offset (chr "/");
           c ← buf_set c (offset + 1) 0;
           Some (c, offset + 1)
         else Some (c, offset)
       else c ← buf_set combined 0 0; Some (c, 0));
    combined ← copy_bytes combined offset (256 -u offset) (header_name header) (Z.of_nat name_length);
    out ← normalize_path combined out 256;
    c ← head out;
    Some (negb (c =? 0), out).

Definition header_is_directory (header normalized_path : list Z) : option bool :=
  length ← strlen normalized_path;
  flag ← head (header_typeflag header);
  if flag =? chr "5" then Some true
  else if negb (length =? 0) then
    c ← normalized_path !! Z.to_nat (length - 1); Some (c =? chr "/")
  else Some false.

Definition fill_file (header normalized_path : list Z) (data size : Z) : option xbks_ramdisk_file :=
  mode ← parse_octal (header_mode header) 8;
  path ← make_public_path normalized_path (uninit RAMDISK_PATH_SIZE) 256;
  directory ← header_is_directory header normalized_path;
  Some (RamdiskFile path data size directory (negb ((mode & 73) =? 0))).

(** ** Lookups in the archive *)

(** The answer of [find_header]: an entry, or none with the directory-prefix flag. *)
Inductive find_result :=
| Found (f : xbks_ramdisk_file)
| Missing (directory_prefix : bool).

Section Archive.
Variable ramdisk_data : Z.
Variable img : list Z.

Definition ramdisk_size : Z := Z.of_nat (length img).

(** Dereferencing [(const struct tar_header * )(ramdisk_data + offset)]. *)
Definition header_at (offset : Z) : option (list Z) :=
  if (0 <=? offset) && (offset + 512 <=? ramdisk_size)
  then Some (take 512 (drop (Z.to_nat offset) img)) else None.

(** One step of the archive walk that [find_header], [child_seen_before] and
    [xbks_ramdisk_read_dir] share up to the [tar_path] call: [None] when the walk
    stops at [offset], else the header, the file size and the data offset. *)
Definition walk_entry (offset : Z) : option (option (list Z * Z * Z)) :=
  if offset +u TAR_BLOCK_SIZE <=? ramdisk_size then
    header ← header_at offset;
    zero ← block_is_zero header;
    if (zero : bool) then Some None
    else
      file_size ← parse_octal (header_size header) 12;
      let data_offset := offset +u TAR_BLOCK_SIZE in
      if (ramdisk_size <? data_offset) || (ramdisk_size -u data_offset <? file_size) then Some None
      else Some (Some (header, file_size, data_offset))
  else Some None.

(** [path[query_length] == '/'] and the prefix comparison. *)
Definition is_directory_prefix (path normalized_path : list Z) : option bool :=
  query_length ← strlen normalized_path;
  if negb (query_length =? 0) then
    d ← strncmp path normalized_path (Z.to_nat query_length);
    if d =? 0 then c ← path !! Z.to_nat query_length; Some (c =? chr "/") else Some false
  else Some false.

Fixpoint find_header_loop (fuel : nat) (normalized_path : list Z) (offset : Z)
    (directory_prefix : bool) : option find_result :=
  match fuel with
  | O => None
  | S fuel' =>
      step ← walk_entry offset;
      match step with
      | None => Some (Missing directory_prefix)
      | Some (header, file_size, data_offset) =>
          '(ok, path) ← tar_path header (uninit RAMDISK_PATH_SIZE);
          let next := data_offset +u align_to_tar_block file_size in
          if (ok : bool) then
            d ← strcmp path normalized_path;
            if d =? 0 then
              f ← fill_file header path (ramdisk_data + data_offset) file_size; Some (Found f)
            else
              pre ← is_directory_prefix path normalized_path;
              find_header_loop fuel' normalized_path next (if (pre : bool) then true else directory_prefix)
          else find_header_loop fuel' normalized_path next directory_prefix
      end
  end.

(** Every iteration consumes at least one block. *)
Definition walk_fuel : nat := S (length img / 512).

Definition find_header (normalized_path : list Z) : option find_result :=
  find_header_loop walk_fuel normalized_path 0 false.

(** The [while] that measures the first component of [relative]. *)
Fixpoint component_length (relative : list Z) : option nat :=
  match relative with
  | [] => None
  | c :: t => if (c =? 0) || (c =? chr "/") then Some O else n ← component_length t; Some (S n)
  end.

(** [None] inside stands for [false]; [Some (child_name, nested)] for [true]. *)
Definition child_name_for_directory (entry_path directory_path : list Z)
  : option (option (list Z * bool)) :=
  directory_length ← strlen directory_path;
  relative ←
    (if negb (directory_length =? 0) then
       d ← strncmp entry_path directory_path (Z.to_nat directory_length);
       if negb (d =? 0) then Some None
       else
         c ← entry_path !! Z.to_nat directory_length;
         if negb (c =? chr "/") then Some None
         else Some (Some (drop (S (Z.to_nat directory_length)) entry_path))
     else Some (Some entry_path));
  match relative with
  | None => Some None
  | Some relative =>
      c ← head relative;
      if c =? 0 then Some None
      else
        child_length ← component_length relative;
        if (child_length =? 0)%nat then Some None
        else
          child_name ← copy_bytes (uninit RAMDISK_PATH_SIZE) 0 256 relative (Z.of_nat child_length);
          c ← relative !! child_length;
          Some (Some (child_name, c =? chr "/"))
  end.

Fixpoint child_seen_loop (fuel : nat) (directory_path child_name : list Z) (current_offset offset : Z)
  : option bool :=
  match fuel with
  | O => None
  | S fuel' =>
      if offset <? current_offset then
        step ← walk_entry offset;
        match step with
        | None => Some false
        | Some (header, file_size, data_offset) =>
            '(ok, path) ← tar_path header (uninit RAMDISK_PATH_SIZE);
            seen ←
              (if (ok : bool) then
                 child ← child_name_for_directory path directory_path;
                 match child with
                 | None => Some false
                 | Some (previous_child, _) => d ← strcmp previous_child child_name; Some (d =? 0)
                 end
               else Some false);
            if (seen : bool) then Some true
            else child_seen_loop fuel' directory_path child_name current_offset
                   (data_offset +u align_to_tar_block file_size)
        end
      else Some false
  end.

Definition child_seen_before (directory_path child_name : list Z) (current_offset : Z) : option bool :=
  child_seen_loop walk_fuel directory_path child_name current_offset 0.

(** The path of a child, in a 256-byte buffer. *)
Definition child_path_of (normalized child_name : list Z) : option (list Z) :=
  c ← head normalized;
  if c =? 0 then
    n ← strlen child_name; copy_bytes (uninit RAMDISK_PATH_SIZE) 0 256 child_name n
  else
    n ← strlen normalized;
    child_path ← copy_bytes (uninit RAMDISK_PATH_SIZE) 0 256 normalized n;
    length ← strlen child_path;
    child_path ←
      (if length + 1 <? 256 then
         p ← buf_set child_path length (chr "/"); buf_set p (length + 1) 0
       else Some child_path);
    pos ← strlen child_path;
    n ← strlen child_name;
    copy_bytes child_path pos (256 -u pos) child_name n.

Definition fill_child (normalized entry_path child_name header : list Z) (nested : bool)
    (data_offset file_size : Z) : option xbks_ramdisk_file :=
  child_path ← child_path_of normalized child_name;
  path ← make_public_path child_path (uninit RAMDISK_PATH_SIZE) 256;
  directory ← (if nested then Some true else header_is_directory header entry_path);
  executable ← (if (directory : bool) then Some false
                else mode ← parse_octal (header_mode header) 8; Some (negb ((mode & 73) =? 0)));
  Some (RamdiskFile path (if nested then 0 else ramdisk_data + data_offset)
          (if nested then 0 else file_size) directory executable).

(** [None] inside stands for the answer [false]. *)
Fixpoint read_dir_loop (fuel : nat) (normalized : list Z) (index offset current_index : Z)
  : option (option xbks_ramdisk_file) :=
  match fuel with
  | O => None
  | S fuel' =>
      step ← walk_entry offset;
      match step with
      | None => Some None
      | Some (header, file_size, data_offset) =>
          '(ok, entry_path) ← tar_path header (uninit RAMDISK_PATH_SIZE);
          let next := data_offset +u align_to_tar_block file_size in
          child ← (if (ok : bool) then child_name_for_directory entry_path normalized else Some None);
          match child with
          | None => read_dir_loop fuel' normalized index next current_index
          | Some (child_name, nested) =>
              seen ← child_seen_before normalized child_name offset;
              if (seen : bool) then read_dir_loop fuel' normalized index next current_index
              else if current_index =? index then
                f ← fill_child normalized entry_path child_name header nested data_offset file_size;
                Some (Some f)
              else read_dir_loop fuel' normalized index next (current_index +u 1)
          end
      end
  end.

(** A directory that is not an entry of the archive: the root or an implied parent. *)
Definition implied_directory (normalized : list Z) : option xbks_ramdisk_file :=
  path ← make_public_path normalized (uninit RAMDISK_PATH_SIZE) 256;
  Some (RamdiskFile path 0 0 true false).

(** [path] is [None] for a null pointer; [out_null] says that [out] is null. *)
Definition xbks_ramdisk_find (ramdisk_available : bool) (path : option (list Z)) (out_null : bool)
  : option (option xbks_ramdisk_file) :=
  match path with
  | None => Some None
  | Some path =>
      if negb ramdisk_available || out_null then Some None
      else
        normalized ← normalize_path path (uninit RAMDISK_PATH_SIZE) 256;
        c ← head normalized;
        if c =? 0 then f ← implied_directory normalized; Some (Some f)
        else
          r ← find_header normalized;
          match r with
          | Found f => Some (Some f)
          | Missing true => f ← implied_directory normalized; Some (Some f)
          | Missing false => Some None
          end
  end.

Definition xbks_ramdisk_read_dir (ramdisk_available : bool) (path : option (list Z)) (index : Z)
    (out_null : bool) : option (option xbks_ramdisk_file) :=
  match path with
  | None => Some None
  | Some path =>
      if negb ramdisk_available || out_null then Some None
      else
        normalized ← normalize_path path (uninit RAMDISK_PATH_SIZE) 256;
        read_dir_loop walk_fuel normalized index 0 0
  end.
End Archive.

(** ** Choosing the module

    The loader's modules: address and size of the contents, path and string, each
    pointer absent when null. *)
Record limine_file := LimineFile {
  m_address : Z;
  m_size : Z;
  m_path : option (list Z);
  m_string : option (list Z);
}.

Record ramdisk_state := RamdiskState {
  rd_data : Z;
  rd_size : Z;
  rd_available : bool;
}.

Definition module_loaded (m : option limine_file) : option limine_file :=
  m ← m; if (m_address m =? 0) || (m_size m =? 0) then None else Some m.

Definition module_is_ramdisk (m : limine_file) : option bool :=
  let module_string := default (lit "") (m_string m) in
  let module_path := default (lit "") (m_path m) in
  d ← strcmp module_string (lit "ramdisk");
  if d =? 0 then Some true
  else
    e ← string_ends_with module_path (lit "/ramdisk.tar");
    if (e : bool) then Some true else string_ends_with module_path (lit "ramdisk.tar").

Fixpoint init_loop (modules : list (option limine_file)) : option (option limine_file) :=
  match modules with
  | [] => Some None
  | m :: rest =>
      match module_loaded m with
      | None => init_loop rest
      | Some f => b ← module_is_ramdisk f; if (b : bool) then Some (Some f) else init_loop rest
      end
  end.

(** [modules] is [None] when the response or its array is null. *)
Definition xbks_ramdisk_init (modules : option (list (option limine_file)))
  : option (bool * ramdisk_state) :=
  let none := RamdiskState 0 0 false in
  let use f := Some (true, RamdiskState (m_address f) (m_size f) true) in
  match modules with
  | None => Some (false, none)
  | Some modules =>
      if (length modules =? 0)%nat then Some (false, none)
      else
        chosen ← init_loop modules;
        match chosen with
        | Some f => use f
        | None =>
            if (length modules =? 1)%nat then
              match module_loaded (default None (head modules)) with
              | Some f => use f
              | None => Some (false, none)
              end
            else Some (false, none)
        end
  end.
