(* ===== verification/RamdiskSpec.v ===== *)
(** * The ramdisk: what the path and header routines compute

    Each routine of src/fs/ramdisk.c that works on a string buffer is shown to
    compute a function of the string the buffer holds, without an access outside
    its arrays. *)

From Stdlib Require Import Ascii String.
From S2P Require Import Prelude CStr Ramdisk.

(** ** Buffers *)

(** The array [b] of 256 bytes holds the string [s]. *)
Definition buf_holds (b s : list Z) : Prop :=
  length b = 256%nat /\ text s /\ exists r, b = s ++ 0 :: r.

Lemma buf_holds_cstr b s : buf_holds b s -> cstr b = Some s.
Proof. intros (_ & Ht & r & ->). apply cstr_app, Ht. Qed.

Lemma buf_holds_strlen b s : buf_holds b s -> strlen b = Some (Z.of_nat (length s)).
Proof. intros H. rewrite strlen_cstr, (buf_holds_cstr b s H). reflexivity. Qed.

Lemma buf_holds_length b s : buf_holds b s -> (length s <= 255)%nat.
Proof. intros (Hl & _ & r & ->). rewrite length_app in Hl. cbn in Hl. lia. Qed.

Lemma buf_holds_head b s : buf_holds b s -> head b = Some (match s with [] => 0 | c :: _ => c end).
Proof. intros (_ & _ & r & ->). destruct s; reflexivity. Qed.

(** [copy_bytes] writes the bytes and a terminator at [pos]. *)
Lemma copy_loop_ok count l r src :
  (count <= length src)%nat -> (count < length r)%nat ->
  copy_loop count (l ++ r) (Z.of_nat (length l)) src =
    Some (l ++ take count src ++ 0 :: drop (S count) r).
Proof.
  revert l r src. induction count as [|n IH]; intros l r src Hs Hr; destruct r as [|x r]; cbn in Hr; try lia.
  { cbn [copy_loop take]. rewrite buf_set_app. cbn. rewrite drop_0. reflexivity. }
  destruct src as [|c src]; cbn in Hs; [lia|]. cbn [copy_loop]. rewrite buf_set_app.
  cbn [mbind option_bind]. replace (l ++ c :: r) with ((l ++ [c]) ++ r) by (rewrite <- app_assoc; reflexivity).
  replace (Z.of_nat (length l) + 1) with (Z.of_nat (length (l ++ [c]))) by (rewrite length_app; cbn; lia).
  rewrite IH by lia. rewrite <- app_assoc. reflexivity.
Qed.

Lemma copy_bytes_ok l r cap src len :
  (0 < cap <= length r)%nat -> Z.of_nat cap < 2 ^ 64 -> (len <= length src)%nat ->
  copy_bytes (l ++ r) (Z.of_nat (length l)) (Z.of_nat cap) src (Z.of_nat len) =
    Some (l ++ take (Nat.min len (cap - 1)) src ++ 0 :: drop (S (Nat.min len (cap - 1))) r).
Proof.
  intros Hc H64 Hl. unfold copy_bytes. destruct (Z.eqb_spec (Z.of_nat cap) 0); [lia|].
  replace (Z.to_nat (if Z.of_nat cap <=? Z.of_nat len then Z.of_nat cap -u 1 else Z.of_nat len))
    with (Nat.min len (cap - 1)).
  - apply copy_loop_ok; lia.
  - case_bool; [rewrite uwrap_small by lia|]; lia.
Qed.

Lemma length_uninit n : length (uninit n) = n.
Proof. apply length_replicate. Qed.

Lemma text_app a b : text (a ++ b) <-> text a /\ text b.
Proof. apply Forall_app. Qed.

Lemma text_take n s : text s -> text (take n s).
Proof. apply Forall_take. Qed.

Lemma text_drop n s : text s -> text (drop n s).
Proof. apply Forall_drop. Qed.

(** A copy at the start of a 256-byte buffer. *)
Lemma copy_to_start b s r :
  length b = 256%nat -> text s ->
  exists b', copy_bytes b 0 256 (s ++ r) (Z.of_nat (length s)) = Some b' /\ buf_holds b' (take 255 s).
Proof.
  intros Hb Ht. change 256 with (Z.of_nat 256) at 1. change 0 with (Z.of_nat (@length Z [])).
  change b with ([] ++ b) at 1. rewrite copy_bytes_ok by (rewrite ?length_app; lia).
  eexists. split; [reflexivity|]. cbn [app]. split; [|split; [apply text_take, Ht|]].
  - rewrite length_app, length_take. cbn. rewrite length_drop, length_app. lia.
  - eexists. f_equal. rewrite take_app_le by lia.
    destruct (Nat.le_ge_cases (length s) 255).
    + rewrite Nat.min_l, !take_ge by lia. reflexivity.
    + rewrite Nat.min_r by lia. reflexivity.
Qed.

(** A copy after a prefix, in what is left of the 256 bytes. *)
Lemma copy_after b p s r :
  buf_holds b p -> text s ->
  exists b', copy_bytes b (Z.of_nat (length p)) (256 -u Z.of_nat (length p)) (s ++ r)
               (Z.of_nat (length s)) = Some b' /\ buf_holds b' (take 255 (p ++ s)).
Proof.
  intros Hb Ht. pose proof (buf_holds_length b p Hb) as Hlp. destruct Hb as (Hl & Hp & t & ->).
  rewrite uwrap_small by lia.
  replace (256 - Z.of_nat (length p)) with (Z.of_nat (256 - length p)) by lia.
  rewrite length_app in Hl. cbn in Hl.
  rewrite copy_bytes_ok by (rewrite ?length_app; cbn; lia).
  eexists. split; [reflexivity|].
  assert (E : take (Nat.min (length s) (256 - length p - 1)) (s ++ r) = take (255 - length p) s).
  { rewrite take_app_le by lia. destruct (Nat.le_ge_cases (length s) (255 - length p)).
    - rewrite Nat.min_l, !take_ge by lia. reflexivity.
    - rewrite Nat.min_r by lia. f_equal. lia. }
  rewrite E, take_app, (take_ge p) by lia. split; [|split].
  - rewrite !length_app, length_take. cbn. rewrite length_drop. lia.
  - apply text_app. split; [exact Hp|apply text_take, Ht].
  - eexists. rewrite <- app_assoc. reflexivity.
Qed.

(** ** Paths

    The string [normalize_path] computes: leading slashes and ["./"] components
    removed, cut to 255 characters, trailing slashes removed. *)

Fixpoint strip_slashes (s : list Z) : list Z :=
  match s with
  | c :: t => if c =? chr "/" then strip_slashes t else s
  | [] => []
  end.

Fixpoint strip_dots (fuel : nat) (s : list Z) : list Z :=
  match fuel with
  | O => s
  | S fuel' =>
      match s with
      | [c0] => if c0 =? chr "." then [] else s
      | c0 :: ((c1 :: _) as t) =>
          if (c0 =? chr ".") && (c1 =? chr "/") then strip_dots fuel' (strip_slashes t) else s
      | [] => []
      end
  end.

Definition trim (s : list Z) : list Z := rev (strip_slashes (rev s)).

Definition strip (s : list Z) : list Z := strip_dots (length s) (strip_slashes s).

Definition norm (s : list Z) : list Z := trim (take 255 (strip s)).

(** What every stored and every queried path looks like. *)
Definition canonical (s : list Z) : Prop :=
  text s /\ (length s <= 255)%nat /\
  head s <> Some (chr "/") /\ head (rev s) <> Some (chr "/") /\
  s <> str "." /\ (forall t, s <> chr "." :: chr "/" :: t).

Lemma strip_slashes_suffix s : exists p, s = p ++ strip_slashes s.
Proof.
  induction s as [|c t [p IH]]; [exists []; reflexivity|]. cbn [strip_slashes]. case_bool.
  - exists (c :: p). cbn. f_equal. exact IH.
  - exists []. reflexivity.
Qed.

Lemma strip_slashes_length s : (length (strip_slashes s) <= length s)%nat.
Proof. destruct (strip_slashes_suffix s) as [p E]. rewrite E at 2. rewrite length_app. lia. Qed.

Lemma strip_slashes_text s : text s -> text (strip_slashes s).
Proof.
  intros H. destruct (strip_slashes_suffix s) as [p E]. rewrite E in H. apply text_app in H. tauto.
Qed.

Lemma strip_slashes_head s : head (strip_slashes s) <> Some (chr "/").
Proof.
  induction s as [|c t IH]; cbn [strip_slashes]; [discriminate|].
  destruct (Z.eqb_spec c (chr "/")); [exact IH|]. cbn. congruence.
Qed.

Lemma strip_slashes_id s : head s <> Some (chr "/") -> strip_slashes s = s.
Proof.
  destruct s as [|c t]; [reflexivity|]. intros H. cbn [strip_slashes].
  destruct (Z.eqb_spec c (chr "/")) as [->|]; [|reflexivity]. exfalso. apply H. reflexivity.
Qed.

Lemma strip_dots_text n s : text s -> text (strip_dots n s).
Proof.
  revert s. induction n as [|n IH]; intros s H; [exact H|]. destruct s as [|c0 [|c1 t]]; cbn [strip_dots].
  - exact H.
  - case_bool; [constructor|exact H].
  - destruct (_ && _); [|exact H]. apply IH, strip_slashes_text. apply text_cons in H. tauto.
Qed.

Lemma strip_dots_canon n s :
  (length s <= n)%nat -> head s <> Some (chr "/") ->
  let r := strip_dots n s in
  head r <> Some (chr "/") /\ r <> str "." /\ (forall t, r <> chr "." :: chr "/" :: t).
Proof.
  revert s. induction n as [|n IH]; intros s Hn Hh.
  { destruct s; [|cbn in Hn; lia]. cbn. repeat split; discriminate. }
  destruct s as [|c0 [|c1 t]].
  - cbn. repeat split; discriminate.
  - cbn [strip_dots]. destruct (Z.eqb_spec c0 (chr ".")); cbn; [repeat split; discriminate|].
    split; [exact Hh|]. split; [|discriminate]. intros E. injection E. exact n0.
  - cbn [strip_dots]. destruct (Z.eqb_spec c0 (chr ".")); cbn [andb].
    2: { split; [exact Hh|]. split; [discriminate|]. congruence. }
    destruct (Z.eqb_spec c1 (chr "/")); cbn [andb].
    + apply IH; [|apply strip_slashes_head]. pose proof (strip_slashes_length (c1 :: t)). cbn in *. lia.
    + split; [exact Hh|]. split; [discriminate|]. congruence.
Qed.

Lemma strip_dots_id n s :
  s <> str "." -> (forall t, s <> chr "." :: chr "/" :: t) -> strip_dots n s = s.
Proof.
  intros H1 H2. destruct n; [reflexivity|]. destruct s as [|c0 [|c1 t]]; cbn [strip_dots]; [reflexivity|..].
  - destruct (Z.eqb_spec c0 (chr ".")) as [->|]; [|reflexivity]. exfalso. apply H1. reflexivity.
  - destruct (Z.eqb_spec c0 (chr ".")) as [->|]; [|reflexivity].
    destruct (Z.eqb_spec c1 (chr "/")) as [->|]; [|reflexivity]. exfalso. exact (H2 t eq_refl).
Qed.

Lemma trim_prefix s : exists r, s = trim s ++ r.
Proof.
  destruct (strip_slashes_suffix (rev s)) as [p E]. exists (rev p). unfold trim.
  rewrite <- rev_app_distr, <- E. symmetry. apply rev_involutive.
Qed.

(** Trimming stops at the last character that is not a slash. *)
Lemma trim_mid p c s : c <> chr "/" -> exists r, trim (p ++ c :: s) = p ++ c :: r.
Proof.
  intros Hc. unfold trim. rewrite rev_app_distr. cbn [rev]. rewrite <- app_assoc. cbn [app].
  assert (H : forall u, exists v, strip_slashes (u ++ c :: rev p) = v ++ c :: rev p).
  { induction u as [|x u [v IH]]; cbn [app strip_slashes].
    - destruct (Z.eqb_spec c (chr "/")); [congruence|]. exists []. reflexivity.
    - case_bool; [exists v; exact IH|]. exists (x :: u). reflexivity. }
  destruct (H (rev s)) as [v ->]. rewrite rev_app_distr. cbn [rev]. rewrite rev_involutive.
  exists (rev v). rewrite <- app_assoc. reflexivity.
Qed.

Lemma strip_text s : text s -> text (strip s).
Proof. intros. apply strip_dots_text, strip_slashes_text. assumption. Qed.

Lemma norm_text s : text s -> text (norm s).
Proof.
  intros H. pose proof (text_take 255 _ (strip_text s H)) as Ht.
  destruct (trim_prefix (take 255 (strip s))) as [r E]. rewrite E in Ht. apply text_app in Ht. tauto.
Qed.

Lemma norm_canonical s : text s -> canonical (norm s).
Proof.
  intros Hs. split; [apply norm_text, Hs|].
  pose proof (strip_dots_canon (length s) (strip_slashes s) (strip_slashes_length s) (strip_slashes_head s))
    as (Hh & Hdot & Hds). fold (strip s) in Hh, Hdot, Hds.
  destruct (trim_prefix (take 255 (strip s))) as [r E]. fold (norm s) in E.
  split.
  { apply (f_equal length) in E. rewrite length_app, length_take in E. lia. }
  split; [|split; [|split]].
  - intros Hn. destruct (norm s) as [|c u]; [discriminate|]. injection Hn as ->.
    destruct (strip s) as [|x v]; [discriminate|]. injection E as -> _. apply Hh. reflexivity.
  - unfold norm, trim. rewrite rev_involutive. apply strip_slashes_head.
  - intros Hn. unfold norm in Hn, E. destruct (strip s) as [|x [|y v]]; [discriminate|..].
    + rewrite Hn in E. injection E as -> _. apply Hdot. reflexivity.
    + rewrite Hn in E. injection E as -> E.
      assert (Hy : y <> chr "/") by (intros ->; exact (Hds v eq_refl)).
      destruct (trim_mid (str ".") y (take 253 v) Hy) as [w Hw]. discriminate (eq_trans (eq_sym Hw) Hn).
  - intros t Hn. rewrite Hn in E. destruct (strip s) as [|x [|y v]]; [discriminate..|].
    injection E as -> -> _. exact (Hds v eq_refl).
Qed.

Lemma norm_id s : canonical s -> norm s = s.
Proof.
  intros (_ & Hl & Hh & Ht & H1 & H2). unfold norm, strip.
  rewrite strip_slashes_id, strip_dots_id, take_ge by assumption.
  unfold trim. rewrite strip_slashes_id by assumption. apply rev_involutive.
Qed.

(** The absolute form of a canonical path normalises to the path. *)
Lemma norm_slash s : canonical s -> norm (chr "/" :: s) = s.
Proof.
  intros H. rewrite <- (norm_id s H) at 2. destruct H as (_ & _ & Hh & _ & H1 & H2). unfold norm, strip.
  do 2 f_equal. cbn [strip_slashes]. rewrite Z.eqb_refl, strip_slashes_id by assumption. rewrite !strip_dots_id by assumption. reflexivity.
Qed.

(** *** The loops of [normalize_path] *)

Lemma skip_slashes_ok s r : skip_slashes (s ++ 0 :: r) = Some (strip_slashes s ++ 0 :: r).
Proof.
  induction s as [|c s IH]; cbn [app skip_slashes strip_slashes]; [reflexivity|].
  destruct (c =? chr "/"); [exact IH|reflexivity].
Qed.

Lemma skip_dots_ok fuel n s r :
  text s -> (length s < fuel)%nat -> (length s <= n)%nat ->
  skip_dots fuel (s ++ 0 :: r) = Some (strip_dots n s ++ 0 :: r).
Proof.
  revert n s. induction fuel as [|f IH]; intros n s Hs Hf Hn; [lia|].
  destruct n as [|n], s as [|c0 [|c1 t]]; cbn in Hn; try lia; try reflexivity.
  - cbn [app skip_dots strip_dots]. destruct (c0 =? chr "."); [|reflexivity].
    rewrite orb_true_r. destruct f; [cbn in Hf; lia|]. reflexivity.
  - cbn [app skip_dots strip_dots]. destruct (c0 =? chr "."); [|reflexivity]. cbn [andb].
    apply text_cons in Hs as [_ Hs]. pose proof Hs as Hs'. apply text_cons in Hs' as [Hc _].
    destruct (Z.eqb_spec c1 0); [lia|]. rewrite orb_false_r.
    destruct (c1 =? chr "/") eqn:E1; [|reflexivity].
    change (c1 :: t ++ 0 :: r) with ((c1 :: t) ++ 0 :: r). rewrite skip_slashes_ok. cbn [mbind option_bind].
    pose proof (strip_slashes_length (c1 :: t)). cbn [length] in *.
    apply IH; [apply strip_slashes_text; exact Hs|lia|lia].
Qed.

Lemma copy_path_ok s q l r :
  text s -> (length l + length r = 256)%nat -> (length l <= 255)%nat ->
  copy_path (s ++ 0 :: q) (l ++ r) (Z.of_nat (length l)) 256 =
    Some (l ++ take (255 - length l) s ++ drop (length (take (255 - length l) s)) r,
          Z.of_nat (length (l ++ take (255 - length l) s))).
Proof.
  intros Hs. revert l r. induction Hs as [|c s Hc Hs IH]; intros l r Hlr Hl; cbn [app copy_path].
  { cbn. rewrite take_nil, app_nil_r. cbn. rewrite drop_0. reflexivity. }
  destruct (Z.eqb_spec c 0); [lia|]. cbn [negb andb]. rewrite uwrap_small by lia.
  destruct (Z.ltb_spec (Z.of_nat (length l) + 1) 256).
  - destruct r as [|x r]; cbn in Hlr; [lia|]. rewrite buf_set_app. cbn [mbind option_bind].
    replace (l ++ c :: r) with ((l ++ [c]) ++ r) by (rewrite <- app_assoc; reflexivity).
    replace (Z.of_nat (length l) + 1) with (Z.of_nat (length (l ++ [c]))) by (rewrite length_app; cbn; lia).
    rewrite IH by (rewrite ?length_app; cbn; lia).
    replace (255 - length l)%nat with (S (255 - length (l ++ [c]))) by (rewrite length_app; cbn; lia).
    rewrite <- !app_assoc. reflexivity.
  - replace (255 - length l)%nat with 0%nat by lia. cbn. rewrite app_nil_r, drop_0. reflexivity.
Qed.

Lemma trim_snoc s c : trim (s ++ [c]) = if c =? chr "/" then trim s else s ++ [c].
Proof.
  unfold trim. rewrite rev_app_distr. cbn [rev app strip_slashes]. destruct (c =? chr "/"); [reflexivity|].
  cbn [rev]. rewrite rev_involutive. reflexivity.
Qed.

Lemma trim_slashes_ok s r : trim_slashes (s ++ r) (length s) = Some (length (trim s)).
Proof.
  revert r. induction s as [|c s IH] using rev_ind; intros r; [reflexivity|].
  rewrite trim_snoc, length_app, Nat.add_comm. cbn [length Nat.add trim_slashes].
  rewrite <- app_assoc. cbn [app]. rewrite list_lookup_middle by reflexivity. cbn [mbind option_bind].
  destruct (c =? chr "/"); [apply IH|]. rewrite length_app. cbn. f_equal. lia.
Qed.

(** [normalize_path] leaves [norm s] in the buffer. *)
Lemma normalize_path_ok s r out :
  text s -> length out = 256%nat ->
  exists b, normalize_path (s ++ 0 :: r) out 256 = Some b /\ buf_holds b (norm s).
Proof.
  intros Hs Hout. unfold normalize_path. cbn [Z.eqb]. rewrite skip_slashes_ok. cbn [mbind option_bind].
  rewrite (skip_dots_ok _ (length s)).
  2: apply strip_slashes_text, Hs. 2: rewrite length_app; cbn; lia. 2: apply strip_slashes_length.
  cbn [mbind option_bind]. change (strip_dots (length s) (strip_slashes s)) with (strip s).
  change out with ([] ++ out) at 1. change 0 with (Z.of_nat (@length Z [])) at 2.
  rewrite copy_path_ok by (try apply strip_text; cbn; try assumption; lia).
  cbn [mbind option_bind length Nat.sub app]. rewrite Nat2Z.id, trim_slashes_ok. cbn [mbind option_bind].
  fold (norm s). destruct (trim_prefix (take 255 (strip s))) as [w E]. fold (norm s) in E.
  pose proof (proj1 (proj2 (norm_canonical s Hs))) as Hn.
  set (b := take 255 (strip s) ++ _).
  assert (Hb : length b = 256%nat).
  { unfold b. rewrite length_app, length_drop, length_take, Hout. lia. }
  rewrite buf_set_split by lia. eexists. split; [reflexivity|].
  assert (Eb : take (length (norm s)) b = norm s).
  { unfold b. rewrite E, <- app_assoc. apply take_app_length. }
  rewrite Eb. split; [|split; [apply norm_text, Hs|eexists; reflexivity]].
  rewrite length_app. cbn. rewrite length_drop. lia.
Qed.

(** *** [make_public_path] *)

Definition public (s : list Z) : list Z := chr "/" :: take 254 s.

Lemma make_public_path_ok b s out :
  buf_holds b s -> length out = 256%nat ->
  exists p, make_public_path b out 256 = Some p /\ buf_holds p (public s).
Proof.
  intros Hb Hout. pose proof (buf_holds_length b s Hb) as Hlen.
  unfold make_public_path. cbn [Z.eqb]. rewrite (buf_holds_head b s Hb), (buf_holds_strlen b s Hb).
  cbn [mbind option_bind]. destruct Hb as (_ & Hs & r & ->).
  destruct s as [|c s].
  { apply (copy_to_start out (str "/") [0] Hout). repeat constructor; lia. }
  pose proof Hs as Hs'. apply text_cons in Hs' as [Hc _]. destruct (Z.eqb_spec c 0); [lia|].
  destruct out as [|x out]; [discriminate|]. injection Hout as Hout.
  rewrite (buf_set_app [] x out (chr "/") : buf_set (x :: out) 0 _ = _). cbn [mbind option_bind].
  change ([] ++ chr "/" :: out) with (str "/" ++ out). change 1 with (Z.of_nat (length (str "/"))) at 1.
  change (256 -u 1) with (Z.of_nat 255). rewrite copy_bytes_ok by (rewrite ?length_app; lia).
  eexists. split; [reflexivity|]. rewrite take_app_le by lia. unfold public.
  assert (E : take (Nat.min (length (c :: s)) (255 - 1)) (c :: s) = take 254 (c :: s)).
  { destruct (Nat.le_ge_cases (length (c :: s)) 254).
    - rewrite Nat.min_l, !take_ge by lia. reflexivity.
    - rewrite Nat.min_r by lia. reflexivity. }
  rewrite E. split; [|split].
  - rewrite !length_app. cbn [length]. rewrite length_drop, length_take, Hout. cbn [length str]. cbn [length] in *. lia.
  - apply text_cons. split; [unfold chr; cbn; lia|apply text_take, Hs].
  - eexists. cbn [str app]. reflexivity.
Qed.

(** *** Header fields *)

Definition bytes (l : list Z) : Prop := Forall (fun b => 0 <= b < 256) l.

Lemma bytes_check l : forallb (fun b => (0 <=? b) && (b <? 256)) l = true -> bytes l.
Proof.
  intros H. apply List.Forall_forall. intros c Hc. rewrite forallb_forall in H. apply H in Hc. to_prop. lia.
Qed.

(** The characters of a field before its first NUL, or the whole field. *)
Fixpoint field_text (f : list Z) : list Z :=
  match f with
  | [] => []
  | c :: t => if c =? 0 then [] else c :: field_text t
  end.

Lemma field_text_prefix f : exists r, f = field_text f ++ r.
Proof.
  induction f as [|c t [r IH]]; [exists []; reflexivity|]. cbn. destruct (c =? 0).
  - exists (c :: t). reflexivity.
  - exists r. cbn. f_equal. exact IH.
Qed.

Lemma field_text_text f : bytes f -> text (field_text f).
Proof.
  induction 1 as [|c t Hc _ IH]; cbn; [constructor|]. destruct (Z.eqb_spec c 0); constructor; [lia|exact IH].
Qed.

Lemma field_text_length f : (length (field_text f) <= length f)%nat.
Proof. destruct (field_text_prefix f) as [r E]. rewrite E at 2. rewrite length_app. lia. Qed.

Lemma bounded_strlen_ok f : bounded_strlen f (length f) = Some (length (field_text f)).
Proof.
  induction f as [|c t IH]; [reflexivity|]. cbn. destruct (c =? 0); [reflexivity|]. rewrite IH. reflexivity.
Qed.

Lemma tar_field_length h o n :
  length h = 512%nat -> (o + n <= 512)%nat -> length (tar_field h o n) = n.
Proof. intros Hh Hn. unfold tar_field. rewrite length_take, length_drop. lia. Qed.

Lemma tar_field_bytes h o n : bytes h -> bytes (tar_field h o n).
Proof. intros H. apply Forall_take, Forall_drop, H. Qed.

(** The path an entry's header names, empty when it names none. *)
Definition entry_path (h : list Z) : list Z :=
  let prefix := field_text (header_prefix h) in
  let name := field_text (header_name h) in
  match name, prefix with
  | [], _ => []
  | _, [] => norm name
  | _, _ => norm (take 255 (prefix ++ chr "/" :: name))
  end.

(** Appending one character to the string a buffer holds. *)
Lemma buf_push b s c :
  buf_holds b s -> 0 < c < 256 -> (length s < 255)%nat ->
  exists b1 b2, buf_set b (Z.of_nat (length s)) c = Some b1 /\
    buf_set b1 (Z.of_nat (length s) + 1) 0 = Some b2 /\ buf_holds b2 (s ++ [c]).
Proof.
  intros (Hl & Hs & r & ->) Hc Hlen. rewrite length_app in Hl. cbn [length] in Hl.
  destruct r as [|x r]; cbn in Hl; [lia|]. exists ((s ++ [c]) ++ x :: r), ((s ++ [c]) ++ 0 :: r).
  split; [rewrite buf_set_app, <- app_assoc; reflexivity|]. split.
  - rewrite <- buf_set_app with (x := x). f_equal. rewrite length_app. cbn. lia.
  - split; [rewrite !length_app in *; cbn in *; lia|]. split; [|eexists; reflexivity].
    apply text_app. split; [exact Hs|]. repeat constructor; lia.
Qed.

(** The buffer [tar_path] combines prefix and name in. *)
Lemma combine_ok P rp N rn :
  text P -> text N -> (length P <= 155)%nat ->
  exists b pos, (if negb (length P =? 0)%nat then
         c ← copy_bytes (uninit RAMDISK_PATH_SIZE) 0 256 (P ++ rp) (Z.of_nat (length P));
         offset ← strlen c;
         if offset + 1 <? 256 then
           c ← buf_set c offset (chr "/");
           c ← buf_set c (offset + 1) 0;
           Some (c, offset + 1)
         else Some (c, offset)
       else c ← buf_set (uninit RAMDISK_PATH_SIZE) 0 0; Some (c, 0)) = Some (b, pos) /\
    exists b', copy_bytes b pos (256 -u pos) (N ++ rn) (Z.of_nat (length N)) = Some b' /\
      buf_holds b' (take 255 (match P with [] => N | _ => P ++ chr "/" :: N end)).
Proof.
  intros HP HN Hlen. destruct P as [|p P].
  - cbn [length Nat.eqb negb]. eexists _, _. split; [reflexivity|].
    apply (copy_after _ [] N rn); [|exact HN]. split; [reflexivity|]. split; [constructor|eexists; reflexivity].
  - cbn [length Nat.eqb negb]. change (S (length P)) with (length (p :: P)).
    destruct (copy_to_start (uninit RAMDISK_PATH_SIZE) (p :: P) rp (length_uninit _) HP) as (b & -> & Hb).
    rewrite take_ge in Hb by lia. cbn [mbind option_bind]. rewrite (buf_holds_strlen _ _ Hb). cbn [mbind option_bind].
    destruct (Z.ltb_spec (Z.of_nat (length (p :: P)) + 1) 256); [|lia].
    destruct (buf_push b (p :: P) (chr "/") Hb) as (b1 & b2 & E1 & E2 & H2); [unfold chr; cbn; lia|lia|].
    rewrite E1. cbn [mbind option_bind]. rewrite E2. eexists _, _. split; [reflexivity|].
    destruct (copy_after b2 _ N rn H2 HN) as (b3 & E3 & H3). exists b3. split.
    + rewrite <- E3. rewrite length_app. cbn [length]. f_equal; [lia|f_equal; lia].
    + rewrite <- app_assoc in H3. exact H3.
Qed.

Lemma tar_path_ok h out :
  length h = 512%nat -> bytes h -> length out = 256%nat ->
  exists b, tar_path h out = Some (negb (bool_decide (entry_path h = [])), b) /\
    (entry_path h <> [] -> buf_holds b (entry_path h)).
Proof.
  intros Hh Hb Hout. unfold tar_path, entry_path.
  pose proof (tar_field_length h 345 155 Hh ltac:(lia) : length (header_prefix h) = _) as LP.
  pose proof (tar_field_length h 0 100 Hh ltac:(lia) : length (header_name h) = _) as LN.
  pose proof (field_text_text _ (tar_field_bytes h 345 155 Hb) : text (field_text (header_prefix h))) as TP.
  pose proof (field_text_text _ (tar_field_bytes h 0 100 Hb) : text (field_text (header_name h))) as TN.
  pose proof (field_text_length (header_prefix h)) as Len.
  pose proof (bounded_strlen_ok (header_prefix h)) as EP. pose proof (bounded_strlen_ok (header_name h)) as EN.
  rewrite LP in EP, Len. rewrite LN in EN. unfold TAR_PREFIX_SIZE, TAR_NAME_SIZE.
  rewrite EP, EN. cbn [mbind option_bind].
  destruct (field_text_prefix (header_prefix h)) as [rp RP], (field_text_prefix (header_name h)) as [rn RN].
  destruct (combine_ok _ rp _ rn TP TN Len) as (b & pos & E1 & b1 & E2 & H2).
  rewrite <- RP in E1. rewrite <- RN in E2. rewrite E1. cbn [mbind option_bind]. rewrite E2. clear E1 E2 EP EN RP RN.
  assert (TakeN : take 255 (field_text (header_name h)) = field_text (header_name h)).
  { apply take_ge. pose proof (field_text_length (header_name h)). lia. }
  destruct (field_text (header_name h)) as [|n0 N]; cbn [length Nat.eqb].
  { eexists. split; [reflexivity|]. intros []. reflexivity. }
  cbn [mbind option_bind]. destruct H2 as (_ & HT & r & ->).
  set (c := take 255 _) in *. destruct (normalize_path_ok c r out HT Hout) as (b2 & -> & H3).
  cbn [mbind option_bind]. rewrite (buf_holds_head _ _ H3). cbn [mbind option_bind].
  assert (Ec : norm c = match field_text (header_prefix h) with
     | [] => norm (n0 :: N) | _ => norm (take 255 (field_text (header_prefix h) ++ chr "/" :: n0 :: N)) end).
  { unfold c. destruct (field_text (header_prefix h)); [rewrite TakeN|]; reflexivity. }
  rewrite <- Ec. exists b2. split; [|intros _; exact H3].
  pose proof (norm_text c HT) as TC. destruct (norm c) as [|x u]; [reflexivity|].
  apply text_cons in TC as [Hx _]. destruct (Z.eqb_spec x 0); [lia|].
  rewrite bool_decide_eq_false_2 by discriminate. reflexivity.
Qed.
