(* ===== verification/RamdiskArchive.v ===== *)
(** * The ramdisk: the archive as a list of entries

    An abstract reading of a tar image, [archive], defined on lists of bytes
    without offsets or machine arithmetic; the walk the three loops of
    src/fs/ramdisk.c share is shown to visit exactly its entries.  [xbks_ramdisk_find]
    is then the first entry with the path, and [xbks_ramdisk_read_dir] indexes the
    list of distinct children. *)

From Stdlib Require Import Ascii String.
From S2P Require Import Prelude CStr Ramdisk RamdiskSpec.

(** ** Octal fields *)

Definition is_octal (c : Z) : bool := (chr "0" <=? c) && (c <=? chr "7").

Fixpoint octal_acc (f : list Z) (v : Z) : Z :=
  match f with
  | c :: t => if is_octal c then octal_acc t (8 * v + (c - chr "0")) else v
  | [] => v
  end.

Fixpoint octal_value (f : list Z) : Z :=
  match f with
  | c :: t => if (c =? chr " ") || (c =? 0) then octal_value t else octal_acc f 0
  | [] => 0
  end.

Lemma octal_acc_range f v k :
  0 <= v < 2 ^ (3 * Z.of_nat k) -> 0 <= octal_acc f v < 2 ^ (3 * Z.of_nat (k + length f)).
Proof.
  revert v k. induction f as [|c t IH]; intros v k Hv; cbn [octal_acc length].
  { rewrite Nat.add_0_r. exact Hv. }
  unfold is_octal. destruct (_ && _) eqn:E.
  - to_prop. replace (k + S (length t))%nat with (S k + length t)%nat by lia. apply IH.
    replace (3 * Z.of_nat (S k)) with (3 * Z.of_nat k + 3) by lia. rewrite Z.pow_add_r by lia.
    unfold chr in *. cbn -[Z.mul Z.add Z.pow] in *. lia.
  - split; [lia|]. apply Z.lt_le_trans with (2 ^ (3 * Z.of_nat k)); [lia|]. apply Z.pow_le_mono_r; lia.
Qed.

Lemma octal_value_range f : 0 <= octal_value f < 2 ^ (3 * Z.of_nat (length f)).
Proof.
  induction f as [|c t IH]; [cbn; lia|]. cbn [octal_value]. destruct (_ || _).
  - split; [lia|]. apply Z.lt_le_trans with (2 ^ (3 * Z.of_nat (length t))); [lia|].
    apply Z.pow_le_mono_r; cbn [length]; lia.
  - apply (octal_acc_range (c :: t) 0 0). cbn. lia.
Qed.

Lemma is_octal_s8 c : 0 <= c < 256 ->
  (s8 c <? chr "0") || (chr "7" <? s8 c) = negb (is_octal c) /\ (is_octal c = true -> s8 c = c).
Proof.
  intros Hc. unfold is_octal, chr, swrap. cbn -[Z.modulo Z.sub Z.add Z.ltb Z.leb].
  change (2 ^ (8 - 1)) with 128. change (2 ^ 8) with 256.
  destruct (Z.lt_ge_cases c 128).
  - rewrite (Z.mod_small (c + 128)) by lia. replace (c + 128 - 128) with c by lia.
    repeat case_bool; cbn; split; (reflexivity || lia).
  - replace (c + 128) with (c - 128 + 1 * 256) by lia. rewrite Z.mod_add, Z.mod_small by lia.
    repeat case_bool; cbn; split; (reflexivity || lia || discriminate).
Qed.

Lemma octal_digits_ok f k v :
  bytes f -> 0 <= v < 2 ^ (3 * Z.of_nat k) -> (k + length f <= 21)%nat ->
  octal_digits (length f) f v = Some (octal_acc f v).
Proof.
  intros Hf. revert k v. induction Hf as [|c t Hc Ht IH]; intros k v Hv Hk; [reflexivity|].
  cbn [length octal_digits octal_acc]. destruct (is_octal_s8 c Hc) as [-> Hs].
  destruct (is_octal c) eqn:E; [|reflexivity]. cbn [negb]. rewrite Hs by reflexivity.
  unfold is_octal in E. to_prop. rewrite Z.shiftl_mul_pow2 by lia. change (2 ^ 3) with 8.
  assert (2 ^ (3 * Z.of_nat k) * 8 <= 2 ^ 63).
  { change 8 with (2 ^ 3). rewrite <- Z.pow_add_r by lia. apply Z.pow_le_mono_r; cbn [length] in *; lia. }
  assert (0 <= c - chr "0" < 8) by (unfold chr in *; cbn -[Z.sub] in *; lia).
  rewrite (uwrap_small 64 (v * 8)) by lia. rewrite uwrap_small by lia. rewrite (Z.mul_comm v 8).
  apply (IH (S k)); [|cbn [length] in *; lia].
  replace (3 * Z.of_nat (S k)) with (3 * Z.of_nat k + 3) by lia. rewrite Z.pow_add_r by lia. lia.
Qed.

Lemma parse_octal_ok f : bytes f -> (length f <= 21)%nat -> parse_octal f (length f) = Some (octal_value f).
Proof.
  induction 1 as [|c t Hc Ht IH]; intros Hl; [reflexivity|]. cbn [length parse_octal octal_value] in *.
  destruct (_ || _); [apply IH; lia|]. apply (octal_digits_ok (c :: t) 0); [constructor; assumption|cbn; lia..].
Qed.

(** ** The archive *)

Record tar_entry := TarEntry {
  te_offset : nat;
  te_header : list Z;
  te_body : list Z;
}.

Definition padded (n : nat) : nat := ((n + 511) / 512 * 512)%nat.

(** The header and the body size at the front of [rest], if an entry starts there. *)
Definition front (rest : list Z) : option (list Z * nat) :=
  let h := take 512 rest in
  let size := octal_value (header_size h) in
  if (length rest <? 512)%nat || forallb (Z.eqb 0) h then None
  else if Z.of_nat (length rest - 512) <? size then None
  else Some (h, Z.to_nat size).

Fixpoint archive_from (fuel off : nat) (rest : list Z) : list tar_entry :=
  match fuel with
  | O => []
  | S fuel' =>
      match front rest with
      | None => []
      | Some (h, size) =>
          TarEntry off h (take size (drop 512 rest)) ::
          archive_from fuel' (off + 512 + padded size) (drop (512 + padded size) rest)
      end
  end.

Definition archive (img : list Z) : list tar_entry := archive_from (walk_fuel img) 0 img.

Lemma block_is_zero_loop_ok h : block_is_zero_loop (length h) h = Some (forallb (Z.eqb 0) h).
Proof.
  induction h as [|b t IH]; [reflexivity|]. cbn [length block_is_zero_loop forallb].
  rewrite (Z.eqb_sym 0 b). destruct (b =? 0); [exact IH|reflexivity].
Qed.

Lemma align_to_tar_block_ok n : Z.of_nat n < 2 ^ 63 -> align_to_tar_block (Z.of_nat n) = Z.of_nat (padded n).
Proof.
  intros Hn. unfold align_to_tar_block, TAR_BLOCK_SIZE. word.
  change (512 - 1) with (2 ^ 9 - 1). rewrite land_not_mask by (unfold in_u64; lia). change (2 ^ 9) with 512.
  unfold padded. rewrite Nat2Z.inj_mul, Nat2Z.inj_div, Nat2Z.inj_add.
  pose proof (Z.div_mod (Z.of_nat n + 512 - 1) 512). change (Z.of_nat 512) with 512. change (Z.of_nat 511) with 511.
  replace (Z.of_nat n + 511) with (Z.of_nat n + 512 - 1) by lia. lia.
Qed.

Lemma padded_bound n : (n <= padded n < n + 512)%nat.
Proof. unfold padded. pose proof (Nat.div_mod_eq (n + 511) 512). pose proof (Nat.mod_upper_bound (n + 511) 512). lia. Qed.

Lemma front_inv rest h size :
  front rest = Some (h, size) ->
  (512 <= length rest)%nat /\ h = take 512 rest /\ length h = 512%nat /\
  forallb (Z.eqb 0) h = false /\
  Z.of_nat size = octal_value (header_size h) /\ (size <= length rest - 512)%nat.
Proof.
  unfold front. destruct (Nat.ltb_spec (length rest) 512); cbn [orb]; [discriminate|].
  pose proof (octal_value_range (header_size (take 512 rest))).
  destruct (forallb _ _) eqn:E; [discriminate|]. case_bool; [discriminate|].
  intros [= <- <-]. rewrite length_take. rewrite Z2Nat.id by lia. repeat split; try assumption; lia.
Qed.

Lemma header_size_value h : length h = 512%nat -> bytes h ->
  parse_octal (header_size h) 12 = Some (octal_value (header_size h)).
Proof.
  intros Hh Hb. pose proof (tar_field_length h 124 12 Hh ltac:(lia) : length (header_size h) = _) as L.
  rewrite <- L at 1. apply parse_octal_ok; [apply tar_field_bytes, Hb|lia].
Qed.

Lemma header_mode_value h : length h = 512%nat -> bytes h ->
  parse_octal (header_mode h) 8 = Some (octal_value (header_mode h)).
Proof.
  intros Hh Hb. pose proof (tar_field_length h 100 8 Hh ltac:(lia) : length (header_mode h) = _) as L.
  rewrite <- L at 1. apply parse_octal_ok; [apply tar_field_bytes, Hb|lia].
Qed.

Section Walk.
Context (img : list Z).
Context (Hbytes : bytes img) (Hsmall : Z.of_nat (length img) < 2 ^ 62).

(** One step of the walk, whatever the header holds. *)
Lemma walk_entry_ok off :
  (off <= length img + 1024)%nat ->
  walk_entry img (Z.of_nat off) =
    Some (match front (drop off img) with
          | None => None
          | Some (h, size) => Some (h, Z.of_nat size, Z.of_nat (off + 512))
          end).
Proof.
  intros Hoff. unfold walk_entry, front, header_at, ramdisk_size, TAR_BLOCK_SIZE. word.
  rewrite length_drop, Nat2Z.id.
  destruct (Z.leb_spec (Z.of_nat off + 512) (Z.of_nat (length img))).
  2: { destruct (Nat.ltb_spec (length img - off) 512); [reflexivity|lia]. }
  destruct (Nat.ltb_spec (length img - off) 512); [lia|].
  destruct (Z.leb_spec 0 (Z.of_nat off)); [|lia]. cbn [andb orb mbind option_bind].
  set (h := take 512 (drop off img)).
  assert (Hh : length h = 512%nat) by (unfold h; rewrite length_take, length_drop; lia).
  assert (Hb : bytes h) by (apply Forall_take, Forall_drop, Hbytes).
  unfold block_is_zero. rewrite <- Hh at 1. rewrite block_is_zero_loop_ok. cbn [mbind option_bind].
  destruct (forallb _ h); [reflexivity|]. rewrite header_size_value by assumption. cbn [mbind option_bind].
  pose proof (octal_value_range (header_size h)).
  destruct (Z.ltb_spec (Z.of_nat (length img)) (Z.of_nat off + 512)); [lia|]. cbn [orb]. word.
  replace (Z.of_nat (length img) - (Z.of_nat off + 512)) with (Z.of_nat (length img - off - 512)) by lia.
  case_bool; [reflexivity|]. rewrite Z2Nat.id by lia. do 4 f_equal. lia.
Qed.

(** The offset of the next entry. *)
Lemma walk_next off h size :
  (off <= length img + 1024)%nat -> front (drop off img) = Some (h, size) ->
  Z.of_nat (off + 512) +u align_to_tar_block (Z.of_nat size) = Z.of_nat (off + 512 + padded size) /\
  (off + 512 + padded size <= length img + 512)%nat /\
  drop (512 + padded size) (drop off img) = drop (off + 512 + padded size) img.
Proof.
  intros Hoff H. apply front_inv in H as (H1 & _ & _ & _ & _ & H2). rewrite length_drop in *.
  pose proof (padded_bound size). rewrite align_to_tar_block_ok by lia. split; [|split].
  - word.
  - lia.
  - rewrite drop_drop. f_equal. lia.
Qed.
End Walk.

(** ** Lookup *)

Definition names (q : list Z) (e : tar_entry) : bool := bool_decide (entry_path (te_header e) = q).

(** [p] lies under the directory [q]. *)
Definition below (q p : list Z) : bool := bool_decide ((q ++ [chr "/"]) `prefix_of` p).

Definition first_match (q : list Z) (es : list tar_entry) : option tar_entry := List.find (names q) es.

Definition is_dir (h : list Z) : bool := bool_decide (head (header_typeflag h) = Some (chr "5")).
Definition is_exec (h : list Z) : bool := negb ((octal_value (header_mode h) & 73) =? 0).

Lemma entry_path_canonical h : bytes h -> canonical (entry_path h).
Proof.
  intros Hb. pose proof (field_text_text _ (tar_field_bytes h 345 155 Hb) : text (field_text (header_prefix h))) as TP.
  pose proof (field_text_text _ (tar_field_bytes h 0 100 Hb) : text (field_text (header_name h))) as TN.
  unfold entry_path. destruct (field_text (header_name h)) as [|n N].
  { change [] with (norm []). apply norm_canonical. constructor. }
  destruct (field_text (header_prefix h)) as [|x P]; apply norm_canonical; [exact TN|].
  apply text_take, text_app. split; [exact TP|]. apply text_cons. split; [unfold chr; cbn; lia|exact TN].
Qed.

Lemma entry_path_text h : bytes h -> text (entry_path h).
Proof. intros Hb. apply (entry_path_canonical h Hb). Qed.

(** Only the type flag decides: a normalised path never ends in a slash. *)
Lemma header_is_directory_ok h b p :
  length h = 512%nat -> buf_holds b p -> canonical p ->
  header_is_directory h b = Some (is_dir h).
Proof.
  intros Hh Hb (_ & _ & _ & Hlast & _). unfold header_is_directory, is_dir.
  pose proof (tar_field_length h 156 1 Hh ltac:(lia) : length (header_typeflag h) = _) as L.
  rewrite (buf_holds_strlen _ _ Hb). destruct (header_typeflag h) as [|c [|]]; try discriminate.
  cbn [mbind option_bind head]. destruct (Z.eqb_spec c (chr "5")) as [->|Hc].
  { rewrite bool_decide_eq_true_2 by reflexivity. reflexivity. }
  rewrite bool_decide_eq_false_2 by congruence.
  destruct p as [|x p] using rev_ind; [reflexivity|]. rewrite length_app. cbn [length].
  destruct (Z.eqb_spec (Z.of_nat (length p + 1)) 0); [lia|]. cbn [negb].
  replace (Z.to_nat (Z.of_nat (length p + 1) - 1)) with (length p) by lia.
  destruct Hb as (_ & _ & r & ->). rewrite <- app_assoc. cbn [app].
  rewrite list_lookup_middle by reflexivity. cbn [mbind option_bind].
  rewrite rev_app_distr in Hlast. cbn in Hlast. destruct (Z.eqb_spec x (chr "/")); [congruence|reflexivity].
Qed.

Lemma take_prefix_of (q p : list Z) : take (length q) p = q <-> q `prefix_of` p.
Proof.
  split; [intros E; rewrite <- E; apply prefix_take|]. intros [r ->]. apply take_app_length.
Qed.

Lemma prefix_snoc (q p : list Z) c : (q ++ [c]) `prefix_of` p <-> q `prefix_of` p /\ p !! length q = Some c.
Proof.
  split.
  - intros [r ->]. split; [exists ([c] ++ r); rewrite <- app_assoc; reflexivity|].
    rewrite <- app_assoc. apply list_lookup_middle. reflexivity.
  - intros [[r ->] H]. rewrite lookup_app_r, Nat.sub_diag in H by lia. destruct r as [|x r]; [discriminate|].
    injection H as ->. exists r. rewrite <- app_assoc. reflexivity.
Qed.

(** [strncmp] with the query's length and the character after it decide [below]. *)
Lemma below_ok bp p bq q :
  buf_holds bp p -> buf_holds bq q ->
  exists d, strncmp bp bq (length q) = Some d /\
    (d = 0 -> exists c, bp !! length q = Some c /\ (c =? chr "/") = below q p) /\
    (d <> 0 -> below q p = false).
Proof.
  intros Hp Hq. pose proof (buf_holds_cstr _ _ Hp) as Cp. pose proof (buf_holds_cstr _ _ Hq) as Cq.
  pose proof (proj1 (proj2 Hp)) as Tp. pose proof (proj1 (proj2 Hq)) as Tq.
  destruct (strncmp_eq bp bq p q (length q) Cp Cq Tp Tq) as (d & E & Hd).
  rewrite (take_ge q) in Hd by lia. rewrite take_prefix_of in Hd. exists d. split; [exact E|].
  unfold below. split; intros H.
  - apply Hd in H as [r ->]. destruct Hp as (_ & _ & t & ->). rewrite <- app_assoc.
    rewrite lookup_app_r, Nat.sub_diag by lia. destruct r as [|x r]; cbn [app lookup list_lookup].
    + exists 0. split; [reflexivity|]. rewrite bool_decide_eq_false_2; [reflexivity|].
      rewrite prefix_snoc, app_nil_r. intros [_ H]. rewrite lookup_ge_None_2 in H by lia. discriminate.
    + exists x. split; [reflexivity|]. apply eq_true_iff_eq. rewrite bool_decide_eq_true, prefix_snoc, Z.eqb_eq.
      rewrite lookup_app_r, Nat.sub_diag by lia. split; [intros ->|intros [_ [=]]; assumption].
      split; [apply prefix_app_r; reflexivity|reflexivity].
  - apply bool_decide_eq_false_2. rewrite prefix_snoc. tauto.
Qed.

Lemma is_directory_prefix_ok bp p bq q :
  buf_holds bp p -> buf_holds bq q -> q <> [] ->
  is_directory_prefix bp bq = Some (below q p).
Proof.
  intros Hp Hq Hne. unfold is_directory_prefix. rewrite (buf_holds_strlen _ _ Hq). cbn [mbind option_bind].
  destruct (Z.eqb_spec (Z.of_nat (length q)) 0); [destruct q; [congruence|cbn in *; lia]|]. cbn [negb].
  rewrite Nat2Z.id. destruct (below_ok bp p bq q Hp Hq) as (d & -> & H0 & H1). cbn [mbind option_bind].
  destruct (Z.eqb_spec d 0) as [->|Hd].
  - destruct (H0 eq_refl) as (c & -> & <-). reflexivity.
  - rewrite (H1 Hd). reflexivity.
Qed.

Lemma below_nil q : below q [] = false.
Proof. apply bool_decide_eq_false_2. intros H%prefix_length. rewrite length_app in H. cbn in H. lia. Qed.

Section Lookup.
Context (ramdisk_data : Z) (img : list Z).
Context (Hbytes : bytes img) (Hsmall : Z.of_nat (length img) < 2 ^ 62).

(** The file record of an entry. *)
Definition describes (e : tar_entry) (f : xbks_ramdisk_file) : Prop :=
  buf_holds (f_path f) (public (entry_path (te_header e))) /\
  f_data f = ramdisk_data + Z.of_nat (te_offset e + 512) /\
  f_size f = Z.of_nat (length (te_body e)) /\
  f_directory f = is_dir (te_header e) /\
  f_executable f = is_exec (te_header e).

(** An entry read from the image. *)
Definition entry_ok (e : tar_entry) : Prop :=
  length (te_header e) = 512%nat /\ bytes (te_header e) /\
  (te_offset e + 512 + length (te_body e) <= length img)%nat /\
  te_body e = take (length (te_body e)) (drop (te_offset e + 512) img).

Lemma front_entry_ok off h size :
  front (drop off img) = Some (h, size) ->
  entry_ok (TarEntry off h (take size (drop 512 (drop off img)))) /\
  length (take size (drop 512 (drop off img))) = size.
Proof.
  intros H. apply front_inv in H as (H1 & -> & H2 & _ & _ & H3). rewrite length_drop in *.
  assert (L : length (take size (drop 512 (drop off img))) = size).
  { rewrite length_take, !length_drop. lia. }
  split; [|exact L]. unfold entry_ok. cbn [te_header te_body te_offset]. rewrite L.
  split; [exact H2|]. split; [apply Forall_take, Forall_drop, Hbytes|]. split; [lia|].
  rewrite drop_drop. reflexivity.
Qed.

Lemma fill_file_ok e b :
  entry_ok e -> buf_holds b (entry_path (te_header e)) ->
  exists f, fill_file (te_header e) b (ramdisk_data + Z.of_nat (te_offset e + 512))
              (Z.of_nat (length (te_body e))) = Some f /\ describes e f.
Proof.
  intros (Hh & Hb & _) Hp. unfold fill_file. rewrite header_mode_value by assumption. cbn [mbind option_bind].
  destruct (make_public_path_ok b _ (uninit RAMDISK_PATH_SIZE) Hp (length_uninit _)) as (p & -> & Hpub).
  cbn [mbind option_bind].
  rewrite (header_is_directory_ok _ b _ Hh Hp (entry_path_canonical _ Hb)). cbn [mbind option_bind].
  eexists. split; [reflexivity|]. split; [exact Hpub|]. repeat split.
Qed.

(** What [find_header] answers on the entries still to visit. *)
Definition outcome (q : list Z) (dp : bool) (es : list tar_entry) (r : find_result) : Prop :=
  match r with
  | Found f => exists e, first_match q es = Some e /\ entry_ok e /\ describes e f
  | Missing d => first_match q es = None /\
      d = dp || existsb (fun e => below q (entry_path (te_header e))) es
  end.

Lemma outcome_skip q dp e es r :
  names q e = false -> outcome q (dp || below q (entry_path (te_header e))) es r -> outcome q dp (e :: es) r.
Proof.
  intros Hn. unfold outcome, first_match. cbn [List.find existsb]. rewrite Hn, orb_assoc. exact id.
Qed.

Lemma find_header_loop_ok fuel bq q off dp :
  buf_holds bq q -> q <> [] ->
  (off <= length img + 1024)%nat -> (length img < off + 512 * fuel)%nat -> (0 < fuel)%nat ->
  exists r, find_header_loop ramdisk_data img fuel bq (Z.of_nat off) dp = Some r /\
    outcome q dp (archive_from fuel off (drop off img)) r.
Proof.
  intros Hq Hne. revert off dp. induction fuel as [|n IH]; intros off dp Hoff Hfuel Hpos; [lia|].
  cbn [find_header_loop archive_from]. rewrite (walk_entry_ok img Hbytes Hsmall) by assumption. cbn [mbind option_bind].
  destruct (front (drop off img)) as [[h size]|] eqn:Ef.
  2: { eexists. split; [reflexivity|]. cbn. rewrite orb_false_r. split; reflexivity. }
  destruct (front_entry_ok off h size Ef) as [He HL].
  set (e := TarEntry off h (take size (drop 512 (drop off img)))) in *.
  destruct (walk_next img Hsmall off h size Hoff Ef) as (-> & Hnext & ->).
  apply front_inv in Ef as (H1 & _ & _). rewrite length_drop in H1.
  destruct (tar_path_ok h (uninit RAMDISK_PATH_SIZE) (proj1 He) (proj1 (proj2 He)) (length_uninit _))
    as (b & -> & Hb). cbn [mbind option_bind].
  destruct (bool_decide_reflect (entry_path h = [])) as [E|E]; cbn [negb].
  { destruct (IH (off + 512 + padded size)%nat dp) as (r & Er & Hr); [lia..|].
    exists r. split; [exact Er|]. apply outcome_skip.
    - apply bool_decide_eq_false_2. cbn. congruence.
    - cbn [te_header e]. rewrite E, below_nil, orb_false_r. exact Hr. }
  specialize (Hb E).
  destruct (strcmp_eq b bq _ _ (buf_holds_cstr _ _ Hb) (buf_holds_cstr _ _ Hq)) as (d & -> & Hd);
    [apply entry_path_text, He|apply Hq|]. cbn [mbind option_bind].
  destruct (Z.eqb_spec d 0) as [Hd0|Hd0].
  - apply Hd in Hd0. destruct (fill_file_ok e b He Hb) as (f & Hf & Hdesc).
    cbn [te_header te_offset te_body e] in Hf. rewrite HL in Hf. rewrite Hf.
    eexists. split; [reflexivity|]. exists e. split; [|split; assumption].
    unfold first_match. cbn [List.find]. unfold names at 1. rewrite bool_decide_eq_true_2 by exact Hd0. reflexivity.
  - rewrite (is_directory_prefix_ok b _ bq q Hb Hq Hne). cbn [mbind option_bind].
    destruct (IH (off + 512 + padded size)%nat (if below q (entry_path h) then true else dp)) as (r & Er & Hr); [lia..|].
    exists r. split; [exact Er|]. apply outcome_skip.
    + apply bool_decide_eq_false_2. cbn. tauto.
    + cbn [te_header e]. destruct (below q (entry_path h)); rewrite ?orb_true_r, ?orb_false_r; exact Hr.
Qed.

Lemma walk_fuel_enough : (length img < 0 + 512 * walk_fuel img)%nat.
Proof.
  unfold walk_fuel. pose proof (Nat.div_mod_eq (length img) 512). pose proof (Nat.mod_upper_bound (length img) 512). lia.
Qed.

Lemma find_header_ok bq q :
  buf_holds bq q -> q <> [] ->
  exists r, find_header ramdisk_data img bq = Some r /\ outcome q false (archive img) r.
Proof.
  intros Hq Hne. apply (find_header_loop_ok (walk_fuel img) bq q 0 false Hq Hne);
    [lia|apply walk_fuel_enough|unfold walk_fuel; lia].
Qed.

(** A directory that is in no header. *)
Definition implied (q : list Z) (f : xbks_ramdisk_file) : Prop :=
  buf_holds (f_path f) (public q) /\ f_data f = 0 /\ f_size f = 0 /\
  f_directory f = true /\ f_executable f = false.

Lemma implied_directory_ok b q : buf_holds b q -> exists f, implied_directory b = Some f /\ implied q f.
Proof.
  intros Hb. unfold implied_directory.
  destruct (make_public_path_ok b q (uninit RAMDISK_PATH_SIZE) Hb (length_uninit _)) as (p & -> & Hp).
  eexists. split; [reflexivity|]. split; [exact Hp|]. repeat split.
Qed.

(** What [xbks_ramdisk_find] promises for the normalised path [q]. *)
Definition lookup_spec (q : list Z) (r : option xbks_ramdisk_file) : Prop :=
  match r with
  | Some f =>
      (exists e, q <> [] /\ first_match q (archive img) = Some e /\ entry_ok e /\ describes e f) \/
      (q = [] \/ first_match q (archive img) = None /\
         exists e, In e (archive img) /\ (q ++ [chr "/"]) `prefix_of` entry_path (te_header e)) /\ implied q f
  | None => q <> [] /\ forall e, In e (archive img) ->
      entry_path (te_header e) <> q /\ ~ (q ++ [chr "/"]) `prefix_of` entry_path (te_header e)
  end.

Lemma find_ok s t :
  text s -> exists r, xbks_ramdisk_find ramdisk_data img true (Some (s ++ 0 :: t)) false = Some r /\
    lookup_spec (norm s) r.
Proof.
  intros Hs. unfold xbks_ramdisk_find. cbn [negb orb].
  destruct (normalize_path_ok s t (uninit RAMDISK_PATH_SIZE) Hs (length_uninit _)) as (b & -> & Hb).
  cbn [mbind option_bind]. rewrite (buf_holds_head _ _ Hb). cbn [mbind option_bind].
  destruct (implied_directory_ok b _ Hb) as (fi & Ei & Hi).
  destruct (decide (norm s = [])) as [E|E].
  { rewrite E. cbn [Z.eqb]. rewrite Ei. eexists. split; [reflexivity|]. right. rewrite E in Hi. split; [left; reflexivity|exact Hi]. }
  assert (H0 : (match norm s with [] => 0 | c :: _ => c end =? 0) = false).
  { pose proof (norm_text s Hs) as T. destruct (norm s) as [|c u]; [congruence|].
    apply text_cons in T as [? _]. apply Z.eqb_neq. lia. }
  rewrite H0. destruct (find_header_ok b _ Hb E) as (r & -> & Hr). cbn [mbind option_bind].
  destruct r as [f|[|]]; cbn [outcome orb] in Hr.
  - destruct Hr as (e & H1 & H2 & H3). eexists. split; [reflexivity|]. left. eauto.
  - destruct Hr as (H1 & H2). rewrite Ei. eexists. split; [reflexivity|]. right. split; [right|exact Hi].
    split; [exact H1|]. symmetry in H2. apply existsb_exists in H2 as (e & He & Hp).
    exists e. split; [exact He|]. apply (bool_decide_eq_true_1 _ Hp).
  - destruct Hr as (H1 & H2). eexists. split; [reflexivity|]. split; [exact E|]. intros e He. split.
    + intros Hn. apply (find_none _ _ H1) in He. apply bool_decide_eq_false_1 in He. exact (He Hn).
    + intros Hp. symmetry in H2. apply not_true_iff_false in H2. apply H2. apply existsb_exists.
      exists e. split; [exact He|]. apply bool_decide_eq_true_2, Hp.
Qed.

Lemma archive_entry_ok e : In e (archive img) -> entry_ok e.
Proof.
  unfold archive. change img with (drop 0 img) at 2. generalize 0%nat as off. generalize (walk_fuel img) as fuel.
  induction fuel as [|n IH]; intros off H; cbn [archive_from] in H; [destruct H|].
  destruct (front (drop off img)) as [[h size]|] eqn:E; [|destruct H].
  destruct H as [<-|H]; [apply (front_entry_ok off h size E)|]. rewrite drop_drop, Nat.add_assoc in H. exact (IH _ H).
Qed.
End Lookup.
