(* ===== verification/RamdiskListing.v ===== *)
(** * The ramdisk: directory listings

    [xbks_ramdisk_read_dir] answers the entry with a given index of a listing that
    is never built: every call walks the archive again and skips the names an
    earlier entry already gave.  [listing] is that list, computed in one pass. *)

From Stdlib Require Import Ascii String.
From S2P Require Import Prelude CStr Ramdisk RamdiskSpec RamdiskArchive.

(** ** Children of a directory *)

(** The characters before the first slash. *)
Fixpoint component (s : list Z) : list Z :=
  match s with
  | c :: t => if c =? chr "/" then [] else c :: component t
  | [] => []
  end.

(** The path [p] seen from the directory [q]. *)
Definition relative (q p : list Z) : option (list Z) :=
  match q with
  | [] => Some p
  | _ => if below q p then Some (drop (S (length q)) p) else None
  end.

(** The child of [q] the path [p] goes through, and whether [p] goes on below it. *)
Definition child_of (q p : list Z) : option (list Z * bool) :=
  r ← relative q p;
  match component r with
  | [] => None
  | c => Some (c, (length c <? length r)%nat)
  end.

Lemma component_prefix s : exists r, s = component s ++ r /\ (r = [] \/ exists t, r = chr "/" :: t).
Proof.
  induction s as [|c t (r & IH & Hr)]; [exists []; auto|]. cbn [component].
  destruct (Z.eqb_spec c (chr "/")) as [->|]; [exists (chr "/" :: t); eauto|].
  exists r. split; [cbn; f_equal; exact IH|exact Hr].
Qed.

Lemma component_no_slash s : chr "/" ∉ component s.
Proof.
  induction s as [|c t IH]; cbn [component]; [apply not_elem_of_nil|].
  destruct (Z.eqb_spec c (chr "/")); [apply not_elem_of_nil|]. rewrite elem_of_cons. intros [E|E]; [congruence|exact (IH E)].
Qed.

Lemma component_length_ok s r : text s -> component_length (s ++ 0 :: r) = Some (length (component s)).
Proof.
  induction 1 as [|c s Hc Hs IH]; [reflexivity|]. cbn [app component_length component].
  destruct (Z.eqb_spec c 0); [lia|]. cbn [orb]. destruct (c =? chr "/"); [reflexivity|].
  rewrite IH. reflexivity.
Qed.

(** The tail of [child_name_for_directory], from the relative path on. *)
Lemma component_copy_ok s r :
  text s -> (length s <= 255)%nat ->
  exists o, (c ← head (s ++ 0 :: r);
      if c =? 0 then Some None
      else
        child_length ← component_length (s ++ 0 :: r);
        if (child_length =? 0)%nat then Some None
        else
          child_name ← copy_bytes (uninit RAMDISK_PATH_SIZE) 0 256 (s ++ 0 :: r) (Z.of_nat child_length);
          c ← (s ++ 0 :: r) !! child_length;
          Some (Some (child_name, c =? chr "/"))) = Some o /\
    match component s with
    | [] => o = None
    | c => exists b, o = Some (b, (length c <? length s)%nat) /\ buf_holds b c
    end.
Proof.
  intros Hs Hl. destruct s as [|x s]; [eexists; split; reflexivity|].
  cbn [app head mbind option_bind]. pose proof Hs as Hx. apply text_cons in Hx as [Hx _].
  destruct (Z.eqb_spec x 0); [lia|]. change (x :: s ++ 0 :: r) with ((x :: s) ++ 0 :: r).
  rewrite component_length_ok by exact Hs. cbn [mbind option_bind].
  destruct (component_prefix (x :: s)) as (w & E & Hw). destruct (component (x :: s)) as [|c0 c] eqn:Ec.
  { eexists. split; reflexivity. }
  set (C := c0 :: c) in *. destruct (Nat.eqb_spec (length C) 0); [discriminate|].
  rewrite E in Hs, Hl |- *. apply text_app in Hs as [HC _]. rewrite length_app in Hl.
  rewrite <- app_assoc.
  destruct (copy_to_start (uninit RAMDISK_PATH_SIZE) C (w ++ 0 :: r) (length_uninit _) HC) as (b & -> & Hb).
  rewrite take_ge in Hb by lia. cbn [mbind option_bind]. rewrite lookup_app_r, Nat.sub_diag, length_app by lia.
  destruct Hw as [->|[t ->]]; cbn [app lookup list_lookup mbind option_bind length].
  - eexists. split; [reflexivity|]. exists b. split; [|exact Hb].
    destruct (Nat.ltb_spec (length C) (length C + 0)); [lia|reflexivity].
  - eexists. split; [reflexivity|]. exists b. split; [|exact Hb].
    destruct (Nat.ltb_spec (length C) (length C + S (length t))); [reflexivity|lia].
Qed.

Lemma child_name_ok bp p bq q :
  buf_holds bp p -> buf_holds bq q ->
  exists o, child_name_for_directory bp bq = Some o /\
    match child_of q p with
    | None => o = None
    | Some (c, nested) => exists b, o = Some (b, nested) /\ buf_holds b c
    end.
Proof.
  intros Hp Hq. unfold child_name_for_directory, child_of, relative.
  rewrite (buf_holds_strlen _ _ Hq). cbn [mbind option_bind]. rewrite Nat2Z.id.
  pose proof (buf_holds_length _ _ Hp) as Lp.
  destruct (decide (q = [])) as [->|Hne].
  { cbn [length Z.of_nat Z.eqb negb mbind option_bind]. destruct Hp as (_ & Tp & r & ->).
    destruct (component_copy_ok p r Tp Lp) as (o & E & Ho). exists o. split; [exact E|].
    destruct (component p); exact Ho. }
  destruct (Z.eqb_spec (Z.of_nat (length q)) 0); [destruct q; [congruence|cbn in *; lia]|]. cbn [negb].
  destruct (below_ok bp p bq q Hp Hq) as (d & -> & H0 & H1). cbn [mbind option_bind].
  destruct q as [|q0 q']; [congruence|]. set (q := q0 :: q') in *.
  destruct (Z.eqb_spec d 0) as [Hd|Hd]; cbn [negb].
  2: { rewrite (H1 Hd). eexists. split; reflexivity. }
  destruct (H0 Hd) as (c & -> & Hc). cbn [mbind option_bind]. rewrite Hc.
  destruct (below q p) eqn:Eb; cbn [negb mbind option_bind]; [|eexists; split; reflexivity].
  apply bool_decide_eq_true_1 in Eb as [w Ew]. destruct Hp as (_ & Tp & r & ->).
  assert (Ed : drop (S (length q)) p = w).
  { rewrite Ew. replace (S (length q)) with (length (q ++ [chr "/"])) by (rewrite length_app; cbn; lia). apply drop_app_length. }
  rewrite drop_app_le by (rewrite Ew, !length_app; cbn; lia). rewrite Ed.
  destruct (component_copy_ok w r) as (o & E & Ho).
  { rewrite Ew in Tp. apply text_app in Tp. tauto. }
  { rewrite Ew, length_app in Lp. lia. }
  exists o. split; [exact E|]. destruct (component w); exact Ho.
Qed.

(** The path of the child [c] of [q]. *)
Definition join (q c : list Z) : list Z :=
  match q with
  | [] => c
  | _ => q ++ chr "/" :: c
  end.

Lemma relative_join q p r : relative q p = Some r -> p = join q r.
Proof.
  unfold relative, join. destruct q as [|q0 q']; [intros [= ->]; reflexivity|]. set (q := q0 :: q').
  destruct (below q p) eqn:E; [|discriminate]. intros [= <-].
  apply bool_decide_eq_true_1 in E as [w ->].
  change (S (S (length q'))) with (S (length q)). replace (S (length q)) with (length (q ++ [chr "/"])) by (rewrite length_app; cbn; lia).
  rewrite drop_app_length, <- app_assoc. reflexivity.
Qed.

Lemma join_app q c r : join q (c ++ r) = join q c ++ r.
Proof. unfold join. destruct q; [reflexivity|]. rewrite <- app_assoc. reflexivity. Qed.

(** The path passes through the child, and stops there exactly when not nested. *)
Lemma child_of_inv q p c nested :
  child_of q p = Some (c, nested) ->
  c <> [] /\ (chr "/" ∉ c) /\ exists r, p = join q c ++ r /\ (if nested then exists t, r = chr "/" :: t else r = []).
Proof.
  unfold child_of. destruct (relative q p) as [r|] eqn:E; [|discriminate]. cbn [mbind option_bind].
  apply relative_join in E as ->. destruct (component_prefix r) as (w & E & Hw).
  destruct (component r) as [|c0 c'] eqn:Ec; [discriminate|]. intros [= <- <-]. split; [discriminate|].
  split; [rewrite <- Ec; apply component_no_slash|]. exists w. rewrite <- join_app, <- E. split; [reflexivity|]. apply (f_equal length) in E. rewrite length_app in E. cbn [length] in E |- *.
  destruct Hw as [->|[t ->]]; cbn [length] in E.
  - destruct (Nat.ltb_spec (S (length c')) (length r)); [lia|reflexivity].
  - destruct (Nat.ltb_spec (S (length c')) (length r)); [eauto|lia].
Qed.

(** A child's path is canonical when the entry's path is. *)
Lemma join_canonical q p c nested :
  canonical p -> child_of q p = Some (c, nested) -> canonical (join q c).
Proof.
  intros (Ht & Hl & Hh & _ & Hd & Hds) Hc. apply child_of_inv in Hc as (Hne & Hns & r & -> & Hr).
  set (j := join q c) in *. assert (Hj : j <> []) by (unfold j, join; destruct q; [exact Hne|discriminate]).
  apply text_app in Ht as [Ht _]. rewrite length_app in Hl. split; [exact Ht|]. split; [lia|].
  split; [destruct j; [congruence|exact Hh]|]. split; [|split].
  - destruct c as [|x c _] using rev_ind; [congruence|]. unfold j. rewrite join_app, rev_app_distr. cbn.
    intros [= ->]. apply Hns. apply elem_of_app. right. left.
  - intros E. rewrite E in *. destruct nested; [destruct Hr as [t ->]; exact (Hds t eq_refl)|subst r; apply Hd; reflexivity].
  - intros t E. rewrite E in Hds. exact (Hds _ eq_refl).
Qed.

Lemma child_path_ok bq q bc c :
  buf_holds bq q -> buf_holds bc c -> (length (join q c) <= 255)%nat ->
  exists b, child_path_of bq bc = Some b /\ buf_holds b (join q c).
Proof.
  intros Hq Hc Hl. unfold child_path_of. rewrite (buf_holds_head _ _ Hq), (buf_holds_strlen _ _ Hq), (buf_holds_strlen _ _ Hc).
  cbn [mbind option_bind]. pose proof (proj1 (proj2 Hc)) as Tc. pose proof (proj1 (proj2 Hq)) as Tq.
  destruct Hc as (_ & _ & rc & ->). destruct q as [|q0 q'].
  { destruct (copy_to_start (uninit RAMDISK_PATH_SIZE) c (0 :: rc) (length_uninit _) Tc) as (b & E & Hb).
    exists b. split; [exact E|]. rewrite take_ge in Hb; assumption. }
  pose proof Tq as T0. apply text_cons in T0 as [T0 _]. destruct (Z.eqb_spec q0 0); [lia|].
  cbn [join] in Hl |- *. set (q := q0 :: q') in *. rewrite length_app in Hl. cbn [length] in Hl.
  destruct Hq as (_ & _ & rq & ->).
  destruct (copy_to_start (uninit RAMDISK_PATH_SIZE) q (0 :: rq) (length_uninit _) Tq) as (b & -> & Hb).
  rewrite take_ge in Hb by lia. cbn [mbind option_bind]. rewrite (buf_holds_strlen _ _ Hb). cbn [mbind option_bind].
  destruct (Z.ltb_spec (Z.of_nat (length q) + 1) 256); [|lia].
  destruct (buf_push b q (chr "/") Hb) as (b1 & b2 & E1 & E2 & H2); [unfold chr; cbn; lia|lia|].
  rewrite E1. cbn [mbind option_bind]. rewrite E2. cbn [mbind option_bind]. rewrite (buf_holds_strlen _ _ H2).
  cbn [mbind option_bind]. destruct (copy_after b2 _ c (0 :: rc) H2 Tc) as (b3 & E3 & H3).
  exists b3. split; [exact E3|]. rewrite <- app_assoc in H3. cbn [app] in H3.
  rewrite take_ge in H3 by (rewrite length_app; cbn [length]; lia). exact H3.
Qed.

(** ** The listing *)

Definition child := (list Z * bool * tar_entry)%type.

Definition child_name (x : child) : list Z := fst (fst x).

Definition entry_child (q : list Z) (e : tar_entry) : option child :=
  '(c, nested) ← child_of q (entry_path (te_header e)); Some (c, nested, e).

(** The children the entries give, first occurrence of each name only. *)
Fixpoint listing_from (q : list Z) (seen : list (list Z)) (es : list tar_entry) : list child :=
  match es with
  | [] => []
  | e :: es' =>
      match entry_child q e with
      | None => listing_from q seen es'
      | Some x => if bool_decide (child_name x ∈ seen) then listing_from q seen es'
                  else x :: listing_from q (child_name x :: seen) es'
      end
  end.

Definition listing (q : list Z) (es : list tar_entry) : list child := listing_from q [] es.

(** No name is listed twice. *)
Lemma listing_from_fresh q seen es x : x ∈ listing_from q seen es -> child_name x ∉ seen.
Proof.
  revert seen. induction es as [|e es IH]; intros seen H; cbn in H; [inversion H|].
  destruct (entry_child q e) as [y|]; [|exact (IH seen H)]. case_bool_decide as Hy; [exact (IH seen H)|].
  apply elem_of_cons in H as [->|H]; [exact Hy|]. apply IH in H. set_solver.
Qed.

Lemma listing_from_nodup q seen es : NoDup (map child_name (listing_from q seen es)).
Proof.
  revert seen. induction es as [|e es IH]; intros seen; cbn; [constructor|].
  destruct (entry_child q e) as [y|]; [|apply IH]. case_bool_decide; [apply IH|].
  cbn. constructor; [|apply IH]. intros H1. apply list_elem_of_fmap in H1 as (x & E & Hx).
  apply listing_from_fresh in Hx. set_solver.
Qed.

(** Every child is listed, and every listed name is a child. *)
Lemma listing_from_complete q seen es e x :
  e ∈ es -> entry_child q e = Some x -> child_name x ∈ seen \/ child_name x ∈ map child_name (listing_from q seen es).
Proof.
  revert seen. induction es as [|e' es IH]; intros seen He Hx; [inversion He|]. cbn.
  apply elem_of_cons in He as [->|He].
  - rewrite Hx. case_bool_decide; [left; assumption|]. right. cbn. set_solver.
  - destruct (entry_child q e') as [y|]; [|exact (IH seen He Hx)].
    case_bool_decide; [exact (IH seen He Hx)|]. cbn [map].
    rewrite elem_of_cons. destruct (IH (child_name y :: seen) He Hx) as [H1|H1]; [apply elem_of_cons in H1|]; tauto.
Qed.

Lemma listing_from_sound q seen es x :
  x ∈ listing_from q seen es -> snd x ∈ es /\ entry_child q (snd x) = Some x.
Proof.
  revert seen. induction es as [|e es IH]; intros seen H; cbn in H; [inversion H|].
  destruct (entry_child q e) as [y|] eqn:E; [case_bool_decide|].
  2: { apply elem_of_cons in H as [->|H].
       - assert (snd y = e) as ->; [|split; [left|exact E]].
         unfold entry_child in E. destruct (child_of _ _) as [[c n]|]; [|discriminate]. injection E as <-. reflexivity.
       - destruct (IH _ H). split; [right|]; assumption. }
  all: destruct (IH _ H); split; [right|]; assumption.
Qed.

(** ** The loops *)

(** Does the entry give the child [c] of [q]? *)
Definition gives (q c : list Z) (e : tar_entry) : bool :=
  match child_of q (entry_path (te_header e)) with
  | Some (c', _) => bool_decide (c' = c)
  | None => false
  end.

Lemma child_of_nil q : child_of q [] = None.
Proof.
  unfold child_of, relative. destruct q as [|q0 q']; [reflexivity|]. rewrite below_nil. reflexivity.
Qed.

Lemma archive_from_offsets fuel off rest : Forall (fun e => off <= te_offset e)%nat (archive_from fuel off rest).
Proof.
  revert off rest. induction fuel as [|n IH]; intros off rest; cbn [archive_from]; [constructor|].
  destruct (front rest) as [[h size]|]; [|constructor]. constructor; [cbn; lia|].
  eapply Forall_impl; [|exact (IH _ _)]. cbn beta. intros e He. lia.
Qed.

(** Only the entries before the current offset count. *)
Lemma existsb_before (g : tar_entry -> bool) off pre post :
  Forall (fun e => te_offset e < off)%nat pre -> Forall (fun e => off <= te_offset e)%nat post ->
  existsb (fun e => (te_offset e <? off)%nat && g e) (pre ++ post) = existsb g pre.
Proof.
  intros Hpre Hpost. rewrite existsb_app.
  assert (E : existsb (fun e => (te_offset e <? off)%nat && g e) post = false).
  { induction Hpost as [|e l He _ IH]; [reflexivity|]. cbn [existsb].
    destruct (Nat.ltb_spec (te_offset e) off); [lia|exact IH]. }
  rewrite E, orb_false_r. induction Hpre as [|e l He _ IH]; [reflexivity|]. cbn [existsb].
  destruct (Nat.ltb_spec (te_offset e) off); [|lia]. rewrite IH. reflexivity.
Qed.

(** Names seen after one more entry. *)
Lemma seen_snoc q seen pre e :
  (forall c, c ∈ seen <-> existsb (gives q c) pre = true) ->
  forall c, c ∈ match entry_child q e with
            | None => seen
            | Some x => if bool_decide (child_name x ∈ seen) then seen else child_name x :: seen
            end <-> existsb (gives q c) (pre ++ [e]) = true.
Proof.
  intros Hseen c. rewrite existsb_app, orb_true_iff, <- Hseen. cbn [existsb]. rewrite orb_false_r.
  unfold entry_child, gives. destruct (child_of q _) as [[c' nested]|]; cbn [mbind option_bind child_name fst].
  - rewrite bool_decide_eq_true. case_bool_decide; [intuition congruence|]. rewrite elem_of_cons. intuition congruence.
  - intuition discriminate.
Qed.

Section Listing.
Context (ramdisk_data : Z) (img : list Z).
Context (Hbytes : bytes img) (Hsmall : Z.of_nat (length img) < 2 ^ 62).
Context (bq q : list Z) (Hq : buf_holds bq q).

(** What the loops compute from one header. *)
Lemma entry_child_ok e :
  entry_ok img e ->
  exists ok b o, tar_path (te_header e) (uninit RAMDISK_PATH_SIZE) = Some (ok, b) /\
    (if (ok : bool) then child_name_for_directory b bq else Some None) = Some o /\
    (o <> None -> buf_holds b (entry_path (te_header e))) /\ (ok = false -> o = None) /\
    match child_of q (entry_path (te_header e)) with
    | None => o = None
    | Some (c, nested) => exists bc, o = Some (bc, nested) /\ buf_holds bc c
    end.
Proof.
  intros (Hh & Hb & _). destruct (tar_path_ok _ (uninit RAMDISK_PATH_SIZE) Hh Hb (length_uninit _)) as (b & E & H).
  rewrite E. destruct (bool_decide_reflect (entry_path (te_header e) = [])) as [E0|E0]; cbn [negb].
  - exists false, b, None. rewrite E0, child_of_nil. split; [reflexivity|]. split; [reflexivity|]. split; [congruence|]. split; reflexivity.
  - specialize (H E0). destruct (child_name_ok b _ bq q H Hq) as (o & Eo & Ho).
    exists true, b, o. split; [reflexivity|]. split; [exact Eo|]. split; [intros _; exact H|].
    split; [discriminate|exact Ho].
Qed.

Lemma child_seen_loop_ok fuel bc c cur off :
  buf_holds bc c ->
  (off <= length img + 1024)%nat -> (length img < off + 512 * fuel)%nat -> (0 < fuel)%nat ->
  child_seen_loop img fuel bq bc (Z.of_nat cur) (Z.of_nat off) =
    Some (existsb (fun e => (te_offset e <? cur)%nat && gives q c e) (archive_from fuel off (drop off img))).
Proof.
  intros Hc. revert off. induction fuel as [|n IH]; intros off Hoff Hfuel Hpos; [lia|].
  cbn [child_seen_loop]. destruct (Z.ltb_spec (Z.of_nat off) (Z.of_nat cur)) as [Hlt|Hge].
  2: { f_equal. symmetry. apply not_true_iff_false. intros H. apply existsb_exists in H as (e & He & H).
       apply andb_true_iff in H as [H _]. apply Nat.ltb_lt in H.
       pose proof (archive_from_offsets (S n) off (drop off img)) as F. rewrite List.Forall_forall in F.
       apply F in He. cbn in He. lia. }
  rewrite (walk_entry_ok img Hbytes Hsmall) by assumption. cbn [mbind option_bind archive_from].
  destruct (front (drop off img)) as [[h size]|] eqn:Ef; [|reflexivity].
  destruct (front_entry_ok img Hbytes off h size Ef) as [He HL].
  set (e := TarEntry off h (take size (drop 512 (drop off img)))) in *.
  destruct (walk_next img Hsmall off h size Hoff Ef) as (-> & Hnext & ->).
  apply front_inv in Ef as (H1 & _ & _). rewrite length_drop in H1.
  destruct (entry_child_ok e He) as (ok & b & o & Et & Eo & Hb & _ & Ho). cbn [te_header e] in Et, Ho.
  rewrite Et. cbn [mbind option_bind existsb]. rewrite IH by lia.
  change (gives q c e) with (match child_of q (entry_path h) with Some (c', _) => bool_decide (c' = c) | None => false end).
  cbn [te_offset e]. destruct (Nat.ltb_spec off cur); [|lia]. cbn [andb].
  destruct ok.
  - rewrite Eo. cbn [mbind option_bind]. destruct (child_of q (entry_path h)) as [[c' nested]|].
    + destruct Ho as (bc' & -> & Hc').
      destruct (strcmp_eq bc' bc c' c (buf_holds_cstr _ _ Hc') (buf_holds_cstr _ _ Hc)) as (d & -> & Hd);
        [apply Hc'|apply Hc|]. cbn [mbind option_bind]. destruct (Z.eqb_spec d 0) as [H0|H0].
      * rewrite bool_decide_eq_true_2 by tauto. reflexivity.
      * rewrite bool_decide_eq_false_2 by tauto. reflexivity.
    + rewrite Ho. reflexivity.
  - injection Eo as <-. cbn [mbind option_bind].
    destruct (child_of q (entry_path h)) as [[c' nested]|]; [destruct Ho as (? & [=] & _)|reflexivity].
Qed.

Lemma child_seen_before_ok bc c cur :
  buf_holds bc c ->
  child_seen_before img bq bc (Z.of_nat cur) =
    Some (existsb (fun e => (te_offset e <? cur)%nat && gives q c e) (archive img)).
Proof.
  intros Hc. apply (child_seen_loop_ok (walk_fuel img) bc c cur 0 Hc);
    [lia|apply walk_fuel_enough|unfold walk_fuel; lia].
Qed.

(** The file record of a child. *)
Definition child_file (x : child) (f : xbks_ramdisk_file) : Prop :=
  let '(c, nested, e) := x in
  buf_holds (f_path f) (public (join q c)) /\
  f_data f = (if nested then 0 else ramdisk_data + Z.of_nat (te_offset e + 512)) /\
  f_size f = (if nested then 0 else Z.of_nat (length (te_body e))) /\
  f_directory f = nested || is_dir (te_header e) /\
  f_executable f = negb (f_directory f) && is_exec (te_header e).

Lemma fill_child_ok b bc c nested e :
  entry_ok img e -> buf_holds b (entry_path (te_header e)) -> buf_holds bc c ->
  child_of q (entry_path (te_header e)) = Some (c, nested) ->
  exists f, fill_child ramdisk_data bq b bc (te_header e) nested (Z.of_nat (te_offset e + 512))
              (Z.of_nat (length (te_body e))) = Some f /\ child_file (c, nested, e) f.
Proof.
  intros (Hh & Hby & _) Hb Hc Hchild. pose proof (entry_path_canonical _ Hby) as Hcan.
  apply child_of_inv in Hchild as (_ & _ & r & Er & _). pose proof (proj1 (proj2 Hcan)) as Hlen.
  rewrite Er, length_app in Hlen. unfold fill_child.
  destruct (child_path_ok bq q bc c Hq Hc ltac:(lia)) as (b1 & -> & Hb1). cbn [mbind option_bind].
  destruct (make_public_path_ok b1 _ (uninit RAMDISK_PATH_SIZE) Hb1 (length_uninit _)) as (b2 & -> & Hb2).
  cbn [mbind option_bind]. rewrite (header_is_directory_ok _ b _ Hh Hb Hcan), (header_mode_value _ Hh Hby).
  destruct nested; cbn [mbind option_bind].
  - eexists. split; [reflexivity|]. split; [exact Hb2|]. repeat split.
  - destruct (is_dir (te_header e)) eqn:Ed; cbn [mbind option_bind];
      (eexists; split; [reflexivity|]; split; [exact Hb2|]; repeat split; cbn [f_directory]; rewrite ?Ed; reflexivity).
Qed.

(** [read_dir] at the remaining entries: [seen] are the names before them. *)
Lemma read_dir_loop_ok fuel pre seen off (index current : nat) :
  (off <= length img + 1024)%nat -> (length img < off + 512 * fuel)%nat -> (0 < fuel)%nat ->
  archive img = pre ++ archive_from fuel off (drop off img) ->
  Forall (fun e => te_offset e < off)%nat pre ->
  (forall c, c ∈ seen <-> existsb (gives q c) pre = true) ->
  (current <= index)%nat -> Z.of_nat index < 2 ^ 64 ->
  exists r, read_dir_loop ramdisk_data img fuel bq (Z.of_nat index) (Z.of_nat off) (Z.of_nat current) = Some r /\
    match listing_from q seen (archive_from fuel off (drop off img)) !! (index - current)%nat with
    | None => r = None
    | Some x => exists f, r = Some f /\ child_file x f
    end.
Proof.
  revert pre seen off current. induction fuel as [|n IH]; intros pre seen off current Hoff Hfuel Hpos Hpre Hlt Hseen Hcur Hidx; [lia|].
  cbn [read_dir_loop archive_from] in *. rewrite (walk_entry_ok img Hbytes Hsmall) by assumption. cbn [mbind option_bind].
  destruct (front (drop off img)) as [[h size]|] eqn:Ef; [|eexists; split; reflexivity].
  destruct (front_entry_ok img Hbytes off h size Ef) as [He HL].
  set (e := TarEntry off h (take size (drop 512 (drop off img)))) in *.
  destruct (walk_next img Hsmall off h size Hoff Ef) as (En & Hnext & Ed). rewrite En, Ed in *. clear En Ed.
  apply front_inv in Ef as (H1 & _ & _). rewrite length_drop in H1.
  destruct (entry_child_ok e He) as (ok & b & o & Et & Eo & Hb & _ & Ho). cbn [te_header e] in Et, Ho, Hb.
  rewrite Et. cbn [mbind option_bind]. rewrite Eo. cbn [mbind option_bind listing_from].
  rewrite cons_middle, app_assoc in Hpre.
  assert (Hlt' : Forall (fun e => te_offset e < off + 512 + padded size)%nat (pre ++ [e])).
  { apply Forall_app. split; [|repeat constructor; cbn; lia]. eapply Forall_impl; [|exact Hlt]. cbn. lia. }
  pose proof (seen_snoc q seen pre e Hseen) as Hseen'.
  assert (Hec : entry_child q e = '(c, nested) ← child_of q (entry_path h); Some (c, nested, e)) by reflexivity.
  rewrite Hec in *. destruct (child_of q (entry_path h)) as [[c nested]|] eqn:Ec; cbn [mbind option_bind] in *.
  2: { subst o. exact (IH _ seen (off + 512 + padded size)%nat current ltac:(lia) ltac:(lia) ltac:(lia) Hpre Hlt' Hseen' Hcur Hidx). }
  destruct Ho as (bc & -> & Hbc). cbn [child_name fst] in *.
  rewrite (child_seen_before_ok bc c off Hbc), Hpre, <- app_assoc, existsb_before;
    [|exact Hlt|constructor; [cbn; lia|]].
  2: { eapply Forall_impl; [|apply archive_from_offsets]. cbn. lia. }
  cbn [mbind option_bind]. destruct (bool_decide_reflect (c ∈ seen)) as [Hin|Hin].
  - apply Hseen in Hin as ->.
    exact (IH _ seen (off + 512 + padded size)%nat current ltac:(lia) ltac:(lia) ltac:(lia) Hpre Hlt' Hseen' Hcur Hidx).
  - rewrite Hseen, not_true_iff_false in Hin. rewrite Hin. destruct (Z.eqb_spec (Z.of_nat current) (Z.of_nat index)) as [Hi|Hi].
    + replace (index - current)%nat with 0%nat by lia. cbn [lookup list_lookup].
      destruct (fill_child_ok b bc c nested e He (Hb ltac:(discriminate)) Hbc Ec) as (f & Ef & Hf).
      cbn [te_header te_offset te_body e] in Ef. rewrite HL in Ef. rewrite Ef. eexists. split; [reflexivity|].
      exists f. split; [reflexivity|exact Hf].
    + rewrite uwrap_small by lia. replace (Z.of_nat current + 1) with (Z.of_nat (S current)) by lia.
      replace (index - current)%nat with (S (index - S current)) by lia. cbn [lookup list_lookup].
      exact (IH _ (c :: seen) (off + 512 + padded size)%nat (S current) ltac:(lia) ltac:(lia) ltac:(lia) Hpre Hlt' Hseen' ltac:(lia) Hidx).
Qed.
End Listing.

Lemma read_dir_ok rd img s t index :
  bytes img -> Z.of_nat (length img) < 2 ^ 62 -> text s -> Z.of_nat index < 2 ^ 64 ->
  exists r, xbks_ramdisk_read_dir rd img true (Some (s ++ 0 :: t)) (Z.of_nat index) false = Some r /\
    match listing (norm s) (archive img) !! index with
    | None => r = None
    | Some x => exists f, r = Some f /\ child_file rd (norm s) x f
    end.
Proof.
  intros Hb Hl Hs Hi. unfold xbks_ramdisk_read_dir. cbn [negb orb].
  destruct (normalize_path_ok s t (uninit RAMDISK_PATH_SIZE) Hs (length_uninit _)) as (b & -> & Hn).
  cbn [mbind option_bind].
  destruct (read_dir_loop_ok rd img Hb Hl b _ Hn (walk_fuel img) [] [] 0 index 0) as (r & Er & Hr); try lia.
  - apply walk_fuel_enough.
  - unfold walk_fuel. lia.
  - reflexivity.
  - constructor.
  - intros c. cbn. split; [intros H; inversion H|discriminate].
  - exists r. split; [exact Er|]. rewrite Nat.sub_0_r in Hr. exact Hr.
Qed.
