(* ===== verification/RamdiskImage.v ===== *)
(** * The ramdisk: images a tar writer makes

    A tar writer for plain files and directories (name without prefix, octal mode
    and size, padded body, two zero blocks at the end).  [archive] reads its images
    back entry by entry, which turns the lookup theorems into statements about the
    files that were packed. *)

From Stdlib Require Import Ascii String.
From S2P Require Import Prelude CStr Ramdisk RamdiskSpec RamdiskArchive.

Record source_file := SourceFile {
  sf_name : list Z;
  sf_mode : Z;
  sf_directory : bool;
  sf_body : list Z;
}.

Definition zeros (n : nat) : list Z := replicate n 0.

Fixpoint octal_text (n : nat) (v : Z) : list Z :=
  match n with
  | O => []
  | S n' => octal_text n' (v / 8) ++ [chr "0" + v mod 8]
  end.

Definition tar_header_of (f : source_file) : list Z :=
  (sf_name f ++ zeros (100 - length (sf_name f))) ++
  (octal_text 7 (sf_mode f) ++ [0]) ++ zeros 16 ++
  (octal_text 11 (Z.of_nat (length (sf_body f))) ++ [0]) ++ zeros 20 ++
  [if sf_directory f then chr "5" else chr "0"] ++ zeros 355.

Definition tar_member (f : source_file) : list Z :=
  tar_header_of f ++ sf_body f ++ zeros (padded (length (sf_body f)) - length (sf_body f)).

Definition tar_image (fs : list source_file) : list Z := concat (map tar_member fs) ++ zeros 1024.

Definition source_ok (f : source_file) : Prop :=
  text (sf_name f) /\ (0 < length (sf_name f) <= 100)%nat /\ 0 <= sf_mode f < 8 ^ 7 /\
  bytes (sf_body f) /\ Z.of_nat (length (sf_body f)) < 8 ^ 11.

(** ** Octal text *)

Lemma is_octal_iff c : is_octal c = true <-> 48 <= c <= 55.
Proof. unfold is_octal. rewrite andb_true_iff, !Z.leb_le. reflexivity. Qed.

Lemma octal_text_length n v : length (octal_text n v) = n.
Proof. revert v. induction n as [|n IH]; intros v; cbn; [reflexivity|]. rewrite length_app, IH. cbn. lia. Qed.

Lemma octal_text_digits n v : Forall (fun c => is_octal c = true) (octal_text n v).
Proof.
  revert v. induction n as [|n IH]; intros v; cbn [octal_text]; [constructor|]. apply Forall_app. split; [apply IH|].
  repeat constructor. apply is_octal_iff. change (chr "0") with 48.
  pose proof (Z.mod_pos_bound v 8 ltac:(lia)). lia.
Qed.

Lemma octal_acc_app a b v : Forall (fun c => is_octal c = true) a -> octal_acc (a ++ b) v = octal_acc b (octal_acc a v).
Proof.
  intros H. revert v. induction H as [|c a Hc _ IH]; intros v; [reflexivity|]. cbn [app octal_acc]. rewrite Hc. apply IH.
Qed.

Lemma octal_acc_text n v w : 0 <= v < 8 ^ Z.of_nat n -> octal_acc (octal_text n v) w = w * 8 ^ Z.of_nat n + v.
Proof.
  revert v. induction n as [|n IH]; intros v Hv; cbn [octal_text].
  { cbn in *. lia. }
  rewrite Nat2Z.inj_succ, Z.pow_succ_r in * by lia.
  rewrite octal_acc_app, IH by (apply octal_text_digits || (split; [apply Z.div_pos|apply Z.div_lt_upper_bound]; lia)).
  pose proof (octal_text_digits 1 v) as D. cbn [octal_text app] in D. apply Forall_cons_iff in D as [D _].
  cbn [octal_acc]. rewrite D. pose proof (Z.div_mod v 8 ltac:(lia)). lia.
Qed.

(** Reading back a written field. *)
Lemma octal_value_text n v : (0 < n)%nat -> 0 <= v < 8 ^ Z.of_nat n -> octal_value (octal_text n v ++ [0]) = v.
Proof.
  intros Hn Hv. pose proof (octal_text_digits n v) as D. pose proof (octal_text_length n v) as L.
  assert (E : octal_acc (octal_text n v ++ [0]) 0 = v).
  { rewrite octal_acc_app, octal_acc_text by assumption. transitivity (0 * 8 ^ Z.of_nat n + v); [reflexivity|lia]. }
  destruct (octal_text n v) as [|c t]; [cbn in L; lia|]. apply Forall_cons_iff in D as [D _].
  cbn [app octal_value]. apply is_octal_iff in D.
  change (chr " ") with 32. destruct (Z.eqb_spec c 32); [lia|]. destruct (Z.eqb_spec c 0); [lia|]. exact E.
Qed.

(** ** Header fields *)

Lemma tar_field_at h a b c o n :
  h = a ++ b ++ c -> length a = o -> length b = n -> tar_field h o n = b.
Proof. intros -> <- <-. unfold tar_field. rewrite drop_app_length, take_app_length. reflexivity. Qed.

Lemma zeros_length n : length (zeros n) = n.
Proof. apply length_replicate. Qed.

Lemma bytes_zeros n : bytes (zeros n).
Proof. apply Forall_replicate. lia. Qed.

Lemma field_text_pad s n : text s -> field_text (s ++ zeros n) = s.
Proof.
  induction 1 as [|c s Hc Hs IH]; [destruct n; reflexivity|]. cbn [app field_text].
  destruct (Z.eqb_spec c 0); [lia|]. rewrite IH. reflexivity.
Qed.

Section Member.
Context (f : source_file) (Hf : source_ok f).

Let name := sf_name f ++ zeros (100 - length (sf_name f)).
Let mode := octal_text 7 (sf_mode f) ++ [0].
Let size := octal_text 11 (Z.of_nat (length (sf_body f))) ++ [0].
Let flag := [if sf_directory f then chr "5" else chr "0"].

Lemma field_lengths : length name = 100%nat /\ length mode = 8%nat /\ length size = 12%nat.
Proof.
  destruct Hf as (_ & H & _). unfold name, mode, size.
  rewrite !length_app, !octal_text_length, zeros_length. cbn. lia.
Qed.

Ltac field_length := destruct field_lengths as (? & ? & ?);
  rewrite ?length_app, ?zeros_length; unfold flag; cbn [length]; lia.

Lemma tar_header_length : length (tar_header_of f) = 512%nat.
Proof.
  change (length (name ++ mode ++ zeros 16 ++ size ++ zeros 20 ++ flag ++ zeros 355) = 512%nat). field_length.
Qed.

Lemma tar_header_bytes : bytes (tar_header_of f).
Proof.
  assert (HO : forall n v, bytes (octal_text n v)).
  { intros n v. eapply Forall_impl; [|apply octal_text_digits]. cbn beta. intros c Hc%is_octal_iff. lia. }
  assert (H0 : bytes [0]) by (repeat constructor; lia).
  assert (Hn : bytes (sf_name f)) by (eapply Forall_impl; [|exact (proj1 Hf)]; cbn; lia).
  assert (Hg : bytes [if sf_directory f then chr "5" else chr "0"]).
  { destruct (sf_directory f); (constructor; [unfold chr; cbn; lia|constructor]). }
  unfold tar_header_of, bytes in *. rewrite !Forall_app.
  repeat (apply conj); assumption || apply HO || apply bytes_zeros.
Qed.

Lemma read_path : entry_path (tar_header_of f) = norm (sf_name f).
Proof.
  destruct Hf as (Ht & Hl & _). unfold entry_path.
  replace (header_name (tar_header_of f)) with name.
  2: { symmetry. apply (tar_field_at _ [] name _ 0 100 eq_refl); [reflexivity|field_length]. }
  replace (header_prefix (tar_header_of f)) with (zeros 155).
  2: { symmetry. apply (tar_field_at _ (name ++ mode ++ zeros 16 ++ size ++ zeros 20 ++ flag ++ zeros 188) _ (zeros 12));
       [|field_length..]. rewrite <- !app_assoc. reflexivity. }
  unfold name. rewrite field_text_pad by exact Ht. change (field_text (zeros 155)) with (@nil Z).
  destruct (sf_name f); [cbn in Hl; lia|reflexivity].
Qed.

Lemma read_size : octal_value (header_size (tar_header_of f)) = Z.of_nat (length (sf_body f)).
Proof.
  destruct Hf as (_ & _ & _ & _ & Hl). replace (header_size (tar_header_of f)) with size.
  - apply octal_value_text; cbn in *; lia.
  - symmetry. apply (tar_field_at _ (name ++ mode ++ zeros 16) _ (zeros 20 ++ flag ++ zeros 355));
      [|field_length..]. rewrite <- !app_assoc. reflexivity.
Qed.

Lemma read_mode : octal_value (header_mode (tar_header_of f)) = sf_mode f.
Proof.
  destruct Hf as (_ & _ & Hm & _). replace (header_mode (tar_header_of f)) with mode.
  - apply octal_value_text; cbn in *; lia.
  - symmetry. apply (tar_field_at _ name _ (zeros 16 ++ size ++ zeros 20 ++ flag ++ zeros 355)); [reflexivity|field_length..].
Qed.

Lemma read_flag : is_dir (tar_header_of f) = sf_directory f.
Proof.
  unfold is_dir. replace (header_typeflag (tar_header_of f)) with flag.
  - unfold flag. destruct (sf_directory f); reflexivity.
  - symmetry. apply (tar_field_at _ (name ++ mode ++ zeros 16 ++ size ++ zeros 20) _ (zeros 355)); [|field_length..].
    rewrite <- !app_assoc. reflexivity.
Qed.

Lemma tar_header_nonzero : forallb (Z.eqb 0) (tar_header_of f) = false.
Proof.
  destruct Hf as (Ht & Hl & _). unfold tar_header_of. destruct (sf_name f) as [|c s]; [cbn in Hl; lia|].
  apply text_cons in Ht as [Hc _]. cbn [app forallb]. destruct (Z.eqb_spec 0 c); [lia|reflexivity].
Qed.

(** The member at the front of the image. *)
Lemma front_member rest : front (tar_member f ++ rest) = Some (tar_header_of f, length (sf_body f)).
Proof.
  unfold front, tar_member. pose proof tar_header_length as L. rewrite <- !app_assoc.
  replace (take 512 _) with (tar_header_of f) by (rewrite <- L; symmetry; apply take_app_length).
  rewrite tar_header_nonzero, read_size, !length_app, L.
  destruct (Nat.ltb_spec (512 + (length (sf_body f) + (length (zeros (padded (length (sf_body f)) - length (sf_body f))) + length rest))) 512); [lia|].
  cbn [orb]. case_bool; [lia|]. rewrite Nat2Z.id. reflexivity.
Qed.

Lemma tar_member_length : length (tar_member f) = (512 + padded (length (sf_body f)))%nat.
Proof.
  unfold tar_member. rewrite !length_app, tar_header_length, zeros_length. pose proof (padded_bound (length (sf_body f))). lia.
Qed.
End Member.

(** ** The whole image *)

(** The entry [e] is the file [f]. *)
Definition packs (f : source_file) (e : tar_entry) : Prop :=
  te_header e = tar_header_of f /\ te_body e = sf_body f.

Lemma archive_from_image fuel off fs :
  Forall source_ok fs -> (length fs < fuel)%nat ->
  Forall2 packs fs (archive_from fuel off (tar_image fs)).
Proof.
  intros Hfs. revert fuel off. induction Hfs as [|f fs Hf _ IH]; intros fuel off Hfuel;
    (destruct fuel as [|n]; [cbn in Hfuel; lia|]).
  { constructor. }
  unfold tar_image. cbn [map concat archive_from]. rewrite <- app_assoc, front_member by exact Hf.
  constructor.
  - split; [reflexivity|]. unfold tar_member. rewrite <- (tar_header_length f Hf), <- !app_assoc.
    rewrite drop_app_length. apply take_app_length.
  - rewrite <- (tar_member_length f Hf), drop_app_length. apply IH. cbn in Hfuel. lia.
Qed.

Lemma tar_image_length fs :
  Forall source_ok fs -> (512 * length fs + 1024 <= length (tar_image fs))%nat.
Proof.
  intros H. unfold tar_image. rewrite length_app, zeros_length.
  induction H as [|f fs Hf _ IH]; [cbn; lia|]. cbn [map concat length]. rewrite length_app, tar_member_length by exact Hf. lia.
Qed.

Lemma archive_image fs : Forall source_ok fs -> Forall2 packs fs (archive (tar_image fs)).
Proof.
  intros H. apply archive_from_image; [exact H|]. pose proof (tar_image_length fs H) as L. unfold walk_fuel.
  pose proof (Nat.Div0.div_le_mono _ _ 512 L). 
  pose proof (Nat.div_le_lower_bound (512 * length fs + 1024) 512 (length fs) ltac:(lia) ltac:(lia)). lia.
Qed.

Lemma tar_image_bytes fs : Forall source_ok fs -> bytes (tar_image fs).
Proof.
  intros H. apply Forall_app. split; [|apply bytes_zeros].
  induction H as [|f fs Hf _ IH]; [constructor|]. cbn [map concat]. apply Forall_app. split; [|exact IH].
  apply Forall_app. split; [apply tar_header_bytes, Hf|]. apply Forall_app. split; [apply Hf|apply bytes_zeros].
Qed.
