(* ===== verification/RamdiskProps.v ===== *)
(** * The ramdisk: the properties

    Lookup, listing, path normalisation, module choice and the pack/find round trip
    of src/fs/ramdisk.c, each with an instance on a small image. *)

From Stdlib Require Import Ascii String.
From S2P Require Import Prelude CStr Ramdisk RamdiskSpec RamdiskArchive RamdiskListing RamdiskImage.

(** ** Helpers *)

Lemma first_match_packs q fs es f :
  Forall source_ok fs -> Forall2 packs fs es ->
  List.find (fun g => bool_decide (norm (sf_name g) = q)) fs = Some f ->
  exists e, first_match q es = Some e /\ packs f e.
Proof.
  intros Hok H. induction H as [|g e fs es Hge _ IH]; cbn; [discriminate|].
  apply Forall_cons_iff in Hok as [Hg Hok]. unfold first_match. cbn [List.find]. unfold names at 1.
  rewrite (proj1 Hge), (read_path g Hg). case_bool_decide; [|exact (IH Hok)].
  intros [= <-]. exists e. split; [reflexivity|exact Hge].
Qed.

Lemma string_ends_with_ok a b ra rb :
  text a -> text b ->
  string_ends_with (a ++ 0 :: ra) (b ++ 0 :: rb) = Some (bool_decide (b `suffix_of` a)).
Proof.
  intros Ta Tb. unfold string_ends_with. rewrite !strlen_cstr, !cstr_app by assumption.
  cbn [fmap option_fmap option_map mbind option_bind].
  destruct (Z.ltb_spec (Z.of_nat (length a)) (Z.of_nat (length b))) as [Hl|Hl].
  { rewrite bool_decide_eq_false_2; [reflexivity|]. intros H%suffix_length. lia. }
  replace (Z.to_nat (Z.of_nat (length a) - Z.of_nat (length b))) with (length a - length b)%nat by lia.
  rewrite drop_app_le by lia.
  destruct (strcmp_eq (drop (length a - length b) a ++ 0 :: ra) (b ++ 0 :: rb) (drop (length a - length b) a) b)
    as (d & -> & Hd); [apply cstr_app, text_drop, Ta|apply cstr_app, Tb|apply text_drop, Ta|exact Tb|].
  cbn [mbind option_bind]. f_equal. apply eq_true_iff_eq. rewrite Z.eqb_eq, bool_decide_eq_true, Hd. split.
  - intros <-. apply suffix_drop.
  - intros [k ->]. rewrite length_app. replace (length k + length b - length b)%nat with (length k) by lia. apply drop_app_length.
Qed.

(** A module whose string is [ramdisk] or whose path ends in [ramdisk.tar]. *)
Definition pointed (p : option (list Z)) (s : list Z) : Prop :=
  text s /\ match p with Some l => exists r, l = s ++ 0 :: r | None => s = [] end.

Definition module_strings (m : limine_file) (string path : list Z) : Prop :=
  pointed (m_string m) string /\ pointed (m_path m) path.

Lemma pointed_default p s : pointed p s -> exists r, default (lit "") p = s ++ 0 :: r.
Proof. intros [_ H]. destruct p; [exact H|]. subst. exists []. reflexivity. Qed.

Lemma module_is_ramdisk_ok m string path :
  module_strings m string path ->
  module_is_ramdisk m = Some (bool_decide (string = str "ramdisk" \/ str "ramdisk.tar" `suffix_of` path)).
Proof.
  intros [Hs Hp]. unfold module_is_ramdisk. destruct (pointed_default _ _ Hs) as [rs ->], (pointed_default _ _ Hp) as [rp ->].
  unfold lit. destruct (strcmp_eq (string ++ 0 :: rs) (str "ramdisk" ++ [0]) string (str "ramdisk")) as (d & -> & Hd);
    [apply cstr_app, Hs|apply cstr_app, text_check; reflexivity|apply Hs|apply text_check; reflexivity|].
  cbn [mbind option_bind]. destruct (Z.eqb_spec d 0) as [H0|H0].
  { rewrite bool_decide_eq_true_2 by tauto. reflexivity. }
  rewrite !string_ends_with_ok by (apply Hp || (apply text_check; reflexivity)). cbn [mbind option_bind].
  destruct (bool_decide_reflect (str "/ramdisk.tar" `suffix_of` path)) as [H1|H1].
  - rewrite bool_decide_eq_true_2; [reflexivity|]. right. etransitivity; [|exact H1]. exists (str "/"). reflexivity.
  - f_equal. apply bool_decide_ext. tauto.
Qed.

(** ** The pack/find round trip *)

(** C2. A file packed into a tar image is found again: for the first file whose name
    normalises to the queried path, [xbks_ramdisk_find] answers its size, the address
    of exactly its bytes inside the image, its kind, its execute permission and the
    absolute form of the path. *)
Theorem tar_pack_find rd fs s t f :
  Forall source_ok fs -> Z.of_nat (length (tar_image fs)) < 2 ^ 62 -> text s -> norm s <> [] ->
  List.find (fun g => bool_decide (norm (sf_name g) = norm s)) fs = Some f ->
  exists r, xbks_ramdisk_find rd (tar_image fs) true (Some (s ++ 0 :: t)) false = Some (Some r) /\
    f_size r = Z.of_nat (length (sf_body f)) /\
    take (length (sf_body f)) (drop (Z.to_nat (f_data r - rd)) (tar_image fs)) = sf_body f /\
    f_directory r = sf_directory f /\ f_executable r = negb ((sf_mode f & 73) =? 0) /\
    cstr (f_path r) = Some (public (norm s)).
Proof.
  intros Hfs Hlen Hs Hne Hfind.
  pose proof (List.find_some _ _ Hfind) as [Hin _].
  assert (Hf : source_ok f) by (rewrite List.Forall_forall in Hfs; exact (Hfs f Hin)).
  destruct (first_match_packs _ fs _ f Hfs (archive_image fs Hfs) Hfind) as (e & He & Hh & Hb).
  destruct (find_ok rd (tar_image fs) (tar_image_bytes fs Hfs) Hlen s t Hs) as (r & Er & Hr).
  rewrite Er. destruct r as [r|].
  2: { destruct Hr as [_ Hr]. apply List.find_some in He as [Hin' Hn].
       apply bool_decide_eq_true_1 in Hn. destruct (Hr e Hin') as [Hr' _]. contradiction. }
  exists r. split; [reflexivity|].
  destruct Hr as [(e' & _ & He' & Hok & Hd)|[[Hr|[Hr _]] _]]; [|contradiction|congruence].
  rewrite He in He'. injection He' as <-. destruct Hd as (Hp & -> & -> & -> & ->).
  destruct Hok as (_ & _ & _ & Hbody). rewrite Hh in Hp |- *. rewrite Hb in *. unfold is_exec.
  rewrite (read_flag f Hf), (read_mode f Hf).
  apply List.find_some in He as [_ Hn]. apply bool_decide_eq_true_1 in Hn. rewrite Hh in Hn. rewrite Hn in Hp.
  repeat (split; [reflexivity|]). split; [|repeat (split; [reflexivity|]); apply buf_holds_cstr, Hp].
  replace (Z.to_nat (rd + Z.of_nat (te_offset e + 512) - rd)) with (te_offset e + 512)%nat by lia.
  symmetry. exact Hbody.
Qed.

Definition demo_files : list source_file :=
  [SourceFile (str "bin/") 493 true []; SourceFile (str "./bin/sh") 493 false [127; 69; 76; 70];
   SourceFile (str "etc/motd") 420 false (str "hello")].

Lemma demo_files_ok : Forall source_ok demo_files.
Proof.
  repeat apply Forall_cons_2; [..|apply Forall_nil_2];
    (split; [apply text_check; reflexivity|]; split; [cbn; lia|]; split; [cbn; lia|];
     split; [apply bytes_check; reflexivity|cbn; lia]).
Qed.

Lemma tar_pack_find_witness :
  exists r, xbks_ramdisk_find 4096 (tar_image demo_files) true (Some (lit "/bin/sh")) false = Some (Some r) /\
    f_size r = 4 /\
    take 4 (drop (Z.to_nat (f_data r - 4096)) (tar_image demo_files)) = [127; 69; 76; 70] /\
    f_directory r = false /\ f_executable r = true /\ cstr (f_path r) = Some (str "/bin/sh").
Proof.
  apply (tar_pack_find 4096 demo_files (str "/bin/sh") [] (SourceFile (str "./bin/sh") 493 false [127; 69; 76; 70])).
  - exact demo_files_ok.
  - vm_compute. reflexivity.
  - apply text_check. reflexivity.
  - vm_compute. discriminate.
  - vm_compute. reflexivity.
Defined.

(** ** Lookup in an arbitrary image *)

(** On any image, however malformed its headers, and any path, [xbks_ramdisk_find]
    ends without reading outside the image or its buffers, and answers as the archive
    says: the first entry with the normalised path (its data inside the image), an
    implied directory when the path is the root or a proper prefix of an entry, and
    nothing exactly when no entry has the path or lies below it. *)
Theorem ramdisk_find_correct rd img s t :
  bytes img -> Z.of_nat (length img) < 2 ^ 62 -> text s ->
  exists r, xbks_ramdisk_find rd img true (Some (s ++ 0 :: t)) false = Some r /\
    lookup_spec rd img (norm s) r.
Proof. intros Hb Hl Hs. exact (find_ok rd img Hb Hl s t Hs). Qed.

Lemma demo_image_ok : bytes (tar_image demo_files) /\ Z.of_nat (length (tar_image demo_files)) < 2 ^ 62.
Proof. split; [apply tar_image_bytes, demo_files_ok|vm_compute; reflexivity]. Qed.

(** The directory [etc] is implied by [etc/motd]. *)
Lemma ramdisk_find_correct_witness :
  exists r, xbks_ramdisk_find 4096 (tar_image demo_files) true (Some (lit "etc/")) false = Some r /\
    lookup_spec 4096 (tar_image demo_files) (str "etc") r.
Proof.
  apply (ramdisk_find_correct 4096 (tar_image demo_files) (str "etc/") []);
    [apply demo_image_ok|apply demo_image_ok|apply text_check; reflexivity].
Defined.

(** ** Listings *)

(** C17. [xbks_ramdisk_read_dir] indexes one fixed listing of the directory: index [i]
    gives the record of the [i]-th listed child and nothing past the end.  The listing
    names every child some entry goes through, only such children, and none twice. *)
Theorem ramdisk_read_dir_correct rd img s t index :
  bytes img -> Z.of_nat (length img) < 2 ^ 62 -> text s -> Z.of_nat index < 2 ^ 64 ->
  let l := listing (norm s) (archive img) in
  (exists r, xbks_ramdisk_read_dir rd img true (Some (s ++ 0 :: t)) (Z.of_nat index) false = Some r /\
     match l !! index with
     | None => r = None
     | Some x => exists f, r = Some f /\ child_file rd (norm s) x f
     end) /\
  NoDup (map child_name l) /\
  (forall c, c ∈ map child_name l <->
     exists e nested, e ∈ archive img /\ child_of (norm s) (entry_path (te_header e)) = Some (c, nested)).
Proof.
  intros Hb Hl Hs Hi l. split; [|split; [apply listing_from_nodup|]].
  - exact (read_dir_ok rd img s t index Hb Hl Hs Hi).
  - intros c. split.
    + intros H. apply list_elem_of_fmap in H as (x & -> & Hx). apply listing_from_sound in Hx as [H1 H2].
      unfold entry_child in H2. destruct (child_of _ _) as [[c nested]|] eqn:E; [|discriminate].
      injection H2 as <-. exists (snd (c, nested, snd x)), nested. split; assumption.
    + intros (e & nested & He & Hc).
      destruct (listing_from_complete (norm s) [] (archive img) e (c, nested, e) He) as [H|H]; [|inversion H|exact H].
      unfold entry_child. rewrite Hc. reflexivity.
Qed.

Lemma ramdisk_read_dir_correct_witness :
  NoDup (map child_name (listing [] (archive (tar_image demo_files)))) /\
  exists r, xbks_ramdisk_read_dir 4096 (tar_image demo_files) true (Some (lit "/")) 1 false = Some r.
Proof.
  destruct (ramdisk_read_dir_correct 4096 (tar_image demo_files) (str "/") [] 1) as ((r & Hr & _) & Hnd & _);
    [apply demo_image_ok|apply demo_image_ok|apply text_check; reflexivity|lia|].
  split; [exact Hnd|]. exists r. exact Hr.
Defined.

(** Every child a listing gives can be looked up by the path it was given with,
    unless that path fills its 256-byte field (a path that long may have been cut). *)
Theorem ramdisk_listed_found rd img s t index f :
  bytes img -> Z.of_nat (length img) < 2 ^ 62 -> text s -> Z.of_nat index < 2 ^ 64 ->
  xbks_ramdisk_read_dir rd img true (Some (s ++ 0 :: t)) (Z.of_nat index) false = Some (Some f) ->
  exists p, cstr (f_path f) = Some p /\
    ((length p < 255)%nat -> exists g, xbks_ramdisk_find rd img true (Some (f_path f)) false = Some (Some g)).
Proof.
  intros Hb Hl Hs Hi Hread. destruct (read_dir_ok rd img s t index Hb Hl Hs Hi) as (r & Er & Hr).
  rewrite Hread in Er. injection Er as <-.
  destruct (listing (norm s) (archive img) !! index) as [x|] eqn:Ex; [|discriminate].
  destruct Hr as (f' & [= <-] & Hf). apply list_elem_of_lookup_2, listing_from_sound in Ex as [He Hc].
  destruct x as [[c nested] e]. cbn [snd] in *. unfold entry_child in Hc.
  destruct (child_of (norm s) _) as [[c' n']|] eqn:Ec; [|discriminate]. injection Hc as -> ->.
  destruct Hf as ((Hlen & Tp & w & Ep) & _). exists (public (join (norm s) c)).
  split; [rewrite Ep; apply cstr_app, Tp|]. intros Hshort.
  apply list_elem_of_In in He. pose proof (archive_entry_ok img Hb e He) as Hok.
  pose proof (join_canonical _ _ _ _ (entry_path_canonical _ (proj1 (proj2 Hok))) Ec) as Hcan.
  assert (Epub : public (join (norm s) c) = chr "/" :: join (norm s) c).
  { unfold public in *. f_equal. apply take_ge. cbn [length] in Hshort. rewrite length_take in Hshort. lia. }
  rewrite Epub in *. destruct (find_ok rd img Hb Hl _ w Tp) as (g & Eg & Hg). rewrite Ep, Eg.
  rewrite (norm_slash _ Hcan) in Hg. destruct g as [g|]; [exists g; reflexivity|].
  exfalso. destruct Hg as [_ Hg]. destruct (Hg e He) as [H1 H2].
  apply child_of_inv in Ec as (_ & _ & r & Er & Hr). rewrite Er in H1, H2. destruct nested; [|subst r; rewrite app_nil_r in H1; exact (H1 eq_refl)].
  destruct Hr as [u ->]. apply H2. exists u. rewrite <- app_assoc. reflexivity.
Qed.

Lemma ramdisk_listed_found_witness :
  exists f, xbks_ramdisk_read_dir 4096 (tar_image demo_files) true (Some (lit "bin")) 0 false = Some (Some f) /\
    exists p, cstr (f_path f) = Some p /\
    ((length p < 255)%nat -> exists g, xbks_ramdisk_find 4096 (tar_image demo_files) true (Some (f_path f)) false = Some (Some g)).
Proof.
  destruct (xbks_ramdisk_read_dir 4096 (tar_image demo_files) true (Some (lit "bin")) 0 false) as [[f|]|] eqn:E;
    [|vm_compute in E; discriminate..].
  exists f. split; [reflexivity|].
  apply (ramdisk_listed_found 4096 (tar_image demo_files) (str "bin") [] 0 f);
    [apply demo_image_ok|apply demo_image_ok|apply text_check; reflexivity|lia|exact E].
Defined.

(** ** Paths *)

(** [normalize_path] stays inside its 256-byte buffer for paths of any length,
    and leaves a canonical path there: no leading or trailing slash, no leading ["./"],
    not ["."], at most 255 characters.  Canonical paths are left alone, so normalising
    again changes nothing. *)
Theorem normalize_path_correct s t out :
  text s -> length out = 256%nat ->
  exists b, normalize_path (s ++ 0 :: t) out 256 = Some b /\ length b = 256%nat /\
    cstr b = Some (norm s) /\ canonical (norm s) /\ norm (norm s) = norm s.
Proof.
  intros Hs Hout. destruct (normalize_path_ok s t out Hs Hout) as (b & E & Hb). exists b.
  split; [exact E|]. split; [apply Hb|]. split; [apply buf_holds_cstr, Hb|].
  pose proof (norm_canonical s Hs) as Hc. split; [exact Hc|apply norm_id, Hc].
Qed.

Lemma normalize_path_correct_witness :
  norm (str "/././/usr//lib///") = str "usr//lib" /\
  exists b, normalize_path (lit "/././/usr//lib///") (uninit 256) 256 = Some b /\ cstr b = Some (str "usr//lib").
Proof.
  split; [vm_compute; reflexivity|].
  destruct (normalize_path_correct (str "/././/usr//lib///") [] (uninit 256)) as (b & E & _ & Hb & _);
    [apply text_check; reflexivity|reflexivity|]. exists b. split; [exact E|exact Hb].
Defined.

(** ** The module *)

Section Modules.
Context (string path : limine_file -> list Z).

(** Loaded modules in order. *)
Definition loaded (modules : list (option limine_file)) : list limine_file := omap module_loaded modules.

Definition designated (m : limine_file) : bool :=
  bool_decide (string m = str "ramdisk" \/ str "ramdisk.tar" `suffix_of` path m).

Lemma init_loop_ok modules :
  (forall m, In (Some m) modules -> module_strings m (string m) (path m)) ->
  init_loop modules = Some (List.find designated (loaded modules)).
Proof.
  induction modules as [|m rest IH]; intros H; [reflexivity|]. cbn [init_loop].
  specialize (IH (fun m' Hm => H m' (or_intror Hm))). unfold loaded. cbn [omap list_omap].
  destruct (module_loaded m) as [f|] eqn:E; [|exact IH]. cbn [List.find].
  assert (m = Some f) as ->.
  { unfold module_loaded in E. destruct m as [g|]; [|discriminate]. cbn in E. destruct (_ || _); congruence. }
  rewrite (module_is_ramdisk_ok f _ _ (H f (or_introl eq_refl))). cbn [mbind option_bind].
  fold (designated f). destruct (designated f); [reflexivity|exact IH].
Qed.
End Modules.

(** [xbks_ramdisk_init] mounts the first loaded module named [ramdisk] or whose
    path ends in [ramdisk.tar]; without one, the only module if it is loaded; else it
    answers false and leaves the ramdisk unavailable with no data. *)
Theorem ramdisk_init_correct string path modules :
  (forall m, In (Some m) modules -> module_strings m (string m) (path m)) ->
  xbks_ramdisk_init (Some modules) =
    Some (match List.find (designated string path) (loaded modules), modules with
          | Some f, _ => (true, RamdiskState (m_address f) (m_size f) true)
          | None, [m] =>
              match module_loaded m with
              | Some f => (true, RamdiskState (m_address f) (m_size f) true)
              | None => (false, RamdiskState 0 0 false)
              end
          | None, _ => (false, RamdiskState 0 0 false)
          end).
Proof.
  intros H. unfold xbks_ramdisk_init. destruct modules as [|m rest]; [reflexivity|]. cbn [length Nat.eqb].
  rewrite (init_loop_ok string path) by exact H. cbn [mbind option_bind].
  destruct (List.find _ _) as [f|]; [reflexivity|]. destruct rest; [|reflexivity]. cbn -[module_loaded].
  destruct (module_loaded m); reflexivity.
Qed.

Definition demo_string (m : limine_file) : list Z := default [] (m_string m ≫= cstr).
Definition demo_path (m : limine_file) : list Z := default [] (m_path m ≫= cstr).

Lemma ramdisk_init_correct_witness :
  let m := LimineFile 8192 3072 (Some (lit "boot():/ramdisk.tar")) None in
  xbks_ramdisk_init (Some [None; Some m]) = Some (true, RamdiskState 8192 3072 true).
Proof.
  intros m. rewrite (ramdisk_init_correct demo_string demo_path).
  - vm_compute. reflexivity.
  - intros m' [Hm|[Hm|[]]]; [discriminate|]. injection Hm as <-. split; split.
    + constructor.
    + reflexivity.
    + apply text_check. reflexivity.
    + exists []. reflexivity.
Defined.
