(* ===== verification/Elf.v ===== *)
(** * The ELF loader of src/fs/elf.c

    [xbks_elf_load_image] places the loadable segments of a file of the ramdisk in
    an arena.  File and arena are areas of the same memory; the headers are read
    from it field by field, at the offsets of the packed ELF structures. *)

From Stdlib Require Import Ascii String.
From S2P Require Import Prelude CMem CStr Ramdisk.

Definition UINT64_MAX : Z := 2 ^ 64 - 1.
Definition ELFCLASS64 : Z := 2.
Definition ELFDATA2LSB : Z := 1.
Definition ET_EXEC : Z := 2.
Definition ET_DYN : Z := 3.
Definition EM_X86_64 : Z := 62.
Definition PT_LOAD : Z := 1.

(** [struct elf64_ehdr], 64 bytes, and [struct elf64_phdr], 56 bytes: the fields the
    loader reads. *)
Definition sizeof_ehdr : Z := 64.
Definition sizeof_phdr : Z := 56.

Definition e_ident (m : mem) (header i : Z) : Z := rd8 m (header + i).
Definition e_type (m : mem) (header : Z) : Z := ld16 m (header + 16).
Definition e_machine (m : mem) (header : Z) : Z := ld16 m (header + 18).
Definition e_entry (m : mem) (header : Z) : Z := ld64 m (header + 24).
Definition e_phoff (m : mem) (header : Z) : Z := ld64 m (header + 32).
Definition e_phentsize (m : mem) (header : Z) : Z := ld16 m (header + 54).
Definition e_phnum (m : mem) (header : Z) : Z := ld16 m (header + 56).

Record elf64_phdr := Phdr {
  p_type : Z;
  p_offset : Z;
  p_vaddr : Z;
  p_filesz : Z;
  p_memsz : Z;
}.

(** [program_headers[i]]. *)
Definition phdr_at (m : mem) (program_headers i : Z) : elf64_phdr :=
  let a := program_headers + sizeof_phdr * i in
  Phdr (ld32 m a) (ld64 m (a + 8)) (ld64 m (a + 16)) (ld64 m (a + 32)) (ld64 m (a + 40)).

Definition add_overflows_u64 (lhs rhs : Z) : bool := UINT64_MAX -u lhs <? rhs.

(** [None] stands for [false], [Some header] for [true]. *)
Definition validate_elf_header (m : mem) (file : option xbks_ramdisk_file) : option Z :=
  match file with
  | None => None
  | Some file =>
      if (f_data file =? 0) || f_directory file || (f_size file <? sizeof_ehdr) then None
      else
        let header := f_data file in
        if negb (e_ident m header 0 =? 127) ||
           negb (e_ident m header 1 =? chr "E") ||
           negb (e_ident m header 2 =? chr "L") ||
           negb (e_ident m header 3 =? chr "F") ||
           negb (e_ident m header 4 =? ELFCLASS64) ||
           negb (e_ident m header 5 =? ELFDATA2LSB) ||
           (negb (e_type m header =? ET_EXEC) && negb (e_type m header =? ET_DYN)) ||
           negb (e_machine m header =? EM_X86_64) ||
           negb (e_phentsize m header =? sizeof_phdr) ||
           (e_phnum m header =? 0)
        then None
        else if (f_size file <? e_phoff m header) ||
                ((UINT64_MAX -u e_phoff m header) / sizeof_phdr <? e_phnum m header) ||
                (f_size file <? e_phoff m header +u (e_phnum m header *u sizeof_phdr))
        then None
        else Some header
  end.

(** The body of the first loop: [min_vaddr], [max_vaddr] and [found_load_segment]. *)
Definition survey_step (size : Z) (phdr : elf64_phdr) (st : Z * Z * bool) : ctl (Z * Z * bool) unit :=
  let '(min_vaddr, max_vaddr, found_load_segment) := st in
  if negb (p_type phdr =? PT_LOAD) then Next st
  else if (p_memsz phdr <? p_filesz phdr) ||
          add_overflows_u64 (p_offset phdr) (p_filesz phdr) ||
          (size <? p_offset phdr +u p_filesz phdr) ||
          add_overflows_u64 (p_vaddr phdr) (p_memsz phdr)
  then Exit tt
  else
    let min_vaddr := if p_vaddr phdr <? min_vaddr then p_vaddr phdr else min_vaddr in
    let max_vaddr := if max_vaddr <? p_vaddr phdr +u p_memsz phdr
                     then p_vaddr phdr +u p_memsz phdr else max_vaddr in
    Next (min_vaddr, max_vaddr, true).

(** The body of the second loop; the answer [false] is its early return. *)
Definition copy_segment (data arena_base arena_size min_vaddr : Z) (phdr : elf64_phdr) (m : mem)
  : bool * mem :=
  if negb (p_type phdr =? PT_LOAD) then (true, m)
  else
    let relative_vaddr := p_vaddr phdr -u min_vaddr in
    if (arena_size <? relative_vaddr) || (arena_size -u relative_vaddr <? p_memsz phdr) then (false, m)
    else (true, memcpy m (arena_base +u relative_vaddr) (data + p_offset phdr) (p_filesz phdr)).

(** The second loop; the count and the headers are read again in every round. *)
Fixpoint copy_segments (fuel : nat) (data header program_headers arena_base arena_size min_vaddr i : Z)
    (m : mem) : bool * mem :=
  match fuel with
  | O => (true, m)
  | S fuel' =>
      if i <? e_phnum m header then
        let '(ok, m) := copy_segment data arena_base arena_size min_vaddr (phdr_at m program_headers i) m in
        if (ok : bool)
        then copy_segments fuel' data header program_headers arena_base arena_size min_vaddr (i + 1) m
        else (false, m)
      else (true, m)
  end.

Record xbks_elf_image := ElfImage {
  image_entry : Z;
  image_base : Z;
  image_size : Z;
}.

(** [*out] is written when the first component is [Some]. *)
Definition xbks_elf_load_image (m : mem) (file : option xbks_ramdisk_file) (arena_base arena_size : Z)
    (out_null : bool) : option xbks_elf_image * mem :=
  if out_null || (arena_base =? 0) || (arena_size =? 0) then (None, m)
  else
    match validate_elf_header m file, file with
    | Some header, Some file =>
        let data := f_data file in
        let program_headers := data + e_phoff m header in
        match scan_range (Z.to_nat (e_phnum m header)) 0
                (fun i => survey_step (f_size file) (phdr_at m program_headers i))
                (UINT64_MAX, 0, false) with
        | Exit _ => (None, m)
        | Next (min_vaddr, max_vaddr, found_load_segment) =>
            if negb found_load_segment || (max_vaddr <? min_vaddr) ||
               (arena_size <? max_vaddr -u min_vaddr) then (None, m)
            else if (e_entry m header <? min_vaddr) || (max_vaddr <=? e_entry m header) then (None, m)
            else
              let m := memset m arena_base 0 arena_size in
              let '(ok, m) := copy_segments (Z.to_nat 65536) data header program_headers
                                arena_base arena_size min_vaddr 0 m in
              if (ok : bool) then
                (Some (ElfImage (arena_base +u (e_entry m header -u min_vaddr)) arena_base
                         (max_vaddr -u min_vaddr)), m)
              else (None, m)
        end
    | _, _ => (None, m)
    end.
