(* ===== verification/ElfProps.v ===== *)
(** * The ELF loader: specification and properties

    [well_formed] says, without machine arithmetic, which files the loader accepts;
    [image_byte] is the contents of the arena afterwards.  The loader is shown to
    accept exactly the well-formed files and to leave the memory alone otherwise. *)

From Stdlib Require Import Ascii String.
From S2P Require Import Prelude CMem CStr Ramdisk Elf.

(** ** Specification *)

(** The program headers from index [i] on. *)
Fixpoint phdrs (m : mem) (program_headers : Z) (n : nat) (i : Z) : list elf64_phdr :=
  match n with
  | O => []
  | S n' => phdr_at m program_headers i :: phdrs m program_headers n' (i + 1)
  end.

Definition loadable (p : elf64_phdr) : bool := p_type p =? PT_LOAD.
Definition loads (l : list elf64_phdr) : list elf64_phdr := List.filter loadable l.

(** A segment inside the file and the address space. *)
Definition segment_ok (size : Z) (p : elf64_phdr) : Prop :=
  p_filesz p <= p_memsz p /\ p_offset p + p_filesz p <= size /\ p_vaddr p + p_memsz p < 2 ^ 64.

Definition low (l : list elf64_phdr) : Z := fold_left (fun a p => Z.min a (p_vaddr p)) l UINT64_MAX.
Definition high (l : list elf64_phdr) : Z := fold_left (fun a p => Z.max a (p_vaddr p + p_memsz p)) l 0.

Definition phdr_range (p : elf64_phdr) : Prop :=
  0 <= p_offset p < 2 ^ 64 /\ 0 <= p_vaddr p < 2 ^ 64 /\ 0 <= p_filesz p < 2 ^ 64 /\ 0 <= p_memsz p < 2 ^ 64.

(** The segments of the file whose header is at [header]. *)
Definition segments (m : mem) (header : Z) : list elf64_phdr :=
  loads (phdrs m (header + e_phoff m header) (Z.to_nat (e_phnum m header)) 0).

Record well_formed (m : mem) (file : xbks_ramdisk_file) (arena_size : Z) : Prop := {
  wf_regular : f_data file <> 0 /\ f_directory file = false /\ sizeof_ehdr <= f_size file;
  wf_magic : bytes_at m (f_data file) 6 = [127; chr "E"; chr "L"; chr "F"; ELFCLASS64; ELFDATA2LSB];
  wf_type : e_type m (f_data file) = ET_EXEC \/ e_type m (f_data file) = ET_DYN;
  wf_machine : e_machine m (f_data file) = EM_X86_64;
  wf_table : e_phentsize m (f_data file) = sizeof_phdr /\ e_phnum m (f_data file) <> 0 /\
    e_phoff m (f_data file) + e_phnum m (f_data file) * sizeof_phdr <= f_size file;
  wf_segments : segments m (f_data file) <> [] /\ Forall (segment_ok (f_size file)) (segments m (f_data file));
  wf_fits : high (segments m (f_data file)) - low (segments m (f_data file)) <= arena_size;
  wf_entry : low (segments m (f_data file)) <= e_entry m (f_data file) < high (segments m (f_data file));
}.

(** Byte [k] of the image: the file byte of the last segment whose file part covers
    it, 0 where there is none. *)
Definition image_byte (m : mem) (data base : Z) (l : list elf64_phdr) (k : Z) : Z :=
  fold_left (fun b p =>
    let r := p_vaddr p - base in
    if (r <=? k) && (k <? r + p_filesz p) then rd8 m (data + p_offset p + (k - r)) else b) l 0.

(** ** The first loop *)

Lemma phdr_at_range m ph i : phdr_range (phdr_at m ph i).
Proof. unfold phdr_range, phdr_at. cbn. repeat apply conj; apply ld64_range. Qed.

Lemma phdrs_range m ph n i : Forall phdr_range (phdrs m ph n i).
Proof.
  revert i. induction n as [|n IH]; intros i; cbn [phdrs]; constructor; [apply phdr_at_range|apply IH].
Qed.

Lemma loads_range m ph n i : Forall phdr_range (loads (phdrs m ph n i)).
Proof.
  apply List.Forall_forall. intros p Hp. apply List.filter_In in Hp as [Hp _].
  pose proof (phdrs_range m ph n i) as H. rewrite List.Forall_forall in H. exact (H p Hp).
Qed.

Lemma add_overflows_ok x y : 0 <= x < 2 ^ 64 -> 0 <= y < 2 ^ 64 -> add_overflows_u64 x y = (2 ^ 64 <=? x + y).
Proof. intros Hx Hy. unfold add_overflows_u64, UINT64_MAX. rewrite uwrap_small by lia. repeat case_bool; lia || reflexivity. Qed.

Definition segment_okb (size : Z) (p : elf64_phdr) : bool :=
  (p_filesz p <=? p_memsz p) && (p_offset p + p_filesz p <=? size) && (p_vaddr p + p_memsz p <? 2 ^ 64).

Lemma segment_okb_spec size p : segment_okb size p = true <-> segment_ok size p.
Proof. unfold segment_okb, segment_ok. rewrite !andb_true_iff, !Z.leb_le, Z.ltb_lt. tauto. Qed.

Lemma survey_step_ok size p mn mx fd :
  0 <= size < 2 ^ 64 -> phdr_range p ->
  survey_step size p (mn, mx, fd) =
    if negb (loadable p) then Next (mn, mx, fd)
    else if segment_okb size p
         then Next (Z.min mn (p_vaddr p), Z.max mx (p_vaddr p + p_memsz p), true) else Exit tt.
Proof.
  intros Hs (Ho & Hv & Hf & Hm). unfold survey_step, loadable. destruct (p_type p =? PT_LOAD); [|reflexivity]. cbn [negb].
  rewrite !add_overflows_ok by assumption. unfold segment_okb.
  destruct (Z.ltb_spec (p_memsz p) (p_filesz p)) as [H1|H1], (Z.leb_spec (p_filesz p) (p_memsz p)) as [H1'|H1']; try lia; [reflexivity|].
  cbn [orb andb]. destruct (Z.leb_spec (2 ^ 64) (p_offset p + p_filesz p)) as [H2|H2]; cbn [orb].
  { destruct (Z.leb_spec (p_offset p + p_filesz p) size); [lia|reflexivity]. }
  rewrite (uwrap_small 64 (p_offset p + p_filesz p)) by lia.
  destruct (Z.ltb_spec size (p_offset p + p_filesz p)) as [H3|H3], (Z.leb_spec (p_offset p + p_filesz p) size) as [H3'|H3']; try lia; [reflexivity|].
  cbn [orb andb]. destruct (Z.leb_spec (2 ^ 64) (p_vaddr p + p_memsz p)) as [H4|H4], (Z.ltb_spec (p_vaddr p + p_memsz p) (2 ^ 64)); try lia; [reflexivity|].
  rewrite (uwrap_small 64 (p_vaddr p + p_memsz p)) by lia. do 3 f_equal; [|case_bool; lia].
  case_bool; lia.
Qed.

Lemma survey_ok size m ph n i mn mx fd :
  0 <= size < 2 ^ 64 ->
  let l := loads (phdrs m ph n i) in
  scan_range n i (fun i => survey_step size (phdr_at m ph i)) (mn, mx, fd) =
    if forallb (segment_okb size) l
    then Next (fold_left (fun a p => Z.min a (p_vaddr p)) l mn,
               fold_left (fun a p => Z.max a (p_vaddr p + p_memsz p)) l mx,
               fd || negb (bool_decide (l = [])))
    else Exit tt.
Proof.
  intros Hs. cbn zeta. revert i mn mx fd. induction n as [|n IH]; intros i mn mx fd.
  { cbn. rewrite orb_false_r. reflexivity. }
  cbn [scan_range phdrs]. rewrite survey_step_ok by (assumption || apply phdr_at_range). unfold loads in *. cbn [List.filter].
  destruct (loadable (phdr_at m ph i)); cbn [negb]; [|apply IH]. cbn [forallb fold_left].
  destruct (segment_okb size (phdr_at m ph i)); cbn [andb]; [|reflexivity]. rewrite IH. cbn [orb].
  rewrite (bool_decide_eq_false_2 (_ :: _ = [])) by discriminate. rewrite orb_true_r. reflexivity.
Qed.

Lemma fold_min_le l a : fold_left (fun a p => Z.min a (p_vaddr p)) l a <= a.
Proof. revert a. induction l as [|p l IH]; intros a; cbn [fold_left]; [lia|]. specialize (IH (Z.min a (p_vaddr p))). lia. Qed.

Lemma fold_max_ge l a : a <= fold_left (fun a p => Z.max a (p_vaddr p + p_memsz p)) l a.
Proof. revert a. induction l as [|p l IH]; intros a; cbn [fold_left]; [lia|]. specialize (IH (Z.max a (p_vaddr p + p_memsz p))). lia. Qed.

Lemma low_le l p : In p l -> low l <= p_vaddr p.
Proof.
  unfold low. generalize UINT64_MAX as a. induction l as [|q l IH]; intros a []; cbn [fold_left]; [subst|apply IH; assumption].
  pose proof (fold_min_le l (Z.min a (p_vaddr p))). lia.
Qed.

Lemma high_ge l p : In p l -> p_vaddr p + p_memsz p <= high l.
Proof.
  unfold high. generalize 0 as a. induction l as [|q l IH]; intros a []; cbn [fold_left]; [subst|apply IH; assumption].
  pose proof (fold_max_ge l (Z.max a (p_vaddr p + p_memsz p))). lia.
Qed.

Lemma low_nonneg l : Forall phdr_range l -> 0 <= low l.
Proof.
  unfold low. assert (H : 0 <= UINT64_MAX) by (vm_compute; discriminate). revert H. generalize UINT64_MAX as a.
  intros a Ha Hl. revert a Ha. induction Hl as [|p l Hp _ IH]; intros a Ha; cbn [fold_left]; [exact Ha|].
  apply IH. destruct Hp as (_ & Hv & _). lia.
Qed.

Lemma high_small size l : Forall (segment_ok size) l -> high l < 2 ^ 64.
Proof.
  unfold high. assert (H : 0 < 2 ^ 64) by lia. revert H. generalize 0 as a.
  intros a Ha Hl. revert a Ha. induction Hl as [|p l Hp _ IH]; intros a Ha; cbn [fold_left]; [exact Ha|].
  apply IH. destruct Hp as (_ & _ & Hv). lia.
Qed.

(** ** The header *)

Lemma validate_iff m file h :
  0 <= f_size file < 2 ^ 64 ->
  validate_elf_header m (Some file) = Some h <->
  h = f_data file /\
  (f_data file <> 0 /\ f_directory file = false /\ sizeof_ehdr <= f_size file) /\
  bytes_at m (f_data file) 6 = [127; chr "E"; chr "L"; chr "F"; ELFCLASS64; ELFDATA2LSB] /\
  (e_type m (f_data file) = ET_EXEC \/ e_type m (f_data file) = ET_DYN) /\
  e_machine m (f_data file) = EM_X86_64 /\
  (e_phentsize m (f_data file) = sizeof_phdr /\ e_phnum m (f_data file) <> 0 /\
   e_phoff m (f_data file) + e_phnum m (f_data file) * sizeof_phdr <= f_size file).
Proof.
  intros Hs. unfold validate_elf_header. set (d := f_data file).
  pose proof (ld64_range m (d + 32)) as Hoff. fold (e_phoff m d) in Hoff. unfold in_u64 in Hoff.
  pose proof (ld_le_range 2 m (d + 56)) as Hnum. fold (ld16 m (d + 56)) in Hnum. fold (e_phnum m d) in Hnum.
  change (256 ^ Z.of_nat 2) with 65536 in Hnum.
  assert (Htab : (f_size file <? e_phoff m d) || ((UINT64_MAX -u e_phoff m d) / sizeof_phdr <? e_phnum m d) ||
                 (f_size file <? e_phoff m d +u (e_phnum m d *u sizeof_phdr)) = false <->
                 e_phoff m d + e_phnum m d * sizeof_phdr <= f_size file).
  { unfold UINT64_MAX, sizeof_phdr. rewrite (uwrap_small 64 (_ - _)), (uwrap_small 64 (_ * 56)) by lia.
    rewrite !orb_false_iff, !Z.ltb_ge. split.
    - intros [[H1 H2] H3]. pose proof (Z.mul_div_le (2 ^ 64 - 1 - e_phoff m d) 56 ltac:(lia)).
      rewrite uwrap_small in H3 by lia. exact H3.
    - intros H. split; [split; [lia|apply Z.div_le_lower_bound; lia]|]. rewrite uwrap_small by lia. exact H. }
  destruct (Z.eqb_spec d 0) as [E0|E0]; cbn [orb]; [split; [discriminate|intuition congruence]|].
  destruct (f_directory file); cbn [orb]; [split; [discriminate|intuition congruence]|].
  destruct (Z.ltb_spec (f_size file) sizeof_ehdr) as [Hsz|Hsz]; [split; [discriminate|intuition lia]|].
  cbn [bytes_at]. unfold e_ident. rewrite !Z.add_0_r, <- !Z.add_assoc.
  change (1 + (1 + (1 + (1 + 1)))) with 5. change (1 + (1 + (1 + 1))) with 4. change (1 + (1 + 1)) with 3. change (1 + 1) with 2.
  destruct (Z.eqb_spec (rd8 m d) 127); cbn [negb orb]; [|split; [discriminate|intuition congruence]].
  destruct (Z.eqb_spec (rd8 m (d + 1)) (chr "E")); cbn [negb orb]; [|split; [discriminate|intuition congruence]].
  destruct (Z.eqb_spec (rd8 m (d + 2)) (chr "L")); cbn [negb orb]; [|split; [discriminate|intuition congruence]].
  destruct (Z.eqb_spec (rd8 m (d + 3)) (chr "F")); cbn [negb orb]; [|split; [discriminate|intuition congruence]].
  destruct (Z.eqb_spec (rd8 m (d + 4)) ELFCLASS64); cbn [negb orb]; [|split; [discriminate|intuition congruence]].
  destruct (Z.eqb_spec (rd8 m (d + 5)) ELFDATA2LSB); cbn [negb orb]; [|split; [discriminate|intuition congruence]].
  destruct (Z.eqb_spec (e_type m d) ET_EXEC) as [Ht|Ht], (Z.eqb_spec (e_type m d) ET_DYN) as [Ht'|Ht']; cbn [negb andb orb];
    try (split; [discriminate|tauto]).
  all: destruct (Z.eqb_spec (e_machine m d) EM_X86_64); cbn [negb orb]; [|split; [discriminate|tauto]].
  all: destruct (Z.eqb_spec (e_phentsize m d) sizeof_phdr); cbn [negb orb]; [|split; [discriminate|tauto]].
  all: destruct (Z.eqb_spec (e_phnum m d) 0); cbn [negb orb]; [split; [discriminate|tauto]|].
  all: destruct (_ || _ || _); [split; [discriminate|intros H; exfalso; apply diff_true_false, Htab; tauto]|].
  all: split; [intros [= <-]; intuition congruence|intros [-> _]; reflexivity].
Qed.

(** ** The second loop *)

(** The memories agree outside the arena. *)
Definition outside_same (base size : Z) (m m' : mem) : Prop :=
  forall b, ~ (base <= b < base + size) -> rd8 m' b = rd8 m b.

Definition patch (m : mem) (data base k : Z) (b : Z) (p : elf64_phdr) : Z :=
  let r := p_vaddr p - base in
  if (r <=? k) && (k <? r + p_filesz p) then rd8 m (data + p_offset p + (k - r)) else b.

Section Copy.
Context (m : mem) (data size arena arena_size lo : Z).
Context (Hsize : 64 <= size) (Harena : 0 <= arena) (Hwrap : arena + arena_size < 2 ^ 64).
Context (Hdisj : data + size <= arena \/ arena + arena_size <= data).
Context (Hphnum : e_phoff m data + e_phnum m data * sizeof_phdr <= size).
Let ph := data + e_phoff m data.

Lemma ld_le_file n a m' :
  outside_same arena arena_size m m' -> data <= a -> a + Z.of_nat n <= data + size -> ld_le n m' a = ld_le n m a.
Proof. intros H H1 H2. apply ld_le_ext. intros b Hb. apply H. lia. Qed.

Lemma phdr_at_same i m' :
  outside_same arena arena_size m m' -> 0 <= i < e_phnum m data -> phdr_at m' ph i = phdr_at m ph i.
Proof.
  intros H Hi. unfold phdr_at, ld32, ld64. pose proof (ld64_range m (data + 32)) as Ho.
  unfold in_u64, e_phoff, sizeof_phdr in *. fold (e_phoff m data) in *. unfold ph.
  f_equal; (apply ld_le_file; [exact H|lia|lia]).
Qed.

Lemma copy_segment_ok p m' :
  outside_same arena arena_size m m' -> phdr_range p -> segment_ok size p ->
  0 <= lo <= p_vaddr p -> p_vaddr p + p_memsz p <= lo + arena_size -> loadable p = true ->
  exists m'', copy_segment data arena arena_size lo p m' = (true, m'') /\
    outside_same arena arena_size m m'' /\
    forall k, 0 <= k < arena_size -> rd8 m'' (arena + k) = patch m data lo k (rd8 m' (arena + k)) p.
Proof.
  intros H (Ho & Hv & Hf & Hm) (H1 & H2 & H3) Hlo Hfit Hl. unfold copy_segment, loadable in *. rewrite Hl. cbn [negb].
  rewrite !(uwrap_small 64 (p_vaddr p - lo)) by lia.
  destruct (Z.ltb_spec arena_size (p_vaddr p - lo)); [lia|]. cbn [orb]. rewrite (uwrap_small 64 (arena_size - _)) by lia.
  destruct (Z.ltb_spec (arena_size - (p_vaddr p - lo)) (p_memsz p)); [lia|].
  rewrite (uwrap_small 64 (arena + _)) by lia. eexists. split; [reflexivity|]. split.
  - intros b Hb. rewrite rd8_memcpy by lia.
    destruct (Z.leb_spec (arena + (p_vaddr p - lo)) b), (Z.ltb_spec b (arena + (p_vaddr p - lo) + p_filesz p)); cbn [andb]; try (apply H; exact Hb).
    lia.
  - intros k Hk. rewrite rd8_memcpy by lia. unfold patch.
    destruct (Z.leb_spec (arena + (p_vaddr p - lo)) (arena + k)), (Z.leb_spec (p_vaddr p - lo) k); try lia; cbn [andb]; [|reflexivity].
    destruct (Z.ltb_spec (arena + k) (arena + (p_vaddr p - lo) + p_filesz p)), (Z.ltb_spec k (p_vaddr p - lo + p_filesz p)); try lia.
    replace (data + p_offset p + (arena + k - (arena + (p_vaddr p - lo)))) with (data + p_offset p + (k - (p_vaddr p - lo))) by lia.
    apply H. lia.
Qed.

Lemma copy_segments_ok fuel n i m' :
  outside_same arena arena_size m m' -> 0 <= i -> i + Z.of_nat n = e_phnum m data -> (n <= fuel)%nat ->
  0 <= lo -> Forall (fun p => segment_ok size p /\ lo <= p_vaddr p /\ p_vaddr p + p_memsz p <= lo + arena_size) (loads (phdrs m ph n i)) ->
  exists m'', copy_segments fuel data data ph arena arena_size lo i m' = (true, m'') /\
    outside_same arena arena_size m m'' /\
    forall k, 0 <= k < arena_size ->
      rd8 m'' (arena + k) = fold_left (patch m data lo k) (loads (phdrs m ph n i)) (rd8 m' (arena + k)).
Proof.
  revert n i m'. induction fuel as [|f IH]; intros n i m' H Hi Hn Hf Hlo Hall.
  { destruct n; [|lia]. exists m'. split; [reflexivity|]. split; [exact H|]. intros k _. reflexivity. }
  cbn [copy_segments]. replace (e_phnum m' data) with (e_phnum m data).
  2: { symmetry. apply (ld_le_file 2); [exact H|lia|lia]. }
  destruct n as [|n].
  { destruct (Z.ltb_spec i (e_phnum m data)); [lia|]. exists m'. split; [reflexivity|]. split; [exact H|]. intros k _. reflexivity. }
  destruct (Z.ltb_spec i (e_phnum m data)); [|lia]. rewrite phdr_at_same by (assumption || lia).
  cbn [phdrs] in *. unfold loads in *. cbn [List.filter] in *. destruct (loadable (phdr_at m ph i)) eqn:El.
  - apply Forall_cons_iff in Hall as [(Hok & Hv1 & Hv2) Hall].
    destruct (copy_segment_ok _ m' H (phdr_at_range m ph i) Hok ltac:(lia) Hv2 El) as (m1 & -> & H1 & Hp).
    destruct (IH n (i + 1) m1 H1 ltac:(lia) ltac:(lia) ltac:(lia) Hlo Hall) as (m2 & -> & H2 & Hq).
    exists m2. split; [reflexivity|]. split; [exact H2|]. intros k Hk. rewrite Hq, Hp by exact Hk. reflexivity.
  - unfold copy_segment. unfold loadable in El. rewrite El. cbn [negb].
    exact (IH n (i + 1) m' H ltac:(lia) ltac:(lia) ltac:(lia) Hlo Hall).
Qed.
End Copy.

(** ** The loader *)

(** File and arena do not overlap, and the arena does not reach the end of the
    address space. *)
Definition placed (file : xbks_ramdisk_file) (arena arena_size : Z) : Prop :=
  0 <= f_size file < 2 ^ 64 /\ 0 < arena /\ 0 < arena_size /\ arena + arena_size < 2 ^ 64 /\
  (f_data file + f_size file <= arena \/ arena + arena_size <= f_data file).

(** The memory with the image of the file in the arena. *)
Definition loaded_image (m m' : mem) (file : xbks_ramdisk_file) (arena arena_size : Z) : Prop :=
  let segs := segments m (f_data file) in
  outside_same arena arena_size m m' /\
  forall k, 0 <= k < arena_size -> rd8 m' (arena + k) = image_byte m (f_data file) (low segs) segs k.

Lemma forallb_segments size l : forallb (segment_okb size) l = true <-> Forall (segment_ok size) l.
Proof.
  rewrite forallb_forall, List.Forall_forall. setoid_rewrite segment_okb_spec. reflexivity.
Qed.

(** A segment's bounds, in a file that fits. *)
Lemma segments_bounds m file arena_size :
  well_formed m file arena_size ->
  Forall (fun p => segment_ok (f_size file) p /\ low (segments m (f_data file)) <= p_vaddr p /\
    p_vaddr p + p_memsz p <= low (segments m (f_data file)) + arena_size) (segments m (f_data file)).
Proof.
  intros [_ _ _ _ _ [_ Hs] Hf _]. apply List.Forall_forall. intros p Hp. rewrite List.Forall_forall in Hs.
  pose proof (low_le _ p Hp). pose proof (high_ge _ p Hp). split; [exact (Hs p Hp)|lia].
Qed.

Lemma load_accepts m file arena arena_size :
  placed file arena arena_size -> well_formed m file arena_size ->
  let segs := segments m (f_data file) in
  exists m', xbks_elf_load_image m (Some file) arena arena_size false =
      (Some (ElfImage (arena + (e_entry m (f_data file) - low segs)) arena (high segs - low segs)), m') /\
    loaded_image m m' file arena arena_size.
Proof.
  intros (Hsz & Ha & Has & Hw & Hd) Hwf. pose proof (segments_bounds _ _ _ Hwf) as Hb.
  destruct Hwf as [H1 H2 H3 H4 H5 [H6 H7] H8 H9]. cbn zeta.
  unfold xbks_elf_load_image. cbn [orb]. destruct (Z.eqb_spec arena 0); [lia|]. destruct (Z.eqb_spec arena_size 0); [lia|]. cbn [orb].
  rewrite (proj2 (validate_iff m file (f_data file) Hsz)) by tauto.
  rewrite survey_ok by exact Hsz. change (loads _) with (segments m (f_data file)).
  rewrite (proj2 (forallb_segments _ _) H7). cbn [orb].
  fold (low (segments m (f_data file))). fold (high (segments m (f_data file))). set (segs := segments m (f_data file)) in *.
  pose proof (high_small _ _ H7). pose proof (low_nonneg segs (loads_range _ _ _ _)).
  rewrite bool_decide_eq_false_2 by exact H6. cbn [negb orb].
  destruct (Z.ltb_spec (high segs) (low segs)); [lia|]. cbn [orb]. rewrite (uwrap_small 64 (high segs - _)) by lia.
  destruct (Z.ltb_spec arena_size (high segs - low segs)); [lia|].
  destruct (Z.ltb_spec (e_entry m (f_data file)) (low segs)), (Z.leb_spec (high segs) (e_entry m (f_data file))); cbn [orb]; try lia.
  destruct H1 as (_ & _ & H1). unfold sizeof_ehdr in H1. destruct H5 as (_ & _ & H5).
  pose proof (ld_le_range 2 m (f_data file + 56)) as Hnum. change (ld_le 2 m (f_data file + 56)) with (e_phnum m (f_data file)) in Hnum.
  change (256 ^ Z.of_nat 2) with 65536 in Hnum.
  assert (Hms : outside_same arena arena_size m (memset m arena 0 arena_size)).
  { intros b Hb'. rewrite rd8_memset by lia. destruct (Z.leb_spec arena b), (Z.ltb_spec b (arena + arena_size)); cbn [andb]; reflexivity || lia. }
  destruct (copy_segments_ok m (f_data file) (f_size file) arena arena_size (low segs) H1 ltac:(lia) Hw Hd H5
    (Z.to_nat 65536) (Z.to_nat (e_phnum m (f_data file))) 0 (memset m arena 0 arena_size) Hms ltac:(lia) ltac:(lia) ltac:(lia)
    ltac:(lia) Hb) as (m' & E & Ho & Hk).
  rewrite E. exists m'. split.
  - replace (e_entry m' (f_data file)) with (e_entry m (f_data file)).
    2: { symmetry. apply (ld_le_file m (f_data file) (f_size file) arena arena_size Hd 8); [exact Ho|lia|lia]. }
    rewrite (uwrap_small 64 (e_entry m (f_data file) - _)), uwrap_small by lia. reflexivity.
  - split; [exact Ho|]. intros k Hk'. rewrite (Hk k Hk'), rd8_memset by lia.
    destruct (Z.leb_spec arena (arena + k)), (Z.ltb_spec (arena + k) (arena + arena_size)); try lia. reflexivity.
Qed.

Lemma load_refuses m file arena arena_size :
  placed file arena arena_size -> ~ well_formed m file arena_size ->
  xbks_elf_load_image m (Some file) arena arena_size false = (None, m).
Proof.
  intros Hp Hn. pose proof Hp as (Hsz & Ha & Has & _). unfold xbks_elf_load_image.
  destruct (Z.eqb_spec arena 0); [lia|]. destruct (Z.eqb_spec arena_size 0); [lia|]. cbn [orb].
  destruct (validate_elf_header m (Some file)) as [h|] eqn:Ev; [|reflexivity].
  apply validate_iff in Ev as (-> & H1 & H2 & H3 & H4 & H5); [|exact Hsz].
  rewrite survey_ok by exact Hsz. change (loads _) with (segments m (f_data file)).
  destruct (forallb _ _) eqn:Es; [|reflexivity]. apply forallb_segments in Es. cbn [orb].
  fold (low (segments m (f_data file))). fold (high (segments m (f_data file))).
  pose proof (high_small _ _ Es). pose proof (low_nonneg (segments m (f_data file)) (loads_range _ _ _ _)).
  case_bool_decide as En; cbn [negb orb]; [reflexivity|].
  destruct (Z.ltb_spec (high (segments m (f_data file))) (low (segments m (f_data file)))); cbn [orb]; [reflexivity|].
  rewrite (uwrap_small 64 (high _ - _)) by lia.
  destruct (Z.ltb_spec arena_size (high (segments m (f_data file)) - low (segments m (f_data file)))); [reflexivity|].
  destruct (Z.ltb_spec (e_entry m (f_data file)) (low (segments m (f_data file)))); cbn [orb]; [reflexivity|].
  destruct (Z.leb_spec (high (segments m (f_data file))) (e_entry m (f_data file))); [reflexivity|].
  exfalso. apply Hn. constructor; try tauto; lia.
Qed.

(** C34. The loader accepts every well-formed file.  It answers the base of the arena, the
    entry address of the file moved from its lowest segment to the arena, and the
    distance from the lowest segment to the end of the highest as the size, which
    fits the arena and contains the entry point; the arena holds the segments (the last one
    wherever several cover a byte) and zeros elsewhere, and no byte outside the arena
    has changed. *)
Theorem elf_load_correct m file arena arena_size :
  placed file arena arena_size -> well_formed m file arena_size ->
  let segs := segments m (f_data file) in
  exists img m', xbks_elf_load_image m (Some file) arena arena_size false = (Some img, m') /\
    loaded_image m m' file arena arena_size /\
    image_base img = arena /\ image_size img = high segs - low segs /\
    image_entry img = arena + (e_entry m (f_data file) - low segs) /\
    0 < image_size img <= arena_size /\ arena <= image_entry img < arena + image_size img.
Proof.
  intros Hp Hwf segs. destruct (load_accepts m file arena arena_size Hp Hwf) as (m' & E & Hl).
  destruct Hwf as [_ _ _ _ _ _ Hf He]. fold segs in E, Hf, He. eexists _, m'. split; [exact E|]. split; [exact Hl|].
  cbn. repeat (split; [reflexivity|]). lia.
Qed.

(** C40. A file that is not well-formed is refused and the memory stays as it was: every
    check comes before the arena is cleared, and the check inside the copy loop never
    fails.  With the acceptance theorem the loader is all or nothing. *)
Theorem elf_load_refuses m file arena arena_size :
  placed file arena arena_size -> ~ well_formed m file arena_size ->
  xbks_elf_load_image m (Some file) arena arena_size false = (None, m).
Proof. exact (load_refuses m file arena arena_size). Qed.

(** ** A file with two segments

    200 bytes at 4096: the ELF header, two program headers, and 12 bytes of contents,
    8 loaded at 0x1000 and 4 (of 16 in memory) at 0x1010, entry 0x1004. *)
Definition demo_elf : list Z :=
  [127; 69; 76; 70; 2; 1; 1; 0] ++ replicate 8 0 ++ [2; 0; 62; 0; 1; 0; 0; 0] ++
  [4; 16; 0; 0; 0; 0; 0; 0] ++ [64; 0; 0; 0; 0; 0; 0; 0] ++ replicate 12 0 ++ [64; 0; 56; 0; 2; 0] ++ replicate 6 0 ++
  ([1; 0; 0; 0; 5; 0; 0; 0] ++ [176; 0; 0; 0; 0; 0; 0; 0] ++ [0; 16; 0; 0; 0; 0; 0; 0] ++ replicate 8 0 ++
   [8; 0; 0; 0; 0; 0; 0; 0] ++ [8; 0; 0; 0; 0; 0; 0; 0] ++ replicate 8 0) ++
  ([1; 0; 0; 0; 6; 0; 0; 0] ++ [184; 0; 0; 0; 0; 0; 0; 0] ++ [16; 16; 0; 0; 0; 0; 0; 0] ++ replicate 8 0 ++
   [4; 0; 0; 0; 0; 0; 0; 0] ++ [16; 0; 0; 0; 0; 0; 0; 0] ++ replicate 8 0) ++
  [144; 144; 144; 144; 15; 5; 195; 0] ++ [1; 2; 3; 4] ++ replicate 12 0.

Definition demo_elf_mem : mem := store_bytes ∅ 4096 demo_elf.
Definition demo_elf_file : xbks_ramdisk_file := RamdiskFile (lit "/bin/sh") 4096 200 false true.

Lemma demo_elf_placed : placed demo_elf_file 65536 64.
Proof. unfold placed. cbn. lia. Qed.

Lemma demo_elf_well_formed : well_formed demo_elf_mem demo_elf_file 64.
Proof.
  assert (Es : segments demo_elf_mem 4096 = [Phdr 1 176 4096 8 8; Phdr 1 184 4112 4 16]) by (vm_compute; reflexivity).
  constructor; cbn [demo_elf_file f_data f_size f_directory]; rewrite ?Es.
  - unfold sizeof_ehdr. split; [lia|]. split; [reflexivity|lia].
  - vm_compute. reflexivity.
  - left. vm_compute. reflexivity.
  - vm_compute. reflexivity.
  - replace (e_phentsize demo_elf_mem 4096) with 56 by (vm_compute; reflexivity).
    replace (e_phnum demo_elf_mem 4096) with 2 by (vm_compute; reflexivity).
    replace (e_phoff demo_elf_mem 4096) with 64 by (vm_compute; reflexivity). unfold sizeof_phdr. lia.
  - split; [discriminate|]. unfold segment_ok. constructor; [cbn; lia|]. constructor; [cbn; lia|constructor].
  - change (32 <= 64). lia.
  - replace (e_entry demo_elf_mem 4096) with 4100 by (vm_compute; reflexivity). change (4096 <= 4100 < 4128). lia.
Qed.

Lemma elf_load_correct_witness :
  exists img m', xbks_elf_load_image demo_elf_mem (Some demo_elf_file) 65536 64 false = (Some img, m') /\
    loaded_image demo_elf_mem m' demo_elf_file 65536 64 /\
    image_base img = 65536 /\ image_size img = 32 /\ image_entry img = 65540.
Proof.
  destruct (elf_load_correct demo_elf_mem demo_elf_file 65536 64 demo_elf_placed demo_elf_well_formed) as (img & m' & E & Hl & Hb & Hs & He & _).
  exists img, m'. split; [exact E|]. split; [exact Hl|]. split; [exact Hb|].
  split; [rewrite Hs|rewrite He]; vm_compute; reflexivity.
Defined.

(** The same file does not fit an arena of 16 bytes. *)
Lemma elf_load_refuses_witness :
  xbks_elf_load_image demo_elf_mem (Some demo_elf_file) 65536 16 false = (None, demo_elf_mem).
Proof.
  apply (elf_load_refuses demo_elf_mem demo_elf_file 65536 16).
  - unfold placed. cbn. lia.
  - intros [_ _ _ _ _ _ H _]. 
    assert (E : high (segments demo_elf_mem 4096) - low (segments demo_elf_mem 4096) = 32) by (vm_compute; reflexivity).
    cbn [demo_elf_file f_data] in H. rewrite E in H. lia.
Defined.
