(* ===== verification/Keyboard.v ===== *)
(** * The keyboard of src/drivers/keyboard.c

    One call of [xbks_keyboard_read_char] asks the serial port and then the PS/2
    controller; what the devices answer is an argument of the model.  The only state
    is [shift_pressed].  A typist's key strokes are shown to come out as the text. *)

From Stdlib Require Import Ascii String.
From S2P Require Import Prelude CStr.

(** ** The code *)

(** The designated initialisers of the two 128-entry tables; other entries are 0. *)
Definition normal_initialisers : list (Z * Z) :=
  [(1, 27); (2, 49); (3, 50); (4, 51); (5, 52); (6, 53); (7, 54); (8, 55); (9, 56);
   (10, 57); (11, 48); (12, 45); (13, 61); (14, 8); (15, 9); (16, 113); (17, 119);
   (18, 101); (19, 114); (20, 116); (21, 121); (22, 117); (23, 105); (24, 111); (25, 112);
   (26, 91); (27, 93); (28, 10); (30, 97); (31, 115); (32, 100); (33, 102); (34, 103);
   (35, 104); (36, 106); (37, 107); (38, 108); (39, 59); (40, 39); (41, 96); (43, 92);
   (44, 122); (45, 120); (46, 99); (47, 118); (48, 98); (49, 110); (50, 109); (51, 44);
   (52, 46); (53, 47); (57, 32)].

Definition shifted_initialisers : list (Z * Z) :=
  [(1, 27); (2, 33); (3, 64); (4, 35); (5, 36); (6, 37); (7, 94); (8, 38); (9, 42);
   (10, 40); (11, 41); (12, 95); (13, 43); (14, 8); (15, 9); (16, 81); (17, 87); (18, 69);
   (19, 82); (20, 84); (21, 89); (22, 85); (23, 73); (24, 79); (25, 80); (26, 123);
   (27, 125); (28, 10); (30, 65); (31, 83); (32, 68); (33, 70); (34, 71); (35, 72);
   (36, 74); (37, 75); (38, 76); (39, 58); (40, 34); (41, 126); (43, 124); (44, 90);
   (45, 88); (46, 67); (47, 86); (48, 66); (49, 78); (50, 77); (51, 60); (52, 62);
   (53, 63); (57, 32)].

Fixpoint initialised (l : list (Z * Z)) (key : Z) : Z :=
  match l with
  | [] => 0
  | (k, c) :: t => if k =? key then c else initialised t key
  end.

Definition normal_scancode_map (key : Z) : Z := initialised normal_initialisers key.
Definition shifted_scancode_map (key : Z) : Z := initialised shifted_initialisers key.

(** What the devices answer during one call: the byte [xbks_serial_read_byte] finds,
    if any, and the two PS/2 ports. *)
Record poll := Poll {
  serial_byte : option Z;
  ps2_status : Z;
  ps2_data : Z;
}.

Definition PS2_STATUS_OUTPUT_FULL : Z := 1.

Definition xbks_keyboard_init : bool := false.

(** The answer, with [Some ch] for [true] and [*out = ch], and the new [shift_pressed]. *)
Definition xbks_keyboard_read_char (shift_pressed : bool) (p : poll) : option Z * bool :=
  match serial_byte p with
  | Some b => (Some (if b =? 13 then 10 else b), shift_pressed)
  | None =>
      if (ps2_status p & PS2_STATUS_OUTPUT_FULL) =? 0 then (None, shift_pressed)
      else
        let scancode := ps2_data p in
        let released := negb ((scancode & 128) =? 0) in
        let key := scancode & 127 in
        if (key =? 42) || (key =? 54) then (None, negb released)
        else if released || (128 <=? key) then (None, shift_pressed)
        else
          let ch := if shift_pressed then shifted_scancode_map key else normal_scancode_map key in
          if ch =? 0 then (None, shift_pressed) else (Some ch, shift_pressed)
  end.

(** The polling loop, over the answers of the devices in order; [None] while it is
    still waiting after the last of them. *)
Fixpoint xbks_keyboard_read_char_blocking (shift_pressed : bool) (polls : list poll)
  : option (Z * bool * list poll) :=
  match polls with
  | [] => None
  | p :: rest =>
      match xbks_keyboard_read_char shift_pressed p with
      | (Some ch, shift) => Some (ch, shift, rest)
      | (None, shift) => xbks_keyboard_read_char_blocking shift rest
      end
  end.

(** ** A typist *)

Definition scancode (c : Z) : poll := Poll None 1 c.

(** The position of a character in a table. *)
Fixpoint key_of (l : list (Z * Z)) (ch : Z) : option Z :=
  match l with
  | [] => None
  | (k, c) :: t => if c =? ch then Some k else key_of t ch
  end.

(** Press and release, with the left shift key held where the character needs it. *)
Definition stroke (ch : Z) : option (list poll) :=
  match key_of normal_initialisers ch with
  | Some k => Some [scancode k; scancode (k + 128)]
  | None =>
      k ← key_of shifted_initialisers ch;
      Some [scancode 42; scancode k; scancode (k + 128); scancode (42 + 128)]
  end.

Fixpoint strokes (s : list Z) : option (list poll) :=
  match s with
  | [] => Some []
  | c :: t => a ← stroke c; b ← strokes t; Some (a ++ b)
  end.

(** Every call's character, in order. *)
Fixpoint transcript (shift_pressed : bool) (polls : list poll) : list Z * bool :=
  match polls with
  | [] => ([], shift_pressed)
  | p :: rest =>
      let '(ch, shift) := xbks_keyboard_read_char shift_pressed p in
      let '(t, last) := transcript shift rest in
      (match ch with Some c => c :: t | None => t end, last)
  end.

(** Printable ASCII and the three control characters with keys. *)
Definition typable (c : Z) : Prop := 32 <= c <= 126 \/ c = 8 \/ c = 9 \/ c = 10 \/ c = 27.

Definition typable_chars : list Z := [8; 9; 10; 27] ++ map (fun i => 32 + Z.of_nat i) (seq 0 95).

Lemma typable_in c : typable c -> In c typable_chars.
Proof.
  intros [H|H]; apply in_or_app; [right|left; cbn; lia]. apply in_map_iff. exists (Z.to_nat (c - 32)).
  split; [lia|]. apply in_seq. lia.
Qed.

Lemma stroke_transcript c :
  In c typable_chars ->
  match stroke c with Some ps => transcript false ps = ([c], false) | None => False end.
Proof.
  intros H. apply (proj1 (List.Forall_forall (fun c => match stroke c with
    | Some ps => transcript false ps = ([c], false) | None => False end) typable_chars)); [|exact H].
  repeat (constructor; [vm_compute; reflexivity|]). constructor.
Qed.

Lemma transcript_app sh a b :
  transcript sh (a ++ b) =
    let '(t, sh1) := transcript sh a in let '(u, sh2) := transcript sh1 b in (t ++ u, sh2).
Proof.
  revert sh. induction a as [|p a IH]; intros sh; cbn [app transcript].
  { destruct (transcript sh b). reflexivity. }
  destruct (xbks_keyboard_read_char sh p) as [ch sh1]. rewrite IH.
  destruct (transcript sh1 a) as [t sh2], (transcript sh2 b) as [u sh3]. destruct ch; reflexivity.
Qed.

Lemma strokes_transcript s :
  Forall typable s -> exists ps, strokes s = Some ps /\ transcript false ps = (s, false).
Proof.
  induction 1 as [|c s Hc _ (b & Eb & Hb)]; [exists []; split; reflexivity|]. cbn [strokes].
  pose proof (stroke_transcript c (typable_in c Hc)) as Hs. destruct (stroke c) as [a|]; [|destruct Hs].
  cbn [mbind option_bind]. rewrite Eb. eexists. split; [reflexivity|]. rewrite transcript_app, Hs, Hb. reflexivity.
Qed.

(** [n] blocking reads. *)
Fixpoint read_n (n : nat) (shift : bool) (polls : list poll) : option (list Z * bool * list poll) :=
  match n with
  | O => Some ([], shift, polls)
  | S n' =>
      '(c, shift, rest) ← xbks_keyboard_read_char_blocking shift polls;
      '(l, shift, rest) ← read_n n' shift rest; Some (c :: l, shift, rest)
  end.

(** Blocking reads deliver the transcript. *)
Lemma blocking_transcript sh polls c t last :
  transcript sh polls = (c :: t, last) ->
  exists sh1 rest, xbks_keyboard_read_char_blocking sh polls = Some (c, sh1, rest) /\ transcript sh1 rest = (t, last).
Proof.
  revert sh. induction polls as [|p polls IH]; intros sh H; cbn in *; [discriminate|].
  destruct (xbks_keyboard_read_char sh p) as [[ch|] sh1]; destruct (transcript sh1 polls) as [u l] eqn:E.
  - injection H as <- <- <-. eauto.
  - injection H as -> ->. exact (IH sh1 E).
Qed.

Lemma read_n_transcript s sh polls last :
  transcript sh polls = (s, last) -> exists sh1 rest, read_n (length s) sh polls = Some (s, sh1, rest).
Proof.
  revert sh polls. induction s as [|c s IH]; intros sh polls H; cbn [length read_n]; [eauto|].
  destruct (blocking_transcript sh polls c s last H) as (sh1 & rest & -> & H1). cbn [mbind option_bind].
  destruct (IH sh1 rest H1) as (sh2 & rest2 & ->). cbn. eauto.
Qed.

(** ** Properties *)

(** Typing text with press and release codes, and shift held where needed, is read
    back exactly: [xbks_keyboard_read_char_blocking] returns one character per key in
    order and never waits for more input, for all printable ASCII and the keys for
    backspace, tab, newline and escape. *)
Theorem keyboard_typing_roundtrip s :
  Forall typable s ->
  exists ps sh rest, strokes s = Some ps /\ read_n (length s) xbks_keyboard_init ps = Some (s, sh, rest).
Proof.
  intros H. destruct (strokes_transcript s H) as (ps & E & Ht). exists ps.
  destruct (read_n_transcript s false ps false Ht) as (sh & rest & Hr). exists sh, rest. split; assumption.
Qed.

Lemma keyboard_typing_roundtrip_witness :
  exists ps sh rest, strokes (str "Ls /Bin") = Some ps /\
    read_n 7 xbks_keyboard_init ps = Some (str "Ls /Bin", sh, rest).
Proof.
  apply (keyboard_typing_roundtrip (str "Ls /Bin")).
  repeat (constructor; [left; unfold chr; cbn; lia|]). constructor.
Defined.

(** Shift is the only modifier state: it follows the last press or release of a
    shift key, and nothing else (serial input, idle polls, other keys) changes it or
    is consumed as a character by it. *)
Theorem keyboard_shift_state shift p :
  0 <= ps2_data p < 256 ->
  let '(ch, shift') := xbks_keyboard_read_char shift p in
  if bool_decide (serial_byte p = None) && negb ((ps2_status p & 1) =? 0) &&
     ((ps2_data p mod 128 =? 42) || (ps2_data p mod 128 =? 54))
  then ch = None /\ shift' = (ps2_data p <? 128)
  else shift' = shift.
Proof.
  intros Hd. unfold xbks_keyboard_read_char, PS2_STATUS_OUTPUT_FULL.
  destruct (serial_byte p) as [b|]; [cbn; reflexivity|].
  rewrite bool_decide_eq_true_2 by reflexivity. destruct ((ps2_status p & 1) =? 0); [reflexivity|]. cbn [negb andb].
  change 127 with (2 ^ 7 - 1). rewrite land_low by lia. change (2 ^ 7) with 128.
  destruct ((_ =? 42) || (_ =? 54)).
  - split; [reflexivity|]. rewrite negb_involutive. change 128 with (2 ^ 7). rewrite land_pow2_zero by lia.
    rewrite Z.testbit_eqb by lia. change (2 ^ 7) with 128.
    destruct (Z.ltb_spec (ps2_data p) 128) as [H|H].
    + rewrite Z.div_small by lia. reflexivity.
    + replace (ps2_data p / 128) with 1 by (apply (Z.div_unique _ _ _ (ps2_data p - 128)); lia). reflexivity.
  - repeat match goal with |- context [if ?b then _ else _] => destruct b end; reflexivity.
Qed.

Lemma keyboard_shift_state_witness :
  xbks_keyboard_read_char true (Poll None 29 170) = (None, false).
Proof.
  pose proof (keyboard_shift_state true (Poll None 29 170) ltac:(cbn; lia)) as H.
  destruct (xbks_keyboard_read_char true (Poll None 29 170)) as [ch sh]. destruct H as [-> ->]. reflexivity.
Defined.
