(* ===== verification/Kernel.v ===== *)
(** * Kernel state, user memory and processes (src/kernel/process.c, data and helpers)

    The state every system call works on: physical memory and page tables, the
    ramdisk, the process table, the keyboard and the console.  A system call is a
    computation that may stop the machine: a page fault taken in kernel mode (there is
    no handler), a halt, waiting for a key that never comes. *)

From Stdlib Require Import Ascii String.
From S2P Require Import Prelude CMem CStr Pmm Vmm Ramdisk Elf Keyboard.

(** ** Constants *)

Definition MAX_PROCESSES : nat := 16.
Definition MAX_FDS : nat := 16.
Definition MAX_ARGS : Z := 32.
Definition MAX_ENV : Z := 32.
Definition MAX_STRING : Z := 256.
Definition USER_IMAGE_MIN : Z := 65536.
Definition AT_FDCWD : Z := -100.
Definition DT_DIR : Z := 4.
Definition DT_REG : Z := 8.
Definition XBKS_USER_TOP : Z := 140737488355328.
Definition XBKS_USER_STACK_TOP : Z := 140737488347136.
Definition XBKS_USER_STACK_SIZE : Z := 16 * 4096.

Definition XBKS_ENOENT : Z := 2.
Definition XBKS_ENOEXEC : Z := 8.
Definition XBKS_EBADF : Z := 9.
Definition XBKS_ECHILD : Z := 10.
Definition XBKS_EAGAIN : Z := 11.
Definition XBKS_ENOMEM : Z := 12.
Definition XBKS_EFAULT : Z := 14.
Definition XBKS_EISDIR : Z := 21.
Definition XBKS_EINVAL : Z := 22.
Definition XBKS_EMFILE : Z := 24.
Definition XBKS_ERANGE : Z := 34.
Definition XBKS_ENOSYS : Z := 38.

(** ** Data *)

Inductive process_state := PROCESS_UNUSED | PROCESS_RUNNING | PROCESS_BLOCKED | PROCESS_ZOMBIE.

Inductive fd_type := FD_NONE | FD_STDIN | FD_STDOUT | FD_STDERR | FD_FILE | FD_DIR.

#[export] Instance process_state_eq_dec : EqDecision process_state.
Proof. solve_decision. Defined.

#[export] Instance fd_type_eq_dec : EqDecision fd_type.
Proof. solve_decision. Defined.

Record process_fd := ProcessFd {
  fd_kind : fd_type;
  fd_file : xbks_ramdisk_file;
  fd_offset : Z;
}.

Record xbks_syscall_frame := SyscallFrame {
  r15 : Z; r14 : Z; r13 : Z; r12 : Z; r11 : Z; r10 : Z; r9 : Z; r8 : Z; rbp : Z;
  rdi : Z; rsi : Z; rdx : Z; rcx : Z; rbx : Z; rax : Z;
  user_rflags : Z; user_rip : Z; user_rsp : Z;
}.

(** Pointers to processes are indices of the table. *)
Record process := Process {
  pid : Z;
  ppid : Z;
  state : process_state;
  cr3 : Z;
  entry : Z;
  stack : Z;
  brk : Z;
  exit_status : Z;
  parent : option nat;
  vfork_parent : option nat;
  saved_parent_frame : xbks_syscall_frame;
  fds : list process_fd;
}.

(** What [memset(p, 0, sizeof *p)] leaves. *)
Definition zero_file : xbks_ramdisk_file := RamdiskFile (replicate 256 0) 0 0 false false.
Definition zero_fd : process_fd := ProcessFd FD_NONE zero_file 0.
Definition zero_frame : xbks_syscall_frame := SyscallFrame 0 0 0 0 0 0 0 0 0 0 0 0 0 0 0 0 0 0.
Definition zero_process : process :=
  Process 0 0 PROCESS_UNUSED 0 0 0 0 0 None None zero_frame (replicate MAX_FDS zero_fd).

Record kernel := Kernel {
  k_mm : mm;
  k_ramdisk : ramdisk_state;
  processes : list process;
  current_process : nat;
  next_pid : Z;
  k_shift : bool;
  k_polls : list poll;
  k_console : list Z;
}.

(** ** Computations *)

Inductive stop := PageFault | Halted | NoInput | OutOfObject.

Definition K (A : Type) : Type := kernel -> (A * kernel) + stop.

#[export] Instance K_ret : MRet K := fun A a k => inl (a, k).
#[export] Instance K_bind : MBind K := fun A B f c k =>
  match c k with
  | inl (a, k') => f a k'
  | inr s => inr s
  end.

Definition stopped {A} (s : stop) : K A := fun _ => inr s.
Definition get_kernel : K kernel := fun k => inl (k, k).
Definition put_mm (s : mm) : K unit := fun k =>
  inl (tt, Kernel s (k_ramdisk k) (processes k) (current_process k) (next_pid k) (k_shift k)
             (k_polls k) (k_console k)).

(** Accesses outside an object of the C program. *)
Definition in_object {A} (o : option A) : K A :=
  match o with Some a => mret a | None => stopped OutOfObject end.

(** Memory-manager operations on the kernel state. *)
Definition on_mm {A} (f : mm -> A * mm) : K A :=
  k ← get_kernel; let '(a, s) := f (k_mm k) in _ ← put_mm s; mret a.

Definition get_process (i : nat) : K process :=
  k ← get_kernel; in_object (processes k !! i).

Definition put_process (i : nat) (p : process) : K unit := fun k =>
  inl (tt, Kernel (k_mm k) (k_ramdisk k) (<[i := p]> (processes k)) (current_process k) (next_pid k)
             (k_shift k) (k_polls k) (k_console k)).

Definition this_process : K process := k ← get_kernel; get_process (current_process k).

Definition update_this (f : process -> process) : K unit :=
  k ← get_kernel; p ← get_process (current_process k); put_process (current_process k) (f p).

(** ** Record updates *)

Definition set_state (s : process_state) (p : process) : process :=
  Process (pid p) (ppid p) s (cr3 p) (entry p) (stack p) (brk p) (exit_status p) (parent p)
    (vfork_parent p) (saved_parent_frame p) (fds p).
Definition set_image (c e st b : Z) (p : process) : process :=
  Process (pid p) (ppid p) (state p) c e st b (exit_status p) (parent p) (vfork_parent p)
    (saved_parent_frame p) (fds p).
Definition set_brk (b : Z) (p : process) : process := set_image (cr3 p) (entry p) (stack p) b p.
Definition set_exit (status : Z) (p : process) : process :=
  Process (pid p) (ppid p) (state p) (cr3 p) (entry p) (stack p) (brk p) status (parent p)
    (vfork_parent p) (saved_parent_frame p) (fds p).
Definition set_fds (l : list process_fd) (p : process) : process :=
  Process (pid p) (ppid p) (state p) (cr3 p) (entry p) (stack p) (brk p) (exit_status p) (parent p)
    (vfork_parent p) (saved_parent_frame p) l.
Definition set_frame_rax (v : Z) (f : xbks_syscall_frame) : xbks_syscall_frame :=
  SyscallFrame (r15 f) (r14 f) (r13 f) (r12 f) (r11 f) (r10 f) (r9 f) (r8 f) (rbp f) (rdi f) (rsi f)
    (rdx f) (rcx f) (rbx f) v (user_rflags f) (user_rip f) (user_rsp f).
Definition set_frame_user (rip rsp : Z) (f : xbks_syscall_frame) : xbks_syscall_frame :=
  SyscallFrame (r15 f) (r14 f) (r13 f) (r12 f) (r11 f) (r10 f) (r9 f) (r8 f) (rbp f) (rdi f) (rsi f)
    (rdx f) (rcx f) (rbx f) (rax f) (user_rflags f) rip rsp.

(** ** User memory

    The kernel dereferences user pointers directly; the processor translates them
    with the tables [cr3] points to.  The walk is the one [xbks_vmm_translate] does in
    software; an address without translation is a page fault. *)

Definition mmu (s : mm) (va : Z) : option Z :=
  xbks_phys_to_virt s <$> xbks_vmm_translate s (cr3_register s & ~u 4095) va.

Definition user_load (va : Z) : K Z :=
  k ← get_kernel;
  match mmu (k_mm k) va with
  | Some a => mret (rd8 (ram (k_mm k)) a)
  | None => stopped PageFault
  end.

Definition user_store (va v : Z) : K unit :=
  k ← get_kernel;
  match mmu (k_mm k) va with
  | Some a => put_mm (set_ram (k_mm k) (wr8 (ram (k_mm k)) a v))
  | None => stopped PageFault
  end.

Fixpoint user_load_le (n : nat) (va : Z) : K Z :=
  match n with
  | O => mret 0
  | S n' => b ← user_load va; v ← user_load_le n' (va + 1); mret (b + 256 * v)
  end.

Fixpoint user_store_le (n : nat) (va v : Z) : K unit :=
  match n with
  | O => mret tt
  | S n' => _ ← user_store va (v mod 256); user_store_le n' (va + 1) (v / 256)
  end.

Fixpoint user_store_bytes (va : Z) (l : list Z) : K unit :=
  match l with
  | [] => mret tt
  | b :: t => _ ← user_store va b; user_store_bytes (va + 1) t
  end.

(** [memcpy] from kernel memory to user memory. *)
Fixpoint user_copy_out (n : nat) (va src : Z) : K unit :=
  match n with
  | O => mret tt
  | S n' =>
      k ← get_kernel;
      _ ← user_store va (rd8 (ram (k_mm k)) src);
      user_copy_out n' (va + 1) (src + 1)
  end.

(** ** Helpers of process.c *)

Definition negative_errno (error : Z) : Z := u64 (- error).

Definition user_range_is_valid (address length : Z) : bool :=
  if length =? 0 then true
  else if (address <? USER_IMAGE_MIN) || (XBKS_USER_TOP <=? address) then false
  else length -u 1 <? XBKS_USER_TOP -u address.

(** The loop of [copy_user_string] from index [i]; [n] rounds are left. *)
Fixpoint copy_user_loop (n : nat) (source i : Z) (dest : list Z) (capacity : Z) : K (bool * list Z) :=
  match n with
  | O => d ← in_object (buf_set dest (capacity -u 1) 0); mret (false, d)
  | S n' =>
      if negb (user_range_is_valid (source +u i) 1) then mret (false, dest)
      else
        c ← user_load (source + i);
        d ← in_object (buf_set dest i c);
        if c =? 0 then mret (true, d) else copy_user_loop n' source (i + 1) d capacity
  end.

(** The answer and the buffer; [user_string] is the user's address. *)
Definition copy_user_string (dest : list Z) (capacity user_string : Z) : K (bool * list Z) :=
  if (capacity =? 0) || negb (user_range_is_valid user_string 1) then mret (false, dest)
  else copy_user_loop (Z.to_nat capacity) user_string 0 dest capacity.

(** [copy_kernel_string] into user memory. *)
Fixpoint copy_kernel_loop (n : nat) (dest : Z) (src : list Z) : K unit :=
  match n, src with
  | O, _ => user_store dest 0
  | S n', c :: t => if c =? 0 then user_store dest 0
                    else _ ← user_store dest c; copy_kernel_loop n' (dest + 1) t
  | S _, [] => stopped OutOfObject
  end.

Definition copy_kernel_string (dest capacity : Z) (src : list Z) : K unit :=
  if capacity =? 0 then mret tt else copy_kernel_loop (Z.to_nat (capacity - 1)) dest src.

(** The strings read so far, in reverse; [None] stands for the answer [false]. *)
Fixpoint copy_array_loop (n : nat) (user_values count : Z) (acc : list (list Z)) : K (option (list (list Z))) :=
  match n with
  | O => mret None
  | S n' =>
      if negb (user_range_is_valid (user_values +u 8 * count) 8) then mret None
      else
        value ← user_load_le 8 (user_values +u 8 * count);
        if value =? 0 then mret (Some (rev acc))
        else
          '(ok, string) ← copy_user_string (uninit 256) MAX_STRING value;
          if (ok : bool) then copy_array_loop n' user_values (count + 1) (string :: acc) else mret None
  end.

Definition copy_user_string_array (max_strings user_values : Z) : K (option (list (list Z))) :=
  if user_values =? 0 then mret (Some []) else copy_array_loop (Z.to_nat max_strings) user_values 0 [].

(** The first unused slot, prepared. *)
Definition fresh_process (new_pid : Z) : process :=
  Process new_pid 0 PROCESS_RUNNING 0 0 0 0 0 None None zero_frame
    ([ProcessFd FD_STDIN zero_file 0; ProcessFd FD_STDOUT zero_file 0; ProcessFd FD_STDERR zero_file 0]
       ++ replicate (MAX_FDS - 3) zero_fd).

Fixpoint first_unused (l : list process) (i : nat) : option nat :=
  match l with
  | [] => None
  | p :: t => if bool_decide (state p = PROCESS_UNUSED) then Some i else first_unused t (S i)
  end.

(** [++next_pid]. *)
Definition bump_pid : K unit := fun k =>
  inl (tt, Kernel (k_mm k) (k_ramdisk k) (processes k) (current_process k) (s32 (next_pid k + 1))
             (k_shift k) (k_polls k) (k_console k)).

Definition allocate_process : K (option nat) :=
  k ← get_kernel;
  match first_unused (processes k) 0 with
  | None => mret None
  | Some i =>
      _ ← put_process i (fresh_process (next_pid k));
      _ ← bump_pid;
      mret (Some i)
  end.

Fixpoint first_free_fd (l : list process_fd) (i : nat) : option nat :=
  match l with
  | [] => None
  | f :: t => if bool_decide (fd_kind f = FD_NONE) then Some i else first_free_fd t (S i)
  end.

(** [None] is the answer -1. *)
Definition allocate_fd (p : process) : option nat := first_free_fd (drop 3 (fds p)) 3.
