(* ===== verification/Loader.v ===== *)
(** * Loading a program into a process (src/kernel/process.c)

    Mapping user ranges, writing into another address space through the direct map,
    the in-kernel ELF loader and the initial user stack.  These routines change only
    the memory manager's state and the process being built. *)

From Stdlib Require Import Ascii String.
From S2P Require Import Prelude CMem CStr Pmm Vmm Ramdisk Elf Keyboard Kernel.

(** ** Mapping *)

Definition map_user_page (s : mm) (cr3 virtual_address flags : Z) : bool * mm :=
  let '(frame, s) := xbks_pmm_alloc_frame s in
  if frame =? 0 then (false, s)
  else
    let '(ok, s) := xbks_vmm_map_page s cr3 virtual_address frame (Z.lor flags XBKS_PAGE_USER) in
    if (ok : bool) then (true, s) else (false, xbks_pmm_free_frame s frame).

(** The loop over the pages from [page] below [stop]; [n] bounds their number. *)
Fixpoint map_range_loop (n : nat) (s : mm) (cr3 page stop flags : Z) : bool * mm :=
  match n with
  | O => (true, s)
  | S n' =>
      if page <? stop then
        let '(ok, s) := map_user_page s cr3 page flags in
        if (ok : bool) then map_range_loop n' s cr3 (page +u XBKS_PAGE_SIZE) stop flags else (false, s)
      else (true, s)
  end.

Definition map_user_range (s : mm) (cr3 base size flags : Z) : bool * mm :=
  let start := align_down base XBKS_PAGE_SIZE in
  let stop := align_up (base +u size) XBKS_PAGE_SIZE in
  map_range_loop (Z.to_nat ((stop - start) / XBKS_PAGE_SIZE)) s cr3 start stop flags.

(** ** Writing into an address space *)

(** The [const void *src] of a write: an address of the direct map, or an object of
    the kernel given by its bytes. *)
Inductive source :=
| FromRam (a : Z)
| FromBytes (l : list Z).

Definition copy_chunk (s : mm) (dest : Z) (src : source) (written chunk : Z) : mm :=
  match src with
  | FromRam a => set_ram s (memcpy (ram s) dest (a + written) chunk)
  | FromBytes l => set_ram s (store_bytes (ram s) dest (take (Z.to_nat chunk) (drop (Z.to_nat written) l)))
  end.

(** The loop of [write_process_memory]; every round but the last ends a page. *)
Fixpoint write_loop (n : nat) (s : mm) (cr3 virtual_address : Z) (src : source) (size written : Z)
  : bool * mm :=
  match n with
  | O => (true, s)
  | S n' =>
      if written <? size then
        let address := virtual_address +u written in
        let page_offset := address & (XBKS_PAGE_SIZE - 1) in
        let chunk := XBKS_PAGE_SIZE -u page_offset in
        let chunk := if size -u written <? chunk then size -u written else chunk in
        match xbks_vmm_translate s cr3 address with
        | None => (false, s)
        | Some physical =>
            write_loop n' (copy_chunk s (xbks_phys_to_virt s physical) src written chunk)
              cr3 virtual_address src size (written +u chunk)
        end
      else (true, s)
  end.

Definition write_process_memory (s : mm) (cr3 virtual_address : Z) (src : source) (size : Z) : bool * mm :=
  write_loop (Z.to_nat (size / XBKS_PAGE_SIZE + 2)) s cr3 virtual_address src size 0.

(** ** The ELF file *)

(** [None] is the answer [false]; the header is at [f_data]. *)
Definition validate_elf (m : mem) (file : xbks_ramdisk_file) : option Z :=
  if f_directory file || (f_data file =? 0) || (f_size file <? sizeof_ehdr) then None
  else
    let header := f_data file in
    if negb (e_ident m header 0 =? 127) ||
       negb (e_ident m header 1 =? chr "E") ||
       negb (e_ident m header 2 =? chr "L") ||
       negb (e_ident m header 3 =? chr "F") ||
       negb (e_ident m header 4 =? 2) ||
       negb (e_ident m header 5 =? 1) ||
       negb (e_machine m header =? 62) ||
       negb (e_phentsize m header =? sizeof_phdr) ||
       (e_phnum m header =? 0) ||
       (f_size file <? e_phoff m header) ||
       (f_size file <? e_phoff m header +u (e_phnum m header *u sizeof_phdr))
    then None
    else Some header.

(** The checks on one segment. *)
Definition segment_refused (size : Z) (phdr : elf64_phdr) : bool :=
  (p_memsz phdr <? p_filesz phdr) ||
  (size <? p_offset phdr +u p_filesz phdr) ||
  (p_vaddr phdr <? USER_IMAGE_MIN) ||
  (XBKS_USER_TOP <=? p_vaddr phdr +u p_memsz phdr).

(** One round of the segment loop. *)
Definition load_segment (s : mm) (cr3 : Z) (file : xbks_ramdisk_file) (phdr : elf64_phdr) : bool * mm :=
  if negb (p_type phdr =? PT_LOAD) then (true, s)
  else if segment_refused (f_size file) phdr then (false, s)
  else
    let '(ok, s) := map_user_range s cr3 (p_vaddr phdr) (p_memsz phdr) XBKS_PAGE_WRITABLE in
    if (ok : bool)
    then write_process_memory s cr3 (p_vaddr phdr) (FromRam (f_data file + p_offset phdr)) (p_filesz phdr)
    else (false, s).

Fixpoint load_segments (n : nat) (s : mm) (cr3 : Z) (file : xbks_ramdisk_file) (header phdrs i : Z) : bool * mm :=
  match n with
  | O => (true, s)
  | S n' =>
      if i <? e_phnum (ram s) header then
        let '(ok, s) := load_segment s cr3 file (phdr_at (ram s) phdrs i) in
        if (ok : bool) then load_segments n' s cr3 file header phdrs (i + 1) else (false, s)
      else (true, s)
  end.

(** The process is returned with its new entry point and break. *)
Definition load_elf_into_process (s : mm) (process : process) (file : xbks_ramdisk_file)
  : bool * mm * Kernel.process :=
  match validate_elf (ram s) file with
  | None => (false, s, process)
  | Some header =>
      let phdrs := f_data file + e_phoff (ram s) header in
      let '(ok, s) := load_segments (Z.to_nat 65536) s (cr3 process) file header phdrs 0 in
      if (ok : bool)
      then (true, s, set_image (cr3 process) (e_entry (ram s) header) (stack process) 8388608 process)
      else (false, s, process)
  end.

(** ** The user stack *)

Fixpoint le_bytes (n : nat) (v : Z) : list Z :=
  match n with
  | O => []
  | S n' => v mod 256 :: le_bytes n' (v / 256)
  end.

(** The answer, the memory and the new stack pointer. *)
Definition push_bytes (s : mm) (cr3 stack : Z) (data : list Z) : bool * mm * Z :=
  let size := Z.of_nat (length data) in
  let stack := stack -u size in
  if negb (size =? 0) && negb (user_range_is_valid stack size) then (false, s, stack)
  else
    let '(ok, s) := write_process_memory s cr3 stack (FromBytes data) size in (ok, s, stack).

Definition push_u64 (s : mm) (cr3 stack value : Z) : bool * mm * Z :=
  push_bytes s cr3 stack (le_bytes 8 value).

(** Strings pushed last to first; their addresses come back first to last.  A string
    is pushed with its terminator. *)
Fixpoint push_strings (s : mm) (cr3 stack : Z) (strings : list (list Z)) (addresses : list Z)
  : option (mm * Z * list Z) + mm :=
  match strings with
  | [] => inl (Some (s, stack, addresses))
  | string :: rest =>
      match strlen string with
      | None => inl None
      | Some n =>
          match push_bytes s cr3 stack (take (S (Z.to_nat n)) string) with
          | (true, s, stack) => push_strings s cr3 stack rest (stack :: addresses)
          | (false, s, _) => inr s
          end
      end
  end.

(** Words pushed last to first. *)
Fixpoint push_words (s : mm) (cr3 stack : Z) (words : list Z) : bool * mm * Z :=
  match words with
  | [] => (true, s, stack)
  | w :: rest =>
      match push_u64 s cr3 stack w with
      | (true, s, stack) => push_words s cr3 stack rest
      | r => r
      end
  end.

(** [inr s] is the answer [false]; [None] a read past the end of an argument string. *)
Definition build_user_stack (s : mm) (process : process) (argv envp : list (list Z))
  : option (mm * Kernel.process) + mm :=
  let cr3 := Kernel.cr3 process in
  match map_user_range s cr3 (XBKS_USER_STACK_TOP - XBKS_USER_STACK_SIZE) XBKS_USER_STACK_SIZE XBKS_PAGE_WRITABLE with
  | (false, s) => inr s
  | (true, s) =>
      match push_strings s cr3 XBKS_USER_STACK_TOP (rev envp) [] with
      | inr s => inr s
      | inl None => inl None
      | inl (Some (s, stack, env_addresses)) =>
          match push_strings s cr3 stack (rev argv) [] with
          | inr s => inr s
          | inl None => inl None
          | inl (Some (s, stack, argv_addresses)) =>
              let stack := stack & ~u 15 in
              let words := [0] ++ rev env_addresses ++ [0] ++ rev argv_addresses ++ [Z.of_nat (length argv)] in
              match push_words s cr3 stack words with
              | (false, s, _) => inr s
              | (true, s, stack) =>
                  inl (Some (s, set_image cr3 (entry process) stack (brk process) process))
              end
          end
      end
  end.

(** ** Loading a program

    The answer and the process; its [cr3] is 0 again after a failure past the creation
    of the address space. *)
Definition load_program (process : process) (path : list Z) (argv envp : list (list Z))
  : K (bool * Kernel.process) :=
  k ← get_kernel;
  found ← in_object (xbks_ramdisk_find (rd_data (k_ramdisk k))
            (bytes_at (ram (k_mm k)) (rd_data (k_ramdisk k)) (Z.to_nat (rd_size (k_ramdisk k))))
            (rd_available (k_ramdisk k)) (Some path) false);
  match found with
  | None => mret (false, process)
  | Some file =>
      if negb (f_executable file) || f_directory file then mret (false, process)
      else
        pml4 ← on_mm xbks_create_kernel_mapped_pml4;
        let process := set_image pml4 (entry process) (stack process) (brk process) process in
        if pml4 =? 0 then mret (false, process)
        else
          k ← get_kernel;
          let fail (process : Kernel.process) (s : mm) :=
            _ ← put_mm (xbks_vmm_destroy_user_space s pml4 XBKS_USER_TOP);
            mret (false, set_image 0 (entry process) (stack process) (brk process) process) in
          match load_elf_into_process (k_mm k) process file with
          | (false, s, process) => fail process s
          | (true, s, process) =>
              match build_user_stack s process argv envp with
              | inr s => fail process s
              | inl None => stopped OutOfObject
              | inl (Some (s, process)) => _ ← put_mm s; mret (true, process)
              end
          end
  end.
