(* ===== verification/Syscalls.v ===== *)
(** * The system calls (src/kernel/process.c)

    One definition per handler, the dispatcher and the start of the first process. *)

From Stdlib Require Import Ascii String.
From S2P Require Import Prelude CMem CStr Pmm Vmm Ramdisk Elf Keyboard Kernel Loader.

(** The ramdisk of the running kernel. *)
Definition ramdisk_image (k : kernel) : list Z :=
  bytes_at (ram (k_mm k)) (rd_data (k_ramdisk k)) (Z.to_nat (rd_size (k_ramdisk k))).

Definition find_file (path : list Z) : K (option xbks_ramdisk_file) :=
  k ← get_kernel;
  in_object (xbks_ramdisk_find (rd_data (k_ramdisk k)) (ramdisk_image k) (rd_available (k_ramdisk k))
               (Some path) false).

Definition read_directory (path : list Z) (index : Z) : K (option xbks_ramdisk_file) :=
  k ← get_kernel;
  in_object (xbks_ramdisk_read_dir (rd_data (k_ramdisk k)) (ramdisk_image k) (rd_available (k_ramdisk k))
               (Some path) index false).

(** [current_process->fds[fd]] for an index in range. *)
Definition this_fd (fd : Z) : K process_fd :=
  p ← this_process; in_object (fds p !! Z.to_nat fd).

Definition put_fd (fd : Z) (f : process_fd) : K unit :=
  update_this (fun p => set_fds (<[Z.to_nat fd := f]> (fds p)) p).

Definition fd_in_range (fd : Z) : bool := fd <? Z.of_nat MAX_FDS.

(** ** Files *)

(** [xbks_keyboard_read_char_blocking] on the devices of the machine. *)
Definition read_key : K Z := fun k =>
  match xbks_keyboard_read_char_blocking (k_shift k) (k_polls k) with
  | None => inr NoInput
  | Some (ch, shift, rest) =>
      inl (ch, Kernel (k_mm k) (k_ramdisk k) (processes k) (current_process k) (next_pid k) shift rest
                 (k_console k))
  end.

Fixpoint read_stdin (n : nat) (buffer : Z) : K unit :=
  match n with
  | O => mret tt
  | S n' => c ← read_key; _ ← user_store buffer c; read_stdin n' (buffer + 1)
  end.

Definition syscall_read (fd buffer_address count : Z) : K Z :=
  if negb (user_range_is_valid buffer_address count) then mret (negative_errno XBKS_EFAULT)
  else if negb (fd_in_range fd) then mret (negative_errno XBKS_EBADF)
  else
    file ← this_fd fd;
    if bool_decide (fd_kind file = FD_NONE) then mret (negative_errno XBKS_EBADF)
    else if bool_decide (fd_kind file = FD_STDIN) then
      _ ← read_stdin (Z.to_nat count) buffer_address; mret count
    else if negb (bool_decide (fd_kind file = FD_FILE)) then mret (negative_errno XBKS_EISDIR)
    else if f_size (fd_file file) <=? fd_offset file then mret 0
    else
      let available := f_size (fd_file file) -u fd_offset file in
      let available := if count <? available then count else available in
      _ ← user_copy_out (Z.to_nat available) buffer_address (f_data (fd_file file) + fd_offset file);
      _ ← put_fd fd (ProcessFd (fd_kind file) (fd_file file) (fd_offset file +u available));
      mret available.

(** The bytes the console gets. *)
Fixpoint user_load_bytes (n : nat) (va : Z) : K (list Z) :=
  match n with
  | O => mret []
  | S n' => b ← user_load va; l ← user_load_bytes n' (va + 1); mret (b :: l)
  end.

Definition xbks_console_write (l : list Z) : K unit := fun k =>
  inl (tt, Kernel (k_mm k) (k_ramdisk k) (processes k) (current_process k) (next_pid k) (k_shift k)
             (k_polls k) (k_console k ++ l)).

Definition syscall_write (fd buffer_address count : Z) : K Z :=
  if negb (fd =? 1) && negb (fd =? 2) then mret (negative_errno XBKS_EBADF)
  else if negb (user_range_is_valid buffer_address count) then mret (negative_errno XBKS_EFAULT)
  else
    l ← user_load_bytes (Z.to_nat count) buffer_address;
    _ ← xbks_console_write l;
    mret count.

Definition syscall_open (path_address : Z) : K Z :=
  p ← this_process;
  match allocate_fd p with
  | None => mret (negative_errno XBKS_EMFILE)
  | Some fd =>
      '(ok, path) ← copy_user_string (uninit 256) MAX_STRING path_address;
      if negb ok then mret (negative_errno XBKS_EFAULT)
      else
        found ← find_file path;
        match found with
        | None => mret (negative_errno XBKS_ENOENT)
        | Some file =>
            _ ← put_fd (Z.of_nat fd) (ProcessFd (if f_directory file then FD_DIR else FD_FILE) file 0);
            mret (Z.of_nat fd)
        end
  end.

Definition syscall_close (fd : Z) : K Z :=
  if negb (fd_in_range fd) || (fd <=? 2) then mret (negative_errno XBKS_EBADF)
  else
    file ← this_fd fd;
    if bool_decide (fd_kind file = FD_NONE) then mret (negative_errno XBKS_EBADF)
    else _ ← put_fd fd zero_fd; mret 0.

Definition syscall_lseek (fd offset whence : Z) : K Z :=
  if negb (fd_in_range fd) then mret (negative_errno XBKS_EBADF)
  else
    file ← this_fd fd;
    if negb (bool_decide (fd_kind file = FD_FILE)) then mret (negative_errno XBKS_EBADF)
    else
      match (if whence =? 0 then Some offset
             else if whence =? 1 then Some (fd_offset file +u offset)
             else if whence =? 2 then Some (f_size (fd_file file) +u offset)
             else None) with
      | None => mret (negative_errno XBKS_EINVAL)
      | Some next_offset =>
          _ ← put_fd fd (ProcessFd (fd_kind file) (fd_file file) next_offset);
          mret next_offset
      end.

(** The part of a path after its last slash. *)
Fixpoint base_name (cursor name : list Z) : option (list Z) :=
  match cursor with
  | [] => None
  | c :: t => if c =? 0 then Some name else base_name t (if c =? chr "/" then t else name)
  end.

(** One [struct linux_dirent64]: 24 bytes with padding, the name at offset 19. *)
Definition store_dirent (address offset reclen : Z) (child : xbks_ramdisk_file) (name : list Z) (name_length : Z)
  : K unit :=
  _ ← user_store_le 8 address (offset +u 1);
  _ ← user_store_le 8 (address + 8) (offset +u 1);
  _ ← user_store_le 2 (address + 16) (u16 reclen);
  _ ← user_store (address + 18) (if f_directory child then DT_DIR else DT_REG);
  copy_kernel_string (address + 19) name_length name.

(** The loop of [syscall_getdents64]; answers [written]. *)
Fixpoint getdents_loop (n : nat) (fd buffer count written : Z) : K Z :=
  match n with
  | O => stopped OutOfObject
  | S n' =>
      directory ← this_fd fd;
      child ← read_directory (f_path (fd_file directory)) (fd_offset directory);
      match child with
      | None => mret written
      | Some child =>
          name ← in_object (base_name (f_path child) (f_path child));
          len ← in_object (strlen name);
          let name_length := len + 1 in
          let reclen := align_up (24 +u name_length) 8 in
          if count <? written +u reclen then mret written
          else
            _ ← store_dirent (buffer + written) (fd_offset directory) reclen child name name_length;
            _ ← put_fd fd (ProcessFd (fd_kind directory) (fd_file directory) (fd_offset directory +u 1));
            getdents_loop n' fd buffer count (written +u reclen)
      end
  end.

Definition syscall_getdents64 (fd dirent_address count : Z) : K Z :=
  if negb (fd_in_range fd) then mret (negative_errno XBKS_EBADF)
  else
    directory ← this_fd fd;
    if negb (bool_decide (fd_kind directory = FD_DIR)) then mret (negative_errno XBKS_EBADF)
    else if negb (user_range_is_valid dirent_address count) then mret (negative_errno XBKS_EFAULT)
    else getdents_loop (S (Z.to_nat (count / 24))) fd dirent_address count 0.

Definition syscall_access (path_address : Z) : K Z :=
  '(ok, path) ← copy_user_string (uninit 256) MAX_STRING path_address;
  if negb ok then mret (negative_errno XBKS_EFAULT)
  else
    found ← find_file path;
    mret (match found with Some _ => 0 | None => negative_errno XBKS_ENOENT end).

Definition syscall_getcwd (buffer_address size : Z) : K Z :=
  if size <? 2 then mret (negative_errno XBKS_ERANGE)
  else if negb (user_range_is_valid buffer_address 2) then mret (negative_errno XBKS_EFAULT)
  else _ ← user_store_bytes buffer_address (lit "/"); mret buffer_address.

Definition syscall_uname (buffer_address : Z) : K Z :=
  if negb (user_range_is_valid buffer_address 390) then mret (negative_errno XBKS_EFAULT)
  else
    _ ← copy_kernel_string buffer_address 65 (lit "XiaobaiOS");
    _ ← copy_kernel_string (buffer_address + 65) 65 (lit "localhost");
    _ ← copy_kernel_string (buffer_address + 130) 65 (lit "0.1.0");
    _ ← copy_kernel_string (buffer_address + 195) 65 (lit "xbks ring3");
    _ ← copy_kernel_string (buffer_address + 260) 65 (lit "x86_64");
    _ ← copy_kernel_string (buffer_address + 325) 65 (lit "localdomain");
    mret 0.

(** ** Memory *)

(** The mapping loop of [syscall_brk]; [n] bounds the number of pages. *)
Fixpoint brk_loop (n : nat) (s : mm) (cr3 page new_end : Z) : bool * mm :=
  match n with
  | O => (true, s)
  | S n' =>
      if page <? new_end then
        let '(ok, s) := map_user_page s cr3 page XBKS_PAGE_WRITABLE in
        if (ok : bool) then brk_loop n' s cr3 (page +u XBKS_PAGE_SIZE) new_end else (false, s)
      else (true, s)
  end.

Definition syscall_brk (requested_break : Z) : K Z :=
  p ← this_process;
  if requested_break =? 0 then mret (brk p)
  else if (requested_break <? brk p) || (268435456 <=? requested_break) then mret (brk p)
  else
    let old_end := align_up (brk p) XBKS_PAGE_SIZE in
    let new_end := align_up requested_break XBKS_PAGE_SIZE in
    ok ← on_mm (fun s => brk_loop (Z.to_nat ((new_end - old_end) / XBKS_PAGE_SIZE)) s (cr3 p) old_end new_end);
    if (ok : bool) then _ ← update_this (set_brk requested_break); mret requested_break
    else mret (brk p).

(** ** Processes *)

(** The call's result and the frame it returns through. *)
Definition syscall_execve (frame : xbks_syscall_frame) : K (Z * xbks_syscall_frame) :=
  '(ok, path) ← copy_user_string (uninit 256) MAX_STRING (rdi frame);
  if negb ok then mret (negative_errno XBKS_EFAULT, frame)
  else
    argv ← copy_user_string_array (MAX_ARGS - 1) (rsi frame);
    match argv with
    | None => mret (negative_errno XBKS_EFAULT, frame)
    | Some argv =>
        envp ← copy_user_string_array (MAX_ENV - 1) (rdx frame);
        match envp with
        | None => mret (negative_errno XBKS_EFAULT, frame)
        | Some envp =>
            current ← this_process;
            '(loaded, next) ← load_program (set_image 0 (entry current) (stack current) (brk current) current)
                                path argv envp;
            if negb loaded then mret (negative_errno XBKS_ENOEXEC, frame)
            else
              let old_cr3 := cr3 current in
              _ ← update_this (set_image (cr3 next) (entry next) (stack next) (brk next));
              _ ← on_mm (fun s => (tt, xbks_write_cr3 s (cr3 next)));
              _ ← on_mm (fun s => (tt, xbks_vmm_destroy_user_space s old_cr3 XBKS_USER_TOP));
              mret (0, set_frame_user (entry next) (stack next) frame)
        end
    end.

Definition set_current (i : nat) : K unit := fun k =>
  inl (tt, Kernel (k_mm k) (k_ramdisk k) (processes k) i (next_pid k) (k_shift k) (k_polls k) (k_console k)).

Definition syscall_vfork (frame : xbks_syscall_frame) : K Z :=
  child ← allocate_process;
  match child with
  | None => mret (negative_errno XBKS_EAGAIN)
  | Some child =>
      k ← get_kernel;
      let me := current_process k in
      current ← this_process;
      fresh ← get_process child;
      pml4 ← on_mm xbks_create_kernel_mapped_pml4;
      ok ← (if pml4 =? 0 then mret false
            else on_mm (fun s => xbks_vmm_clone_user_space s (cr3 current) pml4 XBKS_USER_TOP));
      if negb ok then
        _ ← (if negb (pml4 =? 0)
             then on_mm (fun s => (tt, xbks_vmm_destroy_user_space s pml4 XBKS_USER_TOP)) else mret tt);
        _ ← put_process child zero_process;
        mret (negative_errno XBKS_ENOMEM)
      else
        _ ← put_process child
              (Process (pid fresh) (pid current) (state fresh) pml4 (entry current) (stack current)
                 (brk current) (exit_status fresh) (Some me) (Some me)
                 (set_frame_rax (u64 (pid fresh)) frame) (fds current));
        _ ← update_this (set_state PROCESS_BLOCKED);
        _ ← set_current child;
        _ ← on_mm (fun s => (tt, xbks_write_cr3 s pml4));
        mret 0
  end.

Definition reaped_by (me : nat) (wanted : Z) (child : process) : bool :=
  bool_decide (state child = PROCESS_ZOMBIE) && bool_decide (parent child = Some me) &&
  ((wanted =? u64 (-1)) || (wanted =? u64 (pid child))).

(** The first slot that [wait4] would reap. *)
Fixpoint first_zombie (me : nat) (wanted : Z) (l : list process) (i : nat) : option nat :=
  match l with
  | [] => None
  | p :: t => if reaped_by me wanted p then Some i else first_zombie me wanted t (S i)
  end.

Definition syscall_wait4 (wanted status_address : Z) : K Z :=
  k ← get_kernel;
  match first_zombie (current_process k) wanted (processes k) 0 with
  | None => mret (negative_errno XBKS_ECHILD)
  | Some i =>
      child ← get_process i;
      if negb (status_address =? 0) && negb (user_range_is_valid status_address 4)
      then mret (negative_errno XBKS_EFAULT)
      else
        _ ← (if negb (status_address =? 0)
             then user_store_le 4 status_address (u32 (Z.shiftl (exit_status child) 8)) else mret tt);
        _ ← on_mm (fun s => (tt, xbks_vmm_destroy_user_space s (cr3 child) XBKS_USER_TOP));
        _ ← put_process i zero_process;
        mret (u64 (pid child))
  end.

(** The result and the frame, restored from the blocked parent's. *)
Definition syscall_exit (frame : xbks_syscall_frame) (status : Z) : K (Z * xbks_syscall_frame) :=
  _ ← update_this (fun p => set_state PROCESS_ZOMBIE (set_exit (status & 255) p));
  current ← this_process;
  match vfork_parent current with
  | None => stopped Halted
  | Some i =>
      let child_pid := u64 (pid current) in
      p ← get_process i;
      _ ← put_process i (set_state PROCESS_RUNNING p);
      _ ← set_current i;
      _ ← on_mm (fun s => (tt, xbks_write_cr3 s (cr3 p)));
      mret (child_pid, set_frame_rax child_pid (saved_parent_frame current))
  end.

(** ** The dispatcher *)

Definition XBKS_SYS_READ : Z := 0.
Definition XBKS_SYS_WRITE : Z := 1.
Definition XBKS_SYS_OPEN : Z := 2.
Definition XBKS_SYS_CLOSE : Z := 3.
Definition XBKS_SYS_LSEEK : Z := 8.
Definition XBKS_SYS_BRK : Z := 12.
Definition XBKS_SYS_ACCESS : Z := 21.
Definition XBKS_SYS_SCHED_YIELD : Z := 24.
Definition XBKS_SYS_GETPID : Z := 39.
Definition XBKS_SYS_VFORK : Z := 58.
Definition XBKS_SYS_EXECVE : Z := 59.
Definition XBKS_SYS_EXIT : Z := 60.
Definition XBKS_SYS_WAIT4 : Z := 61.
Definition XBKS_SYS_UNAME : Z := 63.
Definition XBKS_SYS_GETCWD : Z := 79.
Definition XBKS_SYS_GETUID : Z := 102.
Definition XBKS_SYS_GETGID : Z := 104.
Definition XBKS_SYS_GETEUID : Z := 107.
Definition XBKS_SYS_GETEGID : Z := 108.
Definition XBKS_SYS_GETPPID : Z := 110.
Definition XBKS_SYS_GETTID : Z := 186.
Definition XBKS_SYS_GETDENTS64 : Z := 217.
Definition XBKS_SYS_EXIT_GROUP : Z := 231.
Definition XBKS_SYS_OPENAT : Z := 257.
Definition XBKS_SYS_FACCESSAT : Z := 269.

(** A call that leaves the frame alone. *)
Definition with_frame (frame : xbks_syscall_frame) (c : K Z) : K (Z * xbks_syscall_frame) :=
  r ← c; mret (r, frame).

Definition xbks_process_syscall_dispatch (frame : xbks_syscall_frame) : K (Z * xbks_syscall_frame) :=
  let n := rax frame in
  if n =? XBKS_SYS_READ then with_frame frame (syscall_read (rdi frame) (rsi frame) (rdx frame))
  else if n =? XBKS_SYS_WRITE then with_frame frame (syscall_write (rdi frame) (rsi frame) (rdx frame))
  else if n =? XBKS_SYS_OPEN then with_frame frame (syscall_open (rdi frame))
  else if n =? XBKS_SYS_OPENAT then with_frame frame (syscall_open (rsi frame))
  else if n =? XBKS_SYS_CLOSE then with_frame frame (syscall_close (rdi frame))
  else if n =? XBKS_SYS_LSEEK then with_frame frame (syscall_lseek (rdi frame) (rsi frame) (rdx frame))
  else if (n =? XBKS_SYS_ACCESS) || (n =? XBKS_SYS_FACCESSAT) then
    with_frame frame (syscall_access (if rdi frame =? u64 AT_FDCWD then rsi frame else rdi frame))
  else if n =? XBKS_SYS_GETDENTS64 then with_frame frame (syscall_getdents64 (rdi frame) (rsi frame) (rdx frame))
  else if n =? XBKS_SYS_BRK then with_frame frame (syscall_brk (rdi frame))
  else if n =? XBKS_SYS_GETCWD then with_frame frame (syscall_getcwd (rdi frame) (rsi frame))
  else if n =? XBKS_SYS_UNAME then with_frame frame (syscall_uname (rdi frame))
  else if (n =? XBKS_SYS_GETPID) || (n =? XBKS_SYS_GETTID) then with_frame frame (p ← this_process; mret (u64 (pid p)))
  else if n =? XBKS_SYS_GETPPID then with_frame frame (p ← this_process; mret (u64 (ppid p)))
  else if (n =? XBKS_SYS_GETUID) || (n =? XBKS_SYS_GETGID) || (n =? XBKS_SYS_GETEUID) || (n =? XBKS_SYS_GETEGID) then with_frame frame (mret 0)
  else if n =? XBKS_SYS_VFORK then with_frame frame (syscall_vfork frame)
  else if n =? XBKS_SYS_EXECVE then syscall_execve frame
  else if n =? XBKS_SYS_WAIT4 then with_frame frame (syscall_wait4 (rdi frame) (rsi frame))
  else if (n =? XBKS_SYS_EXIT) || (n =? XBKS_SYS_EXIT_GROUP) then syscall_exit frame (rdi frame)
  else if n =? XBKS_SYS_SCHED_YIELD then with_frame frame (mret 0)
  else with_frame frame (mret (negative_errno XBKS_ENOSYS)).

(** ** The first process *)

Definition set_ramdisk (r : ramdisk_state) : K unit := fun k =>
  inl (tt, Kernel (k_mm k) r (processes k) (current_process k) (next_pid k) (k_shift k) (k_polls k) (k_console k)).

Definition keyboard_reset : K unit := fun k =>
  inl (tt, Kernel (k_mm k) (k_ramdisk k) (processes k) (current_process k) (next_pid k) xbks_keyboard_init
             (k_polls k) (k_console k)).

(** [None] is the answer [false]; [Some (entry, stack)] the jump to user mode. *)
Definition xbks_process_start_init (modules : option (list (option limine_file))) : K (option (Z * Z)) :=
  '(ok, ramdisk) ← in_object (xbks_ramdisk_init modules);
  _ ← set_ramdisk ramdisk;
  if negb ok then mret None
  else
    slot ← allocate_process;
    match slot with
    | None => mret None
    | Some init =>
        p ← get_process init;
        '(loaded, p) ← load_program p (lit "/bin/xsh") [lit "xsh"] [lit "PATH=/bin:/sbin:/usr/bin"];
        if negb loaded then _ ← put_process init zero_process; mret None
        else
          _ ← put_process init p;
          _ ← set_current init;
          _ ← keyboard_reset;
          _ ← on_mm (fun s => (tt, xbks_write_cr3 s (cr3 p)));
          mret (Some (entry p, stack p))
    end.
