(* ===== verification/ProcTable.v ===== *)
(** * The process table under system calls

    Most handlers touch the table only to update files, break or image of the current
    process.  [keeps] says so; it holds of every handler but the three that create,
    end and reap processes. *)

From Stdlib Require Import Ascii String.
From S2P Require Import Prelude CMem CStr Pmm Vmm Ramdisk Elf Keyboard Kernel Loader Syscalls.

(** ** What the primitive computations do *)

Definition with_processes (k : kernel) (ps : list process) : kernel :=
  Kernel (k_mm k) (k_ramdisk k) ps (current_process k) (next_pid k) (k_shift k) (k_polls k) (k_console k).

Definition with_mm (k : kernel) (s : mm) : kernel :=
  Kernel s (k_ramdisk k) (processes k) (current_process k) (next_pid k) (k_shift k) (k_polls k) (k_console k).

Lemma run_bind {A B} (c : K A) (f : A -> K B) k :
  (mbind f c) k = match c k with inl (a, k') => f a k' | inr s => inr s end.
Proof. reflexivity. Qed.

Lemma run_ret {A} (a : A) k : (mret a : K A) k = inl (a, k).
Proof. reflexivity. Qed.

Lemma run_get_process i k :
  get_process i k = match processes k !! i with Some p => inl (p, k) | None => inr OutOfObject end.
Proof. unfold get_process. rewrite run_bind. cbn. destruct (processes k !! i); reflexivity. Qed.

Lemma run_this_process k :
  this_process k = match processes k !! current_process k with Some p => inl (p, k) | None => inr OutOfObject end.
Proof. unfold this_process. rewrite run_bind. cbn. apply run_get_process. Qed.

Lemma run_put_process i p k : put_process i p k = inl (tt, with_processes k (<[i := p]> (processes k))).
Proof. reflexivity. Qed.

Lemma run_update_this f k :
  update_this f k = match processes k !! current_process k with
                    | Some p => inl (tt, with_processes k (<[current_process k := f p]> (processes k)))
                    | None => inr OutOfObject
                    end.
Proof.
  unfold update_this. rewrite run_bind. cbn. rewrite run_bind, run_get_process.
  destruct (processes k !! current_process k); reflexivity.
Qed.

Lemma run_on_mm {A} (f : mm -> A * mm) k : on_mm f k = inl (fst (f (k_mm k)), with_mm k (snd (f (k_mm k)))).
Proof. unfold on_mm. rewrite run_bind. cbn. destruct (f (k_mm k)). reflexivity. Qed.

(** ** Tables that agree on who runs whom *)

Record same_process (p q : process) : Prop := SameProcess {
  same_pid : pid p = pid q;
  same_ppid : ppid p = ppid q;
  same_state : state p = state q;
  same_exit : exit_status p = exit_status q;
  same_parent : parent p = parent q;
  same_vfork : vfork_parent p = vfork_parent q;
  same_frame : saved_parent_frame p = saved_parent_frame q;
  same_fds : length (fds p) = length (fds q);
}.

#[export] Instance same_process_equiv : Equivalence same_process.
Proof.
  split.
  - intros p. constructor; reflexivity.
  - intros p q []. constructor; congruence.
  - intros p q r [] []. constructor; congruence.
Qed.

Record same_table (k k' : kernel) : Prop := SameTable {
  st_processes : Forall2 same_process (processes k) (processes k');
  st_current : current_process k = current_process k';
  st_pid : next_pid k = next_pid k';
}.

#[export] Instance same_table_equiv : Equivalence same_table.
Proof.
  split.
  - intros k. constructor; [apply Forall2_same_length_lookup_2; [reflexivity|]|reflexivity..].
    intros i x y Hx Hy. rewrite Hx in Hy. injection Hy as ->. reflexivity.
  - intros k k' [H ? ?]. constructor; [|congruence..]. apply Forall2_flip. eapply Forall2_impl; [|exact H].
    intros p q Hpq. symmetry. exact Hpq.
  - intros a b c [H ? ?] [H' ? ?]. constructor; [|congruence..].
    clear -H H'. revert H'. generalize (processes c). induction H as [|p q l l' Hpq _ IH]; intros m H'; inversion H'; subst; constructor.
    + etransitivity; eassumption.
    + apply IH. assumption.
Qed.

(** The running process may have changed its own record; those of the others are the same. *)
Record own_changes (k k' : kernel) : Prop := OwnChanges {
  oc_table :> same_table k k';
  oc_others : forall j, j <> current_process k -> processes k' !! j = processes k !! j;
}.

#[export] Instance own_changes_equiv : Equivalence own_changes.
Proof.
  split.
  - intros k. split; reflexivity.
  - intros k k' [H Ho]. split; [symmetry; exact H|]. intros j Hj. symmetry. apply Ho. rewrite (st_current _ _ H). exact Hj.
  - intros a b c [H1 O1] [H2 O2]. split; [etransitivity; eassumption|]. intros j Hj.
    rewrite O2 by (rewrite <- (st_current _ _ H1); exact Hj). exact (O1 j Hj).
Qed.

Definition keeps {A} (c : K A) : Prop := forall k a k', c k = inl (a, k') -> own_changes k k'.

Lemma keeps_ret {A} (a : A) : keeps (mret a).
Proof. intros k b k' [= _ <-]. reflexivity. Qed.

Lemma keeps_bind {A B} (c : K A) (f : A -> K B) : keeps c -> (forall a, keeps (f a)) -> keeps (mbind f c).
Proof.
  intros Hc Hf k b k'. unfold mbind, K_bind. destruct (c k) as [[a k1]|s] eqn:E; [|discriminate].
  intros H. transitivity k1; [exact (Hc k a k1 E)|exact (Hf a k1 b k' H)].
Qed.

Lemma keeps_stopped {A} s : keeps (@stopped A s).
Proof. intros k a k' [=]. Qed.

Lemma keeps_get : keeps get_kernel.
Proof. intros k a k' [= _ <-]. reflexivity. Qed.

Lemma same_processes_refl l : Forall2 same_process l l.
Proof. induction l; constructor; [reflexivity|assumption]. Qed.

(** A change of anything but the table. *)
Lemma keeps_other (c : K unit) :
  (forall k, exists k', c k = inl (tt, k') /\ processes k' = processes k /\
     current_process k' = current_process k /\ next_pid k' = next_pid k) -> keeps c.
Proof.
  intros H k [] k' E. destruct (H k) as (k1 & E1 & Hp & Hc & Hn). rewrite E1 in E. injection E as <-.
  split; [constructor; [rewrite Hp; apply same_processes_refl|congruence..]|]. intros j _. rewrite Hp. reflexivity.
Qed.

Ltac keeps_other := apply keeps_other; intros k; eexists; repeat split.

Lemma keeps_put_mm s : keeps (put_mm s).
Proof. keeps_other. Qed.

Create HintDb keeps.
#[export] Hint Resolve keeps_ret keeps_stopped keeps_get keeps_put_mm : keeps.

(** Decompose a computation along its binds and case distinctions. *)
Ltac keeps :=
  repeat first
    [ solve [eauto 2 with keeps]
    | apply keeps_bind; [|intros]
    | match goal with |- keeps (match ?x with _ => _ end) => destruct x end
    | match goal with |- keeps ((fun _ => _) _) => cbv beta end ].

Lemma keeps_in_object {A} (o : option A) : keeps (in_object o).
Proof. unfold in_object. keeps. Qed.
#[export] Hint Resolve keeps_in_object : keeps.

Lemma keeps_on_mm {A} (f : mm -> A * mm) : keeps (on_mm f).
Proof. unfold on_mm. keeps. Qed.

Lemma keeps_get_process i : keeps (get_process i).
Proof. unfold get_process. keeps. Qed.
#[export] Hint Resolve keeps_on_mm keeps_get_process : keeps.

Lemma keeps_this_process : keeps this_process.
Proof. unfold this_process. keeps. Qed.
#[export] Hint Resolve keeps_this_process : keeps.

(** Updates of the current process that leave its place in the table alone. *)
Lemma keeps_update_this f : (forall p, same_process p (f p)) -> keeps (update_this f).
Proof.
  intros Hf k a k'. rewrite run_update_this.
  destruct (processes k !! current_process k) as [p|] eqn:E; [|discriminate].
  intros [= <- <-]. split; [|intros j Hj; apply list_lookup_insert_ne; congruence]. constructor; cbn; [|reflexivity..].
  apply Forall2_same_length_lookup_2; [rewrite length_insert; reflexivity|].
  intros i x y Hx Hy. apply list_lookup_insert_Some in Hy as [(<- & <- & _)|[_ Hy]].
  - rewrite E in Hx. injection Hx as ->. apply Hf.
  - rewrite Hx in Hy. injection Hy as ->. reflexivity.
Qed.

Lemma keeps_user_load va : keeps (user_load va).
Proof. unfold user_load. keeps. Qed.

Lemma keeps_user_store va v : keeps (user_store va v).
Proof. unfold user_store. keeps. Qed.
#[export] Hint Resolve keeps_user_load keeps_user_store : keeps.

Lemma keeps_user_load_le n va : keeps (user_load_le n va).
Proof. revert va. induction n as [|n IH]; intros va; cbn [user_load_le]; keeps. Qed.

Lemma keeps_user_store_le n va v : keeps (user_store_le n va v).
Proof. revert va v. induction n as [|n IH]; intros va v; cbn [user_store_le]; keeps. Qed.

Lemma keeps_user_store_bytes va l : keeps (user_store_bytes va l).
Proof. revert va. induction l as [|b l IH]; intros va; cbn [user_store_bytes]; keeps. Qed.

Lemma keeps_user_copy_out n va src : keeps (user_copy_out n va src).
Proof. revert va src. induction n as [|n IH]; intros va src; cbn [user_copy_out]; keeps. Qed.

Lemma keeps_user_load_bytes n va : keeps (user_load_bytes n va).
Proof. revert va. induction n as [|n IH]; intros va; cbn [user_load_bytes]; keeps. Qed.

Lemma keeps_copy_user_loop n source i dest cap : keeps (copy_user_loop n source i dest cap).
Proof. revert i dest. induction n as [|n IH]; intros i dest; cbn [copy_user_loop]; keeps. Qed.
#[export] Hint Resolve keeps_user_load_le keeps_user_store_le keeps_user_store_bytes keeps_user_copy_out
  keeps_user_load_bytes keeps_copy_user_loop : keeps.

Lemma keeps_copy_user_string dest cap a : keeps (copy_user_string dest cap a).
Proof. unfold copy_user_string. keeps. Qed.
#[export] Hint Resolve keeps_copy_user_string : keeps.

Lemma keeps_copy_array_loop n a count acc : keeps (copy_array_loop n a count acc).
Proof. revert count acc. induction n as [|n IH]; intros count acc; cbn [copy_array_loop]; keeps. Qed.
#[export] Hint Resolve keeps_copy_array_loop : keeps.

Lemma keeps_copy_user_string_array n a : keeps (copy_user_string_array n a).
Proof. unfold copy_user_string_array. keeps. Qed.

Lemma keeps_copy_kernel_loop n dest src : keeps (copy_kernel_loop n dest src).
Proof. revert dest src. induction n as [|n IH]; intros dest src; destruct src; cbn [copy_kernel_loop]; keeps. Qed.
#[export] Hint Resolve keeps_copy_user_string_array keeps_copy_kernel_loop : keeps.

Lemma keeps_copy_kernel_string dest cap src : keeps (copy_kernel_string dest cap src).
Proof. unfold copy_kernel_string. keeps. Qed.
#[export] Hint Resolve keeps_copy_kernel_string : keeps.

Lemma keeps_load_program p path argv envp : keeps (load_program p path argv envp).
Proof. unfold load_program. keeps. Qed.

(** Loading changes only the image of the process being built. *)
Lemma same_set_image c e st b p : same_process p (set_image c e st b p).
Proof. constructor; reflexivity. Qed.

Lemma load_elf_same s p file b s' p' : load_elf_into_process s p file = (b, s', p') -> same_process p p'.
Proof.
  unfold load_elf_into_process. destruct (validate_elf _ _); [|intros [= _ _ <-]; reflexivity].
  destruct (load_segments _ _ _ _ _ _ _) as [[] s1]; intros [= _ _ <-]; [apply same_set_image|reflexivity].
Qed.

Lemma build_stack_same s p argv envp s' p' :
  build_user_stack s p argv envp = inl (Some (s', p')) -> same_process p p'.
Proof.
  unfold build_user_stack. destruct (map_user_range _ _ _ _ _) as [[] s1]; [|discriminate].
  destruct (push_strings _ _ _ (rev envp) _) as [[[[s2 st2] a2]|]|]; try discriminate.
  destruct (push_strings _ _ _ (rev argv) _) as [[[[s3 st3] a3]|]|]; try discriminate.
  destruct (push_words _ _ _ _) as [[[] s4] st4]; [|discriminate]. intros [= _ <-]. apply same_set_image.
Qed.

Lemma load_program_same p path argv envp k b p' k' :
  load_program p path argv envp k = inl ((b, p'), k') -> same_process p p'.
Proof.
  unfold load_program. rewrite run_bind. cbn [get_kernel]. rewrite run_bind.
  destruct (xbks_ramdisk_find _ _ _ _ _) as [found|]; cbn [in_object]; [rewrite run_ret|discriminate].
  destruct found as [file|]; [|rewrite run_ret; intros [= _ <- _]; reflexivity].
  destruct (_ || _); [rewrite run_ret; intros [= _ <- _]; reflexivity|].
  rewrite run_bind, run_on_mm. destruct (_ =? 0); [rewrite run_ret; intros [= _ <- _]; apply same_set_image|].
  rewrite run_bind. cbn [get_kernel]. destruct (load_elf_into_process _ _ _) as [[[] s1] p1] eqn:E1.
  - destruct (build_user_stack _ _ _ _) as [[[s2 p2]|]|] eqn:E2; [|discriminate|].
    + rewrite run_bind. cbn [put_mm]. rewrite run_ret. intros [= _ <- _].
      transitivity p1; [|exact (build_stack_same _ _ _ _ _ _ E2)]. etransitivity; [apply same_set_image|exact (load_elf_same _ _ _ _ _ _ E1)].
    + rewrite run_bind. cbn [put_mm]. rewrite run_ret. intros [= _ <- _]. etransitivity; [|apply same_set_image].
      etransitivity; [apply same_set_image|exact (load_elf_same _ _ _ _ _ _ E1)].
  - rewrite run_bind. cbn [put_mm]. rewrite run_ret. intros [= _ <- _]. etransitivity; [|apply same_set_image].
    etransitivity; [apply same_set_image|exact (load_elf_same _ _ _ _ _ _ E1)].
Qed.

Lemma keeps_find_file path : keeps (find_file path).
Proof. unfold find_file. keeps. Qed.

Lemma keeps_read_directory path index : keeps (read_directory path index).
Proof. unfold read_directory. keeps. Qed.

Lemma keeps_this_fd fd : keeps (this_fd fd).
Proof. unfold this_fd. keeps. Qed.

Lemma keeps_put_fd fd f : keeps (put_fd fd f).
Proof. apply keeps_update_this. intros p. constructor; try reflexivity. cbn. rewrite length_insert. reflexivity. Qed.

Lemma keeps_read_key : keeps read_key.
Proof.
  intros k a k'. unfold read_key. destruct (xbks_keyboard_read_char_blocking _ _) as [[[ch sh] rest]|]; [|discriminate].
  intros [= _ <-]. split; [constructor; cbn; [apply same_processes_refl|reflexivity..]|reflexivity].
Qed.

Lemma keeps_console l : keeps (xbks_console_write l).
Proof. keeps_other. Qed.
#[export] Hint Resolve keeps_load_program keeps_find_file keeps_read_directory keeps_this_fd keeps_put_fd
  keeps_read_key keeps_console : keeps.

Lemma keeps_read_stdin n b : keeps (read_stdin n b).
Proof. revert b. induction n as [|n IH]; intros b; cbn [read_stdin]; keeps. Qed.
#[export] Hint Resolve keeps_read_stdin : keeps.

(** ** The handlers that keep the table *)

Lemma keeps_read fd b n : keeps (syscall_read fd b n).
Proof. unfold syscall_read. keeps. Qed.

Lemma keeps_write fd b n : keeps (syscall_write fd b n).
Proof. unfold syscall_write. keeps. Qed.

Lemma keeps_open a : keeps (syscall_open a).
Proof. unfold syscall_open. keeps. Qed.

Lemma keeps_close fd : keeps (syscall_close fd).
Proof. unfold syscall_close. keeps. Qed.

Lemma keeps_lseek fd o w : keeps (syscall_lseek fd o w).
Proof. unfold syscall_lseek. keeps. Qed.

Lemma keeps_getdents_loop n fd b c w : keeps (getdents_loop n fd b c w).
Proof.
  revert w. induction n as [|n IH]; intros w; cbn [getdents_loop]; unfold store_dirent; keeps.
Qed.
#[export] Hint Resolve keeps_getdents_loop : keeps.

Lemma keeps_getdents64 fd b c : keeps (syscall_getdents64 fd b c).
Proof. unfold syscall_getdents64. keeps. Qed.

Lemma keeps_access a : keeps (syscall_access a).
Proof. unfold syscall_access. keeps. Qed.

Lemma keeps_getcwd a n : keeps (syscall_getcwd a n).
Proof. unfold syscall_getcwd. keeps. Qed.

Lemma keeps_uname a : keeps (syscall_uname a).
Proof. unfold syscall_uname. keeps. Qed.

Lemma keeps_set_brk b : keeps (update_this (set_brk b)).
Proof. apply keeps_update_this. intros p. constructor; reflexivity. Qed.

Lemma keeps_set_image c e s b : keeps (update_this (set_image c e s b)).
Proof. apply keeps_update_this. intros p. constructor; reflexivity. Qed.
#[export] Hint Resolve keeps_set_brk keeps_set_image : keeps.

Lemma keeps_brk b : keeps (syscall_brk b).
Proof. unfold syscall_brk. keeps. Qed.

Lemma keeps_execve f : keeps (syscall_execve f).
Proof. unfold syscall_execve. keeps. Qed.
#[export] Hint Resolve keeps_read keeps_write keeps_open keeps_close keeps_lseek keeps_getdents64 keeps_access
  keeps_getcwd keeps_uname keeps_brk keeps_execve : keeps.
