(* ===== verification/Lifecycle.v ===== *)
(** * Process life cycle: the invariant and its preservation

    vfork, exit and wait4 move processes through the table.  In every reachable state
    the running process is the current one, the blocked processes are exactly its
    chain of vfork parents, and process ids are unique. *)

From Stdlib Require Import Ascii String.
From S2P Require Import Prelude CMem CStr Pmm Vmm Ramdisk Elf Keyboard Kernel Loader Syscalls ProcTable.

(** ** The invariant *)

(** [chain ps st i c]: slot [i] is in state [st], and [c] is [i] followed by its vfork
    parent, that one's parent and so on, all blocked, down to a process without one. *)
Inductive chain (ps : list process) : process_state -> nat -> list nat -> Prop :=
| chain_root st i p :
    ps !! i = Some p -> state p = st -> vfork_parent p = None -> chain ps st i [i]
| chain_child st i p j c :
    ps !! i = Some p -> state p = st -> vfork_parent p = Some j -> parent p = Some j ->
    i ∉ c -> chain ps PROCESS_BLOCKED j c -> chain ps st i (i :: c).

Record lifecycle (k : kernel) : Prop := Lifecycle {
  lc_size : length (processes k) = MAX_PROCESSES;
  lc_fds : Forall (fun p => length (fds p) = MAX_FDS) (processes k);
  lc_chain : exists c, chain (processes k) PROCESS_RUNNING (current_process k) c /\
    forall i p, processes k !! i = Some p -> i ∉ c -> state p = PROCESS_UNUSED \/ state p = PROCESS_ZOMBIE;
  lc_pid : forall i p, processes k !! i = Some p -> state p <> PROCESS_UNUSED -> 0 < pid p < next_pid k;
  lc_unique : forall i j p q, processes k !! i = Some p -> processes k !! j = Some q ->
    state p <> PROCESS_UNUSED -> state q <> PROCESS_UNUSED -> pid p = pid q -> i = j;
}.

(** ** Chains *)

Lemma chain_elem ps st i c j : chain ps st i c -> j ∈ c ->
  exists p, ps !! j = Some p /\ state p = (if bool_decide (j = i) then st else PROCESS_BLOCKED).
Proof.
  induction 1 as [st i p H1 H2 H3|st i p j' c H1 H2 H3 H4 H5 _ IH]; intros Hj.
  - apply list_elem_of_singleton in Hj as ->. exists p. rewrite bool_decide_eq_true_2 by reflexivity. auto.
  - apply elem_of_cons in Hj as [->|Hj].
    + exists p. rewrite bool_decide_eq_true_2 by reflexivity. auto.
    + destruct (IH Hj) as (q & Hq & Hs). exists q. split; [exact Hq|].
      rewrite bool_decide_eq_false_2 by (intros ->; contradiction). rewrite Hs. destruct (bool_decide _); reflexivity.
Qed.

Lemma chain_head ps st i c : chain ps st i c -> i ∈ c.
Proof. destruct 1; left. Qed.

(** A chain only depends on its own slots. *)
Lemma chain_ext ps ps' st i c :
  chain ps st i c ->
  (forall j p, j ∈ c -> ps !! j = Some p -> exists q, ps' !! j = Some q /\ state p = state q /\
     vfork_parent p = vfork_parent q /\ parent p = parent q) ->
  chain ps' st i c.
Proof.
  induction 1 as [st i p H1 H2 H3|st i p j c H1 H2 H3 H4 H5 _ IH]; intros H.
  - destruct (H i p ltac:(left) H1) as (q & Hq & ? & ? & ?). apply (chain_root _ _ _ q); congruence.
  - destruct (H i p ltac:(left) H1) as (q & Hq & ? & ? & ?). apply (chain_child _ _ _ q j); try congruence.
    apply IH. intros j' p' Hj. apply H. right. exact Hj.
Qed.

(** Changing the state of the first slot. *)
Lemma chain_head_state ps st i c st' :
  chain ps st i c -> chain (alter (set_state st') i ps) st' i c.
Proof.
  destruct 1 as [st i p H1 H2 H3|st i p j c H1 H2 H3 H4 H5 Hc].
  - apply (chain_root _ _ _ (set_state st' p)); [|reflexivity|exact H3]. rewrite list_lookup_alter, decide_True, H1 by reflexivity. reflexivity.
  - apply (chain_child _ _ _ (set_state st' p) j); [|reflexivity|exact H3|exact H4|exact H5|].
    + rewrite list_lookup_alter, decide_True, H1 by reflexivity. reflexivity.
    + apply (chain_ext ps); [exact Hc|]. intros j' q Hj Hq. exists q. rewrite list_lookup_alter, decide_False; [auto|].
      intros ->. contradiction.
Qed.

(** ** Handlers that keep the table *)

Lemma lifecycle_same k k' : same_table k k' -> lifecycle k -> lifecycle k'.
Proof.
  intros [Hps Hc Hn] [Hsz Hfd (c & Hch & Hrest) Hp Hu].
  assert (Hback : forall i q, processes k' !! i = Some q -> exists p, processes k !! i = Some p /\ same_process p q).
  { intros i q Hq. destruct (Forall2_lookup_r _ _ _ _ _ Hps Hq) as (p & ? & ?). eauto. }
  constructor.
  - rewrite <- (Forall2_length Hps). exact Hsz.
  - apply Forall_lookup_2. intros i q Hq. destruct (Hback i q Hq) as (p & Hp' & Hs).
    rewrite <- (same_fds _ _ Hs). exact (Forall_lookup_1 _ _ _ _ Hfd Hp').
  - exists c. rewrite <- Hc. split.
    + apply (chain_ext _ _ _ _ _ Hch). intros j p _ Hj. destruct (Forall2_lookup_l _ _ _ _ _ Hps Hj) as (q & Hq & Hs).
      exists q. split; [exact Hq|]. split; [apply Hs|]. split; apply Hs.
    + intros i q Hq Hi. destruct (Hback i q Hq) as (p & Hp' & Hs). rewrite <- (same_state _ _ Hs). exact (Hrest i p Hp' Hi).
  - intros i q Hq. destruct (Hback i q Hq) as (p & Hp' & Hs).
    rewrite <- (same_state _ _ Hs), <- (same_pid _ _ Hs), <- Hn. exact (Hp i p Hp').
  - intros i j q1 q2 H1 H2. destruct (Hback i q1 H1) as (p1 & Hp1 & S1). destruct (Hback j q2 H2) as (p2 & Hp2 & S2).
    rewrite <- (same_state _ _ S1), <- (same_state _ _ S2), <- (same_pid _ _ S1), <- (same_pid _ _ S2).
    exact (Hu i j p1 p2 Hp1 Hp2).
Qed.

(** ** Slots *)

Lemma first_unused_spec l n :
  match first_unused l n with
  | Some i => (n <= i)%nat /\ exists p, l !! (i - n)%nat = Some p /\ state p = PROCESS_UNUSED
  | None => Forall (fun p => state p <> PROCESS_UNUSED) l
  end.
Proof.
  revert n. induction l as [|p l IH]; intros n; cbn; [constructor|]. case_bool_decide as Hp.
  - split; [lia|]. exists p. rewrite Nat.sub_diag. split; [reflexivity|exact Hp].
  - specialize (IH (S n)). destruct (first_unused l (S n)) as [i|]; [|constructor; assumption].
    destruct IH as (Hi & q & Hq & Hs). split; [lia|]. exists q. split; [|exact Hs].
    replace (i - n)%nat with (S (i - S n)) by lia. exact Hq.
Qed.

Lemma first_zombie_spec me wanted l n :
  match first_zombie me wanted l n with
  | Some i => (n <= i)%nat /\ exists p, l !! (i - n)%nat = Some p /\ reaped_by me wanted p = true
  | None => Forall (fun p => reaped_by me wanted p = false) l
  end.
Proof.
  revert n. induction l as [|p l IH]; intros n; cbn; [constructor|]. destruct (reaped_by me wanted p) eqn:Hp.
  - split; [lia|]. exists p. rewrite Nat.sub_diag. split; [reflexivity|exact Hp].
  - specialize (IH (S n)). destruct (first_zombie me wanted l (S n)) as [i|]; [|constructor; assumption].
    destruct IH as (Hi & q & Hq & Hs). split; [lia|]. exists q. split; [|exact Hs].
    replace (i - n)%nat with (S (i - S n)) by lia. exact Hq.
Qed.

(** Overwriting a slot outside the chain by one that is unused. *)
Lemma lifecycle_free k i p :
  lifecycle k -> processes k !! i = Some p -> state p <> PROCESS_RUNNING -> state p <> PROCESS_BLOCKED ->
  lifecycle (with_processes k (<[i := zero_process]> (processes k))).
Proof.
  intros [Hsz Hfd (c & Hch & Hrest) Hp Hu] Hi Hr Hb.
  assert (Hnc : i ∉ c).
  { intros Hc. destruct (chain_elem _ _ _ _ _ Hch Hc) as (q & Hq & Hs). rewrite Hi in Hq. injection Hq as <-.
    destruct (bool_decide _); congruence. }
  assert (Hlk : forall j q, <[i := zero_process]> (processes k) !! j = Some q -> state q <> PROCESS_UNUSED ->
                j <> i /\ processes k !! j = Some q).
  { intros j q Hq Hs. apply list_lookup_insert_Some in Hq as [(<- & <- & _)|[Hne Hq]]; [exfalso; apply Hs; reflexivity|auto]. }
  constructor; cbn.
  - rewrite length_insert. exact Hsz.
  - apply Forall_insert; [exact Hfd|reflexivity].
  - exists c. split.
    + apply (chain_ext _ _ _ _ _ Hch). intros j q Hj Hq. exists q. rewrite list_lookup_insert_ne by congruence. auto.
    + intros j q Hq Hj. apply list_lookup_insert_Some in Hq as [(_ & <- & _)|[_ Hq]]; [left; reflexivity|exact (Hrest j q Hq Hj)].
  - intros j q Hq Hs. destruct (Hlk j q Hq Hs) as [_ Hq']. exact (Hp j q Hq' Hs).
  - intros j1 j2 q1 q2 H1 H2 S1 S2 E. destruct (Hlk j1 q1 H1 S1) as [_ H1']. destruct (Hlk j2 q2 H2 S2) as [_ H2'].
    exact (Hu j1 j2 q1 q2 H1' H2' S1 S2 E).
Qed.

(** Only the memory changes. *)
Lemma same_with_mm k s : same_table k (with_mm k s).
Proof. constructor; [apply same_processes_refl|reflexivity..]. Qed.

(** ** wait4 *)

Lemma wait4_lifecycle wanted address k r k' :
  lifecycle k -> syscall_wait4 wanted address k = inl (r, k') -> lifecycle k'.
Proof.
  intros Hk. unfold syscall_wait4. rewrite run_bind. cbn [get_kernel].
  pose proof (first_zombie_spec (current_process k) wanted (processes k) 0) as Hz.
  destruct (first_zombie _ _ _ _) as [i|]; [|intros [= _ <-]; exact Hk].
  destruct Hz as (_ & child & Hi & Hreap). rewrite Nat.sub_0_r in Hi. rewrite run_bind, run_get_process, Hi.
  destruct (_ && _); [intros [= _ <-]; exact Hk|].
  rewrite run_bind. set (c := if negb (address =? 0) then _ else _).
  assert (Hc : keeps c) by (unfold c; keeps). destruct (c k) as [[[] k1]|] eqn:E1; [|discriminate].
  rewrite run_bind, run_on_mm. cbn [fst snd]. rewrite run_bind, run_put_process. intros [= _ <-].
  apply Hc in E1. pose proof (lifecycle_same _ _ E1 Hk) as Hk1.
  destruct (Forall2_lookup_l _ _ _ _ _ (st_processes _ _ E1) Hi) as (child1 & Hi1 & Hs).
  unfold reaped_by in Hreap. apply andb_true_iff in Hreap as [Hreap _]. apply andb_true_iff in Hreap as [Hzs _].
  apply bool_decide_eq_true_1 in Hzs. rewrite (same_state _ _ Hs) in Hzs.
  apply (lifecycle_same (with_processes k1 (<[i := zero_process]> (processes k1)))).
  - constructor; [apply same_processes_refl|reflexivity..].
  - apply (lifecycle_free k1 i child1 Hk1 Hi1); congruence.
Qed.

(** ** vfork *)

(** The new process. *)
Definition vfork_child (k : kernel) (frame : xbks_syscall_frame) (pml4 : Z) (p : process) : process :=
  Process (next_pid k) (pid p) PROCESS_RUNNING pml4 (entry p) (stack p) (brk p) 0
    (Some (current_process k)) (Some (current_process k))
    (set_frame_rax (u64 (next_pid k)) frame) (fds p).

(** What vfork does to the table, on each of its three ways out. *)
Inductive vfork_outcome (k : kernel) (frame : xbks_syscall_frame) : Z -> kernel -> Prop :=
| vfork_full : Forall (fun p => state p <> PROCESS_UNUSED) (processes k) ->
    vfork_outcome k frame (negative_errno XBKS_EAGAIN) k
| vfork_nomem i p k' :
    processes k !! i = Some p -> state p = PROCESS_UNUSED ->
    processes k' = <[i := zero_process]> (processes k) ->
    current_process k' = current_process k -> next_pid k' = s32 (next_pid k + 1) ->
    vfork_outcome k frame (negative_errno XBKS_ENOMEM) k'
| vfork_ok i p me pml4 k' :
    processes k !! i = Some p -> state p = PROCESS_UNUSED ->
    processes k !! current_process k = Some me -> pml4 <> 0 -> cr3_register (k_mm k') = pml4 ->
    processes k' = <[current_process k := set_state PROCESS_BLOCKED me]>
                     (<[i := vfork_child k frame pml4 me]> (processes k)) ->
    current_process k' = i -> next_pid k' = s32 (next_pid k + 1) ->
    vfork_outcome k frame 0 k'.

Lemma vfork_returns frame k :
  lifecycle k -> exists r k', syscall_vfork frame k = inl (r, k') /\ vfork_outcome k frame r k'.
Proof.
  intros [_ _ (c & Hch & _) _ _]. destruct (chain_elem _ _ _ _ _ Hch (chain_head _ _ _ _ Hch)) as (me & Hme & Hst).
  rewrite bool_decide_eq_true_2 in Hst by reflexivity.
  unfold syscall_vfork, allocate_process. rewrite run_bind, run_bind. cbn [get_kernel].
  pose proof (first_unused_spec (processes k) 0) as Hf. destruct (first_unused _ _) as [i|].
  2: { rewrite run_ret. eexists _, _; split; [reflexivity|]. apply vfork_full, Hf. }
  destruct Hf as (_ & p & Hi & Hp). rewrite Nat.sub_0_r in Hi.
  assert (Hne : i <> current_process k) by (intros ->; congruence).
  assert (Hlen : (i < length (processes k))%nat) by (apply lookup_lt_is_Some_1; eauto).
  rewrite run_bind, run_put_process, run_bind. cbn [bump_pid]. rewrite run_ret.
  rewrite run_bind. cbn [get_kernel]. rewrite run_bind, run_this_process. cbn [with_processes processes current_process].
  rewrite list_lookup_insert_ne, Hme by congruence. rewrite run_bind, run_get_process.
  cbn [with_processes processes]. rewrite list_lookup_insert_eq by exact Hlen.
  rewrite run_bind, run_on_mm. set (pm := xbks_create_kernel_mapped_pml4 _). destruct pm as [pml4 s1]. cbn [fst snd].
  rewrite run_bind. destruct (Z.eqb_spec pml4 0) as [E0|E0].
  { rewrite run_ret. cbn [negb]. rewrite run_bind, run_ret, run_bind, run_put_process, run_ret. eexists _, _; split; [reflexivity|].
    apply (vfork_nomem _ _ i p); try assumption; try reflexivity. cbn. rewrite list_insert_insert_eq. reflexivity. }
  rewrite run_on_mm. destruct (xbks_vmm_clone_user_space _ _ _ _) as [ok s2]. cbn [fst snd negb]. destruct ok; cbn [negb].
  - rewrite run_bind, run_put_process, run_bind, run_update_this.
    cbn [with_mm with_processes processes current_process]. rewrite list_insert_insert_eq, list_lookup_insert_ne, Hme by congruence.
    rewrite run_bind. cbn [set_current]. rewrite run_bind, run_on_mm. cbn [fst snd]. rewrite run_ret. eexists _, _; split; [reflexivity|].
    apply (vfork_ok _ _ i p me pml4); try assumption; reflexivity.
  - rewrite run_bind, run_on_mm. cbn [fst snd]. rewrite run_bind, run_put_process, run_ret. eexists _, _; split; [reflexivity|].
    apply (vfork_nomem _ _ i p); try assumption; try reflexivity. cbn. rewrite list_insert_insert_eq. reflexivity.
Qed.

Lemma vfork_runs frame k r k' :
  lifecycle k -> syscall_vfork frame k = inl (r, k') -> vfork_outcome k frame r k'.
Proof. intros Hk E. destruct (vfork_returns frame k Hk) as (r0 & k0 & E0 & H). rewrite E in E0. injection E0 as <- <-. exact H. Qed.

(** The three outcomes keep the invariant while the pid counter does not overflow. *)
Lemma vfork_lifecycle frame k r k' :
  lifecycle k -> next_pid k < 2 ^ 31 - 1 -> vfork_outcome k frame r k' -> lifecycle k'.
Proof.
  intros Hk Hmax H. destruct H as [Hfull|i p k' Hi Hp Eps Ecur Epid|i p me pml4 k' Hi Hp Hme _ _ Eps Ecur Epid].
  - exact Hk.
  - assert (Hpid : 0 < next_pid k).
    { destruct Hk as [_ _ (c & Hch & _) HP _]. destruct (chain_elem _ _ _ _ _ Hch (chain_head _ _ _ _ Hch)) as (q & Hq & Hs).
      rewrite bool_decide_eq_true_2 in Hs by reflexivity. specialize (HP _ q Hq ltac:(congruence)). lia. }
    assert (Hf : lifecycle (with_processes k (<[i := zero_process]> (processes k)))) by (apply (lifecycle_free k i p); congruence).
    rewrite swrap_small in Epid by lia. destruct Hf as [H1 H2 H3 H4 H5]. cbn in *. rewrite <- Eps in *.
    constructor; try assumption; [rewrite Ecur; exact H3|]. intros j q Hq Hs. specialize (H4 j q Hq Hs). lia.
  - destruct Hk as [Hsz Hfd (c & Hch & Hrest) HP HU].
    assert (Hr : state me = PROCESS_RUNNING).
    { destruct (chain_elem _ _ _ _ _ Hch (chain_head _ _ _ _ Hch)) as (q & Hq & Hs).
      rewrite bool_decide_eq_true_2 in Hs by reflexivity. congruence. }
    assert (Hmp : 0 < pid me < next_pid k) by (apply (HP _ me Hme); congruence).
    assert (Hic : i ∉ c).
    { intros Hc. destruct (chain_elem _ _ _ _ _ Hch Hc) as (q & Hq & Hs). destruct (bool_decide _); congruence. }
    assert (Hne : current_process k <> i) by (intros <-; congruence).
    assert (Hlen : (i < length (processes k))%nat) by (apply lookup_lt_is_Some_1; eauto).
    assert (Hlk : forall j q, processes k' !! j = Some q ->
       (j = i /\ q = vfork_child k frame pml4 me) \/ (j = current_process k /\ q = set_state PROCESS_BLOCKED me) \/
       (j <> i /\ j <> current_process k /\ processes k !! j = Some q)).
    { intros j q Hq. rewrite Eps in Hq. apply list_lookup_insert_Some in Hq as [(<- & <- & _)|[H1 Hq]]; [auto|].
      apply list_lookup_insert_Some in Hq as [(<- & <- & _)|[H2 Hq]]; [auto|right; right; auto]. }
    rewrite swrap_small in Epid by lia. constructor.
    + rewrite Eps, !length_insert. exact Hsz.
    + rewrite Eps. pose proof (Forall_lookup_1 _ _ _ _ Hfd Hme) as Hf. cbn beta in Hf.
      apply Forall_insert; [apply Forall_insert; [exact Hfd|exact Hf]|exact Hf].
    + exists (i :: c). rewrite Ecur. split.
      * apply (chain_child _ _ _ (vfork_child k frame pml4 me) (current_process k)); try reflexivity; try exact Hic.
        { rewrite Eps, list_lookup_insert_ne, list_lookup_insert_eq by congruence || exact Hlen. reflexivity. }
        apply (chain_ext _ _ _ _ _ (chain_head_state _ _ _ _ PROCESS_BLOCKED Hch)). intros j q Hj Hq.
        rewrite list_lookup_alter in Hq. exists q. split; [|auto]. rewrite Eps. case_decide as Hd.
        { subst j. rewrite Hme in Hq. injection Hq as <-. apply list_lookup_insert_eq. rewrite length_insert.
          apply lookup_lt_is_Some_1. eauto. }
        { rewrite !list_lookup_insert_ne by congruence. exact Hq. }
      * intros j q Hq Hj. apply not_elem_of_cons in Hj as [Hji Hjc].
        destruct (Hlk j q Hq) as [[? _]|[[-> _]|(_ & _ & Hq')]]; [congruence| |exact (Hrest j q Hq' Hjc)].
        exfalso. apply Hjc, (chain_head _ _ _ _ Hch).
    + intros j q Hq Hs. rewrite Epid. destruct (Hlk j q Hq) as [[_ ->]|[[_ ->]|(_ & _ & Hq')]]; [cbn; lia|cbn; lia|].
      specialize (HP j q Hq' Hs). lia.
    + intros j1 j2 q1 q2 H1 H2 S1 S2 E.
      destruct (Hlk j1 q1 H1) as [[-> ->]|[[-> ->]|(N1 & M1 & H1')]], (Hlk j2 q2 H2) as [[-> ->]|[[-> ->]|(N2 & M2 & H2')]];
        cbn [pid vfork_child set_state] in E; try reflexivity; try lia.
      * specialize (HP j2 q2 H2' S2). lia.
      * apply (HU _ _ me q2 Hme H2'); congruence.
      * specialize (HP j1 q1 H1' S1). lia.
      * apply (HU _ _ q1 me H1' Hme); congruence.
      * exact (HU j1 j2 q1 q2 H1' H2' S1 S2 E).
Qed.

(** ** exit *)

(** What exit does: the current process becomes a zombie and its vfork parent runs
    again, in its own address space, with the frame it called vfork with. *)
Lemma exit_returns frame status k me i :
  lifecycle k -> processes k !! current_process k = Some me -> vfork_parent me = Some i ->
  exists r k' p, syscall_exit frame status k = inl (r, k') /\ processes k !! i = Some p /\ i <> current_process k /\ state p = PROCESS_BLOCKED /\
    r = (u64 (pid me), set_frame_rax (u64 (pid me)) (saved_parent_frame me)) /\
    processes k' = <[i := set_state PROCESS_RUNNING p]>
      (<[current_process k := set_state PROCESS_ZOMBIE (set_exit (status & 255) me)]> (processes k)) /\
    current_process k' = i /\ next_pid k' = next_pid k /\ cr3_register (k_mm k') = cr3 p.
Proof.
  intros [_ _ (c & Hch & _) _ _] Hme Hv. unfold syscall_exit. rewrite run_bind, run_update_this, Hme.
  assert (Hne : i <> current_process k /\ exists p, processes k !! i = Some p /\ state p = PROCESS_BLOCKED).
  { inversion Hch as [? ? p H1 H2 H3|? ? p j c' H1 H2 H3 H4 H5 H6]; subst; [congruence|].
    rewrite Hme in H1. injection H1 as <-. assert (j = i) as -> by congruence.
    pose proof (chain_head _ _ _ _ H6) as Hhd. split; [intros ->; contradiction|].
    destruct (chain_elem _ _ _ _ _ H6 Hhd) as (q & Hq & Hs). rewrite bool_decide_eq_true_2 in Hs by reflexivity. eauto. }
  assert (Hlen : (current_process k < length (processes k))%nat) by (apply lookup_lt_is_Some_1; eauto).
  rewrite run_bind, run_this_process. cbn [with_processes processes current_process].
  rewrite list_lookup_insert_eq by exact Hlen. cbn [vfork_parent set_state set_exit].
  rewrite Hv. destruct Hne as (Hi & p & Hp & Hs). rewrite run_bind, run_get_process. cbn [with_processes processes].
  rewrite list_lookup_insert_ne, Hp by congruence. rewrite run_bind, run_put_process, run_bind. cbn [set_current].
  rewrite run_bind, run_on_mm. cbn [fst snd]. rewrite run_ret.
  eexists _, _, p. split; [reflexivity|]. repeat (split; [assumption || reflexivity|]). reflexivity.
Qed.

Lemma exit_runs frame status k r k' :
  lifecycle k -> syscall_exit frame status k = inl (r, k') ->
  exists me i p, processes k !! current_process k = Some me /\ vfork_parent me = Some i /\
    processes k !! i = Some p /\ i <> current_process k /\ state p = PROCESS_BLOCKED /\
    r = (u64 (pid me), set_frame_rax (u64 (pid me)) (saved_parent_frame me)) /\
    processes k' = <[i := set_state PROCESS_RUNNING p]>
      (<[current_process k := set_state PROCESS_ZOMBIE (set_exit (status & 255) me)]> (processes k)) /\
    current_process k' = i /\ next_pid k' = next_pid k /\ cr3_register (k_mm k') = cr3 p.
Proof.
  intros Hk E. pose proof Hk as [_ _ (c & Hch & _) _ _].
  destruct (chain_elem _ _ _ _ _ Hch (chain_head _ _ _ _ Hch)) as (me & Hme & _).
  destruct (vfork_parent me) as [i|] eqn:Hv.
  - destruct (exit_returns frame status k me i Hk Hme Hv) as (r0 & k0 & p & E0 & H). rewrite E in E0. injection E0 as <- <-.
    exists me, i, p. auto.
  - exfalso. unfold syscall_exit in E. rewrite run_bind, run_update_this, Hme, run_bind, run_this_process in E.
    cbn [with_processes processes current_process] in E.
    rewrite list_lookup_insert_eq in E by (apply lookup_lt_is_Some_1; eauto). cbn [vfork_parent set_state set_exit] in E.
    rewrite Hv in E. discriminate E.
Qed.

Lemma exit_lifecycle frame status k r k' :
  lifecycle k -> syscall_exit frame status k = inl (r, k') -> lifecycle k'.
Proof.
  intros Hk H. destruct (exit_runs frame status k r k' Hk H) as (me & i & p & Hme & Hv & Hi & Hne & Hs & _ & Eps & Ecur & Epid & _).
  destruct Hk as [Hsz Hfd (c & Hch & Hrest) HP HU].
  inversion Hch as [? ? q H1 H2 H3|? ? q j c' H1 H2 H3 H4 H5 H6]; subst; [congruence|].
  rewrite Hme in H1. injection H1 as <-. assert (j = current_process k') as -> by congruence. set (i := current_process k') in *.
  set (z := set_state PROCESS_ZOMBIE (set_exit (status & 255) me)) in *.
  assert (Hlk : forall j q, processes k' !! j = Some q ->
     (j = i /\ q = set_state PROCESS_RUNNING p) \/ (j = current_process k /\ q = z) \/
     (j <> i /\ j <> current_process k /\ processes k !! j = Some q)).
  { intros j q Hq. rewrite Eps in Hq. apply list_lookup_insert_Some in Hq as [(<- & <- & _)|[N1 Hq]]; [auto|].
    apply list_lookup_insert_Some in Hq as [(<- & <- & _)|[N2 Hq]]; [auto|right; right; auto]. }
  assert (Hold : forall j q, processes k' !! j = Some q -> state q <> PROCESS_UNUSED ->
     exists q0, processes k !! j = Some q0 /\ state q0 <> PROCESS_UNUSED /\ pid q0 = pid q).
  { intros j q Hq Hq'. destruct (Hlk j q Hq) as [[-> ->]|[[-> ->]|(_ & _ & Hq0)]]; [exists p|exists me|exists q];
      (split; [assumption|split; [congruence|reflexivity]]). }
  constructor.
  - rewrite Eps, !length_insert. exact Hsz.
  - rewrite Eps. apply Forall_insert; [apply Forall_insert; [exact Hfd|]|].
    + exact (Forall_lookup_1 _ _ _ _ Hfd Hme).
    + exact (Forall_lookup_1 _ _ _ _ Hfd Hi).
  - exists c'. fold i. split.
    + apply (chain_ext _ _ _ _ _ (chain_head_state _ _ _ _ PROCESS_RUNNING H6)). intros j q Hj Hq.
      rewrite list_lookup_alter in Hq. exists q. split; [|auto]. rewrite Eps. case_decide as Hd.
      { subst j. rewrite Hi in Hq. injection Hq as <-. apply list_lookup_insert_eq. rewrite length_insert. apply lookup_lt_is_Some_1. eauto. }
      { rewrite !list_lookup_insert_ne by congruence. exact Hq. }
    + intros j q Hq Hj. destruct (Hlk j q Hq) as [[-> _]|[[-> ->]|(_ & N & Hq')]].
      * exfalso. apply Hj, (chain_head _ _ _ _ H6).
      * right. reflexivity.
      * apply (Hrest j q Hq'). apply not_elem_of_cons. auto.
  - intros j q Hq Hq'. rewrite Epid. destruct (Hold j q Hq Hq') as (q0 & Hq0 & Hs0 & <-). exact (HP j q0 Hq0 Hs0).
  - intros j1 j2 q1 q2 Q1 Q2 S1 S2 E. destruct (Hold j1 q1 Q1 S1) as (o1 & O1 & T1 & E1), (Hold j2 q2 Q2 S2) as (o2 & O2 & T2 & E2).
    apply (HU j1 j2 o1 o2 O1 O2 T1 T2). congruence.
Qed.

(** ** Every system call *)

Lemma keeps_lifecycle {A} (c : K A) k a k' : keeps c -> lifecycle k -> c k = inl (a, k') -> lifecycle k'.
Proof. intros Hc Hk H. exact (lifecycle_same k k' (Hc k a k' H) Hk). Qed.

Lemma with_frame_runs frame c k r k' :
  with_frame frame c k = inl (r, k') -> exists v, c k = inl (v, k') /\ r = (v, frame).
Proof.
  unfold with_frame. rewrite run_bind. destruct (c k) as [[v k1]|]; [|discriminate]. rewrite run_ret.
  intros [= <- <-]. eauto.
Qed.

Lemma with_frame_lifecycle frame c k r k' :
  (forall v k1, c k = inl (v, k1) -> lifecycle k1) -> with_frame frame c k = inl (r, k') -> lifecycle k'.
Proof. intros Hc H. apply with_frame_runs in H as (v & H & _). exact (Hc v k' H). Qed.

Lemma dispatch_lifecycle frame k r k' :
  lifecycle k -> next_pid k < 2 ^ 31 - 1 ->
  xbks_process_syscall_dispatch frame k = inl (r, k') -> lifecycle k'.
Proof.
  intros Hk Hmax. unfold xbks_process_syscall_dispatch.
  repeat match goal with |- (if ?b then _ else _) _ = _ -> _ => destruct b end.
  all: try (apply with_frame_lifecycle; intros v k1 H1; eapply keeps_lifecycle; [|exact Hk|exact H1]; solve [keeps]).
  - apply with_frame_lifecycle. intros v k1 H1. exact (vfork_lifecycle frame k v k1 Hk Hmax (vfork_runs frame k v k1 Hk H1)).
  - intros H1. eapply keeps_lifecycle; [apply keeps_execve|exact Hk|exact H1].
  - apply with_frame_lifecycle. intros v k1. apply wait4_lifecycle, Hk.
  - apply exit_lifecycle, Hk.
Qed.
