(* ===== verification/LifecycleProps.v ===== *)
(** * Process life cycle: the properties

    Reachable states of the kernel, from the start of the first process through any
    sequence of system calls and user-mode steps, and what vfork, exit and wait4 do
    for a parent and its child. *)

From Stdlib Require Import Ascii String.
From S2P Require Import Prelude CMem CStr Pmm Vmm Ramdisk RamdiskImage Elf Keyboard Kernel Loader Syscalls ProcTable Lifecycle MmProps.

(** ** Reachable states *)

Definition booted (k : kernel) : Prop :=
  processes k = replicate MAX_PROCESSES zero_process /\ next_pid k = 1.

(** A system call the kernel returns from (with the pid counter still in the range of
    [int]), or anything user code and devices do meanwhile. *)
Inductive step : kernel -> kernel -> Prop :=
| step_syscall frame r k k' :
    next_pid k < 2 ^ 31 - 1 -> xbks_process_syscall_dispatch frame k = inl (r, k') -> step k k'
| step_user k k' :
    processes k' = processes k -> current_process k' = current_process k -> next_pid k' = next_pid k -> step k k'.

Inductive reachable : kernel -> Prop :=
| reach_start modules es k k' :
    booted k -> xbks_process_start_init modules k = inl (Some es, k') -> reachable k'
| reach_step k k' : reachable k -> step k k' -> reachable k'.

(** The table after the first process is loaded. *)
Lemma start_init_lifecycle modules es k k' :
  booted k -> xbks_process_start_init modules k = inl (Some es, k') -> lifecycle k'.
Proof.
  intros [Hps Hpid]. unfold xbks_process_start_init. rewrite run_bind.
  destruct (xbks_ramdisk_init modules) as [[ok rd]|]; cbn [in_object]; [rewrite run_ret|discriminate].
  rewrite run_bind. cbn [set_ramdisk]. destruct ok; cbn [negb]; [|rewrite run_ret; discriminate].
  unfold allocate_process. rewrite run_bind, run_bind. cbn [get_kernel processes]. rewrite Hps. cbn [first_unused replicate MAX_PROCESSES].
  rewrite bool_decide_eq_true_2 by reflexivity. rewrite run_bind, run_put_process, run_bind. cbn [bump_pid]. rewrite run_ret.
  rewrite run_bind, run_get_process. cbn [with_processes processes next_pid current_process]. rewrite Hpid.
  cbn [lookup list_lookup insert list_insert replicate MAX_PROCESSES].
  rewrite run_bind. match goal with |- context [load_program ?a ?b ?c ?d ?k0] => destruct (load_program a b c d k0) as [[[loaded p] k1]|] eqn:El end; [|discriminate].
  destruct loaded; cbn [negb]; [|rewrite run_bind, run_put_process, run_ret; discriminate].
  rewrite run_bind, run_put_process, run_bind. cbn [set_current]. rewrite run_bind. cbn [keyboard_reset].
  rewrite run_bind, run_on_mm. cbn [fst snd]. rewrite run_ret. intros [= _ <-].
  pose proof (load_program_same _ _ _ _ _ _ _ _ El) as Hs. apply keeps_load_program in El as [[Hps1 Hcur1 Hpid1] _].
  cbn [processes current_process next_pid] in *.
  destruct (processes k1) as [|q0 l] eqn:E1; [inversion Hps1|]. apply Forall2_cons_1 in Hps1 as [_ Hps1].
  assert (Hz : forall q, q ∈ l -> state q = PROCESS_UNUSED /\ length (fds q) = MAX_FDS).
  { intros q Hq. apply list_elem_of_lookup in Hq as [i Hi]. destruct (Forall2_lookup_r _ _ _ _ _ Hps1 Hi) as (z & Hz & Hzs).
    apply (lookup_replicate 15 zero_process) in Hz as [-> _]. split; [rewrite <- (same_state _ _ Hzs)|rewrite <- (same_fds _ _ Hzs)]; reflexivity. }
  assert (Hlen : length l = 15%nat) by (rewrite <- (Forall2_length Hps1); reflexivity).
  assert (Hpp : pid p = 1) by (rewrite <- (same_pid _ _ Hs); reflexivity).
  constructor; cbn [with_mm with_processes processes current_process next_pid insert list_insert].
  - cbn [length]. rewrite Hlen. reflexivity.
  - constructor; [rewrite <- (same_fds _ _ Hs); reflexivity|].
    apply Forall_lookup_2. intros i q Hq. apply Hz. apply list_elem_of_lookup. eauto.
  - exists [0%nat]. split.
    + apply (chain_root _ _ _ p); [reflexivity|rewrite <- (same_state _ _ Hs); reflexivity|rewrite <- (same_vfork _ _ Hs); reflexivity].
    + intros [|i] q Hq Hi; [exfalso; apply Hi; left|]. left. apply Hz. apply list_elem_of_lookup. eauto.
  - rewrite <- Hpid1. intros [|i] q Hq Hst.
    + injection Hq as <-. rewrite Hpp. change (s32 (1 + 1)) with 2. lia.
    + exfalso. apply Hst, Hz. apply list_elem_of_lookup. eauto.
  - intros [|i] [|j] q1 q2 H1 H2 S1 S2 _; [reflexivity|..]; exfalso.
    + apply S2, Hz. apply list_elem_of_lookup. eauto.
    + apply S1, Hz. apply list_elem_of_lookup. eauto.
    + apply S1, Hz. apply list_elem_of_lookup. eauto.
Qed.

Lemma step_lifecycle k k' : lifecycle k -> step k k' -> lifecycle k'.
Proof.
  intros Hk Hs. destruct Hs as [frame r a b Hmax H|a b Hp Hc Hn].
  - exact (dispatch_lifecycle frame a r b Hk Hmax H).
  - apply (lifecycle_same a); [|exact Hk]. constructor; [rewrite Hp; apply same_processes_refl|congruence..].
Qed.

Lemma reachable_lifecycle k : reachable k -> lifecycle k.
Proof.
  induction 1 as [modules es k k' Hb H|k k' _ IH Hs].
  - exact (start_init_lifecycle modules es k k' Hb H).
  - exact (step_lifecycle k k' IH Hs).
Qed.

(** ** A booted machine

    Sixty frames, and in high memory a ramdisk whose /bin/xsh is an ELF file with one
    page of code at 0x400000. *)
Definition demo_xsh : list Z :=
  [127; 69; 76; 70; 2; 1; 1; 0] ++ replicate 8 0 ++ [2; 0; 62; 0; 1; 0; 0; 0] ++
  [0; 0; 64; 0; 0; 0; 0; 0] ++ [64; 0; 0; 0; 0; 0; 0; 0] ++ replicate 12 0 ++ [64; 0; 56; 0; 1; 0] ++ replicate 6 0 ++
  ([1; 0; 0; 0; 5; 0; 0; 0] ++ [120; 0; 0; 0; 0; 0; 0; 0] ++ [0; 0; 64; 0; 0; 0; 0; 0] ++ replicate 8 0 ++
   [8; 0; 0; 0; 0; 0; 0; 0] ++ [8; 0; 0; 0; 0; 0; 0; 0] ++ replicate 8 0) ++
  [184; 58; 0; 0; 0; 15; 5; 244].

Definition demo_ramdisk : list Z := tar_image [SourceFile (str "bin/xsh") 493 false demo_xsh].
Definition demo_ramdisk_address : Z := demo_hhdm + 16777216.

Definition demo_kernel : kernel :=
  let s := default demo_boot (add_usable_range demo_boot 4096 245760) in
  Kernel (set_ram s (store_bytes (ram s) demo_ramdisk_address demo_ramdisk)) (RamdiskState 0 0 false)
    (replicate MAX_PROCESSES zero_process) 0 1 false [] [].

Definition demo_modules : option (list (option limine_file)) :=
  Some [Some (LimineFile demo_ramdisk_address (Z.of_nat (length demo_ramdisk)) None (Some (lit "ramdisk")))].

Definition ran {A} (r : (A * kernel) + stop) : option A := match r with inl (a, _) => Some a | inr _ => None end.

Lemma demo_started :
  exists k, xbks_process_start_init demo_modules demo_kernel = inl (Some (4194304, 140737488347064), k).
Proof.
  assert (H : ran (xbks_process_start_init demo_modules demo_kernel) = Some (Some (4194304, 140737488347064))) by (vm_compute; reflexivity).
  destruct (xbks_process_start_init demo_modules demo_kernel) as [[a k]|]; [|discriminate].
  injection H as ->. exists k. reflexivity.
Qed.

(** ** The invariant *)

(** C11. In every reachable state, whatever calls user programs make with whatever
    arguments, the table is consistent: exactly the current process is running, every
    blocked process waits in the chain of vfork parents below it, all others are unused
    or zombies, and live processes have distinct positive ids. *)
Theorem reachable_consistent k :
  reachable k ->
  lifecycle k /\
  forall i p, processes k !! i = Some p -> (state p = PROCESS_RUNNING <-> i = current_process k).
Proof.
  intros H. pose proof (reachable_lifecycle k H) as Hk. split; [exact Hk|]. intros i p Hi.
  destruct Hk as [_ _ (c & Hch & Hrest) _ _]. destruct (decide (i ∈ c)) as [Hc|Hc].
  - destruct (chain_elem _ _ _ _ _ Hch Hc) as (q & Hq & Hs). rewrite Hi in Hq. injection Hq as <-.
    case_bool_decide; split; congruence.
  - destruct (Hrest i p Hi Hc) as [E|E]; rewrite E; (split; [discriminate|intros ->; exfalso; apply Hc, (chain_head _ _ _ _ Hch)]).
Qed.

Lemma reachable_consistent_witness :
  exists k, xbks_process_start_init demo_modules demo_kernel = inl (Some (4194304, 140737488347064), k) /\ lifecycle k.
Proof.
  destruct demo_started as [k Hk]. exists k. split; [exact Hk|].
  apply (reachable_consistent k). apply (reach_start demo_modules (4194304, 140737488347064) demo_kernel k); [|exact Hk].
  split; reflexivity.
Defined.

(** ** A child's life *)

Lemma u64_pid_inj p q : 0 < p < 2 ^ 31 -> 0 < q < 2 ^ 31 -> u64 p = u64 q -> p = q.
Proof. intros Hp Hq. rewrite !uwrap_small by lia. exact id. Qed.

Lemma same_current k k' p :
  same_table k k' -> processes k !! current_process k = Some p ->
  exists q, processes k' !! current_process k' = Some q /\ same_process p q.
Proof. intros [H Hc _] Hp. rewrite <- Hc. destruct (Forall2_lookup_l _ _ _ _ _ H Hp) as (q & ? & ?). eauto. Qed.

Lemma vfork_zero k frame k1 :
  vfork_outcome k frame 0 k1 ->
  exists i p me pml4, processes k !! i = Some p /\ state p = PROCESS_UNUSED /\
    processes k !! current_process k = Some me /\
    processes k1 = <[current_process k := set_state PROCESS_BLOCKED me]>
                     (<[i := vfork_child k frame pml4 me]> (processes k)) /\
    current_process k1 = i /\ next_pid k1 = s32 (next_pid k + 1).
Proof.
  remember 0 as z eqn:Ez. destruct 1 as [|i p k' Hi Hp Eps Ecur Epid|i p me pml4 k' Hi Hp Hme _ _ Eps Ecur Epid]; [discriminate Ez..|].
  exists i, p, me, pml4. auto 10.
Qed.

Lemma lifecycle_current k :
  lifecycle k -> exists p, processes k !! current_process k = Some p /\ state p = PROCESS_RUNNING /\ 0 < pid p < next_pid k.
Proof.
  intros [_ _ (c & Hch & _) HP _]. destruct (chain_elem _ _ _ _ _ Hch (chain_head _ _ _ _ Hch)) as (q & Hq & Hs).
  rewrite bool_decide_eq_true_2 in Hs by reflexivity. exists q. split; [exact Hq|]. split; [exact Hs|].
  apply (HP _ q Hq). congruence.
Qed.

Section Child.
Context (k k1 k2 k3 : kernel) (frame frame' : xbks_syscall_frame) (status : Z) (r : Z * xbks_syscall_frame).
Context (Hk : lifecycle k) (Hmax : next_pid k < 2 ^ 31 - 1).
Context (Hfork : syscall_vfork frame k = inl (0, k1)) (Hchild : same_table k1 k2).
Context (Hexit : syscall_exit frame' status k2 = inl (r, k3)).

(** The state after the child's exit: the parent as before, the child a zombie. *)
Lemma vfork_exit_table :
  exists i me p, i = current_process k1 /\ processes k !! current_process k = Some me /\ processes k !! i = Some p /\
    state p = PROCESS_UNUSED /\ i <> current_process k /\
    r = (u64 (next_pid k), set_frame_rax (u64 (next_pid k)) frame) /\
    current_process k3 = current_process k /\ next_pid k3 = next_pid k + 1 /\ lifecycle k3 /\
    (exists z, processes k3 !! i = Some z /\ state z = PROCESS_ZOMBIE /\ pid z = next_pid k /\
       parent z = Some (current_process k) /\ exit_status z = (status & 255)) /\
    (forall j q, j <> i -> processes k !! j = Some q -> exists q', processes k3 !! j = Some q' /\ same_process q q').
Proof.
  pose proof (vfork_runs frame k 0 k1 Hk Hfork) as Ho. pose proof (vfork_lifecycle frame k 0 k1 Hk Hmax Ho) as Hk1.
  pose proof (lifecycle_same _ _ Hchild Hk1) as Hk2.
  destruct (lifecycle_current k Hk) as (me0 & Hme0 & Hrun & Hpid).
  destruct (vfork_zero _ _ _ Ho) as (i & p & me & pml4 & Hi & Hp & Hme & Eps & Ecur & Epid).
  rewrite Hme in Hme0. injection Hme0 as <-.
  assert (Hne : current_process k <> i) by (intros <-; congruence).
  set (child := vfork_child k frame pml4 me) in *.
  assert (Hlen : (i < length (processes k))%nat) by (apply lookup_lt_is_Some_1; eauto).
  assert (Hc1 : processes k1 !! i = Some child).
  { rewrite Eps, list_lookup_insert_ne, list_lookup_insert_eq by congruence || exact Hlen. reflexivity. }
  rewrite <- Ecur in Hc1. destruct (same_current k1 k2 child Hchild Hc1) as (child2 & Hc2 & Hs).
  destruct (exit_runs frame' status k2 r k3 Hk2 Hexit) as (me2 & j & p2 & Hme2 & Hv & Hj & Hjne & _ & Er & Eps3 & Ecur3 & Epid3 & _).
  rewrite Hc2 in Hme2. injection Hme2 as <-. pose proof (same_vfork _ _ Hs) as Hv'. rewrite Hv in Hv'. cbn in Hv'. injection Hv' as <-.
  pose proof (st_current _ _ Hchild) as Ei. rewrite Ecur in Ei. rewrite <- Ei in *.
  exists i, me, p. rewrite swrap_small in Epid by lia.
  split; [symmetry; exact Ecur|]. split; [exact Hme|]. split; [exact Hi|]. split; [exact Hp|]. split; [congruence|]. split.
  { rewrite Er, <- (same_pid _ _ Hs), <- (same_frame _ _ Hs). reflexivity. }
  split; [exact Ecur3|]. split; [rewrite Epid3, <- (st_pid _ _ Hchild); exact Epid|].
  split; [exact (exit_lifecycle _ _ _ _ _ Hk2 Hexit)|]. split.
  - eexists. split; [rewrite Eps3, list_lookup_insert_ne, list_lookup_insert_eq by (congruence || (apply lookup_lt_is_Some_1; eauto)); reflexivity|].
    cbn. rewrite <- (same_pid _ _ Hs), <- (same_parent _ _ Hs). repeat split.
  - intros j q Hji Hq. destruct (decide (j = current_process k)) as [->|Hjm].
    + rewrite Hme in Hq. injection Hq as <-. eexists.
      split; [rewrite Eps3; apply list_lookup_insert_eq; rewrite length_insert; apply lookup_lt_is_Some_1; eauto|].
      assert (Hm1 : processes k1 !! current_process k = Some (set_state PROCESS_BLOCKED me)).
      { rewrite Eps. apply list_lookup_insert_eq. rewrite length_insert. apply lookup_lt_is_Some_1. eauto. }
      destruct (Forall2_lookup_l _ _ _ _ _ (st_processes _ _ Hchild) Hm1) as (m2 & Hm2 & Hsm). rewrite Hj in Hm2. injection Hm2 as <-.
      destruct Hsm. constructor; assumption.
    + assert (Hq1 : processes k1 !! j = Some q) by (rewrite Eps, !list_lookup_insert_ne by congruence; exact Hq).
      destruct (Forall2_lookup_l _ _ _ _ _ (st_processes _ _ Hchild) Hq1) as (q2 & Hq2 & Hsq). exists q2.
      split; [rewrite Eps3, !list_lookup_insert_ne by congruence; exact Hq2|exact Hsq].
Qed.
(** When the child changed no record but its own, the others are as they were, to the bit. *)
Lemma vfork_exit_others :
  (forall j, j <> current_process k1 -> processes k2 !! j = processes k1 !! j) ->
  forall j, j <> current_process k1 -> processes k3 !! j = processes k !! j.
Proof.
  intros Hothers. pose proof (vfork_runs frame k 0 k1 Hk Hfork) as Ho. pose proof (vfork_lifecycle frame k 0 k1 Hk Hmax Ho) as Hk1.
  pose proof (lifecycle_same _ _ Hchild Hk1) as Hk2. destruct (lifecycle_current k Hk) as (me & Hme & Hrun & _).
  destruct (vfork_zero _ _ _ Ho) as (i & p & me0 & pml4 & Hi & Hp & Hme0 & Eps & Ecur & _). rewrite Hme in Hme0. injection Hme0 as <-.
  assert (Hne : current_process k <> i) by (intros <-; congruence). rewrite Ecur in *.
  assert (Hlen : (i < length (processes k))%nat) by (apply lookup_lt_is_Some_1; eauto).
  assert (Hc1 : processes k1 !! i = Some (vfork_child k frame pml4 me)).
  { rewrite Eps, list_lookup_insert_ne, list_lookup_insert_eq by congruence || exact Hlen. reflexivity. }
  rewrite <- Ecur in Hc1. destruct (same_current k1 k2 _ Hchild Hc1) as (child2 & Hc2 & Hs).
  destruct (exit_runs frame' status k2 r k3 Hk2 Hexit) as (me2 & j & p2 & Hme2 & Hv & Hj & _ & _ & _ & Eps3 & _).
  rewrite Hc2 in Hme2. injection Hme2 as <-. pose proof (same_vfork _ _ Hs) as Hv'. rewrite Hv in Hv'. cbn in Hv'. injection Hv' as <-.
  pose proof (st_current _ _ Hchild) as Ei. rewrite Ecur in Ei. rewrite <- Ei in Eps3. intros j Hji. rewrite Eps3.
  rewrite Hothers, Eps, list_lookup_insert_eq in Hj by (congruence || (rewrite length_insert; apply lookup_lt_is_Some_1; eauto)).
  destruct (decide (j = current_process k)) as [->|Hjm].
  - rewrite list_lookup_insert_eq by (rewrite length_insert, <- (Forall2_length (st_processes _ _ Hchild)), Eps, !length_insert; apply lookup_lt_is_Some_1; eauto).
    injection Hj as <-. rewrite Hme. f_equal. destruct me. cbn in *. subst. reflexivity.
  - rewrite !list_lookup_insert_ne, Hothers, Eps, !list_lookup_insert_ne by congruence. reflexivity.
Qed.
End Child.

(** wait4 for the id of a zombie child reaps it and clears its slot. *)
Lemma wait4_reaps k i z :
  lifecycle k -> next_pid k < 2 ^ 31 -> processes k !! i = Some z -> state z = PROCESS_ZOMBIE -> parent z = Some (current_process k) ->
  exists k', syscall_wait4 (u64 (pid z)) 0 k = inl (u64 (pid z), k') /\ current_process k' = current_process k /\
    processes k' = <[i := zero_process]> (processes k).
Proof.
  intros Hk Hmax Hz Zs Zpar. pose proof Hk as [_ _ _ HP HU]. pose proof (HP i z Hz ltac:(congruence)) as Hpos.
  assert (Hfind : first_zombie (current_process k) (u64 (pid z)) (processes k) 0 = Some i).
  { pose proof (first_zombie_spec (current_process k) (u64 (pid z)) (processes k) 0) as Hs.
    assert (Hreap : reaped_by (current_process k) (u64 (pid z)) z = true).
    { unfold reaped_by. rewrite Zs, Zpar, !bool_decide_eq_true_2 by reflexivity. cbn [andb]. rewrite Z.eqb_refl, orb_true_r. reflexivity. }
    destruct (first_zombie _ _ _ _) as [n|].
    - destruct Hs as (_ & q & Hq & Hqr). rewrite Nat.sub_0_r in Hq. f_equal.
      unfold reaped_by in Hqr. apply andb_true_iff in Hqr as [Hqr Hw]. apply andb_true_iff in Hqr as [Hqs _]. apply bool_decide_eq_true_1 in Hqs.
      pose proof (HP n q Hq ltac:(congruence)) as Hqp. apply (HU n i q z Hq Hz); [congruence..|].
      apply orb_true_iff in Hw as [Hw|Hw]; apply Z.eqb_eq in Hw.
      + rewrite uwrap_small in Hw by lia. change (u64 (-1)) with (2 ^ 64 - 1) in Hw. lia.
      + symmetry. apply u64_pid_inj; [lia|lia|exact Hw].
    - exfalso. pose proof (Forall_lookup_1 _ _ _ _ Hs Hz) as H0. cbn beta in H0. congruence. }
  unfold syscall_wait4. rewrite run_bind. cbn [get_kernel]. rewrite Hfind, run_bind, run_get_process, Hz. cbn [Z.eqb negb andb].
  rewrite run_bind, run_ret, run_bind, run_on_mm. cbn [fst snd]. rewrite run_bind, run_put_process, run_ret.
  eexists. split; [reflexivity|]. split; reflexivity.
Qed.

(** A child that vfork made can exit, whatever it did to its own memory and files. *)
Lemma child_exit_returns k k1 k2 frame frame' status :
  lifecycle k -> next_pid k < 2 ^ 31 - 1 -> syscall_vfork frame k = inl (0, k1) -> same_table k1 k2 ->
  exists r k3, syscall_exit frame' status k2 = inl (r, k3).
Proof.
  intros Hk Hmax Hfork Hchild.
  pose proof (vfork_runs frame k 0 k1 Hk Hfork) as Ho. pose proof (vfork_lifecycle frame k 0 k1 Hk Hmax Ho) as Hk1.
  destruct (vfork_zero _ _ _ Ho) as (i & p & me & pml4 & Hi & Hp & Hme & Eps & Ecur & _).
  destruct (lifecycle_current k Hk) as (me0 & Hme0 & Hrun & _). rewrite Hme in Hme0. injection Hme0 as <-.
  assert (Hne : current_process k <> i) by (intros <-; congruence).
  assert (Hc1 : processes k1 !! current_process k1 = Some (vfork_child k frame pml4 me)).
  { rewrite Ecur, Eps, list_lookup_insert_ne, list_lookup_insert_eq by (congruence || (apply lookup_lt_is_Some_1; eauto)). reflexivity. }
  destruct (same_current k1 k2 _ Hchild Hc1) as (child2 & Hc2 & Hs).
  destruct (exit_returns frame' status k2 child2 (current_process k) (lifecycle_same _ _ Hchild Hk1) Hc2) as (r & k3 & _ & E & _).
  - rewrite <- (same_vfork _ _ Hs). reflexivity.
  - eauto.
Qed.

(** C39. vfork suspends its caller until the child exits: when the child, after any calls
    that keep the table, exits, the call returns to the parent, in the parent's slot and
    with exactly the registers it called vfork with, except that rax is the child's id;
    all other processes are as before and the child is a zombie with its exit status. *)
Theorem vfork_exit_returns k k1 k2 frame frame' status :
  lifecycle k -> next_pid k < 2 ^ 31 - 1 ->
  syscall_vfork frame k = inl (0, k1) -> same_table k1 k2 ->
  exists k3,
    syscall_exit frame' status k2 = inl ((u64 (next_pid k), set_frame_rax (u64 (next_pid k)) frame), k3) /\
    current_process k3 = current_process k /\
    exists i, i <> current_process k /\
      (exists z, processes k3 !! i = Some z /\ state z = PROCESS_ZOMBIE /\ pid z = next_pid k /\
         parent z = Some (current_process k) /\ exit_status z = (status & 255)) /\
      (forall j q, j <> i -> processes k !! j = Some q -> exists q', processes k3 !! j = Some q' /\ same_process q q').
Proof.
  intros Hk Hmax Hf Hc. destruct (child_exit_returns k k1 k2 frame frame' status Hk Hmax Hf Hc) as (r & k3 & He).
  destruct (vfork_exit_table k k1 k2 k3 frame frame' status r Hk Hmax Hf Hc He) as (i & me & p & _ & _ & _ & _ & Hne & -> & Hcur & _ & _ & Hz & Ho).
  exists k3. split; [exact He|]. split; [exact Hcur|]. exists i. split; [exact Hne|]. split; [exact Hz|exact Ho].
Qed.

(** A process without user memory forks, the child exits with status 7. *)
Definition demo_parent : kernel :=
  Kernel demo_space (RamdiskState 0 0 false)
    (<[0%nat := set_image 36864 0 0 0 (fresh_process 1)]> (replicate MAX_PROCESSES zero_process)) 0 2 false [] [].

Lemma demo_parent_slots i p : processes demo_parent !! i = Some p ->
  (i = 0%nat /\ p = set_image 36864 0 0 0 (fresh_process 1)) \/ (i <> 0%nat /\ p = zero_process).
Proof.
  intros H. apply list_lookup_insert_Some in H as [(<- & <- & _)|[Hne H]]; [left; split; reflexivity|].
  apply lookup_replicate in H as [-> _]. right. split; [congruence|reflexivity].
Qed.

Lemma demo_parent_lifecycle : lifecycle demo_parent.
Proof.
  constructor.
  - reflexivity.
  - apply Forall_lookup_2. intros i p Hp. apply demo_parent_slots in Hp as [[_ ->]|[_ ->]]; reflexivity.
  - exists [0%nat]. split; [apply (chain_root _ _ _ (set_image 36864 0 0 0 (fresh_process 1))); reflexivity|].
    intros i p Hp Hi. apply demo_parent_slots in Hp as [[-> _]|[_ ->]]; [exfalso; apply Hi; left|left; reflexivity].
  - intros i p Hp Hs. apply demo_parent_slots in Hp as [[_ ->]|[_ ->]]; [cbn; lia|contradiction].
  - intros i j p q Hp Hq H1 H2 _. apply demo_parent_slots in Hp as [[-> ->]|[_ ->]], Hq as [[-> ->]|[_ ->]]; try contradiction. reflexivity.
Qed.

Lemma demo_family :
  exists k k1 k3 r, lifecycle k /\ next_pid k = 2 /\ syscall_vfork zero_frame k = inl (0, k1) /\
    syscall_exit zero_frame 7 k1 = inl (r, k3).
Proof.
  set (c := a ← syscall_vfork zero_frame; _ ← syscall_exit zero_frame 7; mret a).
  assert (H : ran (c demo_parent) = Some 0) by (vm_compute; reflexivity). unfold c in H. rewrite run_bind in H.
  destruct (syscall_vfork zero_frame demo_parent) as [[v k1]|] eqn:E2; [|discriminate].
  rewrite run_bind in H. destruct (syscall_exit zero_frame 7 k1) as [[r k3]|] eqn:E3; [|discriminate].
  rewrite run_ret in H. cbn [ran] in H. injection H as ->. exists demo_parent, k1, k3, r.
  split; [exact demo_parent_lifecycle|]. split; [reflexivity|]. split; [exact E2|exact E3].
Qed.

Lemma vfork_exit_returns_witness :
  exists k k1 k3, syscall_vfork zero_frame k = inl (0, k1) /\
    syscall_exit zero_frame 7 k1 = inl ((2, set_frame_rax 2 zero_frame), k3) /\ current_process k3 = current_process k.
Proof.
  destruct demo_family as (k & k1 & _ & _ & Hk & Hn & H1 & _).
  destruct (vfork_exit_returns k k1 k1 zero_frame zero_frame 7 Hk ltac:(lia) H1 ltac:(reflexivity)) as (k3 & He & Hc & _).
  rewrite Hn in He. exists k, k1, k3. split; [exact H1|]. split; [exact He|exact Hc].
Defined.

(** C28. The whole life of a child leaves no trace in the process table: after vfork, and any
    calls by which the child changes its own record alone, the child can exit, and then
    the record of every other process, the parent included, is exactly what it was before
    the vfork: image, break, descriptors and all.  After that, with or without further
    calls of the parent on its own record, wait4 for the child's id answers that id and
    sets the child's slot, which was unused before, to zero; it changes no other slot. *)
Theorem vfork_exit_wait_roundtrip k k1 k2 frame frame' status :
  lifecycle k -> next_pid k < 2 ^ 31 - 1 ->
  syscall_vfork frame k = inl (0, k1) -> own_changes k1 k2 ->
  exists r k3 i, syscall_exit frame' status k2 = inl (r, k3) /\
    (exists p, processes k !! i = Some p /\ state p = PROCESS_UNUSED) /\
    (forall j, j <> i -> processes k3 !! j = processes k !! j) /\
    forall k4, own_changes k3 k4 ->
    exists k5, syscall_wait4 (u64 (next_pid k)) 0 k4 = inl (u64 (next_pid k), k5) /\
      current_process k5 = current_process k /\ processes k5 = <[i := zero_process]> (processes k4) /\
      (forall j, j <> i -> j <> current_process k -> processes k5 !! j = processes k !! j).
Proof.
  intros Hk Hmax Hf Hc. destruct (child_exit_returns k k1 k2 frame frame' status Hk Hmax Hf Hc) as (r & k3 & He).
  pose proof (vfork_exit_others k k1 k2 k3 frame frame' status r Hk Hmax Hf Hc He (oc_others _ _ Hc)) as Ho.
  destruct (vfork_exit_table k k1 k2 k3 frame frame' status r Hk Hmax Hf Hc He)
    as (i & me & p & -> & _ & Hp & Up & _ & _ & Hcur & Hn & Hk3 & (z & Hz & Zs & Zp & Zpar & _) & _).
  exists r, k3, (current_process k1). split; [exact He|]. split; [eauto|]. split; [exact Ho|]. intros k4 H34.
  destruct (Forall2_lookup_l _ _ _ _ _ (st_processes _ _ H34) Hz) as (z4 & Hz4 & Sz).
  destruct (wait4_reaps k4 (current_process k1) z4 (lifecycle_same _ _ H34 Hk3)) as (k5 & E5 & C5 & P5).
  - rewrite <- (st_pid _ _ H34). lia.
  - exact Hz4.
  - rewrite <- (same_state _ _ Sz). exact Zs.
  - rewrite <- (same_parent _ _ Sz), <- (st_current _ _ H34), Hcur. exact Zpar.
  - rewrite <- (same_pid _ _ Sz), Zp in E5. exists k5. split; [exact E5|]. split; [rewrite C5, <- (st_current _ _ H34); exact Hcur|].
    split; [exact P5|]. intros j Hj Hjc. rewrite P5, list_lookup_insert_ne by congruence.
    rewrite (oc_others _ _ H34) by congruence. exact (Ho j Hj).
Qed.

Lemma vfork_exit_wait_roundtrip_witness :
  exists k k1 k3 r k5 i, syscall_vfork zero_frame k = inl (0, k1) /\ syscall_exit zero_frame 7 k1 = inl (r, k3) /\
    syscall_wait4 2 0 k3 = inl (2, k5) /\ forall j, j <> i -> processes k5 !! j = processes k !! j.
Proof.
  destruct demo_family as (k & k1 & _ & _ & Hk & Hn & H1 & _).
  destruct (vfork_exit_wait_roundtrip k k1 k1 zero_frame zero_frame 7 Hk ltac:(lia) H1 ltac:(reflexivity)) as (r & k3 & i & He & (p & Hp & _) & Ho & Hw).
  destruct (Hw k3 ltac:(reflexivity)) as (k5 & H5 & _ & Hi & _). rewrite Hn in H5.
  exists k, k1, k3, r, k5, i. split; [exact H1|]. split; [exact He|]. split; [exact H5|].
  intros j Hj. rewrite Hi, list_lookup_insert_ne by congruence. exact (Ho j Hj).
Defined.

(** vfork always returns, in one of three ways: with EAGAIN and no change when the
    table is full, with ENOMEM and the slot zeroed again when memory runs out, or with 0
    in a child that runs in its own address space with its parent's image, break and open
    files while the parent is blocked. *)
Theorem vfork_correct frame k :
  lifecycle k -> exists r k', syscall_vfork frame k = inl (r, k') /\ vfork_outcome k frame r k'.
Proof. apply vfork_returns. Qed.

Lemma vfork_correct_witness : exists k k1, syscall_vfork zero_frame k = inl (0, k1) /\ vfork_outcome k zero_frame 0 k1.
Proof.
  destruct demo_family as (k & k1 & _ & _ & Hk & _ & H1 & _). exists k, k1. split; [exact H1|].
  destruct (vfork_correct zero_frame k Hk) as (r & k' & E & H). rewrite H1 in E. injection E as <- <-. exact H.
Defined.
