(* ===== verification/UserMem.v ===== *)
(** * User memory through the page tables

    The kernel reads and writes user buffers through the processor's translation.
    Under the invariant of the address spaces, a store changes exactly one byte of the
    current address space: not the tables, not the free frames, not another process. *)

From Stdlib Require Import Ascii String.
From S2P Require Import Prelude CMem CStr Pmm Vmm VmmSpec Ramdisk RamdiskSpec Elf Keyboard Kernel Loader Syscalls ProcTable.

(** The running address space is [r], one of the well-formed [roots]. *)
Definition running (k : kernel) (roots l : list Z) (r : Z) : Prop :=
  space (k_mm k) roots l /\ r ∈ roots /\ cr3_register (k_mm k) = r.

Lemma frame_mask hhdm f : frame_ok hhdm f -> (f & ~u 4095) = f.
Proof.
  intros Hf. pose proof (frame_ok_u64 _ _ Hf). change 4095 with (2 ^ 12 - 1). rewrite land_not_mask by (assumption || lia).
  destruct Hf as (_ & _ & Hf & _). change (2 ^ 12) with 4096. lia.
Qed.

Lemma mmu_node k roots l r va :
  running k roots l r -> user_va va ->
  mmu (k_mm k) va = (fun f => kva (k_mm k) f + va mod 4096) <$> node (k_mm k) r (path va).
Proof.
  intros (Hsp & Hr & Hc) Hva. unfold mmu. rewrite Hc.
  rewrite (frame_mask (hhdm_offset_value (k_mm k))) by (eapply space_root; eassumption).
  rewrite (translate_node _ _ _ _ _ Hsp Hr Hva). destruct (node (k_mm k) r (path va)) as [f|] eqn:E; cbn; [|reflexivity].
  f_equal. apply phys_to_virt_ok; [|apply Z.mod_pos_bound; lia]. apply (sp_frame _ _ _ Hsp r _ f Hr (upath_path va Hva) E).
Qed.

Lemma mmu_byte k roots l r va :
  running k roots l r -> user_va va ->
  (fun a => rd8 (ram (k_mm k)) a) <$> mmu (k_mm k) va = user_byte (k_mm k) r va.
Proof.
  intros Hk Hva. rewrite (mmu_node k roots l r va Hk Hva). destruct Hk as (Hsp & Hr & _).
  rewrite (user_byte_node _ _ _ _ _ Hsp Hr Hva). destruct (node _ _ _); reflexivity.
Qed.

(** ** Reads *)

(** User memory of [r] holds the bytes [bs] at [va]. *)
Definition user_holds (k : kernel) (r va : Z) (bs : list Z) : Prop :=
  forall i b, bs !! i = Some b -> user_byte (k_mm k) r (va + Z.of_nat i) = Some b.

Lemma user_holds_cons k r va b bs :
  user_holds k r va (b :: bs) <-> user_byte (k_mm k) r va = Some b /\ user_holds k r (va + 1) bs.
Proof.
  split.
  - intros H. split; [rewrite <- (Z.add_0_r va); exact (H 0%nat b eq_refl)|].
    intros i c Hc. replace (va + 1 + Z.of_nat i) with (va + Z.of_nat (S i)) by lia. exact (H (S i) c Hc).
  - intros [H0 H] [|i] c Hc; [injection Hc as <-; rewrite Z.add_0_r; exact H0|].
    replace (va + Z.of_nat (S i)) with (va + 1 + Z.of_nat i) by lia. exact (H i c Hc).
Qed.

Lemma user_load_ok k roots l r va b :
  running k roots l r -> user_va va -> user_byte (k_mm k) r va = Some b ->
  user_load va k = inl (b, k).
Proof.
  intros Hk Hva Hb. rewrite <- (mmu_byte k roots l r va Hk Hva) in Hb. unfold user_load. rewrite run_bind. cbn [get_kernel].
  destruct (mmu (k_mm k) va) as [a|]; [|discriminate]. injection Hb as <-. reflexivity.
Qed.

Lemma user_load_bytes_ok k roots l r bs va :
  running k roots l r -> 0 <= va -> va + Z.of_nat (length bs) <= 2 ^ 47 -> user_holds k r va bs ->
  user_load_bytes (length bs) va k = inl (bs, k).
Proof.
  intros Hk. revert va. induction bs as [|b bs IH]; intros va H0 H1 Hh; [reflexivity|].
  apply user_holds_cons in Hh as [Hb Hh]. cbn [length user_load_bytes] in *. rewrite run_bind.
  rewrite (user_load_ok k roots l r va b Hk) by (assumption || (unfold user_va; lia)).
  rewrite run_bind, IH by (assumption || lia). reflexivity.
Qed.

(** ** Valid ranges *)

Lemma user_range_iff address length :
  in_u64 address -> in_u64 length ->
  user_range_is_valid address length = true <->
  length = 0 \/ (USER_IMAGE_MIN <= address /\ address + length <= XBKS_USER_TOP).
Proof.
  unfold in_u64, user_range_is_valid, USER_IMAGE_MIN, XBKS_USER_TOP. intros Ha Hl.
  destruct (Z.eqb_spec length 0); [tauto|].
  destruct (Z.ltb_spec address 65536); cbn [orb]; [split; [discriminate|lia]|].
  destruct (Z.leb_spec 140737488355328 address); [split; [discriminate|lia]|].
  rewrite !uwrap_small by lia. rewrite Z.ltb_lt. lia.
Qed.

(** ** Strings from user memory *)

Lemma user_byte_valid a i :
  USER_IMAGE_MIN <= a -> 0 <= i -> a + i < XBKS_USER_TOP -> user_range_is_valid (a +u i) 1 = true.
Proof.
  unfold USER_IMAGE_MIN, XBKS_USER_TOP. intros Ha Hi H. rewrite uwrap_small by lia.
  apply user_range_iff; unfold in_u64, USER_IMAGE_MIN, XBKS_USER_TOP; lia.
Qed.

(** One character of the copy. *)
Lemma copy_user_step k roots l r a c pre x rest :
  running k roots l r -> USER_IMAGE_MIN <= a -> a + Z.of_nat (length pre) < XBKS_USER_TOP ->
  user_byte (k_mm k) r (a + Z.of_nat (length pre)) = Some c ->
  copy_user_loop (length (x :: rest)) a (Z.of_nat (length pre)) (pre ++ x :: rest) 256 k =
    if c =? 0 then inl ((true, pre ++ c :: rest), k)
    else copy_user_loop (length rest) a (Z.of_nat (length (pre ++ [c]))) ((pre ++ [c]) ++ rest) 256 k.
Proof.
  intros Hk Ha Ht Hc. cbn [length copy_user_loop]. rewrite user_byte_valid by (assumption || lia). cbn [negb].
  rewrite run_bind, (user_load_ok k roots l r _ c Hk); [|unfold user_va, USER_IMAGE_MIN, XBKS_USER_TOP in *; lia|exact Hc].
  rewrite run_bind, buf_set_app. cbn [in_object]. rewrite run_ret. destruct (c =? 0); [reflexivity|].
  rewrite <- app_assoc, length_app, Nat2Z.inj_add. reflexivity.
Qed.

Lemma copy_user_loop_ok k roots l r a s pre rest :
  running k roots l r -> USER_IMAGE_MIN <= a -> a + Z.of_nat (length pre + length s) < XBKS_USER_TOP ->
  (length s < length rest)%nat -> text s -> user_holds k r (a + Z.of_nat (length pre)) (s ++ [0]) ->
  copy_user_loop (length rest) a (Z.of_nat (length pre)) (pre ++ rest) 256 k =
    inl ((true, pre ++ s ++ 0 :: drop (S (length s)) rest), k).
Proof.
  intros Hk Ha. revert pre rest. induction s as [|c s IH]; intros pre rest Ht Hl Hs Hh;
    (destruct rest as [|x rest]; cbn [length] in Hl; [lia|]); apply user_holds_cons in Hh as [Hc Hh].
  - rewrite (copy_user_step k roots l r a 0) by (assumption || (cbn [length] in Ht; lia)). cbn. rewrite drop_0. reflexivity.
  - apply text_cons in Hs as [Hc0 Hs]. cbn [length] in Ht. rewrite (copy_user_step k roots l r a c) by (assumption || lia).
    destruct (Z.eqb_spec c 0); [lia|]. rewrite IH; [rewrite <- app_assoc; reflexivity|..]; try assumption; try lia.
    + rewrite length_app. cbn. lia.
    + rewrite length_app, Nat2Z.inj_add, Z.add_assoc. exact Hh.
Qed.

Lemma copy_user_loop_fails k roots l r a s pre rest :
  running k roots l r -> USER_IMAGE_MIN <= a -> (length pre + length rest = 256)%nat -> text s ->
  user_holds k r (a + Z.of_nat (length pre)) s ->
  (length s = length rest /\ a + Z.of_nat (length pre + length s) <= XBKS_USER_TOP \/
   (length s < length rest)%nat /\ a + Z.of_nat (length pre + length s) = XBKS_USER_TOP) ->
  exists d, copy_user_loop (length rest) a (Z.of_nat (length pre)) (pre ++ rest) 256 k = inl ((false, d), k) /\
    length d = 256%nat.
Proof.
  intros Hk Ha. revert pre rest. induction s as [|c s IH]; intros pre rest H256 Hs Hh Hend.
  - destruct rest as [|x rest].
    + cbn [length copy_user_loop]. rewrite run_bind, app_nil_r. change (256 -u 1) with 255.
      rewrite buf_set_ok by (cbn in H256; lia). cbn [in_object]. eexists. split; [reflexivity|]. rewrite length_insert. cbn in H256. lia.
    + cbn [length] in Hend. destruct Hend as [[? _]|[_ Hend]]; [lia|]. cbn [length copy_user_loop].
      exists (pre ++ x :: rest). split; [|rewrite length_app; exact H256].
      destruct (user_range_is_valid (a +u Z.of_nat (length pre)) 1) eqn:E; [|reflexivity].
      rewrite Nat.add_0_r in Hend. unfold USER_IMAGE_MIN, XBKS_USER_TOP in *. rewrite uwrap_small in E by lia.
      apply user_range_iff in E; unfold in_u64, XBKS_USER_TOP in *; lia.
  - destruct rest as [|x rest]; [destruct Hend as [[? _]|[? _]]; cbn in *; lia|].
    apply user_holds_cons in Hh as [Hc Hh]. apply text_cons in Hs as [Hc0 Hs]. cbn [length] in Hend, H256.
    rewrite (copy_user_step k roots l r a c) by (assumption || lia). destruct (Z.eqb_spec c 0); [lia|].
    apply IH; try assumption.
    + rewrite length_app. cbn. lia.
    + rewrite length_app, Nat2Z.inj_add, Z.add_assoc. exact Hh.
    + rewrite length_app. cbn [length]. lia.
Qed.

Lemma copy_user_string_loop a k :
  USER_IMAGE_MIN <= a < XBKS_USER_TOP ->
  copy_user_string (uninit 256) MAX_STRING a k = copy_user_loop (length (uninit 256)) a (Z.of_nat (length (@nil Z))) ([] ++ uninit 256) 256 k.
Proof.
  intros Ha. unfold copy_user_string. rewrite (proj2 (user_range_iff a 1 ltac:(unfold in_u64, USER_IMAGE_MIN, XBKS_USER_TOP in *; lia) ltac:(unfold in_u64; lia))) by (right; lia).
  reflexivity.
Qed.

(** A terminated string of at most 255 characters arrives whole. *)
Lemma copy_user_string_ok k roots l r a s :
  running k roots l r -> USER_IMAGE_MIN <= a -> a + Z.of_nat (length s) < XBKS_USER_TOP ->
  (length s <= 255)%nat -> text s -> user_holds k r a (s ++ [0]) ->
  exists d, copy_user_string (uninit 256) MAX_STRING a k = inl ((true, d), k) /\ buf_holds d s.
Proof.
  intros Hk Ha Ht Hl Hs Hh. rewrite copy_user_string_loop by lia.
  rewrite (copy_user_loop_ok k roots l r a s [] (uninit 256) Hk Ha);
    [|exact Ht|rewrite length_uninit; lia|exact Hs|rewrite Z.add_0_r; exact Hh].
  eexists. split; [reflexivity|]. split; [|split; [exact Hs|eexists; reflexivity]].
  cbn [app]. rewrite length_app. cbn [length]. rewrite length_drop, length_uninit. lia.
Qed.

(** ** Writes *)

(** The byte at [va'] after storing [bs] at [va]. *)
Definition overlay (va : Z) (bs : list Z) (va' : Z) : option Z :=
  if va' <? va then None else bs !! Z.to_nat (va' - va).

(** An address outside the pages of all user address spaces. *)
Definition not_user (s : mm) (roots : list Z) (a : Z) : Prop :=
  forall r p f, r ∈ roots -> upath p -> node s r p = Some f -> ~ in_page (hhdm_offset_value s) f a.

(** An address outside the tables and pages of the address space [r]. *)
Definition off_space (s : mm) (r a : Z) : Prop :=
  forall p f, upath p -> node s r p = Some f -> ~ in_page (hhdm_offset_value s) f a.

(** [bs] has been stored at [va] in the address space [r]; nothing else changed. *)
Record stored (roots l : list Z) (r va : Z) (bs : list Z) (s s' : mm) : Prop := Stored {
  sd_space : space s' roots l;
  sd_config : same_config s s';
  sd_nodes : forall r' p, r' ∈ roots -> upath p -> node s' r' p = node s r' p;
  sd_user : forall r' va', r' ∈ roots -> user_va va' ->
    user_byte s' r' va' =
      match (if bool_decide (r' = r) then overlay va bs va' else None) with
      | Some b => Some b
      | None => user_byte s r' va'
      end;
  sd_kernel : forall a, off_space s r a -> rd8 (ram s') a = rd8 (ram s) a;
}.

Lemma overlay_nil va va' : overlay va [] va' = None.
Proof. unfold overlay. case_bool; reflexivity. Qed.

Lemma overlay_cons va b bs va' :
  overlay va (b :: bs) va' = if va' =? va then Some b else overlay (va + 1) bs va'.
Proof.
  unfold overlay. destruct (Z.eqb_spec va' va) as [->|Hne].
  - destruct (Z.ltb_spec va va); [lia|]. rewrite Z.sub_diag. reflexivity.
  - destruct (Z.ltb_spec va' va), (Z.ltb_spec va' (va + 1)); try lia; [reflexivity|].
    replace (Z.to_nat (va' - va)) with (S (Z.to_nat (va' - (va + 1)))) by lia. reflexivity.
Qed.

Lemma stored_nil roots l r va s : space s roots l -> stored roots l r va [] s s.
Proof.
  intros H. constructor; try reflexivity; [exact H|repeat split|]. intros r' va' _ _. rewrite overlay_nil.
  destruct (bool_decide _); reflexivity.
Qed.

(** Writing one byte of a leaf page. *)
Lemma stored_byte s roots l r va f v :
  space s roots l -> r ∈ roots -> user_va va -> node s r (path va) = Some f ->
  stored roots l r va [u8 v] s (set_ram s (wr8 (ram s) (kva s f + va mod 4096) v)).
Proof.
  intros Hsp Hr Hva Hn. set (a := kva s f + va mod 4096). set (s' := set_ram s _).
  pose proof (upath_path va Hva) as Hu. destruct (sp_frame _ _ _ Hsp r _ f Hr Hu Hn) as [Hf Hfl].
  assert (Ha : in_page (hhdm_offset_value s) f a).
  { unfold in_page, a, kva. pose proof (Z.mod_pos_bound va 4096). lia. }
  assert (Hm : forall b, b <> a -> rd8 (ram s') b = rd8 (ram s) b).
  { intros b Hb. cbn. rewrite rd8_wr8. destruct (Z.eqb_spec b a); [congruence|reflexivity]. }
  assert (Hsame : same_but (hhdm_offset_value s) f (ram s) (ram s')).
  { intros b Hb. apply Hm. intros ->. contradiction. }
  assert (Hnodes : forall r' p, r' ∈ roots -> upath p -> node s' r' p = node s r' p).
  { intros r' p Hr' Hp. eapply node_other_page; [exact Hsp|exact Hr'|exact Hp|reflexivity|exact Hsame|exact Hf|].
    intros q1 x Hq1 Hl Hx ->. destruct (sp_inj _ _ _ Hsp r' r q1 (path va) f Hr' Hr Hq1 Hu Hx Hn) as [_ ->].
    rewrite upath_length in Hl. lia. }
  assert (Hsp' : space s' roots l).
  { split.
    - apply pool_set_ram; [apply Hsp|]. intros g b Hg Hb. apply Hsame. intros Hfb.
      destruct (fp_frames s l (sp_pool _ _ _ Hsp)) as [_ Hok]. rewrite List.Forall_forall in Hok.
      apply Hfl. rewrite (in_page_inj _ f g b Hf (Hok g (proj1 (list_elem_of_In _ _) Hg)) Hfb Hb). exact Hg.
    - intros r' p g Hr' Hp Hg. rewrite Hnodes in Hg by assumption. exact (sp_frame _ _ _ Hsp r' p g Hr' Hp Hg).
    - intros r1 r2 p1 p2 g H1 H2 P1 P2 G1 G2. rewrite Hnodes in G1, G2 by assumption.
      exact (sp_inj _ _ _ Hsp r1 r2 p1 p2 g H1 H2 P1 P2 G1 G2). }
  constructor; [exact Hsp'|repeat split|exact Hnodes| |].
  - intros r' va' Hr' Hva'. rewrite (user_byte_node s' roots l), (user_byte_node s roots l), Hnodes by (assumption || apply upath_path, Hva').
    pose proof (upath_path va' Hva') as Hu'. rewrite overlay_cons, overlay_nil.
    destruct (node s r' (path va')) as [g|] eqn:Hg; cbn [fmap option_fmap option_map].
    + change (kva s' g) with (kva s g). destruct (sp_frame _ _ _ Hsp r' _ g Hr' Hu' Hg) as [Hgo _].
      assert (Hgin : in_page (hhdm_offset_value s) g (kva s g + va' mod 4096)).
      { unfold in_page, kva. pose proof (Z.mod_pos_bound va' 4096). lia. }
      destruct (decide (kva s g + va' mod 4096 = a)) as [E|E].
      * rewrite E in Hgin |- *. pose proof (in_page_inj _ f g a Hf Hgo Ha Hgin) as <-.
        destruct (sp_inj _ _ _ Hsp r r' _ _ f Hr Hr' Hu Hu' Hn Hg) as [<- Ep].
        assert (va' = va) as ->.
        { assert (va' / 4096 = va / 4096) by (apply path_inj; [assumption..|symmetry; exact Ep]). unfold a, kva in E.
          pose proof (Z.div_mod va 4096). pose proof (Z.div_mod va' 4096). lia. }
        rewrite bool_decide_eq_true_2, Z.eqb_refl by reflexivity. cbn. rewrite rd8_wr8, Z.eqb_refl. reflexivity.
      * rewrite Hm by exact E. destruct (bool_decide_reflect (r' = r)) as [->|]; [|reflexivity].
        destruct (Z.eqb_spec va' va) as [->|]; [|reflexivity]. exfalso. rewrite Hn in Hg. injection Hg as <-. apply E. reflexivity.
    + destruct (bool_decide_reflect (r' = r)) as [->|]; [|reflexivity]. destruct (Z.eqb_spec va' va) as [->|]; [congruence|reflexivity].
  - intros b Hb. apply Hm. intros ->. exact (Hb (path va) f Hu Hn Ha).
Qed.

Lemma not_user_stored roots l r va bs s s' a :
  stored roots l r va bs s s' -> not_user s roots a -> not_user s' roots a.
Proof.
  intros H Ha r' p f Hr Hp Hf. rewrite (sd_nodes _ _ _ _ _ _ _ H) in Hf by assumption.
  rewrite (proj1 (sd_config _ _ _ _ _ _ _ H)). exact (Ha r' p f Hr Hp Hf).
Qed.

Lemma off_space_stored roots l r va bs s s' a :
  r ∈ roots -> stored roots l r va bs s s' -> off_space s r a -> off_space s' r a.
Proof.
  intros Hr H Ha p f Hp Hf. rewrite (sd_nodes _ _ _ _ _ _ _ H) in Hf by assumption.
  rewrite (proj1 (sd_config _ _ _ _ _ _ _ H)). exact (Ha p f Hp Hf).
Qed.

Lemma not_user_off s roots r a : r ∈ roots -> not_user s roots a -> off_space s r a.
Proof. intros Hr Ha p f. apply Ha, Hr. Qed.

Lemma stored_app_cons roots l r va b bs s s1 s2 :
  r ∈ roots -> stored roots l r va [b] s s1 -> stored roots l r (va + 1) bs s1 s2 -> stored roots l r va (b :: bs) s s2.
Proof.
  intros Hr0 H1 H2. constructor.
  - apply H2.
  - destruct (sd_config _ _ _ _ _ _ _ H1) as (? & ? & ?), (sd_config _ _ _ _ _ _ _ H2) as (? & ? & ?). repeat split; congruence.
  - intros r' p Hr Hp. rewrite (sd_nodes _ _ _ _ _ _ _ H2), (sd_nodes _ _ _ _ _ _ _ H1) by assumption. reflexivity.
  - intros r' va' Hr Hva. rewrite (sd_user _ _ _ _ _ _ _ H2), (sd_user _ _ _ _ _ _ _ H1) by assumption.
    rewrite !overlay_cons, overlay_nil. destruct (bool_decide (r' = r)); [|reflexivity].
    destruct (Z.eqb_spec va' va) as [->|]; [|destruct (overlay (va + 1) bs va'); reflexivity].
    unfold overlay. destruct (Z.ltb_spec va (va + 1)); [reflexivity|lia].
  - intros a Ha. rewrite (sd_kernel _ _ _ _ _ _ _ H2), (sd_kernel _ _ _ _ _ _ _ H1); [reflexivity|exact Ha|].
    exact (off_space_stored _ _ _ _ _ _ _ _ Hr0 H1 Ha).
Qed.

(** A mapped user address. *)
Definition mapped (s : mm) (r va : Z) : Prop := exists f, node s r (path va) = Some f.

Lemma user_store_ok k roots l r va v :
  running k roots l r -> user_va va -> mapped (k_mm k) r va ->
  exists s', user_store va v k = inl (tt, with_mm k s') /\ stored roots l r va [u8 v] (k_mm k) s'.
Proof.
  intros Hk Hva [f Hf]. unfold user_store. rewrite run_bind. cbn [get_kernel].
  rewrite (mmu_node k roots l r va Hk Hva), Hf. cbn [fmap option_fmap option_map].
  destruct Hk as (Hsp & Hr & _). eexists. split; [reflexivity|]. exact (stored_byte _ _ _ _ _ _ _ Hsp Hr Hva Hf).
Qed.

Lemma running_stored k roots l r va bs s' :
  running k roots l r -> stored roots l r va bs (k_mm k) s' -> running (with_mm k s') roots l r.
Proof.
  intros (_ & Hr & Hc) H. split; [apply H|]. split; [exact Hr|]. cbn. rewrite <- Hc. apply H.
Qed.

Lemma mapped_stored roots l r va bs s s' va' :
  stored roots l r va bs s s' -> r ∈ roots -> user_va va' -> mapped s r va' -> mapped s' r va'.
Proof.
  intros H Hr Hva [f Hf]. exists f. rewrite (sd_nodes _ _ _ _ _ _ _ H); [exact Hf|exact Hr|apply upath_path, Hva].
Qed.

(** A buffer of [n] mapped user addresses. *)
Definition buffer_ok (s : mm) (r va : Z) (n : nat) : Prop :=
  0 <= va /\ va + Z.of_nat n <= 2 ^ 47 /\ forall i, 0 <= i < Z.of_nat n -> mapped s r (va + i).

Lemma buffer_ok_S s r va n :
  buffer_ok s r va (S n) -> user_va va /\ mapped s r va /\ buffer_ok s r (va + 1) n.
Proof.
  intros (H0 & H1 & H). split; [unfold user_va; lia|]. split; [rewrite <- (Z.add_0_r va); apply H; lia|].
  split; [lia|]. split; [lia|]. intros i Hi. rewrite <- Z.add_assoc. apply H. lia.
Qed.

Lemma buffer_ok_stored roots l r va bs s s' va' n :
  stored roots l r va bs s s' -> r ∈ roots -> buffer_ok s r va' n -> buffer_ok s' r va' n.
Proof.
  intros H Hr (H0 & H1 & Hm). split; [exact H0|]. split; [exact H1|]. intros i Hi.
  apply (mapped_stored _ _ _ _ _ _ _ _ H Hr); [unfold user_va; lia|exact (Hm i Hi)].
Qed.

Lemma user_copy_out_ok n k roots l r va src :
  running k roots l r -> buffer_ok (k_mm k) r va n ->
  (forall i, 0 <= i < Z.of_nat n -> not_user (k_mm k) roots (src + i)) ->
  exists s', user_copy_out n va src k = inl (tt, with_mm k s') /\
    stored roots l r va (bytes_at (ram (k_mm k)) src n) (k_mm k) s'.
Proof.
  revert k va src. induction n as [|n IH]; intros k va src Hk Hb Hsrc.
  { exists (k_mm k). split; [destruct k; reflexivity|apply stored_nil, Hk]. }
  apply buffer_ok_S in Hb as (Hva & Hm & Hb). cbn [user_copy_out bytes_at]. rewrite run_bind. cbn [get_kernel]. rewrite run_bind.
  destruct (user_store_ok k roots l r va (rd8 (ram (k_mm k)) src) Hk Hva Hm) as (s1 & -> & H1).
  rewrite (uwrap_small 8) in H1 by (change (2 ^ 8) with 256; apply rd8_range).
  pose proof Hk as (_ & Hr & _).
  destruct (IH (with_mm k s1) (va + 1) (src + 1)) as (s2 & -> & H2).
  - exact (running_stored _ _ _ _ _ _ _ Hk H1).
  - exact (buffer_ok_stored _ _ _ _ _ _ _ _ _ H1 Hr Hb).
  - intros i Hi. apply (not_user_stored _ _ _ _ _ _ _ _ H1). rewrite <- Z.add_assoc. apply Hsrc. lia.
  - exists s2. split; [reflexivity|]. cbn [with_mm k_mm] in H2.
    rewrite (bytes_at_ext _ (ram (k_mm k))) in H2.
    + exact (stored_app_cons _ _ _ _ _ _ _ _ _ Hr H1 H2).
    + intros a Ha. apply (sd_kernel _ _ _ _ _ _ _ H1), (not_user_off _ roots); [exact Hr|]. replace a with (src + (a - src)) by lia. apply Hsrc. lia.
Qed.
