(* ===== verification/LoaderSpec.v ===== *)
(** * Building an address space: the theory

    How the routines of src/kernel/process.c that map and fill user memory change what a
    process sees.  [refilled] says that one address space changed to a given view while
    everything else, other address spaces and the rest of the kernel's memory, stayed. *)

From Stdlib Require Import Ascii String.
From S2P Require Import Prelude CMem CStr Pmm Vmm VmmSpec Ramdisk Elf Keyboard Kernel Loader Syscalls ProcTable UserMem.

(** ** Views *)

(** The range from [lo] below [hi] filled with zeros. *)
Definition zeroed (lo hi : Z) (view : Z -> option Z) (a : Z) : option Z :=
  if (lo <=? a) && (a <? hi) then Some 0 else view a.

(** The bytes [bs] written at [va]. *)
Definition written (va : Z) (bs : list Z) (view : Z -> option Z) (a : Z) : option Z :=
  match overlay va bs a with Some b => Some b | None => view a end.

(** An address in no free page and in no page of the space [r]. *)
Definition outside (s : mm) (r : Z) (l : list Z) (a : Z) : Prop :=
  (forall f, f ∈ l -> ~ in_page (hhdm_offset_value s) f a) /\
  (forall q x, upath q -> node s r q = Some x -> ~ in_page (hhdm_offset_value s) x a).

(** The space [r] goes from [s] to [s'] and shows [view]; of the free frames [l], those of
    [l'] are still free, those of [h] in hand, and the others in the tables of [r]. *)
Record refilling (h roots l l' : list Z) (r : Z) (view : Z -> option Z) (s s' : mm) : Prop := Refilling {
  rf_space : space s' roots l';
  rf_config : same_config s s';
  rf_free : forall f, f ∈ l' -> f ∈ l;
  rf_new : forall r' q x, r' ∈ roots -> upath q -> node s' r' q = Some x ->
    node s r' q = Some x \/ (r' = r /\ x ∈ l);
  rf_keep : forall r' q x, r' ∈ roots -> upath q -> node s r' q = Some x -> node s' r' q = Some x;
  rf_used : forall x, x ∈ l -> x ∈ h \/ x ∈ l' \/ exists q, upath q /\ node s' r q = Some x;
  rf_other : forall r' va, r' ∈ roots -> r' <> r -> user_va va -> user_byte s' r' va = user_byte s r' va;
  rf_user : forall va, user_va va -> user_byte s' r va = view va;
  rf_mem : forall a, outside s r l a -> rd8 (ram s') a = rd8 (ram s) a;
}.

Abbreviation refilled := (refilling []).

Lemma refilled_refl roots l r s : space s roots l -> refilled roots l l r (user_byte s r) s s.
Proof. intros H. constructor; auto with xbks. Qed.

Lemma outside_refilled h roots l l' r view s s' a :
  r ∈ roots -> refilling h roots l l' r view s s' -> outside s r l a -> outside s' r l' a.
Proof.
  intros Hr H [H1 H2]. unfold outside. rewrite (proj1 (rf_config _ _ _ _ _ _ _ _ H)). split.
  - intros f Hf. apply H1, (rf_free _ _ _ _ _ _ _ _ H), Hf.
  - intros q x Hq Hx. destruct (rf_new _ _ _ _ _ _ _ _ H r q x Hr Hq Hx) as [Hx'|[_ Hx']]; [exact (H2 q x Hq Hx')|exact (H1 x Hx')].
Qed.

Lemma refilled_trans h roots l1 l2 l3 r v1 v2 s1 s2 s3 :
  r ∈ roots -> refilling h roots l1 l2 r v1 s1 s2 -> refilling h roots l2 l3 r v2 s2 s3 -> refilling h roots l1 l3 r v2 s1 s3.
Proof.
  intros Hr H1 H2. constructor.
  - apply H2.
  - pose proof (rf_config _ _ _ _ _ _ _ _ H1). pose proof (rf_config _ _ _ _ _ _ _ _ H2). eauto with xbks.
  - intros f Hf. apply H1, H2, Hf.
  - intros r' q x Hr' Hq Hx. destruct (rf_new _ _ _ _ _ _ _ _ H2 r' q x Hr' Hq Hx) as [Hx'|[-> Hx']].
    + exact (rf_new _ _ _ _ _ _ _ _ H1 r' q x Hr' Hq Hx').
    + right. split; [reflexivity|apply H1, Hx'].
  - intros r' q x Hr' Hq Hx. exact (rf_keep _ _ _ _ _ _ _ _ H2 r' q x Hr' Hq (rf_keep _ _ _ _ _ _ _ _ H1 r' q x Hr' Hq Hx)).
  - intros x Hx. destruct (rf_used _ _ _ _ _ _ _ _ H1 x Hx) as [Hh|[Hx'|(q & Hq & Hx')]]; [left; exact Hh|exact (rf_used _ _ _ _ _ _ _ _ H2 x Hx')|].
    right. right. exists q. split; [exact Hq|exact (rf_keep _ _ _ _ _ _ _ _ H2 r q x Hr Hq Hx')].
  - intros r' va Hr' Hne Hva. rewrite (rf_other _ _ _ _ _ _ _ _ H2), (rf_other _ _ _ _ _ _ _ _ H1) by assumption. reflexivity.
  - apply H2.
  - intros a Ha. rewrite (rf_mem _ _ _ _ _ _ _ _ H2), (rf_mem _ _ _ _ _ _ _ _ H1); [reflexivity|exact Ha|].
    exact (outside_refilled _ _ _ _ _ _ _ _ _ Hr H1 Ha).
Qed.

(** Views only matter on user addresses. *)
Lemma refilled_view h roots l l' r v v' s s' :
  refilling h roots l l' r v s s' -> (forall a, user_va a -> v a = v' a) -> refilling h roots l l' r v' s s'.
Proof. intros [] Hv. constructor; try assumption. intros va Hva. rewrite <- Hv by exact Hva. auto. Qed.

Lemma mapped_byte s roots l r va :
  space s roots l -> r ∈ roots -> user_va va -> (mapped s r va <-> user_byte s r va <> None).
Proof.
  intros Hsp Hr Hva. rewrite (user_byte_node s roots l r va Hsp Hr Hva). unfold mapped.
  destruct (node s r (path va)) as [f|]; cbn; split; [discriminate|eauto|intros [? ?]; discriminate|congruence].
Qed.

(** A table growing changes no view. *)
Lemma grow_refilled h roots r s s' l l' :
  space s roots l -> r ∈ roots -> grow roots r s s' l l' -> refilling h roots l l' r (user_byte s r) s s'.
Proof.
  intros Hsp Hr G. constructor.
  - apply G.
  - apply G.
  - intros f Hf. eapply suffix_elem; [apply G|exact Hf].
  - intros r' q x Hr' Hq Hx. destruct (g_new _ _ _ _ _ _ G r' q x Hr' Hq Hx) as [?|(? & _ & ?)]; auto.
  - apply G.
  - intros x Hx. right. destruct (g_used _ _ _ _ _ _ G x Hx) as [?|(q & Hq & _ & Hn)]; [left; assumption|right; eauto].
  - intros r' va Hr' _ Hva. apply (grow_user roots r s s' l l' r' va Hsp G Hr Hr' Hva).
  - intros va Hva. apply (grow_user roots r s s' l l' r va Hsp G Hr Hr Hva).
  - intros a [Ha1 Ha2]. apply (g_mem _ _ _ _ _ _ G). split; [exact Ha1|]. intros q x Hq _ Hx. exact (Ha2 q x Hq Hx).
Qed.

(** ** One page *)

Lemma alloc_refilled s roots f l r :
  space s roots (f :: l) -> r ∈ roots ->
  exists s', xbks_pmm_alloc_frame s = (f, s') /\ refilling [f] roots (f :: l) l r (user_byte s r) s s' /\
    fresh_frame s' roots l f /\ page_zero s' f.
Proof.
  intros Hsp Hr. destruct (space_alloc s roots f l Hsp) as (s' & E & Hsp' & Hz & Hm & Hc & Hf & Hfl & Hn & Hfr).
  exists s'. split; [exact E|].
  assert (Hub : forall r' va, r' ∈ roots -> user_va va -> user_byte s' r' va = user_byte s r' va).
  { intros r' va Hr' Hva. pose proof (upath_path va Hva) as Hu.
    eapply user_byte_agree; [exact Hsp|exact Hsp'|exact Hr'|exact Hva|apply Hc|apply Hn; assumption|].
    intros x a Hx Ha. apply Hm. intros Hfa. apply (Hfr r' (path va) Hr' Hu). rewrite Hx. f_equal.
    eapply in_page_inj; [apply (sp_frame _ _ _ Hsp r' _ x Hr' Hu Hx)|exact Hf|exact Ha|exact Hfa]. }
  split; [constructor|split; [split; [rewrite (proj1 Hc); exact Hf|]; split; [exact Hfl|]|exact Hz]].
  - exact Hsp'.
  - exact Hc.
  - intros g Hg. right. exact Hg.
  - intros r' q x Hr' Hq Hx. left. rewrite <- Hn by assumption. exact Hx.
  - intros r' q x Hr' Hq Hx. rewrite Hn by assumption. exact Hx.
  - intros x Hx. apply elem_of_cons in Hx as [->|Hx]; [left; left|right; left; exact Hx].
  - intros r' va Hr' _ Hva. apply Hub; assumption.
  - intros va Hva. apply Hub; assumption.
  - intros a [Ha _]. apply Hm, Ha. left.
  - intros r' q Hr' Hq. rewrite Hn by assumption. apply Hfr; assumption.
Qed.

(** Giving back a frame that was free before. *)
Lemma free_refilled s s' roots l l' r v f :
  refilling [f] roots l l' r v s s' -> r ∈ roots -> fresh_frame s' roots l' f -> f ∈ l ->
  refilled roots l (f :: l') r v s (xbks_pmm_free_frame s' f).
Proof.
  intros H Hr (Hf & Hfl & Hfr) Hin. pose proof (rf_space _ _ _ _ _ _ _ _ H) as Hsp.
  pose proof (rf_config _ _ _ _ _ _ _ _ H) as Hc.
  destruct (fp_free s' f l' (sp_pool _ _ _ Hsp) Hf Hfl) as (Hp & Hm & Hc').
  set (t := xbks_pmm_free_frame s' f) in *.
  assert (Hn : forall r' q, r' ∈ roots -> upath q -> node t r' q = node s' r' q).
  { intros r' q Hr' Hq. eapply node_other_page; [exact Hsp|exact Hr'|exact Hq|apply Hc'|exact Hm|exact Hf|].
    intros q1 x Hq1 _ Hx ->. exact (Hfr r' q1 Hr' Hq1 Hx). }
  assert (Hspt : space t roots (f :: l')).
  { split; [exact Hp| |].
    - intros r' q x Hr' Hq Hx. rewrite Hn in Hx by assumption. rewrite (proj1 Hc').
      destruct (sp_frame _ _ _ Hsp r' q x Hr' Hq Hx) as [Hx1 Hx2]. split; [exact Hx1|].
      apply not_elem_of_cons. split; [|exact Hx2]. intros ->. exact (Hfr r' q Hr' Hq Hx).
    - intros r1 r2 q1 q2 x H1 H2 Q1 Q2 X1 X2. rewrite Hn in X1, X2 by assumption.
      exact (sp_inj _ _ _ Hsp r1 r2 q1 q2 x H1 H2 Q1 Q2 X1 X2). }
  assert (Hub : forall r' va, r' ∈ roots -> user_va va -> user_byte t r' va = user_byte s' r' va).
  { intros r' va Hr' Hva. pose proof (upath_path va Hva) as Hu.
    eapply user_byte_agree; [exact Hsp|exact Hspt|exact Hr'|exact Hva|apply Hc'|apply Hn; assumption|].
    intros x a Hx Ha. apply Hm. intros Hfa. apply (Hfr r' (path va) Hr' Hu). rewrite Hx. f_equal.
    eapply in_page_inj; [apply (sp_frame _ _ _ Hsp r' _ x Hr' Hu Hx)|exact Hf|exact Ha|exact Hfa]. }
  constructor.
  - exact Hspt.
  - eauto with xbks.
  - intros g Hg. apply elem_of_cons in Hg as [->|Hg]; [exact Hin|apply H, Hg].
  - intros r' q x Hr' Hq Hx. rewrite Hn in Hx by assumption. exact (rf_new _ _ _ _ _ _ _ _ H r' q x Hr' Hq Hx).
  - intros r' q x Hr' Hq Hx. rewrite Hn by assumption. exact (rf_keep _ _ _ _ _ _ _ _ H r' q x Hr' Hq Hx).
  - intros x Hx. right. destruct (rf_used _ _ _ _ _ _ _ _ H x Hx) as [Hh|[Hx'|(q & Hq & Hx')]].
    + apply list_elem_of_singleton in Hh as ->. left. left.
    + left. right. exact Hx'.
    + right. exists q. split; [exact Hq|]. rewrite Hn by assumption. exact Hx'.
  - intros r' va Hr' Hne Hva. rewrite Hub by assumption. apply H; assumption.
  - intros va Hva. rewrite Hub by assumption. apply H; assumption.
  - intros a Ha. rewrite Hm; [apply H, Ha|]. rewrite (proj1 Hc). apply (proj1 Ha), Hin.
Qed.

(** Linking a zeroed page that is neither free nor in use. *)
Section Link.
Context (s0 s s' : mm) (roots l0 l l' : list Z) (r va f : Z) (Hr : r ∈ roots) (Hva : user_va va) (Hal : va mod 4096 = 0).
Context (H0 : refilling [f] roots l0 l r (user_byte s0 r) s0 s) (Hfr : fresh_frame s roots l f) (Hz : page_zero s f) (Hin : f ∈ l0).
Context (s1 : mm) (G : grow roots r s s1 l l') (Hsp' : space s' roots l') (Hc : same_config s1 s')
  (Hnone : node s r (path va) = None) (Hn : node s' r (path va) = Some f) (Hm : forall a, untouched s r l a -> rd8 (ram s') a = rd8 (ram s) a)
  (Ho : forall r' q, r' ∈ roots -> upath q -> (r', q) <> (r, path va) -> node s' r' q = node s1 r' q).

Let Hsp : space s roots l := rf_space _ _ _ _ _ _ _ _ H0.

Lemma link_hhdm : hhdm_offset_value s' = hhdm_offset_value s.
Proof using Hc G. rewrite (proj1 Hc). apply (g_config _ _ _ _ _ _ G). Qed.

Lemma fresh_untouched a : in_page (hhdm_offset_value s) f a -> untouched s r l a.
Proof using Hfr Hsp Hr.
  destruct Hfr as (Hf & Hfl & Hfn). intros Ha. destruct (fp_frames s l (sp_pool _ _ _ Hsp)) as [_ Hok].
  rewrite List.Forall_forall in Hok. split.
  - intros g Hg Hga. apply Hfl. rewrite (in_page_inj _ f g a Hf (Hok g (proj1 (list_elem_of_In _ _) Hg)) Ha Hga). exact Hg.
  - intros q x Hq _ Hx Hxa. apply (Hfn r q Hr Hq). rewrite Hx. f_equal.
    eapply in_page_inj; [apply (sp_frame _ _ _ Hsp r q x Hr Hq Hx)|exact Hf|exact Hxa|exact Ha].
Qed.

Lemma link_page d : 0 <= d < 4096 -> user_byte s' r (va + d) = Some 0.
Proof using Hz Hsp' Hr Hn Hm Hfr Hc G Hal Hva Hsp.
  intros Hd. assert (Hvad : user_va (va + d)) by (unfold user_va in *; pose proof (Z.div_mod va 4096); lia).
  rewrite (user_byte_node s' roots l' r _ Hsp' Hr Hvad), path_page, Hn by assumption. cbn [fmap option_fmap option_map]. f_equal.
  assert (Ha : in_page (hhdm_offset_value s) f (kva s' f + (va + d) mod 4096)).
  { unfold in_page, kva. rewrite link_hhdm. pose proof (Z.mod_pos_bound (va + d) 4096). lia. }
  rewrite Hm by (apply fresh_untouched, Ha). apply Hz, Ha.
Qed.

Lemma link_elsewhere r' va' :
  r' ∈ roots -> user_va va' -> r' <> r \/ va' / 4096 <> va / 4096 -> user_byte s' r' va' = user_byte s r' va'.
Proof using Hsp' Hsp Hr Ho Hm Hva Hc G.
  intros Hr' Hva' Hne. pose proof (upath_path va' Hva') as Hu.
  assert (Hnode : node s' r' (path va') = node s r' (path va')).
  { rewrite Ho; [|assumption..|].
    - eapply grow_leaf; [exact G|exact Hr'|exact Hu|reflexivity].
    - intros [= E1 E2]. destruct Hne as [Hne|Hne]; [congruence|]. apply Hne, path_inj; try assumption. unfold path. congruence. }
  eapply user_byte_agree; [exact Hsp|exact Hsp'|exact Hr'|exact Hva'|exact link_hhdm|exact Hnode|].
  intros x a Hx Ha. apply Hm. eapply leaf_untouched; [exact Hsp|exact Hr|exact Hr'|exact Hu|reflexivity|exact Hx|exact Ha].
Qed.

Lemma link_absent : node s1 r (path va) = None.
Proof using Hnone Hr Hva G.
  rewrite (grow_leaf _ _ _ _ _ _ _ _ G Hr (upath_path va Hva) eq_refl). exact Hnone.
Qed.

Lemma link_keeps r' q x : r' ∈ roots -> upath q -> node s r' q = Some x -> node s' r' q = Some x.
Proof using Ho Hnone G.
  intros Hr' Hq Hx. rewrite Ho; [apply (g_node _ _ _ _ _ _ G); assumption|assumption..|]. intros [= -> ->]. congruence.
Qed.

Lemma link_refilled : refilled roots l0 l' r (zeroed va (va + 4096) (user_byte s0 r)) s0 s'.
Proof using All.
  pose proof (rf_config _ _ _ _ _ _ _ _ H0) as Hc0. pose proof (g_config _ _ _ _ _ _ G) as Hcg. constructor.
  - exact Hsp'.
  - eauto with xbks.
  - intros g Hg. apply H0. eapply suffix_elem; [apply G|exact Hg].
  - intros r' q x Hr' Hq Hx. destruct (decide ((r', q) = (r, path va))) as [[= -> ->]|E].
    + rewrite Hn in Hx. injection Hx as <-. right. split; [reflexivity|exact Hin].
    + rewrite Ho in Hx by assumption. destruct (g_new _ _ _ _ _ _ G r' q x Hr' Hq Hx) as [Hx'|(-> & _ & Hx')].
      * exact (rf_new _ _ _ _ _ _ _ _ H0 r' q x Hr' Hq Hx').
      * right. split; [reflexivity|apply H0, Hx'].
  - intros r' q x Hr' Hq Hx. apply link_keeps; [assumption..|]. exact (rf_keep _ _ _ _ _ _ _ _ H0 r' q x Hr' Hq Hx).
  - intros x Hx. right. destruct (rf_used _ _ _ _ _ _ _ _ H0 x Hx) as [Hh|[Hx'|(q & Hq & Hx')]].
    + apply list_elem_of_singleton in Hh as ->. right. exists (path va). split; [apply upath_path, Hva|exact Hn].
    + destruct (g_used _ _ _ _ _ _ G x Hx') as [?|(q & Hq & _ & Hx1)]; [left; assumption|]. right. exists q. split; [exact Hq|].
      rewrite Ho; [exact Hx1|exact Hr|exact Hq|]. intros [= ->]. rewrite link_absent in Hx1. discriminate.
    + right. exists q. split; [exact Hq|apply link_keeps; assumption].
  - intros r' va' Hr' Hne Hva'. rewrite link_elsewhere by auto. apply H0; assumption.
  - intros va' Hva'. unfold zeroed. pose proof (Z.div_mod va 4096). pose proof (Z.div_mod va' 4096). pose proof (Z.mod_pos_bound va' 4096).
    destruct (Z.leb_spec va va'); [destruct (Z.ltb_spec va' (va + 4096))|]; cbn [andb].
    + replace va' with (va + (va' - va)) by lia. apply link_page. lia.
    + rewrite link_elsewhere by (assumption || (right; lia)). exact (rf_user _ _ _ _ _ _ _ _ H0 va' Hva').
    + rewrite link_elsewhere by (assumption || (right; lia)). exact (rf_user _ _ _ _ _ _ _ _ H0 va' Hva').
  - intros a Ha. pose proof (outside_refilled _ _ _ _ _ _ _ _ _ Hr H0 Ha) as [Ha1 Ha2]. rewrite Hm.
    + apply H0, Ha.
    + split; [exact Ha1|]. intros q x Hq _ Hx. exact (Ha2 q x Hq Hx).
Qed.
End Link.

Lemma map_user_page_spec s roots l r va flags :
  space s roots l -> r ∈ roots -> user_va va -> va mod 4096 = 0 -> 0 <= flags < 4096 ->
  match map_user_page s r va flags with
  | (true, s') => user_byte s r va = None /\ exists l', (length l <= 4 + length l')%nat /\
      refilled roots l l' r (zeroed va (va + 4096) (user_byte s r)) s s'
  | (false, s') => (exists l', refilled roots l l' r (user_byte s r) s s') /\
      (user_byte s r va <> None \/ (length l < 4)%nat)
  end.
Proof.
  intros Hsp Hr Hva Hal Hfl. unfold map_user_page. destruct l as [|f l].
  { rewrite (fp_empty s (sp_pool _ _ _ Hsp)). cbn [Z.eqb]. split; [exists []; apply refilled_refl, Hsp|right; cbn; lia]. }
  destruct (alloc_refilled s roots f l r Hsp Hr) as (s1 & -> & H1 & Hfr & Hz).
  pose proof Hfr as ((_ & Hf0 & _) & _). destruct (Z.eqb_spec f 0); [lia|].
  assert (Hfl' : 0 <= Z.lor flags XBKS_PAGE_USER < 4096) by (apply (lor_range 12); [lia|lia|unfold XBKS_PAGE_USER; lia]).
  pose proof (rf_space _ _ _ _ _ _ _ _ H1) as Hsp1.
  assert (Hnone : node s1 r (path va) = None <-> user_byte s r va = None).
  { rewrite <- (rf_user _ _ _ _ _ _ _ _ H1 va Hva), (user_byte_node s1 roots l r va Hsp1 Hr Hva).
    destruct (node s1 r (path va)); cbn; split; congruence. }
  pose proof (map_page_spec s1 roots l r va f (Z.lor flags XBKS_PAGE_USER) Hsp1 Hr Hva Hal Hfr Hfl') as M.
  destruct (xbks_vmm_map_page s1 r va f (Z.lor flags XBKS_PAGE_USER)) as [[|] s2].
  - destruct M as (N & s3 & l' & G & L & Hsp2 & Hc & Hn & Hm & Ho). split; [apply Hnone, N|]. exists l'. split; [cbn; lia|].
    exact (link_refilled s s1 s2 roots (f :: l) l l' r va f Hr Hva Hal H1 Hfr Hz ltac:(left) s3 G Hsp2 Hc N Hn Hm Ho).
  - destruct M as (l' & G & M). split.
    + exists (f :: l'). apply free_refilled; [|exact Hr| |left].
      * refine (refilled_view _ _ _ _ _ _ _ _ _ (refilled_trans _ _ _ _ _ _ _ _ _ _ _ Hr H1 (grow_refilled _ _ _ _ _ _ _ Hsp1 Hr G)) _).
        intros a Ha. exact (rf_user _ _ _ _ _ _ _ _ H1 a Ha).
      * destruct Hfr as (Hf & Hfl1 & Hfn). pose proof (g_config _ _ _ _ _ _ G) as Hcg.
        split; [rewrite (proj1 Hcg); exact Hf|]. split; [intros Hx; apply Hfl1; eapply suffix_elem; [apply G|exact Hx]|].
        intros r' q Hr' Hq Hx. destruct (g_new _ _ _ _ _ _ G r' q f Hr' Hq Hx) as [Hx'|(_ & _ & Hx')]; [exact (Hfn r' q Hr' Hq Hx')|exact (Hfl1 Hx')].
    + destruct M as [[M _]|[_ M]]; [left; intros Hx; apply M, Hnone, Hx|right; cbn; lia].
Qed.

(** ** Ranges *)

Lemma zeroed_split lo mid hi v a :
  lo <= mid <= hi -> zeroed mid hi (zeroed lo mid v) a = zeroed lo hi v a.
Proof.
  intros H. unfold zeroed. destruct (Z.leb_spec lo a), (Z.leb_spec mid a), (Z.ltb_spec a mid), (Z.ltb_spec a hi); cbn; try lia; reflexivity.
Qed.

Lemma zeroed_empty lo hi v a : hi <= lo -> zeroed lo hi v a = v a.
Proof. intros H. unfold zeroed. destruct (Z.leb_spec lo a), (Z.ltb_spec a hi); cbn; try lia; reflexivity. Qed.

Lemma zeroed_out lo hi v a : ~ lo <= a < hi -> zeroed lo hi v a = v a.
Proof. intros H. unfold zeroed. destruct (Z.leb_spec lo a), (Z.ltb_spec a hi); cbn; try lia; reflexivity. Qed.

Lemma zeroed_ext lo hi v v' a : v a = v' a -> zeroed lo hi v a = zeroed lo hi v' a.
Proof. intros H. unfold zeroed. destruct (_ && _); [reflexivity|exact H]. Qed.

(** A page is mapped as a whole. *)
Lemma page_unmapped s roots l r va a :
  space s roots l -> r ∈ roots -> user_va va -> va mod 4096 = 0 -> va <= a < va + 4096 ->
  user_byte s r va = None -> user_byte s r a = None.
Proof.
  intros Hsp Hr Hva Hal Ha. replace a with (va + (a - va)) by lia.
  assert (Hvad : user_va (va + (a - va))) by (unfold user_va in *; pose proof (Z.div_mod va 4096); lia).
  rewrite !(user_byte_node s roots l r _ Hsp Hr) by assumption. rewrite path_page by (assumption || lia).
  destruct (node s r (path va)); [discriminate|reflexivity].
Qed.

Lemma map_range_loop_spec n roots r flags : forall s l page stop,
  space s roots l -> r ∈ roots -> 0 <= page -> page mod 4096 = 0 -> page + 4096 * Z.of_nat n = stop -> stop <= 2 ^ 47 ->
  0 <= flags < 4096 ->
  match map_range_loop n s r page stop flags with
  | (true, s') => (forall a, page <= a < stop -> user_byte s r a = None) /\
      exists l', (length l <= 4 * n + length l')%nat /\ refilled roots l l' r (zeroed page stop (user_byte s r)) s s'
  | (false, s') => exists mid l', page <= mid < stop /\ mid mod 4096 = 0 /\
      refilled roots l l' r (zeroed page mid (user_byte s r)) s s' /\
      (user_byte s r mid <> None \/ (length l < 4 * n)%nat)
  end.
Proof.
  induction n as [|n IH]; intros s l page stop Hsp Hr H0 Hal Hstop Htop Hfl; cbn [map_range_loop].
  { split; [intros a Ha; lia|]. exists l. split; [lia|].
    refine (refilled_view _ _ _ _ _ _ _ _ _ (refilled_refl _ _ _ _ Hsp) _). intros a _. rewrite zeroed_empty by lia. reflexivity. }
  destruct (Z.ltb_spec page stop); [|lia].
  assert (Hva : user_va page) by (unfold user_va; lia).
  pose proof (map_user_page_spec s roots l r page flags Hsp Hr Hva Hal Hfl) as M.
  destruct (map_user_page s r page flags) as [[|] s1].
  2: { destruct M as [[l1 M] Hwhy]. exists page, l1. split; [lia|]. split; [exact Hal|]. split; [|destruct Hwhy; [auto|right; lia]].
       refine (refilled_view _ _ _ _ _ _ _ _ _ M _). intros a _. rewrite zeroed_empty by lia. reflexivity. }
  destruct M as (Hnone & l1 & L1 & M). rewrite uwrap_small by (unfold XBKS_PAGE_SIZE; lia).
  change (page + XBKS_PAGE_SIZE) with (page + 4096).
  specialize (IH s1 l1 (page + 4096) stop (rf_space _ _ _ _ _ _ _ _ M) Hr ltac:(lia)).
  assert (Hal' : (page + 4096) mod 4096 = 0) by (rewrite Z.add_mod, Hal by lia; reflexivity).
  specialize (IH Hal' ltac:(lia) Htop Hfl).
  assert (Hub : forall a, page + 4096 <= a -> user_va a -> user_byte s1 r a = user_byte s r a).
  { intros a Ha Hua. rewrite (rf_user _ _ _ _ _ _ _ _ M a Hua). apply zeroed_out. lia. }
  assert (Hv : forall mid a, page + 4096 <= mid -> user_va a ->
    zeroed (page + 4096) mid (user_byte s1 r) a = zeroed page mid (user_byte s r) a).
  { intros mid a Hmid Hua. rewrite <- (zeroed_split page (page + 4096) mid) by lia.
    apply zeroed_ext. exact (rf_user _ _ _ _ _ _ _ _ M a Hua). }
  destruct (map_range_loop n s1 r (page + 4096) stop flags) as [[|] s2].
  - destruct IH as (Hu & l2 & L2 & M2). split.
    + intros a Ha. destruct (Z.lt_ge_cases a (page + 4096)).
      * exact (page_unmapped s roots l r page a Hsp Hr Hva Hal ltac:(lia) Hnone).
      * rewrite <- Hub by (unfold user_va; lia). apply Hu. lia.
    + exists l2. split; [lia|]. refine (refilled_view _ _ _ _ _ _ _ _ _ (refilled_trans _ _ _ _ _ _ _ _ _ _ _ Hr M M2) _).
      intros a Ha. apply Hv; [lia|exact Ha].
  - destruct IH as (mid & l2 & Hmid & Hmal & M2 & Hwhy). exists mid, l2. split; [lia|]. split; [exact Hmal|]. split.
    + refine (refilled_view _ _ _ _ _ _ _ _ _ (refilled_trans _ _ _ _ _ _ _ _ _ _ _ Hr M M2) _). intros a Ha. apply Hv; [lia|exact Ha].
    + destruct Hwhy as [Hwhy|Hwhy]; [left; rewrite <- Hub by (unfold user_va; lia); exact Hwhy|right; lia].
Qed.

Lemma brk_loop_range n s r page stop :
  brk_loop n s r page stop = map_range_loop n s r page stop XBKS_PAGE_WRITABLE.
Proof.
  revert s page. induction n as [|n IH]; intros s page; cbn [brk_loop map_range_loop]; [reflexivity|].
  destruct (page <? stop); [|reflexivity]. destruct (map_user_page s r page XBKS_PAGE_WRITABLE) as [[|] s1]; [apply IH|reflexivity].
Qed.

(** ** Rounding *)

Definition page_up (x : Z) : Z := 4096 * ((x + 4095) / 4096).

Lemma align_up_page_up x : 0 <= x < 2 ^ 63 -> align_up x XBKS_PAGE_SIZE = page_up x.
Proof.
  intros H. unfold XBKS_PAGE_SIZE, page_up. rewrite align_up_page by (unfold in_u64; lia).
  pose proof (Z.div_mod (x + 4095) 4096). lia.
Qed.

Lemma page_up_ok x : page_up x mod 4096 = 0.
Proof. unfold page_up. rewrite Z.mul_comm. apply Z.mod_mul. lia. Qed.

Lemma page_up_mono x y : x <= y -> page_up x <= page_up y.
Proof. intros H. unfold page_up. assert ((x + 4095) / 4096 <= (y + 4095) / 4096) by (apply Z.div_le_mono; lia). lia. Qed.

Lemma page_up_ge x : x <= page_up x < x + 4096.
Proof. unfold page_up. pose proof (Z.div_mod (x + 4095) 4096). pose proof (Z.mod_pos_bound (x + 4095) 4096). lia. Qed.

Definition page_down (x : Z) : Z := x - x mod 4096.

Lemma page_down_ok x : page_down x mod 4096 = 0 /\ x - 4096 < page_down x <= x.
Proof. unfold page_down. pose proof (Z.mod_pos_bound x 4096). split; [|lia]. rewrite Zminus_mod_idemp_r, Z.sub_diag. reflexivity. Qed.

Lemma page_up_top x : x < 2 ^ 47 -> page_up x <= 2 ^ 47.
Proof. intros H. unfold page_up. assert ((x + 4095) / 4096 < 2 ^ 35 + 1) by (apply Z.div_lt_upper_bound; lia). lia. Qed.

Lemma page_count lo hi :
  lo mod 4096 = 0 -> hi mod 4096 = 0 -> lo <= hi -> lo + 4096 * Z.of_nat (Z.to_nat ((hi - lo) / 4096)) = hi.
Proof.
  intros Hl Hh H. rewrite Z2Nat.id by (apply Z.div_pos; lia).
  pose proof (Z.div_mod lo 4096). pose proof (Z.div_mod hi 4096).
  replace ((hi - lo) / 4096) with (hi / 4096 - lo / 4096); [lia|]. apply (Z.div_unique _ _ _ 0); lia.
Qed.

(** Mapping a range maps the pages that cover it. *)
Lemma map_user_range_spec s roots l r base size flags :
  space s roots l -> r ∈ roots -> 0 <= base -> 0 <= size -> base + size < 2 ^ 47 -> 0 <= flags < 4096 ->
  let lo := page_down base in let hi := page_up (base + size) in
  match map_user_range s r base size flags with
  | (true, s') => (forall a, lo <= a < hi -> user_byte s r a = None) /\
      exists l', 4096 * Z.of_nat (length l) <= 4 * (hi - lo) + 4096 * Z.of_nat (length l') /\
        refilled roots l l' r (zeroed lo hi (user_byte s r)) s s'
  | (false, s') => exists mid l', lo <= mid < hi /\ refilled roots l l' r (zeroed lo mid (user_byte s r)) s s' /\
      (user_byte s r mid <> None \/ 4096 * Z.of_nat (length l) < 4 * (hi - lo))
  end.
Proof.
  intros Hsp Hr Hb Hs Htop Hfl lo hi. unfold map_user_range, XBKS_PAGE_SIZE.
  rewrite (uwrap_small 64) by lia. rewrite align_down_page by (unfold in_u64; lia). fold (page_down base). fold lo.
  assert (align_up (base + size) 4096 = hi) as -> by (apply align_up_page_up; lia).
  destruct (page_down_ok base) as [Hlo1 Hlo2]. fold lo in Hlo1, Hlo2. pose proof (page_up_ok (base + size)) as Hhi. fold hi in Hhi.
  pose proof (page_up_ge (base + size)) as Hge. fold hi in Hge.
  assert (Hlo0 : 0 <= lo) by (unfold lo, page_down; pose proof (Z.mod_le base 4096); lia).
  pose proof (page_count lo hi Hlo1 Hhi ltac:(lia)) as En. set (n := Z.to_nat ((hi - lo) / 4096)) in *.
  pose proof (map_range_loop_spec n roots r flags s l lo hi Hsp Hr Hlo0 Hlo1 En (page_up_top _ Htop) Hfl) as M.
  destruct (map_range_loop n s r lo hi flags) as [[|] s'].
  - destruct M as (Hun & l' & L & M). split; [exact Hun|]. exists l'. split; [lia|exact M].
  - destruct M as (mid & l' & Hmid & _ & M & Hwhy). exists mid, l'. split; [exact Hmid|]. split; [exact M|].
    destruct Hwhy; [left; assumption|right; lia].
Qed.

(** ** Writing *)

(** A run of bytes inside one page. *)
Lemma stored_chunk bs : forall s roots l r va f,
  space s roots l -> r ∈ roots -> user_va va -> node s r (path va) = Some f ->
  va mod 4096 + Z.of_nat (length bs) <= 4096 -> Forall (fun b => 0 <= b < 256) bs ->
  stored roots l r va bs s (set_ram s (store_bytes (ram s) (kva s f + va mod 4096) bs)).
Proof.
  induction bs as [|b bs IH]; intros s roots l r va f Hsp Hr Hva Hf Hlen Hb; cbn [store_bytes].
  { destruct s. apply stored_nil, Hsp. }
  apply Forall_cons_iff in Hb as [Hb Hbs].
  pose proof (stored_byte s roots l r va f b Hsp Hr Hva Hf) as H1. rewrite (uwrap_small 8) in H1 by exact Hb.
  set (s1 := set_ram s _) in *. cbn [length] in Hlen. destruct bs as [|c bs]; [exact H1|].
  assert (Hm : (va + 1) mod 4096 = va mod 4096 + 1).
  { cbn [length] in Hlen. pose proof (Z.div_mod va 4096). pose proof (Z.mod_pos_bound va 4096). symmetry. apply (Z.mod_unique _ _ (va / 4096)); lia. }
  assert (Hva1 : user_va (va + 1)).
  { unfold user_va in *. cbn [length] in Hlen. pose proof (Z.div_mod va 4096). pose proof (Z.mod_pos_bound va 4096).
    assert (va / 4096 < 2 ^ 35) by (apply Z.div_lt_upper_bound; lia). lia. }
  assert (Hp : path (va + 1) = path va).
  { pose proof (Z.div_mod va 4096). pose proof (Z.mod_pos_bound va 4096). cbn [length] in Hlen.
    set (base := 4096 * (va / 4096)). assert (Hbase : base mod 4096 = 0) by (unfold base; rewrite Z.mul_comm; apply Z.mod_mul; lia).
    transitivity (path base); [|symmetry].
    - replace (va + 1) with (base + (va mod 4096 + 1)) by (unfold base; lia). apply path_page; [lia|exact Hbase].
    - replace va with (base + va mod 4096) at 1 by (unfold base; lia). apply path_page; [lia|exact Hbase]. }
  assert (Hf1 : node s1 r (path (va + 1)) = Some f).
  { rewrite Hp, (sd_nodes _ _ _ _ _ _ _ H1) by (assumption || apply upath_path, Hva). exact Hf. }
  pose proof (IH s1 roots l r (va + 1) f (sd_space _ _ _ _ _ _ _ H1) Hr Hva1 Hf1 ltac:(lia) Hbs) as H2.
  apply (stored_app_cons _ _ _ _ _ _ _ s1 _ Hr H1). rewrite Hm, Z.add_assoc in H2. exact H2.
Qed.

Lemma overlay_app va bs bs' a :
  overlay va (bs ++ bs') a =
    match overlay va bs a with Some b => Some b | None => overlay (va + Z.of_nat (length bs)) bs' a end.
Proof.
  revert va. induction bs as [|b bs IH]; intros va.
  - rewrite overlay_nil. cbn [app length]. rewrite Z.add_0_r. reflexivity.
  - cbn [app length]. rewrite !overlay_cons. destruct (a =? va); [reflexivity|].
    rewrite IH. replace (va + 1 + Z.of_nat (length bs)) with (va + Z.of_nat (S (length bs))) by lia. reflexivity.
Qed.

Lemma overlay_above va bs a : a < va -> overlay va bs a = None.
Proof. intros H. unfold overlay. destruct (Z.ltb_spec a va); [reflexivity|lia]. Qed.

Lemma overlay_before va bs a : va + Z.of_nat (length bs) <= a -> overlay va bs a = None.
Proof. intros H. unfold overlay. destruct (Z.ltb_spec a va); [reflexivity|]. apply lookup_ge_None_2. lia. Qed.

Lemma stored_app roots l r va bs bs' s s1 s2 :
  r ∈ roots -> stored roots l r va bs s s1 -> stored roots l r (va + Z.of_nat (length bs)) bs' s1 s2 ->
  stored roots l r va (bs ++ bs') s s2.
Proof.
  intros Hr0 H1 H2. constructor.
  - apply H2.
  - destruct (sd_config _ _ _ _ _ _ _ H1) as (? & ? & ?), (sd_config _ _ _ _ _ _ _ H2) as (? & ? & ?). repeat split; congruence.
  - intros r' p Hr Hp. rewrite (sd_nodes _ _ _ _ _ _ _ H2), (sd_nodes _ _ _ _ _ _ _ H1) by assumption. reflexivity.
  - intros r' va' Hr Hva. rewrite (sd_user _ _ _ _ _ _ _ H2), (sd_user _ _ _ _ _ _ _ H1) by assumption.
    destruct (bool_decide (r' = r)); [|reflexivity]. rewrite overlay_app.
    destruct (overlay va bs va') eqn:E; [|reflexivity]. rewrite overlay_above; [reflexivity|].
    destruct (Z.lt_ge_cases va' (va + Z.of_nat (length bs))) as [?|Hge]; [assumption|].
    rewrite (overlay_before va bs va' Hge) in E. discriminate.
  - intros a Ha. rewrite (sd_kernel _ _ _ _ _ _ _ H2), (sd_kernel _ _ _ _ _ _ _ H1); [reflexivity|exact Ha|].
    exact (off_space_stored _ _ _ _ _ _ _ _ Hr0 H1 Ha).
Qed.

(** The bytes a write takes from its source, and when they are there to take. *)
Definition source_bytes (s : mm) (src : source) (off n : nat) : list Z :=
  match src with
  | FromRam a => bytes_at (ram s) (a + Z.of_nat off) n
  | FromBytes l => take n (drop off l)
  end.

Definition source_ok (s : mm) (r : Z) (src : source) (size : nat) : Prop :=
  match src with
  | FromRam a => forall i, 0 <= i < Z.of_nat size -> off_space s r (a + i)
  | FromBytes l => length l = size /\ Forall (fun b => 0 <= b < 256) l
  end.

Lemma source_bytes_length s r src size off n :
  source_ok s r src size -> (off + n <= size)%nat -> length (source_bytes s src off n) = n.
Proof.
  destruct src as [a|l]; cbn; [intros; apply length_bytes_at|]. intros [H _] Hn. rewrite length_take, length_drop. lia.
Qed.

Lemma source_bytes_split s src off n m :
  source_bytes s src off (n + m) = source_bytes s src off n ++ source_bytes s src (off + n) m.
Proof.
  destruct src as [a|l]; cbn.
  - rewrite bytes_at_app. do 2 f_equal. lia.
  - rewrite <- drop_drop. symmetry. apply take_take_drop.
Qed.

Lemma source_bytes_bytes s r src size off n :
  source_ok s r src size -> Forall (fun b => 0 <= b < 256) (source_bytes s src off n).
Proof.
  destruct src as [a|l]; cbn; intros H.
  - clear H. generalize (a + Z.of_nat off). induction n as [|n IH]; intros x; constructor; [apply rd8_range|apply IH].
  - apply Forall_take, Forall_drop, H.
Qed.

(** Storing into the space leaves the source alone. *)
Lemma source_stored roots l r va bs s s1 src size off n :
  r ∈ roots -> stored roots l r va bs s s1 -> source_ok s r src size -> (off + n <= size)%nat ->
  source_ok s1 r src size /\ source_bytes s1 src off n = source_bytes s src off n.
Proof.
  intros Hr H Hs Hn. destruct src as [a|x]; cbn in *; [|split; [exact Hs|reflexivity]]. split.
  - intros i Hi. exact (off_space_stored _ _ _ _ _ _ _ _ Hr H (Hs i Hi)).
  - apply bytes_at_ext. intros b Hb. apply (sd_kernel _ _ _ _ _ _ _ H). replace b with (a + (b - a)) by lia. apply Hs. lia.
Qed.

(** One round of the copy loop, inside the page of [va]. *)
Lemma copy_chunk_stored s roots l r va f src size off n :
  space s roots l -> r ∈ roots -> user_va va -> node s r (path va) = Some f ->
  source_ok s r src size -> (off + n <= size)%nat -> va mod 4096 + Z.of_nat n <= 4096 ->
  stored roots l r va (source_bytes s src off n) s
    (copy_chunk s (xbks_phys_to_virt s (f + va mod 4096)) src (Z.of_nat off) (Z.of_nat n)).
Proof.
  intros Hsp Hr Hva Hf Hs Hn Hp. pose proof (upath_path va Hva) as Hu. pose proof (Z.mod_pos_bound va 4096).
  pose proof (proj1 (sp_frame _ _ _ Hsp r _ f Hr Hu Hf)) as Hok. rewrite phys_to_virt_ok by (exact Hok || lia).
  pose proof (source_bytes_length s r src size off n Hs Hn) as Hlen.
  replace (copy_chunk s (kva s f + va mod 4096) src (Z.of_nat off) (Z.of_nat n))
    with (set_ram s (store_bytes (ram s) (kva s f + va mod 4096) (source_bytes s src off n))).
  { apply stored_chunk; try assumption; [rewrite Hlen; exact Hp|eapply source_bytes_bytes, Hs]. }
  destruct src as [a|x]; cbn [copy_chunk source_bytes]; [|rewrite !Nat2Z.id; reflexivity].
  f_equal. symmetry. destruct n as [|n]; [reflexivity|]. apply memcpy_store.
  destruct (Z.le_gt_cases (a + Z.of_nat off + Z.of_nat (S n)) (kva s f + va mod 4096)) as [?|Hgt]; [right; assumption|].
  destruct (Z.le_gt_cases (kva s f + va mod 4096 + Z.of_nat (S n)) (a + Z.of_nat off)) as [?|Hgt2]; [left; assumption|exfalso].
  set (i := Z.max (Z.of_nat off) (kva s f + va mod 4096 - a)).
  cbn in Hs. apply (Hs i ltac:(unfold i; lia) (path va) f Hu Hf). unfold in_page. change (hhdm_offset_value s + f) with (kva s f). unfold i. lia.
Qed.

(** The copy gets to the end or to the first page that is not mapped. *)
Lemma write_loop_spec n roots l r va src size : forall s off,
  space s roots l -> r ∈ roots -> 0 <= va -> va + Z.of_nat size <= 2 ^ 47 -> source_ok s r src size -> (off <= size)%nat ->
  ((off < size)%nat -> (va + Z.of_nat size - 1) / 4096 - (va + Z.of_nat off) / 4096 < Z.of_nat n) ->
  exists b s' k, write_loop n s r va src (Z.of_nat size) (Z.of_nat off) = (b, s') /\ (off + k <= size)%nat /\
    stored roots l r (va + Z.of_nat off) (source_bytes s src off k) s s' /\
    (if (b : bool) then (off + k = size)%nat else (off + k < size)%nat /\ user_byte s r (va + Z.of_nat (off + k)) = None).
Proof.
  induction n as [|n IH]; intros s off Hsp Hr H0 Htop Hs Hoff Hfuel; cbn [write_loop].
  { destruct (decide (off < size)%nat) as [Hlt|Hge].
    - specialize (Hfuel Hlt). assert ((va + Z.of_nat off) / 4096 <= (va + Z.of_nat size - 1) / 4096) by (apply Z.div_le_mono; lia). lia.
    - exists true, s, 0%nat. rewrite Nat.add_0_r. split; [reflexivity|]. split; [lia|]. split; [|lia].
      destruct src; cbn; apply stored_nil, Hsp. }
  destruct (Z.ltb_spec (Z.of_nat off) (Z.of_nat size)) as [Hlt|Hge].
  2: { exists true, s, 0%nat. rewrite Nat.add_0_r. split; [reflexivity|]. split; [lia|]. split; [|lia].
       destruct src; cbn; apply stored_nil, Hsp. }
  assert (Hva : user_va (va + Z.of_nat off)) by (unfold user_va; lia).
  pose proof (Z.mod_pos_bound (va + Z.of_nat off) 4096 ltac:(lia)) as Hmb. pose proof (Z.div_mod (va + Z.of_nat off) 4096 ltac:(lia)) as Hdm.
  set (a := va + Z.of_nat off) in *. unfold user_va in Hva.
  rewrite (uwrap_small 64 a) by lia. change (XBKS_PAGE_SIZE - 1) with (2 ^ 12 - 1). rewrite land_low by lia. change (2 ^ 12) with 4096.
  rewrite (uwrap_small 64 (XBKS_PAGE_SIZE - _)), (uwrap_small 64 (Z.of_nat size - _)) by (unfold XBKS_PAGE_SIZE; lia).
  rewrite (translate_node s roots l r a Hsp Hr Hva).
  pose proof (user_byte_node s roots l r a Hsp Hr Hva) as Hub.
  destruct (node s r (path a)) as [f|] eqn:Hf; cbn [fmap option_fmap option_map] in Hub |- *.
  2: { exists false, s, 0%nat. rewrite Nat.add_0_r. split; [reflexivity|]. split; [lia|]. split; [|split; [lia|exact Hub]].
       destruct src; cbn; apply stored_nil, Hsp. }
  set (c := Z.to_nat (Z.min (Z.of_nat size - Z.of_nat off) (4096 - a mod 4096))).
  assert (Hc : Z.of_nat c = Z.min (Z.of_nat size - Z.of_nat off) (4096 - a mod 4096)) by (unfold c; lia).
  replace (if Z.of_nat size - Z.of_nat off <? XBKS_PAGE_SIZE - a mod 4096 then Z.of_nat size - Z.of_nat off else XBKS_PAGE_SIZE - a mod 4096)
    with (Z.of_nat c) by (rewrite Hc; unfold XBKS_PAGE_SIZE; case_bool; lia).
  rewrite (uwrap_small 64 (_ + _)) by lia. rewrite <- Nat2Z.inj_add.
  pose proof (copy_chunk_stored s roots l r a f src size off c Hsp Hr Hva Hf Hs ltac:(lia) ltac:(lia)) as H1.
  set (s1 := copy_chunk _ _ _ _ _) in *.
  destruct (source_stored _ _ _ _ _ _ _ _ _ (off + c) 0 Hr H1 Hs ltac:(lia)) as [Hs1 _].
  destruct (IH s1 (off + c)%nat (sd_space _ _ _ _ _ _ _ H1) Hr H0 Htop Hs1 ltac:(lia)) as (b & s2 & k & E & Hk & H2 & Hb).
  { intros Hmore. specialize (Hfuel ltac:(lia)). assert (Hcc : Z.of_nat c = 4096 - a mod 4096) by lia.
    rewrite Nat2Z.inj_add, Z.add_assoc. fold a. replace ((a + Z.of_nat c) / 4096) with (a / 4096 + 1); [lia|].
    apply (Z.div_unique _ _ _ 0); lia. }
  exists b, s2, (c + k)%nat. split; [exact E|]. split; [lia|]. split.
  - rewrite source_bytes_split. apply (stored_app _ _ _ _ _ _ _ s1 _ Hr H1).
    rewrite (source_bytes_length s r src size off c Hs ltac:(lia)).
    destruct (source_stored _ _ _ _ _ _ _ _ _ (off + c) k Hr H1 Hs ltac:(lia)) as [_ <-].
    unfold a. rewrite <- Z.add_assoc, <- Nat2Z.inj_add. exact H2.
  - rewrite Nat.add_assoc. destruct b; [exact Hb|]. destruct Hb as [Hb1 Hb2]. split; [exact Hb1|].
    rewrite (sd_user _ _ _ _ _ _ _ H1) in Hb2 by (exact Hr || (unfold user_va; lia)).
    destruct (if bool_decide (r = r) then _ else _); [discriminate|exact Hb2].
Qed.

Lemma write_process_memory_spec s roots l r va src size :
  space s roots l -> r ∈ roots -> 0 <= va -> va + Z.of_nat size <= 2 ^ 47 -> source_ok s r src size ->
  exists b s' k, write_process_memory s r va src (Z.of_nat size) = (b, s') /\ (k <= size)%nat /\
    stored roots l r va (source_bytes s src 0 k) s s' /\
    (if (b : bool) then k = size else (k < size)%nat /\ user_byte s r (va + Z.of_nat k) = None).
Proof.
  intros Hsp Hr H0 Htop Hs.
  destruct (write_loop_spec (Z.to_nat (Z.of_nat size / XBKS_PAGE_SIZE + 2)) roots l r va src size s 0 Hsp Hr H0 Htop Hs ltac:(lia)) as (b & s' & k & E & Hk & H & Hb).
  { intros Hlt. unfold XBKS_PAGE_SIZE. rewrite Z.add_0_r.
    pose proof (Z.div_mod (Z.of_nat size) 4096). pose proof (Z.mod_pos_bound (Z.of_nat size) 4096).
    pose proof (Z.div_mod va 4096). pose proof (Z.mod_pos_bound va 4096).
    pose proof (Z.div_mod (va + Z.of_nat size - 1) 4096). pose proof (Z.mod_pos_bound (va + Z.of_nat size - 1) 4096).
    pose proof (Z.div_pos (Z.of_nat size) 4096). lia. }
  rewrite Z.add_0_r in H. exists b, s', k. split; [exact E|]. split; [lia|]. split; [exact H|]. exact Hb.
Qed.

Lemma stored_refilled roots l r va bs s s' :
  r ∈ roots -> stored roots l r va bs s s' -> refilled roots l l r (written va bs (user_byte s r)) s s'.
Proof.
  intros Hr H. constructor.
  - apply H.
  - apply H.
  - auto.
  - intros r' q x Hr' Hq Hx. left. rewrite <- (sd_nodes _ _ _ _ _ _ _ H) by assumption. exact Hx.
  - intros r' q x Hr' Hq Hx. rewrite (sd_nodes _ _ _ _ _ _ _ H) by assumption. exact Hx.
  - auto.
  - intros r' va' Hr' Hne Hva. rewrite (sd_user _ _ _ _ _ _ _ H), bool_decide_eq_false_2 by assumption. reflexivity.
  - intros va' Hva. rewrite (sd_user _ _ _ _ _ _ _ H), bool_decide_eq_true_2 by (assumption || reflexivity). reflexivity.
  - intros a [_ Ha]. apply (sd_kernel _ _ _ _ _ _ _ H). exact Ha.
Qed.
