(* ===== verification/StackSpec.v ===== *)
(** * The initial user stack: the theory

    [build_user_stack] of src/kernel/process.c pushes strings and words downwards; each
    push extends the area below the last one, so the stack is one block of bytes. *)

From Stdlib Require Import Ascii String.
From S2P Require Import Prelude CMem CStr Pmm Vmm VmmSpec Ramdisk Elf Keyboard Kernel Loader Syscalls ProcTable UserMem LoaderSpec.

(** ** Bytes *)

Lemma strlen_text s rest : text s -> strlen (s ++ 0 :: rest) = Some (Z.of_nat (length s)).
Proof. intros H. rewrite strlen_cstr, cstr_app by exact H. reflexivity. Qed.

Lemma le_bytes_range n v : Forall (fun b => 0 <= b < 256) (le_bytes n v).
Proof. revert v. induction n as [|n IH]; intros v; constructor; [apply Z.mod_pos_bound; lia|apply IH]. Qed.

Lemma Forall2_rev {A B} (P : A -> B -> Prop) u v : Forall2 P u v -> Forall2 P (rev u) (rev v).
Proof. induction 1; cbn; [constructor|]. apply Forall2_app; [assumption|repeat constructor; assumption]. Qed.

(** ** Pushing *)

(** A block written directly below another one. *)
Lemma stored_below roots l r va bs bs' s s1 s2 :
  r ∈ roots -> stored roots l r (va + Z.of_nat (length bs)) bs' s s1 -> stored roots l r va bs s1 s2 ->
  stored roots l r va (bs ++ bs') s s2.
Proof.
  intros Hr0 H1 H2. constructor.
  - apply H2.
  - destruct (sd_config _ _ _ _ _ _ _ H1) as (? & ? & ?), (sd_config _ _ _ _ _ _ _ H2) as (? & ? & ?). repeat split; congruence.
  - intros r' p Hr Hp. rewrite (sd_nodes _ _ _ _ _ _ _ H2), (sd_nodes _ _ _ _ _ _ _ H1) by assumption. reflexivity.
  - intros r' va' Hr Hva. rewrite (sd_user _ _ _ _ _ _ _ H2), (sd_user _ _ _ _ _ _ _ H1) by assumption.
    destruct (bool_decide (r' = r)); [|reflexivity]. rewrite overlay_app. destruct (overlay va bs va'); reflexivity.
  - intros a Ha. rewrite (sd_kernel _ _ _ _ _ _ _ H2), (sd_kernel _ _ _ _ _ _ _ H1); [reflexivity|exact Ha|].
    exact (off_space_stored _ _ _ _ _ _ _ _ Hr0 H1 Ha).
Qed.

(** The area from [lo] to [hi] is mapped. *)
Definition arena (s : mm) (r lo hi : Z) : Prop := forall a, lo <= a < hi -> user_byte s r a <> None.

Lemma arena_stored roots l r va bs s s' lo hi :
  r ∈ roots -> 0 <= lo -> hi <= 2 ^ 47 -> stored roots l r va bs s s' -> arena s r lo hi -> arena s' r lo hi.
Proof.
  intros Hr H0 H1 H Ha a Hin. rewrite (sd_user _ _ _ _ _ _ _ H) by (exact Hr || (unfold user_va; lia)).
  destruct (if bool_decide (r = r) then _ else _); [discriminate|exact (Ha a Hin)].
Qed.

Section Push.
Context (roots l : list Z) (r lo hi : Z) (Hr : r ∈ roots) (Hlo : USER_IMAGE_MIN <= lo) (Hhi : hi <= XBKS_USER_TOP).

Lemma push_bytes_ok s stack data :
  space s roots l -> arena s r lo hi -> lo <= stack - Z.of_nat (length data) -> stack <= hi ->
  Forall (fun b => 0 <= b < 256) data ->
  exists s', push_bytes s r stack data = (true, s', stack - Z.of_nat (length data)) /\
    stored roots l r (stack - Z.of_nat (length data)) data s s'.
Proof using Hr Hlo Hhi.
  intros Hsp Ha H1 H2 Hb. unfold push_bytes. unfold USER_IMAGE_MIN, XBKS_USER_TOP in *.
  rewrite uwrap_small by lia. set (st := stack - Z.of_nat (length data)) in *.
  replace (user_range_is_valid st (Z.of_nat (length data))) with true.
  2: { symmetry. apply user_range_iff; [unfold in_u64; lia|unfold in_u64; lia|]. unfold USER_IMAGE_MIN, XBKS_USER_TOP. right. lia. }
  rewrite andb_false_r.
  destruct (write_process_memory_spec s roots l r st (FromBytes data) (length data) Hsp Hr ltac:(lia) ltac:(lia)) as (b & s' & k & E & Hk & Hs & Hres).
  { split; [reflexivity|exact Hb]. }
  rewrite E. destruct b.
  - subst k. cbn [source_bytes] in Hs. rewrite drop_0, take_ge in Hs by lia. exists s'. split; [reflexivity|exact Hs].
  - destruct Hres as [Hlt Hnone]. exfalso. apply (Ha (st + Z.of_nat k)); [lia|exact Hnone].
Qed.

(** The addresses of strings laid out one after the other from [a]. *)
Fixpoint string_addresses (a : Z) (texts : list (list Z)) : list Z :=
  match texts with
  | [] => []
  | t :: rest => a :: string_addresses (a + Z.of_nat (length t) + 1) rest
  end.

(** Strings with their terminators, one after the other. *)
Fixpoint string_block (texts : list (list Z)) : list Z :=
  match texts with
  | [] => []
  | t :: rest => t ++ 0 :: string_block rest
  end.

Lemma string_block_app u v : string_block (u ++ v) = string_block u ++ string_block v.
Proof using. induction u as [|t u IH]; [reflexivity|]. cbn. rewrite IH, <- app_assoc. reflexivity. Qed.

Lemma string_addresses_app a u v :
  string_addresses a (u ++ v) = string_addresses a u ++ string_addresses (a + Z.of_nat (length (string_block u))) v.
Proof using.
  revert a. induction u as [|t u IH]; intros a; cbn [app string_addresses string_block length]; [rewrite Z.add_0_r; reflexivity|].
  rewrite IH, length_app. cbn [length]. do 3 f_equal. lia.
Qed.

(** A buffer that holds the string [t]. *)
Definition holds_text (buf t : list Z) : Prop := text t /\ exists rest, buf = t ++ 0 :: rest.

Lemma push_strings_ok bufs texts : Forall2 holds_text bufs texts -> forall s stack acc,
  space s roots l -> arena s r lo hi -> stack <= hi -> lo <= stack - Z.of_nat (length (string_block (rev texts))) ->
  exists s', push_strings s r stack bufs acc =
      inl (Some (s', stack - Z.of_nat (length (string_block (rev texts))),
                 string_addresses (stack - Z.of_nat (length (string_block (rev texts)))) (rev texts) ++ acc)) /\
    stored roots l r (stack - Z.of_nat (length (string_block (rev texts)))) (string_block (rev texts)) s s'.
Proof using Hr Hlo Hhi.
  induction 1 as [|buf t bufs texts [Ht (rest & ->)] _ IH]; intros s stack acc Hsp Ha Hst Hlow; cbn [push_strings rev] in *.
  { exists s. cbn. rewrite Z.sub_0_r. split; [reflexivity|apply stored_nil, Hsp]. }
  rewrite string_block_app, length_app in Hlow |- *. cbn [string_block length] in Hlow |- *. rewrite length_app in Hlow |- *. cbn [length] in Hlow |- *.
  rewrite strlen_text by exact Ht.
  replace (take (S (Z.to_nat (Z.of_nat (length t)))) (t ++ 0 :: rest)) with (t ++ [0]).
  2: { rewrite Nat2Z.id. change (0 :: rest) with ([0] ++ rest). rewrite app_assoc, take_app_length'; [reflexivity|rewrite length_app; cbn; lia]. }
  destruct (push_bytes_ok s stack (t ++ [0]) Hsp Ha) as (s1 & E1 & H1).
  { rewrite length_app. cbn [length]. lia. }
  { exact Hst. }
  { apply Forall_app. split; [exact (text_bytes t Ht)|]. repeat constructor; lia. }
  rewrite E1. rewrite length_app in *. cbn [length] in *. set (st1 := stack - Z.of_nat (length t + 1)) in *.
  assert (Ha1 : arena s1 r lo hi).
  { unfold USER_IMAGE_MIN, XBKS_USER_TOP in *. eapply arena_stored; [exact Hr| | |exact H1|exact Ha]; lia. }
  destruct (IH s1 st1 (st1 :: acc) (sd_space _ _ _ _ _ _ _ H1) Ha1 ltac:(lia) ltac:(lia)) as (s2 & E2 & H2).
  set (n := Z.of_nat (length (string_block (rev texts)))) in *.
  replace (stack - Z.of_nat (length (string_block (rev texts)) + (length t + 1))) with (st1 - n) by lia.
  exists s2. split.
  - rewrite E2, string_addresses_app, <- app_assoc. cbn [string_addresses app]. fold n. do 6 f_equal. lia.
  - apply (stored_below _ _ _ _ _ _ _ s1 _ Hr); [|exact H2]. fold n. replace (st1 - n + n) with st1 by lia. exact H1.
Qed.

(** Words in memory order. *)
Definition word_block (words : list Z) : list Z := flat_map (le_bytes 8) words.

Lemma length_word_block words : length (word_block words) = (8 * length words)%nat.
Proof using. induction words as [|w words IH]; [reflexivity|]. cbn [word_block flat_map]. rewrite length_app. fold (word_block words). rewrite IH. cbn. lia. Qed.

Lemma word_block_app u v : word_block (u ++ v) = word_block u ++ word_block v.
Proof using. apply flat_map_app. Qed.

Lemma push_words_ok words : forall s stack,
  space s roots l -> arena s r lo hi -> stack <= hi -> lo <= stack - 8 * Z.of_nat (length words) ->
  exists s', push_words s r stack words = (true, s', stack - 8 * Z.of_nat (length words)) /\
    stored roots l r (stack - 8 * Z.of_nat (length words)) (word_block (rev words)) s s'.
Proof using Hr Hlo Hhi.
  induction words as [|w words IH]; intros s stack Hsp Ha Hst Hlow; cbn [push_words rev length] in *.
  { exists s. rewrite Z.sub_0_r. split; [reflexivity|apply stored_nil, Hsp]. }
  unfold push_u64. destruct (push_bytes_ok s stack (le_bytes 8 w) Hsp Ha) as (s1 & E1 & H1).
  { cbn [length le_bytes]. lia. }
  { exact Hst. }
  { apply le_bytes_range. }
  rewrite E1. change (Z.of_nat (length (le_bytes 8 w))) with 8 in *.
  assert (Ha1 : arena s1 r lo hi).
  { unfold USER_IMAGE_MIN, XBKS_USER_TOP in *. eapply arena_stored; [exact Hr| | |exact H1|exact Ha]; lia. }
  destruct (IH s1 (stack - 8) (sd_space _ _ _ _ _ _ _ H1) Ha1 ltac:(lia) ltac:(lia)) as (s2 & E2 & H2).
  replace (stack - 8 * Z.of_nat (S (length words))) with (stack - 8 - 8 * Z.of_nat (length words)) by lia.
  exists s2. split; [exact E2|]. rewrite word_block_app. apply (stored_below _ _ _ _ _ _ _ s1 _ Hr); [|exact H2].
  rewrite length_word_block, length_rev. replace (_ - _ - _ + _) with (stack - 8) by lia.
  change (word_block [w]) with (le_bytes 8 w ++ []). rewrite app_nil_r. exact H1.
Qed.
End Push.

(** ** Reading the stack back *)

(** The user address [a] of the space [r] holds the bytes [bs]. *)
Definition reads (s : mm) (r a : Z) (bs : list Z) : Prop :=
  forall i b, bs !! i = Some b -> user_byte s r (a + Z.of_nat i) = Some b.

Lemma reads_app s r a u v :
  reads s r a (u ++ v) <-> reads s r a u /\ reads s r (a + Z.of_nat (length u)) v.
Proof.
  split.
  - intros H. split.
    + intros i b Hi. apply H. apply lookup_app_l_Some, Hi.
    + intros i b Hi. rewrite <- Z.add_assoc, <- Nat2Z.inj_add. apply H. rewrite lookup_app_r by lia.
      replace (length u + i - length u)%nat with i by lia. exact Hi.
  - intros [H1 H2] i b Hi. apply lookup_app_Some in Hi as [Hi|[Hge Hi]]; [exact (H1 i b Hi)|].
    replace (a + Z.of_nat i) with (a + Z.of_nat (length u) + Z.of_nat (i - length u)) by lia. exact (H2 _ b Hi).
Qed.

Lemma overlay_lookup va bs i b : bs !! i = Some b -> overlay va bs (va + Z.of_nat i) = Some b.
Proof.
  intros H. unfold overlay. destruct (Z.ltb_spec (va + Z.of_nat i) va); [lia|].
  replace (Z.to_nat (va + Z.of_nat i - va)) with i by lia. exact H.
Qed.

Lemma stored_reads roots l r va bs s s' :
  r ∈ roots -> 0 <= va -> va + Z.of_nat (length bs) <= 2 ^ 47 -> stored roots l r va bs s s' -> reads s' r va bs.
Proof.
  intros Hr H0 H1 H i b Hi. pose proof (lookup_lt_Some _ _ _ Hi).
  rewrite (sd_user _ _ _ _ _ _ _ H), bool_decide_eq_true_2 by (reflexivity || exact Hr || (unfold user_va; lia)).
  rewrite (overlay_lookup va bs i b Hi). reflexivity.
Qed.

Lemma reads_above roots l r va bs s s' a cs :
  r ∈ roots -> 0 <= va -> va + Z.of_nat (length bs) <= a -> a + Z.of_nat (length cs) <= 2 ^ 47 ->
  stored roots l r va bs s s' -> reads s r a cs -> reads s' r a cs.
Proof.
  intros Hr H0 Hb Ha H Hc i b Hi. pose proof (lookup_lt_Some _ _ _ Hi).
  rewrite (sd_user _ _ _ _ _ _ _ H) by (exact Hr || (unfold user_va; lia)).
  rewrite bool_decide_eq_true_2, overlay_before by (reflexivity || lia). exact (Hc i b Hi).
Qed.

Lemma reads_word s r a words i w :
  reads s r a (word_block words) -> words !! i = Some w -> reads s r (a + 8 * Z.of_nat i) (le_bytes 8 w).
Proof.
  revert a i. induction words as [|x words IH]; intros a i H Hi; [destruct i; discriminate|].
  change (word_block (x :: words)) with (le_bytes 8 x ++ word_block words) in H. apply reads_app in H as [H1 H2].
  destruct i as [|i]; cbn in Hi.
  - injection Hi as <-. rewrite Z.add_0_r. exact H1.
  - change (Z.of_nat (length (le_bytes 8 x))) with 8 in H2. replace (a + 8 * Z.of_nat (S i)) with (a + 8 + 8 * Z.of_nat i) by lia.
    exact (IH _ _ H2 Hi).
Qed.

Lemma reads_string s r a texts i t :
  reads s r a (string_block texts) -> texts !! i = Some t ->
  exists x, string_addresses a texts !! i = Some x /\ reads s r x (t ++ [0]) /\
    a <= x /\ x + Z.of_nat (length t) < a + Z.of_nat (length (string_block texts)).
Proof.
  revert a i. induction texts as [|u texts IH]; intros a i H Hi; [destruct i; discriminate|].
  cbn [string_block] in H |- *. change (u ++ 0 :: string_block texts) with (u ++ [0] ++ string_block texts) in H |- *.
  rewrite app_assoc in H |- *. rewrite length_app. rewrite length_app in *. cbn [length] in *. apply reads_app in H as [H1 H2]. destruct i as [|i]; cbn in Hi.
  - injection Hi as <-. exists a. split; [reflexivity|]. split; [exact H1|lia].
  - rewrite length_app, Nat2Z.inj_add, Z.add_assoc in H2. destruct (IH _ _ H2 Hi) as (x & Hx & Hr & H3 & H4).
    cbn [length] in H3, H4. exists x. split; [exact Hx|]. split; [exact Hr|lia].
Qed.

Lemma length_string_addresses a texts : length (string_addresses a texts) = length texts.
Proof. revert a. induction texts as [|t texts IH]; intros a; [reflexivity|]. cbn. rewrite IH. reflexivity. Qed.

(** ** The whole stack *)

Definition STACK_LOW : Z := XBKS_USER_STACK_TOP - XBKS_USER_STACK_SIZE.

(** The words below the strings: the count, the two vectors and their ends. *)
Definition stack_words (st : Z) (argv envp : list (list Z)) : list Z :=
  [Z.of_nat (length argv)] ++ string_addresses st argv ++ [0] ++
  string_addresses (st + Z.of_nat (length (string_block argv))) envp ++ [0].

Definition strings_start (argv envp : list (list Z)) : Z :=
  XBKS_USER_STACK_TOP - Z.of_nat (length (string_block (argv ++ envp))).

(** The stack pointer the program starts with. *)
Definition entry_sp (argv envp : list (list Z)) : Z :=
  strings_start argv envp - strings_start argv envp mod 16 - 8 * (Z.of_nat (length argv) + Z.of_nat (length envp) + 3).

Lemma length_stack_words st argv envp :
  Z.of_nat (length (stack_words st argv envp)) = Z.of_nat (length argv) + Z.of_nat (length envp) + 3.
Proof. unfold stack_words. rewrite !length_app, !length_string_addresses. cbn. lia. Qed.

Lemma map_stack_range s r :
  map_user_range s r (XBKS_USER_STACK_TOP - XBKS_USER_STACK_SIZE) XBKS_USER_STACK_SIZE XBKS_PAGE_WRITABLE =
  map_range_loop 16 s r STACK_LOW XBKS_USER_STACK_TOP XBKS_PAGE_WRITABLE.
Proof. reflexivity. Qed.

Section Stack.
Context (s : mm) (roots l : list Z) (p : process) (argv envp : list (list Z)) (bargv benvp : list (list Z)).
Let r := cr3 p.
Context (Hsp : space s roots l) (Hr : r ∈ roots) (Hargv : Forall2 holds_text bargv argv) (Henvp : Forall2 holds_text benvp envp).
Context (Hfit : STACK_LOW <= entry_sp argv envp).
Let st := strings_start argv envp.
Let sp := entry_sp argv envp.

Lemma stack_build s1 l1 :
  map_user_range s r (XBKS_USER_STACK_TOP - XBKS_USER_STACK_SIZE) XBKS_USER_STACK_SIZE XBKS_PAGE_WRITABLE = (true, s1) ->
  refilled roots l l1 r (zeroed STACK_LOW XBKS_USER_STACK_TOP (user_byte s r)) s s1 ->
  exists s', build_user_stack s p bargv benvp = inl (Some (s', set_image r (entry p) sp (brk p) p)) /\
    refilled roots l l1 r (written sp (word_block (stack_words st argv envp))
      (written st (string_block (argv ++ envp)) (zeroed STACK_LOW XBKS_USER_STACK_TOP (user_byte s r)))) s s' /\
    reads s' r sp (word_block (stack_words st argv envp)) /\ reads s' r st (string_block (argv ++ envp)).
Proof using Hsp Hr Hargv Henvp Hfit.
  intros Em H1. unfold build_user_stack. fold r. rewrite Em.
  pose proof (rf_space _ _ _ _ _ _ _ _ H1) as Hsp1.
  assert (Hlo : USER_IMAGE_MIN <= STACK_LOW) by (vm_compute; discriminate).
  assert (Hhi : XBKS_USER_STACK_TOP <= XBKS_USER_TOP) by (vm_compute; discriminate).
  assert (Htop : XBKS_USER_STACK_TOP + 8192 = 2 ^ 47) by reflexivity.
  assert (Hl0 : 65536 <= STACK_LOW) by exact Hlo.
  assert (Ha1 : arena s1 r STACK_LOW XBKS_USER_STACK_TOP).
  { intros a Ha. rewrite (rf_user _ _ _ _ _ _ _ _ H1) by (unfold user_va; lia). unfold zeroed.
    destruct (Z.leb_spec STACK_LOW a), (Z.ltb_spec a XBKS_USER_STACK_TOP); cbn; try lia. discriminate. }
  assert (Hblk : Z.of_nat (length (string_block (argv ++ envp))) =
    Z.of_nat (length (string_block argv)) + Z.of_nat (length (string_block envp))) by (rewrite string_block_app, length_app; lia).
  assert (Hst : st = XBKS_USER_STACK_TOP - Z.of_nat (length (string_block envp)) - Z.of_nat (length (string_block argv))).
  { unfold st, strings_start. lia. }
  pose proof (Z.mod_pos_bound st 16 ltac:(lia)) as Hm16. unfold entry_sp in Hfit. fold st in Hfit.
  pose proof (Forall2_rev _ _ _ Henvp) as He'. pose proof (Forall2_rev _ _ _ Hargv) as Ha'.
  destruct (push_strings_ok roots l1 r STACK_LOW XBKS_USER_STACK_TOP Hr Hlo Hhi _ _ He' s1 XBKS_USER_STACK_TOP [] Hsp1 Ha1 ltac:(lia)) as (s2 & E2 & H2).
  { rewrite rev_involutive. lia. }
  rewrite rev_involutive in E2, H2. rewrite E2. set (ste := XBKS_USER_STACK_TOP - Z.of_nat (length (string_block envp))) in *.
  assert (Ha2 : arena s2 r STACK_LOW XBKS_USER_STACK_TOP) by (eapply arena_stored; [exact Hr| | |exact H2|exact Ha1]; lia).
  destruct (push_strings_ok roots l1 r STACK_LOW XBKS_USER_STACK_TOP Hr Hlo Hhi _ _ Ha' s2 ste [] (sd_space _ _ _ _ _ _ _ H2) Ha2 ltac:(lia)) as (s3 & E3 & H3).
  { rewrite rev_involutive. lia. }
  rewrite rev_involutive in E3, H3. rewrite <- Hst in E3, H3. rewrite E3, !app_nil_r.
  assert (Ha3 : arena s3 r STACK_LOW XBKS_USER_STACK_TOP) by (eapply arena_stored; [exact Hr| | |exact H3|exact Ha2]; lia).
  assert (Hs13 : stored roots l1 r st (string_block (argv ++ envp)) s1 s3).
  { rewrite string_block_app. apply (stored_below _ _ _ _ _ _ _ s2 _ Hr); [|exact H3].
    replace (st + Z.of_nat (length (string_block argv))) with ste by lia. exact H2. }
  change (~u 15) with (~u (2 ^ 4 - 1)). rewrite land_not_mask by (unfold in_u64; lia). change (2 ^ 4) with 16.
  set (words := [0] ++ _). assert (Hw : rev words = stack_words st argv envp).
  { unfold words, stack_words. rewrite !rev_app_distr, !rev_involutive, <- !app_assoc. cbn [rev app].
    rewrite (Forall2_length Hargv). replace ste with (st + Z.of_nat (length (string_block argv))) by lia. reflexivity. }
  assert (Hwl : Z.of_nat (length words) = Z.of_nat (length argv) + Z.of_nat (length envp) + 3).
  { rewrite <- (length_rev words), Hw. apply length_stack_words. }
  destruct (push_words_ok roots l1 r STACK_LOW XBKS_USER_STACK_TOP Hr Hlo Hhi words s3 (st - st mod 16) (sd_space _ _ _ _ _ _ _ H3) Ha3 ltac:(lia) ltac:(lia))
    as (s4 & E4 & H4).
  rewrite E4. rewrite Hwl, Hw in *. change (st - st mod 16 - 8 * _) with sp in *.
  assert (Hspw : sp + Z.of_nat (length (word_block (stack_words st argv envp))) <= st).
  { rewrite length_word_block. pose proof (length_stack_words st argv envp). unfold sp, entry_sp. fold st. lia. }
  assert (Hsp0 : STACK_LOW <= sp) by exact Hfit.
  exists s4. split; [reflexivity|]. split; [|split].
  - pose proof (refilled_trans _ _ _ _ _ _ _ _ _ _ _ Hr H1 (stored_refilled _ _ _ _ _ _ _ Hr Hs13)) as R13.
    refine (refilled_view _ _ _ _ _ _ _ _ _ (refilled_trans _ _ _ _ _ _ _ _ _ _ _ Hr R13 (stored_refilled _ _ _ _ _ _ _ Hr H4)) _).
    intros a Ha. unfold written at 1 2. destruct (overlay sp _ a); [reflexivity|].
    rewrite (rf_user _ _ _ _ _ _ _ _ R13 a Ha). unfold written. destruct (overlay st _ a); [reflexivity|].
    exact (rf_user _ _ _ _ _ _ _ _ H1 a Ha).
  - eapply stored_reads; [exact Hr| | |exact H4]; lia.
  - eapply reads_above; [exact Hr| | | |exact H4|]; try lia. eapply stored_reads; [exact Hr| | |exact Hs13]; lia.
Qed.
End Stack.

(** Enough free frames map the stack area. *)
Lemma stack_mapped s roots l r :
  space s roots l -> r ∈ roots -> (forall a, STACK_LOW <= a < XBKS_USER_STACK_TOP -> user_byte s r a = None) ->
  (64 <= length l)%nat ->
  exists s1 l1, map_user_range s r (XBKS_USER_STACK_TOP - XBKS_USER_STACK_SIZE) XBKS_USER_STACK_SIZE XBKS_PAGE_WRITABLE = (true, s1) /\
    (length l <= 64 + length l1)%nat /\ refilled roots l l1 r (zeroed STACK_LOW XBKS_USER_STACK_TOP (user_byte s r)) s s1.
Proof.
  intros Hsp Hr Hun Hl. rewrite map_stack_range.
  pose proof (map_range_loop_spec 16 roots r XBKS_PAGE_WRITABLE s l STACK_LOW XBKS_USER_STACK_TOP Hsp Hr) as M.
  specialize (M ltac:(vm_compute; discriminate) eq_refl eq_refl ltac:(vm_compute; discriminate) ltac:(unfold XBKS_PAGE_WRITABLE; lia)).
  destruct (map_range_loop 16 s r STACK_LOW XBKS_USER_STACK_TOP XBKS_PAGE_WRITABLE) as [[|] s1].
  - destruct M as (_ & l1 & L & M). exists s1, l1. split; [reflexivity|]. split; [lia|exact M].
  - destruct M as (mid & l1 & Hmid & _ & _ & [M|M]); [|lia]. destruct M. exact (Hun mid Hmid).
Qed.

(** The stack stays in its area. *)
Lemma stack_view_out argv envp v a :
  STACK_LOW <= entry_sp argv envp -> ~ STACK_LOW <= a < XBKS_USER_STACK_TOP ->
  written (entry_sp argv envp) (word_block (stack_words (strings_start argv envp) argv envp))
    (written (strings_start argv envp) (string_block (argv ++ envp)) (zeroed STACK_LOW XBKS_USER_STACK_TOP v)) a = v a.
Proof.
  intros Hfit Ha. pose proof (length_stack_words (strings_start argv envp) argv envp) as Hl.
  pose proof (length_word_block (stack_words (strings_start argv envp) argv envp)) as Hw.
  pose proof (Z.mod_pos_bound (strings_start argv envp) 16 ltac:(lia)) as Hm.
  assert (Hsp : entry_sp argv envp + Z.of_nat (length (word_block (stack_words (strings_start argv envp) argv envp))) <= strings_start argv envp).
  { unfold entry_sp in *. lia. }
  assert (Hend : strings_start argv envp + Z.of_nat (length (string_block (argv ++ envp))) = XBKS_USER_STACK_TOP) by (unfold strings_start; lia).
  unfold written. destruct (Z.lt_ge_cases a STACK_LOW).
  - rewrite !overlay_above by lia. apply zeroed_out, Ha.
  - rewrite !overlay_before by lia. apply zeroed_out, Ha.
Qed.

Lemma entry_sp_mod argv envp :
  entry_sp argv envp mod 16 = 8 * ((Z.of_nat (length argv) + Z.of_nat (length envp) + 1) mod 2).
Proof.
  unfold entry_sp. set (st := strings_start argv envp). set (n := Z.of_nat (length argv) + Z.of_nat (length envp)).
  symmetry. apply (Z.mod_unique _ _ (st / 16 - n / 2 - 2)).
  - pose proof (Z.mod_pos_bound (n + 1) 2). lia.
  - pose proof (Z.div_mod st 16). pose proof (Z.div_mod n 2). pose proof (Z.div_mod (n + 1) 2).
    pose proof (Z.mod_pos_bound n 2). pose proof (Z.mod_pos_bound (n + 1) 2).
    lia.
Qed.

(** Where the words are. *)
Lemma lookup_stack_words st argv envp :
  let w := stack_words st argv envp in
  w !! 0%nat = Some (Z.of_nat (length argv)) /\
  (forall i a, string_addresses st argv !! i = Some a -> w !! S i = Some a) /\
  w !! S (length argv) = Some 0 /\
  (forall i a, string_addresses (st + Z.of_nat (length (string_block argv))) envp !! i = Some a -> w !! S (length argv + S i) = Some a) /\
  w !! S (length argv + S (length envp)) = Some 0.
Proof.
  cbn zeta. unfold stack_words.
  set (u := string_addresses st argv). set (v := string_addresses _ envp).
  assert (Hu : length u = length argv) by apply length_string_addresses.
  assert (Hv : length v = length envp) by apply length_string_addresses.
  assert (Hs : forall i, ([Z.of_nat (length argv)] ++ u ++ [0] ++ v ++ [0]) !! S i = (u ++ [0] ++ v ++ [0]) !! i) by reflexivity.
  assert (Hs2 : forall i, (u ++ [0] ++ v ++ [0]) !! (length argv + S i)%nat = (v ++ [0]) !! i).
  { intros i. rewrite lookup_app_r by lia. rewrite Hu. replace (length argv + S i - length argv)%nat with (S i) by lia. reflexivity. }
  repeat split.
  - intros i a Ha. rewrite Hs. apply lookup_app_l_Some, Ha.
  - rewrite Hs, lookup_app_r, Hu, Nat.sub_diag by lia. reflexivity.
  - intros i a Ha. rewrite Hs, Hs2. apply lookup_app_l_Some, Ha.
  - rewrite Hs, Hs2, lookup_app_r, Hv, Nat.sub_diag by lia. reflexivity.
Qed.

(** The stack that the x86-64 ABI prescribes for a new program: the argument count, one
    pointer per argument, a null, one pointer per environment string, a null; every
    pointer leads to its string with its terminator, on the stack. *)
Definition abi_stack (s : mm) (r sp : Z) (argv envp : list (list Z)) : Prop :=
  let argc := Z.of_nat (length argv) in
  reads s r sp (le_bytes 8 argc) /\
  (forall i t, argv !! i = Some t -> exists a,
     reads s r (sp + 8 * (1 + Z.of_nat i)) (le_bytes 8 a) /\ reads s r a (t ++ [0]) /\ sp <= a /\ a + Z.of_nat (length t) < XBKS_USER_STACK_TOP) /\
  reads s r (sp + 8 * (1 + argc)) (le_bytes 8 0) /\
  (forall i t, envp !! i = Some t -> exists a,
     reads s r (sp + 8 * (2 + argc + Z.of_nat i)) (le_bytes 8 a) /\ reads s r a (t ++ [0]) /\ sp <= a /\ a + Z.of_nat (length t) < XBKS_USER_STACK_TOP) /\
  reads s r (sp + 8 * (2 + argc + Z.of_nat (length envp))) (le_bytes 8 0).

Lemma abi_stack_ok s r sp st argv envp :
  reads s r sp (word_block (stack_words st argv envp)) -> reads s r st (string_block (argv ++ envp)) ->
  sp <= st -> st + Z.of_nat (length (string_block (argv ++ envp))) = XBKS_USER_STACK_TOP ->
  abi_stack s r sp argv envp.
Proof.
  intros Hw Hs Hsp Hst. rewrite string_block_app in Hs, Hst. rewrite length_app in Hst. apply reads_app in Hs as [Hsa Hse].
  destruct (lookup_stack_words st argv envp) as (W0 & W1 & W2 & W3 & W4). repeat apply conj.
  - rewrite <- (Z.add_0_r sp). exact (reads_word _ _ _ _ 0 _ Hw W0).
  - intros i t Hi. destruct (reads_string _ _ _ _ i t Hsa Hi) as (a & Ha & Hr' & H1 & H2). exists a. split; [|split; [exact Hr'|lia]].
    replace (1 + Z.of_nat i) with (Z.of_nat (S i)) by lia. exact (reads_word _ _ _ _ _ _ Hw (W1 i a Ha)).
  - replace (1 + Z.of_nat (length argv)) with (Z.of_nat (S (length argv))) by lia. exact (reads_word _ _ _ _ _ _ Hw W2).
  - intros i t Hi. destruct (reads_string _ _ _ _ i t Hse Hi) as (a & Ha & Hr' & H1 & H2). exists a. split; [|split; [exact Hr'|lia]].
    replace (2 + Z.of_nat (length argv) + Z.of_nat i) with (Z.of_nat (S (length argv + S i))) by lia. exact (reads_word _ _ _ _ _ _ Hw (W3 i a Ha)).
  - replace (2 + Z.of_nat (length argv) + Z.of_nat (length envp)) with (Z.of_nat (S (length argv + S (length envp)))) by lia.
    exact (reads_word _ _ _ _ _ _ Hw W4).
Qed.

(** The stack that [build_user_stack] leaves. *)
Lemma entry_stack_ok s r argv envp :
  reads s r (entry_sp argv envp) (word_block (stack_words (strings_start argv envp) argv envp)) ->
  reads s r (strings_start argv envp) (string_block (argv ++ envp)) -> abi_stack s r (entry_sp argv envp) argv envp.
Proof.
  intros Hw Hs. apply (abi_stack_ok s r _ _ _ _ Hw Hs); [|unfold strings_start; lia].
  unfold entry_sp. pose proof (Z.mod_pos_bound (strings_start argv envp) 16). lia.
Qed.

Lemma reads_ext s s' r a l :
  (forall va, user_va va -> user_byte s' r va = user_byte s r va) -> 0 <= a -> a + Z.of_nat (length l) <= 2 ^ 47 ->
  reads s r a l -> reads s' r a l.
Proof.
  intros H H0 Ht Hl i b Hi. pose proof (lookup_lt_Some _ _ _ Hi). rewrite H; [exact (Hl i b Hi)|unfold user_va; lia].
Qed.

(** The stack depends on the user half alone. *)
Lemma abi_stack_ext s s' r argv envp :
  (forall va, user_va va -> user_byte s' r va = user_byte s r va) -> STACK_LOW <= entry_sp argv envp ->
  abi_stack s r (entry_sp argv envp) argv envp -> abi_stack s' r (entry_sp argv envp) argv envp.
Proof.
  intros H Hfit (A1 & A2 & A3 & A4 & A5).
  assert (Hb : 0 <= STACK_LOW /\ XBKS_USER_STACK_TOP <= 2 ^ 47) by (split; vm_compute; discriminate).
  assert (Hw : entry_sp argv envp + 8 * (3 + Z.of_nat (length argv) + Z.of_nat (length envp)) <= XBKS_USER_STACK_TOP).
  { unfold entry_sp. pose proof (Z.mod_pos_bound (strings_start argv envp) 16). unfold strings_start in *. lia. }
  assert (Hword : forall j w, 0 <= j <= 2 + Z.of_nat (length argv) + Z.of_nat (length envp) ->
    reads s r (entry_sp argv envp + 8 * j) (le_bytes 8 w) -> reads s' r (entry_sp argv envp + 8 * j) (le_bytes 8 w)).
  { intros j w Hj. apply reads_ext; [exact H|lia|]. change (Z.of_nat (length (le_bytes 8 w))) with 8. lia. }
  assert (Hstring : forall a t, entry_sp argv envp <= a -> a + Z.of_nat (length t) < XBKS_USER_STACK_TOP -> reads s r a (t ++ [0]) -> reads s' r a (t ++ [0])).
  { intros a t H1 H2. apply reads_ext; [exact H|lia|]. rewrite length_app. cbn [length]. lia. }
  split; [|split; [|split; [|split]]].
  - specialize (Hword 0). rewrite Z.mul_0_r, Z.add_0_r in Hword. apply Hword; [lia|exact A1].
  - intros i t Hi. pose proof (lookup_lt_Some _ _ _ Hi). destruct (A2 i t Hi) as (a & H1 & H2 & H3). exists a.
    split; [apply Hword; [lia|exact H1]|]. split; [apply Hstring; [apply H3|apply H3|exact H2]|exact H3].
  - apply Hword; [lia|exact A3].
  - intros i t Hi. pose proof (lookup_lt_Some _ _ _ Hi). destruct (A4 i t Hi) as (a & H1 & H2 & H3). exists a.
    split; [apply Hword; [lia|exact H1]|]. split; [apply Hstring; [apply H3|apply H3|exact H2]|exact H3].
  - apply Hword; [lia|exact A5].
Qed.
