(* ===== verification/ProgramSpec.v ===== *)
(** * Loading a program: the theory

    What [load_elf_into_process] of src/kernel/process.c leaves in a new address space:
    every segment's bytes, zeros after them up to the end of its pages, nothing else. *)

From Stdlib Require Import Ascii String.
From S2P Require Import Prelude CMem CStr Pmm Vmm VmmSpec Ramdisk Elf ElfProps Keyboard Kernel Loader Syscalls ProcTable UserMem LoaderSpec.

(** ** Segments *)

Definition seg_lo (ph : elf64_phdr) : Z := page_down (p_vaddr ph).
Definition seg_hi (ph : elf64_phdr) : Z := page_up (p_vaddr ph + p_memsz ph).

(** A segment that lies inside its file and the user half. *)
Definition user_segment (size : Z) (ph : elf64_phdr) : Prop :=
  p_filesz ph <= p_memsz ph /\ p_offset ph + p_filesz ph <= size /\
  USER_IMAGE_MIN <= p_vaddr ph /\ p_vaddr ph + p_memsz ph < XBKS_USER_TOP.

(** The pages of different segments are different. *)
Fixpoint separate (segs : list elf64_phdr) : Prop :=
  match segs with
  | [] => True
  | p :: rest => Forall (fun q => seg_hi p <= seg_lo q \/ seg_hi q <= seg_lo p) rest /\ separate rest
  end.

Fixpoint seg_bytes (segs : list elf64_phdr) : Z :=
  match segs with
  | [] => 0
  | p :: rest => seg_hi p - seg_lo p + seg_bytes rest
  end.

Definition segment_view (m : mem) (data : Z) (v : Z -> option Z) (ph : elf64_phdr) : Z -> option Z :=
  written (p_vaddr ph) (bytes_at m (data + p_offset ph) (Z.to_nat (p_filesz ph))) (zeroed (seg_lo ph) (seg_hi ph) v).

Lemma seg_lo_hi size ph : phdr_range ph -> user_segment size ph ->
  0 <= seg_lo ph /\ seg_lo ph <= p_vaddr ph /\ p_vaddr ph + p_memsz ph <= seg_hi ph /\ seg_hi ph <= 2 ^ 47.
Proof.
  intros (_ & Hv & Hf & Hm) (_ & _ & H1 & H2). unfold USER_IMAGE_MIN, XBKS_USER_TOP in *.
  destruct (page_down_ok (p_vaddr ph)) as [_ Hd]. pose proof (page_up_ge (p_vaddr ph + p_memsz ph)).
  pose proof (page_up_top (p_vaddr ph + p_memsz ph) ltac:(lia)). unfold seg_lo, seg_hi in *. lia.
Qed.

Lemma segment_view_out m data v ph size a :
  phdr_range ph -> user_segment size ph -> ~ seg_lo ph <= a < seg_hi ph -> segment_view m data v ph a = v a.
Proof.
  intros Hr Hs Ha. destruct (seg_lo_hi size ph Hr Hs) as (_ & H1 & H2 & _). destruct Hs as (Hf & _). destruct Hr as (_ & _ & Hf0 & _).
  unfold segment_view, written. pose proof (length_bytes_at m (data + p_offset ph) (Z.to_nat (p_filesz ph))) as Hl.
  assert (overlay (p_vaddr ph) (bytes_at m (data + p_offset ph) (Z.to_nat (p_filesz ph))) a = None) as ->.
  { destruct (Z.lt_ge_cases a (p_vaddr ph)); [apply overlay_above; lia|apply overlay_before; lia]. }
  apply zeroed_out, Ha.
Qed.

(** A segment as the program sees it. *)
Lemma segment_view_in m data v ph size a :
  phdr_range ph -> user_segment size ph -> p_vaddr ph <= a < p_vaddr ph + p_memsz ph ->
  segment_view m data v ph a =
    Some (if a <? p_vaddr ph + p_filesz ph then rd8 m (data + p_offset ph + (a - p_vaddr ph)) else 0).
Proof.
  intros Hr Hs Ha. destruct (seg_lo_hi size ph Hr Hs) as (_ & H1 & H2 & _). destruct Hr as (_ & _ & Hf0 & _).
  unfold segment_view, written. destruct (Z.ltb_spec a (p_vaddr ph + p_filesz ph)).
  - unfold overlay. destruct (Z.ltb_spec a (p_vaddr ph)); [lia|]. rewrite lookup_bytes_at by lia.
    do 2 f_equal. lia.
  - rewrite overlay_before by (rewrite length_bytes_at; lia). unfold zeroed.
    destruct (Z.leb_spec (seg_lo ph) a), (Z.ltb_spec a (seg_hi ph)); cbn; try lia. reflexivity.
Qed.

Lemma fold_view_ext m data segs v v' a : v a = v' a ->
  fold_left (segment_view m data) segs v a = fold_left (segment_view m data) segs v' a.
Proof.
  revert v v'. induction segs as [|p segs IH]; intros v v' H; cbn [fold_left]; [exact H|].
  apply IH. unfold segment_view, written. destruct (overlay _ _ a); [reflexivity|apply zeroed_ext, H].
Qed.

Lemma fold_view_out m data size segs v a :
  Forall (fun ph => phdr_range ph /\ user_segment size ph) segs -> (forall ph, ph ∈ segs -> ~ seg_lo ph <= a < seg_hi ph) ->
  fold_left (segment_view m data) segs v a = v a.
Proof.
  intros Hs Ha. revert v. induction Hs as [|p segs [Hr Hp] _ IH]; intros v; cbn [fold_left]; [reflexivity|].
  rewrite IH by (intros ph Hph; apply Ha; right; exact Hph). eapply segment_view_out; [exact Hr|exact Hp|]. apply Ha. left.
Qed.

Lemma fold_view_in m data size segs v ph a :
  Forall (fun ph => phdr_range ph /\ user_segment size ph) segs -> separate segs -> ph ∈ segs ->
  p_vaddr ph <= a < p_vaddr ph + p_memsz ph ->
  fold_left (segment_view m data) segs v a =
    Some (if a <? p_vaddr ph + p_filesz ph then rd8 m (data + p_offset ph + (a - p_vaddr ph)) else 0).
Proof.
  intros Hs. revert v. induction Hs as [|p segs [Hr Hp] Hs IH]; intros v Hsep Hin Ha; [inversion Hin|].
  destruct Hsep as [Hd Hsep]. cbn [fold_left]. apply elem_of_cons in Hin as [->|Hin]; [|exact (IH _ Hsep Hin Ha)].
  destruct (seg_lo_hi size p Hr Hp) as (_ & H1 & H2 & _).
  rewrite (fold_view_out m data size segs _ a Hs).
  - eapply segment_view_in; eassumption.
  - intros q Hq. rewrite List.Forall_forall in Hd. specialize (Hd q (proj1 (list_elem_of_In _ _) Hq)). lia.
Qed.

(** ** One segment *)

Lemma segment_accepted size ph : phdr_range ph -> user_segment size ph -> segment_refused size ph = false.
Proof.
  intros (Ho & Hv & Hf & Hm) (H1 & H2 & H3 & H4). unfold segment_refused. unfold USER_IMAGE_MIN, XBKS_USER_TOP in *.
  destruct (Z.lt_ge_cases (p_offset ph + p_filesz ph) (2 ^ 64)) as [Hlt|Hge].
  - rewrite (uwrap_small 64 (p_offset ph + _)) by lia. rewrite (uwrap_small 64 (p_vaddr ph + _)) by lia.
    repeat (case_bool; try lia); reflexivity.
  - rewrite (uwrap_small 64 (p_vaddr ph + _)) by lia.
    assert (p_offset ph +u p_filesz ph = p_offset ph + p_filesz ph - 2 ^ 64) as ->
      by (unfold uwrap; symmetry; apply (Z.mod_unique _ _ 1); lia).
    repeat (case_bool; try lia); reflexivity.
Qed.

(** The file's bytes lie outside the free memory and the space being built. *)
Definition file_apart (s : mm) (r : Z) (l : list Z) (data size : Z) : Prop :=
  forall i, 0 <= i < size -> outside s r l (data + i).

Lemma load_segment_ok s roots l r file ph :
  space s roots l -> r ∈ roots -> phdr_range ph -> p_type ph = PT_LOAD -> user_segment (f_size file) ph ->
  (forall a, seg_lo ph <= a < seg_hi ph -> user_byte s r a = None) ->
  4 * (seg_hi ph - seg_lo ph) <= 4096 * Z.of_nat (length l) -> file_apart s r l (f_data file) (f_size file) ->
  exists s' l', load_segment s r file ph = (true, s') /\
    4096 * Z.of_nat (length l) <= 4 * (seg_hi ph - seg_lo ph) + 4096 * Z.of_nat (length l') /\
    refilled roots l l' r (segment_view (ram s) (f_data file) (user_byte s r) ph) s s'.
Proof.
  intros Hsp Hr Hph Ht Hseg Hun Hfr Hfile. unfold load_segment. rewrite Ht, Z.eqb_refl. cbn [negb].
  rewrite (segment_accepted _ _ Hph Hseg). destruct (seg_lo_hi _ _ Hph Hseg) as (Hlo0 & Hlo & Hhi & Htop).
  pose proof Hph as (Hpo & Hv & Hf & Hm). pose proof Hseg as (Hfm & Hfs & H1 & H2). unfold USER_IMAGE_MIN, XBKS_USER_TOP in H1, H2.
  pose proof (map_user_range_spec s roots l r (p_vaddr ph) (p_memsz ph) XBKS_PAGE_WRITABLE Hsp Hr ltac:(lia) ltac:(lia) ltac:(lia)
    ltac:(unfold XBKS_PAGE_WRITABLE; lia)) as M. cbn zeta in M. fold (seg_lo ph) (seg_hi ph) in M.
  destruct (map_user_range s r (p_vaddr ph) (p_memsz ph) XBKS_PAGE_WRITABLE) as [[|] s1].
  2: { exfalso. destruct M as (mid & l1 & Hmid & _ & [Hx|Hx]); [exact (Hx (Hun mid Hmid))|lia]. }
  destruct M as (_ & l1 & L1 & M1). set (n := Z.to_nat (p_filesz ph)). replace (p_filesz ph) with (Z.of_nat n) by lia.
  assert (Hsrc : forall i, 0 <= i < Z.of_nat n -> outside s r l (f_data file + p_offset ph + i)).
  { intros i Hi. rewrite <- Z.add_assoc. apply Hfile. lia. }
  destruct (write_process_memory_spec s1 roots l1 r (p_vaddr ph) (FromRam (f_data file + p_offset ph)) n (rf_space _ _ _ _ _ _ _ _ M1) Hr
    ltac:(lia) ltac:(lia)) as (b & s2 & k & E & Hk & Hst & Hb).
  { intros i Hi. exact (proj2 (outside_refilled _ _ _ _ _ _ _ _ _ Hr M1 (Hsrc i Hi))). }
  rewrite E. destruct b.
  - subst k. exists s2, l1. split; [reflexivity|]. split; [exact L1|].
    refine (refilled_view _ _ _ _ _ _ _ _ _ (refilled_trans _ _ _ _ _ _ _ _ _ _ _ Hr M1 (stored_refilled _ _ _ _ _ _ _ Hr Hst)) _).
    intros a Ha. unfold segment_view, written. cbn [source_bytes]. rewrite Z.add_0_r. fold n.
    rewrite (bytes_at_ext (ram s1) (ram s)).
    + destruct (overlay _ _ a); [reflexivity|]. exact (rf_user _ _ _ _ _ _ _ _ M1 a Ha).
    + intros b Hb'. apply (rf_mem _ _ _ _ _ _ _ _ M1). replace b with (f_data file + p_offset ph + (b - (f_data file + p_offset ph))) by lia.
      apply Hsrc. lia.
  - exfalso. destruct Hb as [Hlt Hnone].
    rewrite (rf_user _ _ _ _ _ _ _ _ M1) in Hnone by (unfold user_va; lia). unfold zeroed in Hnone.
    destruct (Z.leb_spec (seg_lo ph) (p_vaddr ph + Z.of_nat k)), (Z.ltb_spec (p_vaddr ph + Z.of_nat k) (seg_hi ph)); cbn in Hnone; try lia. discriminate.
Qed.

(** ** All segments *)

Lemma file_apart_refilled roots l l' r v s s' data size :
  r ∈ roots -> refilled roots l l' r v s s' -> file_apart s r l data size -> file_apart s' r l' data size.
Proof. intros Hr H Hf i Hi. exact (outside_refilled _ _ _ _ _ _ _ _ _ Hr H (Hf i Hi)). Qed.

Section Segments.
Context (m : mem) (file : xbks_ramdisk_file) (roots : list Z) (r : Z) (Hr : r ∈ roots).
Let data := f_data file.
Let size := f_size file.
Let table := data + e_phoff m data.
Context (Hhead : sizeof_ehdr <= size) (Htable : e_phoff m data + e_phnum m data * sizeof_phdr <= size).

(** The file as it was when loading began. *)
Definition file_same (s : mm) : Prop := forall j, 0 <= j < size -> rd8 (ram s) (data + j) = rd8 m (data + j).

Lemma file_load n s a : file_same s -> data <= a -> a + Z.of_nat n <= data + size -> ld_le n (ram s) a = ld_le n m a.
Proof using.
  intros H H1 H2. apply ld_le_ext. intros b Hb. replace b with (data + (b - data)) by lia. apply H. lia.
Qed.

Lemma phnum_same s : file_same s -> e_phnum (ram s) data = e_phnum m data.
Proof using Hhead. intros H. unfold sizeof_ehdr in Hhead. apply (file_load 2); [exact H|lia|lia]. Qed.

Lemma header_same s i : file_same s -> 0 <= i < e_phnum m data -> phdr_at (ram s) table i = phdr_at m table i.
Proof using Htable.
  intros H Hi. unfold phdr_at, ld32, ld64. pose proof (ld64_range m (data + 32)) as Ho. unfold in_u64 in Ho.
  unfold table, sizeof_phdr in *. fold (e_phoff m data) in Ho. f_equal; (apply file_load; [exact H|lia|lia]).
Qed.

Lemma file_same_refilled l l' v s s' :
  refilled roots l l' r v s s' -> file_apart s r l data size -> file_same s -> file_same s'.
Proof using. intros H Ha Hf j Hj. rewrite (rf_mem _ _ _ _ _ _ _ _ H) by (apply Ha, Hj). exact (Hf j Hj). Qed.

Lemma load_segments_ok n : forall k i s l, let segs := loads (phdrs m table k i) in
  space s roots l -> file_same s -> file_apart s r l data size -> 0 <= i -> i + Z.of_nat k = e_phnum m data -> (k <= n)%nat ->
  Forall (user_segment size) segs -> separate segs ->
  (forall ph a, ph ∈ segs -> seg_lo ph <= a < seg_hi ph -> user_byte s r a = None) ->
  4 * seg_bytes segs <= 4096 * Z.of_nat (length l) ->
  exists s' l', load_segments n s r file data table i = (true, s') /\ file_same s' /\
    4096 * Z.of_nat (length l) <= 4 * seg_bytes segs + 4096 * Z.of_nat (length l') /\
    refilled roots l l' r (fold_left (segment_view m data) segs (user_byte s r)) s s'.
Proof using Hr Hhead Htable.
  induction n as [|n IH]; intros k i s l segs Hsp Hsame Hap Hi Hk Hn Hsegs Hsep Hun Hfr; cbn [load_segments].
  { destruct k; [|lia]. exists s, l. cbn. split; [reflexivity|]. split; [exact Hsame|]. split; [lia|apply refilled_refl, Hsp]. }
  rewrite (phnum_same s Hsame). destruct k as [|k].
  { destruct (Z.ltb_spec i (e_phnum m data)); [lia|]. exists s, l. cbn.
    split; [reflexivity|]. split; [exact Hsame|]. split; [lia|apply refilled_refl, Hsp]. }
  destruct (Z.ltb_spec i (e_phnum m data)); [|lia]. rewrite (header_same s i Hsame) by lia.
  pose proof (phdr_at_range m table i) as Hrange. set (ph := phdr_at m table i) in *.
  unfold segs in *. cbn [phdrs] in *. fold ph in Hsegs, Hsep, Hun, Hfr |- *. cbn [loads List.filter] in *.
  destruct (loadable ph) eqn:El.
  2: { unfold loadable in El. unfold load_segment. rewrite El. cbn [negb].
       exact (IH k (i + 1) s l Hsp Hsame Hap ltac:(lia) ltac:(lia) ltac:(lia) Hsegs Hsep Hun Hfr). }
  fold (loads (phdrs m table k (i + 1))) in *. set (rest := loads (phdrs m table k (i + 1))) in *.
  apply Z.eqb_eq in El. apply Forall_cons_iff in Hsegs as [Hph Hrest]. destruct Hsep as [Hd Hsep]. cbn [seg_bytes fold_left] in *.
  assert (Hpos : Forall (fun q => 0 <= seg_hi q - seg_lo q) rest).
  { apply List.Forall_forall. intros q Hq. rewrite List.Forall_forall in Hrest.
    pose proof (loads_range m table k (i + 1)) as Hrg. rewrite List.Forall_forall in Hrg.
    destruct (seg_lo_hi size q (Hrg q Hq) (Hrest q Hq)) as (? & ? & ? & ?). destruct (Hrg q Hq) as (_ & _ & _ & ?). lia. }
  assert (Hsb : 0 <= seg_bytes rest) by (clear -Hpos; induction Hpos; cbn; lia).
  destruct (load_segment_ok s roots l r file ph Hsp Hr Hrange El Hph) as (s1 & l1 & E1 & L1 & M1).
  { intros a Ha. apply (Hun ph a); [left|exact Ha]. }
  { lia. }
  { exact Hap. }
  rewrite E1. change (f_data file) with data in M1.
  destruct (IH k (i + 1) s1 l1 (rf_space _ _ _ _ _ _ _ _ M1)) as (s2 & l2 & E2 & Hs2 & L2 & M2); fold rest.
  - exact (file_same_refilled _ _ _ _ _ M1 Hap Hsame).
  - exact (file_apart_refilled _ _ _ _ _ _ _ _ _ Hr M1 Hap).
  - lia.
  - lia.
  - lia.
  - exact Hrest.
  - exact Hsep.
  - intros q a Hq Ha. pose proof (loads_range m table k (i + 1)) as Hrg. rewrite List.Forall_forall in Hrg, Hrest, Hd.
    apply list_elem_of_In in Hq. destruct (seg_lo_hi size q (Hrg q Hq) (Hrest q Hq)) as (? & ? & ? & ?).
    rewrite (rf_user _ _ _ _ _ _ _ _ M1) by (unfold user_va; lia).
    rewrite (segment_view_out _ _ _ ph size a Hrange Hph) by (specialize (Hd q Hq); lia).
    apply (Hun q a); [right; apply list_elem_of_In, Hq|exact Ha].
  - lia.
  - fold rest in E2, L2, M2. exists s2, l2. split; [exact E2|]. split; [exact Hs2|]. split; [lia|].
    refine (refilled_view _ _ _ _ _ _ _ _ _ (refilled_trans _ _ _ _ _ _ _ _ _ _ _ Hr M1 M2) _).
    intros a Ha. apply fold_view_ext. rewrite (rf_user _ _ _ _ _ _ _ _ M1 a Ha). unfold segment_view, written.
    rewrite (bytes_at_ext (ram s) m); [reflexivity|]. intros b Hb. destruct Hph as (_ & Hfs & _). destruct Hrange as (? & _ & ? & _).
    replace b with (data + (b - data)) by lia. apply Hsame. lia.
Qed.
End Segments.

(** ** The file *)

(** An executable that the kernel can load. *)
Record program_ok (m : mem) (file : xbks_ramdisk_file) : Prop := {
  pg_regular : f_data file <> 0 /\ f_directory file = false /\ sizeof_ehdr <= f_size file < 2 ^ 64;
  pg_magic : bytes_at m (f_data file) 6 = [127; chr "E"; chr "L"; chr "F"; 2; 1];
  pg_machine : e_machine m (f_data file) = 62;
  pg_table : e_phentsize m (f_data file) = sizeof_phdr /\ e_phnum m (f_data file) <> 0 /\
    e_phoff m (f_data file) + e_phnum m (f_data file) * sizeof_phdr <= f_size file;
  pg_segments : Forall (user_segment (f_size file)) (segments m (f_data file)) /\ separate (segments m (f_data file));
}.

Lemma validate_program m file : program_ok m file -> validate_elf m file = Some (f_data file).
Proof.
  intros [(Hd & Hdir & Hsz) Hmag Hmach (Hent & Hnum & Htab) _]. unfold validate_elf. unfold sizeof_ehdr in *.
  rewrite Hdir, (proj2 (Z.eqb_neq _ 0) Hd). destruct (Z.ltb_spec (f_size file) 64); [lia|]. cbn [orb].
  assert (Hb : forall i b, [127; chr "E"; chr "L"; chr "F"; 2; 1] !! i = Some b -> rd8 m (f_data file + Z.of_nat i) = b).
  { intros i b Hi. pose proof (lookup_lt_Some _ _ _ Hi). rewrite <- Hmag, lookup_bytes_at in Hi by (cbn in *; lia). congruence. }
  pose proof (Hb 0%nat _ eq_refl) as M0. pose proof (Hb 1%nat _ eq_refl) as M1. pose proof (Hb 2%nat _ eq_refl) as M2.
  pose proof (Hb 3%nat _ eq_refl) as M3. pose proof (Hb 4%nat _ eq_refl) as M4. pose proof (Hb 5%nat _ eq_refl) as M5.
  change (Z.of_nat 0) with 0 in M0.  change (Z.of_nat 1) with 1 in M1.  change (Z.of_nat 2) with 2 in M2.  change (Z.of_nat 3) with 3 in M3.  change (Z.of_nat 4) with 4 in M4.  change (Z.of_nat 5) with 5 in M5.
  unfold e_ident. rewrite M0, M1, M2, M3, M4, M5, Hmach, Hent, !Z.eqb_refl. cbn [negb orb].
  rewrite (proj2 (Z.eqb_neq _ 0) Hnum). pose proof (ld64_range m (f_data file + 32)) as Ho. fold (e_phoff m (f_data file)) in Ho.
  pose proof (ld_le_range 2 m (f_data file + 56)) as Hn. fold (ld16 m (f_data file + 56)) in Hn. fold (e_phnum m (f_data file)) in Hn.
  unfold in_u64, sizeof_phdr in *. rewrite (uwrap_small 64 (_ * 56)) by lia. rewrite uwrap_small by lia.
  repeat (case_bool; try lia); reflexivity.
Qed.

Lemma load_elf_ok s roots l p file :
  let segs := segments (ram s) (f_data file) in
  space s roots l -> cr3 p ∈ roots -> program_ok (ram s) file -> file_apart s (cr3 p) l (f_data file) (f_size file) ->
  (forall ph a, ph ∈ segs -> seg_lo ph <= a < seg_hi ph -> user_byte s (cr3 p) a = None) ->
  4 * seg_bytes segs <= 4096 * Z.of_nat (length l) ->
  exists s' l', load_elf_into_process s p file =
      (true, s', set_image (cr3 p) (e_entry (ram s) (f_data file)) (stack p) 8388608 p) /\
    4096 * Z.of_nat (length l) <= 4 * seg_bytes segs + 4096 * Z.of_nat (length l') /\
    refilled roots l l' (cr3 p) (fold_left (segment_view (ram s) (f_data file)) segs (user_byte s (cr3 p))) s s'.
Proof.
  intros segs Hsp Hr Hpg Hap Hun Hfr. unfold load_elf_into_process. rewrite (validate_program _ _ Hpg).
  destruct Hpg as [(_ & _ & Hsz) _ _ (_ & _ & Htab) [Hsegs Hsep]]. pose proof (ld_le_range 2 (ram s) (f_data file + 56)) as Hn.
  fold (ld16 (ram s) (f_data file + 56)) in Hn. fold (e_phnum (ram s) (f_data file)) in Hn.
  destruct (load_segments_ok (ram s) file roots (cr3 p) Hr ltac:(lia) Htab (Z.to_nat 65536) (Z.to_nat (e_phnum (ram s) (f_data file))) 0 s l)
    as (s' & l' & E & Hsame & L & M); try assumption.
  - intros j _. reflexivity.
  - lia.
  - lia.
  - lia.
  - exists s', l'. rewrite E. split; [|split; [exact L|exact M]]. do 2 f_equal.
    unfold sizeof_ehdr in Hsz. apply (file_load (ram s) file 8); [exact Hsame|lia|lia].
Qed.

(** The loader only looks at the file's bytes. *)
Lemma phdrs_same m file s n i :
  e_phoff m (f_data file) + e_phnum m (f_data file) * sizeof_phdr <= f_size file -> file_same m file s ->
  0 <= i -> i + Z.of_nat n <= e_phnum m (f_data file) ->
  phdrs (ram s) (f_data file + e_phoff m (f_data file)) n i = phdrs m (f_data file + e_phoff m (f_data file)) n i.
Proof.
  intros Ht Hs. revert i. induction n as [|n IH]; intros i Hi Hn; cbn [phdrs]; [reflexivity|].
  rewrite IH, (header_same m file Ht s i Hs) by lia. reflexivity.
Qed.

Lemma program_same m file s :
  program_ok m file -> file_same m file s ->
  program_ok (ram s) file /\ segments (ram s) (f_data file) = segments m (f_data file) /\
  e_entry (ram s) (f_data file) = e_entry m (f_data file).
Proof.
  intros [(Hd & Hdir & Hsz) Hmag Hmach (Hent & Hnum & Htab) Hsegs] Hs. unfold sizeof_ehdr in Hsz.
  assert (Hf : forall n o, 0 <= o -> o + Z.of_nat n <= 64 -> ld_le n (ram s) (f_data file + o) = ld_le n m (f_data file + o)).
  { intros n o H1 H2. apply (file_load m file n); [exact Hs|lia|lia]. }
  assert (Eoff : e_phoff (ram s) (f_data file) = e_phoff m (f_data file)) by (apply (Hf 8%nat); lia).
  assert (Enum : e_phnum (ram s) (f_data file) = e_phnum m (f_data file)) by (apply (Hf 2%nat); lia).
  assert (Eseg : segments (ram s) (f_data file) = segments m (f_data file)).
  { unfold segments. rewrite Eoff, Enum. pose proof (ld_le_range 2 m (f_data file + 56)) as Hn.
    fold (ld16 m (f_data file + 56)) in Hn. fold (e_phnum m (f_data file)) in Hn.
    rewrite (phdrs_same m file s); [reflexivity|exact Htab|exact Hs|lia|lia]. }
  split; [|split; [exact Eseg|apply (Hf 8%nat); lia]]. constructor.
  - unfold sizeof_ehdr. auto.
  - rewrite <- Hmag. apply bytes_at_ext. intros b Hb. replace b with (f_data file + (b - f_data file)) by lia. apply Hs. lia.
  - rewrite <- Hmach. apply (Hf 2%nat); lia.
  - rewrite Eoff, Enum. split; [rewrite <- Hent; apply (Hf 2%nat); lia|auto].
  - rewrite Eseg. exact Hsegs.
Qed.
