(* ===== verification/FileProps.v ===== *)
(** * File descriptors and user buffers: the properties

    Pointer checks, strings from user memory, and the open, read, lseek, close and
    write calls on the machine with its page tables. *)

From Stdlib Require Import Ascii String.
From S2P Require Import Prelude CMem CStr Pmm Vmm VmmSpec Ramdisk RamdiskSpec RamdiskArchive Elf Keyboard Kernel Loader Syscalls ProcTable UserMem MmProps.

(** ** Helpers *)

Lemma run_this_fd fd k p :
  processes k !! current_process k = Some p ->
  this_fd fd k = match fds p !! Z.to_nat fd with Some f => inl (f, k) | None => inr OutOfObject end.
Proof.
  intros Hp. unfold this_fd. rewrite run_bind, run_this_process, Hp. destruct (fds p !! Z.to_nat fd); reflexivity.
Qed.

(** The kernel with one descriptor of the current process replaced. *)
Definition with_fd (k : kernel) (p : process) (fd : Z) (f : process_fd) : kernel :=
  with_processes k (<[current_process k := set_fds (<[Z.to_nat fd := f]> (fds p)) p]> (processes k)).

Lemma run_put_fd fd f k p :
  processes k !! current_process k = Some p -> put_fd fd f k = inl (tt, with_fd k p fd f).
Proof. intros Hp. unfold put_fd. rewrite run_update_this, Hp. reflexivity. Qed.

Lemma with_fd_twice k p fd f g :
  processes k !! current_process k = Some p ->
  with_fd (with_fd k p fd f) (set_fds (<[Z.to_nat fd := f]> (fds p)) p) fd g = with_fd k p fd g.
Proof.
  intros Hp. unfold with_fd, with_processes. cbn. rewrite !list_insert_insert_eq. reflexivity.
Qed.

Lemma with_fd_same k p fd f :
  processes k !! current_process k = Some p -> fds p !! Z.to_nat fd = Some f -> with_fd k p fd f = k.
Proof.
  intros Hp Hf. unfold with_fd, with_processes. rewrite (list_insert_id (fds p)) by exact Hf.
  destruct p. cbn. rewrite list_insert_id by exact Hp. destruct k. reflexivity.
Qed.

Definition with_console (k : kernel) (l : list Z) : kernel :=
  Kernel (k_mm k) (k_ramdisk k) (processes k) (current_process k) (next_pid k) (k_shift k) (k_polls k) l.

Lemma fd_in_range_true fd : 0 <= fd < 16 -> fd_in_range fd = true.
Proof. intros H. apply Z.ltb_lt. change (Z.of_nat MAX_FDS) with 16. lia. Qed.

Lemma first_free_fd_spec l n :
  match first_free_fd l n with
  | Some i => (n <= i)%nat /\ (exists f, l !! (i - n)%nat = Some f /\ fd_kind f = FD_NONE) /\
      forall j f, (j < i - n)%nat -> l !! j = Some f -> fd_kind f <> FD_NONE
  | None => Forall (fun f => fd_kind f <> FD_NONE) l
  end.
Proof.
  revert n. induction l as [|f l IH]; intros n; cbn; [constructor|]. case_bool_decide as Hf.
  - split; [lia|]. rewrite Nat.sub_diag. split; [exists f; split; [reflexivity|exact Hf]|]. intros j g Hj. lia.
  - specialize (IH (S n)). destruct (first_free_fd l (S n)) as [i|]; [|constructor; assumption].
    destruct IH as (Hi & (g & Hg & Hk) & Hlow). replace (i - n)%nat with (S (i - S n)) by lia.
    split; [lia|]. split; [exists g; split; [exact Hg|exact Hk]|]. intros [|j] h Hj Hh; [injection Hh as <-; exact Hf|].
    apply (Hlow j h); [lia|exact Hh].
Qed.

Lemma bytes_at_bytes m a n : bytes (bytes_at m a n).
Proof. revert a. induction n as [|n IH]; intros a; constructor; [apply rd8_range|apply IH]. Qed.

Lemma find_file_ok k s t :
  rd_available (k_ramdisk k) = true -> 0 <= rd_size (k_ramdisk k) < 2 ^ 62 -> text s ->
  exists o, find_file (s ++ 0 :: t) k = inl (o, k) /\
    lookup_spec (rd_data (k_ramdisk k)) (ramdisk_image k) (norm s) o.
Proof.
  intros Ha Hsz Hs. unfold find_file. rewrite run_bind. cbn [get_kernel]. rewrite Ha.
  destruct (find_ok (rd_data (k_ramdisk k)) (ramdisk_image k)) with (s := s) (t := t) as (o & E & Ho).
  - apply bytes_at_bytes.
  - unfold ramdisk_image. rewrite length_bytes_at. lia.
  - exact Hs.
  - rewrite E. exists o. split; [reflexivity|exact Ho].
Qed.

(** A lookup depends on the archive alone. *)
Lemma find_file_same path k k' o :
  ramdisk_image k' = ramdisk_image k -> k_ramdisk k' = k_ramdisk k -> find_file path k = inl (o, k) -> find_file path k' = inl (o, k').
Proof.
  intros Hm Hr H. unfold find_file in *. rewrite run_bind in *. cbn [get_kernel] in *. rewrite Hm, Hr.
  destruct (xbks_ramdisk_find _ _ _ _ _) as [r|]; [|discriminate]. cbn [in_object] in *. injection H as ->. reflexivity.
Qed.

(** ** Pointers *)

(** [user_range_is_valid] accepts exactly the empty range and the ranges that lie
    wholly in the user half above the null guard; no address or length, however large,
    gets through by wrapping around. *)
Theorem user_range_is_valid_correct address length :
  in_u64 address -> in_u64 length ->
  (user_range_is_valid address length = true <->
   length = 0 \/ forall i, 0 <= i < length -> USER_IMAGE_MIN <= address + i < XBKS_USER_TOP).
Proof.
  intros Ha Hl. rewrite user_range_iff by assumption. unfold in_u64, USER_IMAGE_MIN, XBKS_USER_TOP in *. split.
  - intros [->|H]; [left; reflexivity|right; intros i Hi; lia].
  - intros [->|H]; [left; reflexivity|]. destruct (Z.eq_dec length 0); [left; assumption|right].
    pose proof (H 0 ltac:(lia)). pose proof (H (length - 1) ltac:(lia)). lia.
Qed.

Lemma user_range_is_valid_correct_witness :
  user_range_is_valid (2 ^ 47 - 8) (2 ^ 64 - 1) = true <->
  2 ^ 64 - 1 = 0 \/ forall i, 0 <= i < 2 ^ 64 - 1 -> USER_IMAGE_MIN <= 2 ^ 47 - 8 + i < XBKS_USER_TOP.
Proof. apply (user_range_is_valid_correct (2 ^ 47 - 8) (2 ^ 64 - 1)); unfold in_u64; lia. Defined.

(** ** Strings *)

(** [copy_user_string] brings a terminated string of up to 255 characters over
    unchanged, reading exactly its bytes; a string that does not end within 256 bytes, or
    before the end of the user half, is refused.  Neither case changes the machine or
    leaves the buffer. *)
Theorem copy_user_string_correct k roots l r a s :
  running k roots l r -> USER_IMAGE_MIN <= a < XBKS_USER_TOP -> text s -> user_holds k r a s ->
  ((length s <= 255)%nat -> a + Z.of_nat (length s) < XBKS_USER_TOP -> user_byte (k_mm k) r (a + Z.of_nat (length s)) = Some 0 ->
   exists d, copy_user_string (uninit 256) MAX_STRING a k = inl ((true, d), k) /\ cstr d = Some s) /\
  (length s = 256%nat /\ a + 256 <= XBKS_USER_TOP \/ (length s < 256)%nat /\ a + Z.of_nat (length s) = XBKS_USER_TOP ->
   exists d, copy_user_string (uninit 256) MAX_STRING a k = inl ((false, d), k) /\ length d = 256%nat).
Proof.
  intros Hk Ha Hs Hh. split.
  - intros Hl Ht H0. destruct (copy_user_string_ok k roots l r a s) as (d & E & Hd); try assumption; [lia| |].
    + intros i b Hi. apply lookup_app_Some in Hi as [Hi|[Hi Hb]]; [exact (Hh i b Hi)|].
      destruct (i - length s)%nat eqn:En; [|discriminate]. injection Hb as <-. replace i with (length s) by lia. exact H0.
    + exists d. split; [exact E|apply buf_holds_cstr, Hd].
  - intros Hend. rewrite copy_user_string_loop by exact Ha.
    apply (copy_user_loop_fails k roots l r a s [] (uninit 256) Hk); [lia|reflexivity|exact Hs|rewrite Z.add_0_r; exact Hh|].
    rewrite length_uninit. cbn [length Nat.add]. destruct Hend as [[H1 H2]|[H1 H2]]; [left|right]; lia.
Qed.

(** *** A machine with one mapped user page *)

Lemma node_write_cr3 s c t p : node (xbks_write_cr3 s c) t p = node s t p.
Proof. apply node_agree. intros q1 j q2 x _ _. unfold entry_at, get_entry, kva, xbks_write_cr3. reflexivity. Qed.

Lemma space_write_cr3 s roots l c : space s roots l -> space (xbks_write_cr3 s c) roots l.
Proof.
  pose proof (node_write_cr3 s c) as Hn. intros [H1 H2 H3]. split; [exact H1|..].
  - intros r p f Hr Hp Hf. rewrite Hn in Hf. exact (H2 r p f Hr Hp Hf).
  - intros r r' p p' f Hr Hr' Hp Hp' Hf Hf'. rewrite Hn in Hf, Hf'. exact (H3 r r' p p' f Hr Hr' Hp Hp' Hf Hf').
Qed.

Lemma user_byte_cr3 s c r va : user_byte (xbks_write_cr3 s c) r va = user_byte s r va.
Proof.
  unfold user_byte, xbks_vmm_translate, page_table_from_entry, xbks_phys_to_virt, get_entry, xbks_write_cr3.
  cbn [ram hhdm_offset_value]. reflexivity.
Qed.

(** The page at 0x400000 of the address space 36864 is mapped and zero. *)
Lemma demo_user_page :
  exists s l, space s [36864] l /\ cr3_register s = 36864 /\ user_byte s 36864 4194304 = Some 0 /\
    buffer_ok s 36864 4194304 4096.
Proof.
  destruct demo_space_ok as (Hsp & _ & _).
  pose proof (map_page_spec demo_space [36864] (tail demo_frames) 36864 4194304 65536 2 Hsp ltac:(left)
    demo_user_va eq_refl demo_fresh ltac:(lia)) as H.
  assert (Hz : user_byte (snd (xbks_vmm_map_page demo_space 36864 4194304 65536 2)) 36864 4194304 = Some 0) by (vm_compute; reflexivity).
  destruct demo_map_page as [s' E]. rewrite E in *. destruct H as (_ & s1 & l' & _ & _ & Hsp' & _ & Hn & _). cbn [snd] in Hz.
  exists (xbks_write_cr3 s' 36864), l'. split; [apply space_write_cr3, Hsp'|]. split; [reflexivity|].
  split; [rewrite user_byte_cr3; exact Hz|]. split; [lia|]. split; [lia|]. intros i Hi. exists 65536. rewrite path_page by (reflexivity || lia).
  rewrite node_write_cr3. exact Hn.
Qed.

Definition demo_process : process := set_image 36864 0 0 0 (fresh_process 1).

(** A kernel over that page, whose ramdisk is the [n] bytes at [data]. *)
Definition demo_user_kernel (s : mm) (data n : Z) (p : process) : kernel :=
  Kernel s (RamdiskState data n true) [p] 0 2 false [] [].

Lemma copy_user_string_correct_witness :
  exists s l, running (demo_user_kernel s 4096 1024 demo_process) [36864] l 36864 /\
    exists d, copy_user_string (uninit 256) MAX_STRING 4194304 (demo_user_kernel s 4096 1024 demo_process) =
      inl ((true, d), demo_user_kernel s 4096 1024 demo_process) /\ cstr d = Some [].
Proof.
  destruct demo_user_page as (s & l & Hsp & Hc & Hz & _). exists s, l. set (k := demo_user_kernel s 4096 1024 demo_process).
  assert (Hk : running k [36864] l 36864) by (split; [exact Hsp|]; split; [left|exact Hc]).
  split; [exact Hk|].
  apply (copy_user_string_correct k [36864] l 36864 4194304 []); try exact Hk; cbn; unfold USER_IMAGE_MIN, XBKS_USER_TOP; try lia.
  - constructor.
  - intros i b Hb. discriminate.
  - exact Hz.
Defined.

(** ** open *)

Lemma open_ok k roots l r p a s :
  running k roots l r -> processes k !! current_process k = Some p ->
  USER_IMAGE_MIN <= a -> a + Z.of_nat (length s) < XBKS_USER_TOP -> (length s <= 255)%nat -> text s ->
  user_holds k r a (s ++ [0]) ->
  rd_available (k_ramdisk k) = true -> 0 <= rd_size (k_ramdisk k) < 2 ^ 62 ->
  match allocate_fd p with
  | None => syscall_open a k = inl (negative_errno XBKS_EMFILE, k)
  | Some fd =>
      (3 <= fd)%nat /\ (exists f, fds p !! fd = Some f /\ fd_kind f = FD_NONE) /\
      (forall i f, (3 <= i < fd)%nat -> fds p !! i = Some f -> fd_kind f <> FD_NONE) /\
      exists o, lookup_spec (rd_data (k_ramdisk k)) (ramdisk_image k) (norm s) o /\
        syscall_open a k =
          match o with
          | None => inl (negative_errno XBKS_ENOENT, k)
          | Some f => inl (Z.of_nat fd,
              with_fd k p (Z.of_nat fd) (ProcessFd (if f_directory f then FD_DIR else FD_FILE) f 0))
          end
  end.
Proof.
  intros Hk Hp Ha Ht Hl Hs Hh Hav Hsz. unfold syscall_open. rewrite run_bind, run_this_process, Hp.
  unfold allocate_fd. pose proof (first_free_fd_spec (drop 3 (fds p)) 3) as Hf.
  destruct (first_free_fd _ _) as [fd|]; [|reflexivity]. destruct Hf as (H3 & (f & Hf & Hfk) & Hlow).
  rewrite lookup_drop in Hf. replace (3 + (fd - 3))%nat with fd in Hf by lia.
  split; [exact H3|]. split; [exists f; split; assumption|]. split.
  { intros i g Hi Hg. apply (Hlow (i - 3)%nat g); [lia|]. rewrite lookup_drop. replace (3 + (i - 3))%nat with i by lia. exact Hg. }
  destruct (copy_user_string_ok k roots l r a s Hk Ha Ht Hl Hs Hh) as (d & Ed & (_ & _ & t & ->)).
  destruct (find_file_ok k s t Hav Hsz Hs) as (o & Eo & Ho). exists o. split; [exact Ho|].
  rewrite run_bind, Ed. cbn [negb]. rewrite run_bind, Eo. destruct o as [g|]; [|reflexivity].
  rewrite run_bind, (run_put_fd _ _ _ p Hp). reflexivity.
Qed.

(** [syscall_open] looks the user's path up and, when it exists, installs it at
    offset 0 in the lowest free descriptor from 3 on, as a directory or a file; nothing
    else changes.  A missing path gives ENOENT and a full table EMFILE, both without any
    effect. *)
Theorem open_correct k roots l r p a s :
  running k roots l r -> processes k !! current_process k = Some p ->
  USER_IMAGE_MIN <= a -> a + Z.of_nat (length s) < XBKS_USER_TOP -> (length s <= 255)%nat -> text s ->
  user_holds k r a (s ++ [0]) ->
  rd_available (k_ramdisk k) = true -> 0 <= rd_size (k_ramdisk k) < 2 ^ 62 ->
  match allocate_fd p with
  | None => syscall_open a k = inl (negative_errno XBKS_EMFILE, k)
  | Some fd =>
      (3 <= fd)%nat /\ (exists f, fds p !! fd = Some f /\ fd_kind f = FD_NONE) /\
      (forall i f, (3 <= i < fd)%nat -> fds p !! i = Some f -> fd_kind f <> FD_NONE) /\
      exists o, lookup_spec (rd_data (k_ramdisk k)) (ramdisk_image k) (norm s) o /\
        syscall_open a k =
          match o with
          | None => inl (negative_errno XBKS_ENOENT, k)
          | Some f => inl (Z.of_nat fd,
              with_fd k p (Z.of_nat fd) (ProcessFd (if f_directory f then FD_DIR else FD_FILE) f 0))
          end
  end.
Proof. apply open_ok. Qed.

Lemma open_correct_witness :
  exists s l, running (demo_user_kernel s 4096 1024 demo_process) [36864] l 36864 /\
    exists o, lookup_spec 4096 (ramdisk_image (demo_user_kernel s 4096 1024 demo_process)) [] o /\
      syscall_open 4194304 (demo_user_kernel s 4096 1024 demo_process) =
        match o with
        | None => inl (negative_errno XBKS_ENOENT, demo_user_kernel s 4096 1024 demo_process)
        | Some f => inl (3, with_fd (demo_user_kernel s 4096 1024 demo_process) demo_process 3
                              (ProcessFd (if f_directory f then FD_DIR else FD_FILE) f 0))
        end.
Proof.
  destruct demo_user_page as (s & l & Hsp & Hc & Hz & _). exists s, l. set (k := demo_user_kernel s 4096 1024 demo_process).
  assert (Hk : running k [36864] l 36864) by (split; [exact Hsp|]; split; [left|exact Hc]).
  split; [exact Hk|].
  apply (open_correct k [36864] l 36864 demo_process 4194304 [] Hk); try reflexivity; cbn; unfold USER_IMAGE_MIN, XBKS_USER_TOP; try lia.
  - constructor.
  - apply user_holds_cons. split; [exact Hz|]. intros i b Hb. discriminate.
Defined.

(** ** read *)

Lemma read_file_ok k roots l r p fd buffer count file offset :
  running k roots l r -> processes k !! current_process k = Some p ->
  0 <= fd < 16 -> fds p !! Z.to_nat fd = Some (ProcessFd FD_FILE file offset) ->
  in_u64 count -> in_u64 (f_size file) -> in_u64 offset ->
  user_range_is_valid buffer count = true -> in_u64 buffer ->
  let n := Z.min count (f_size file - offset) in
  (f_size file <= offset -> syscall_read fd buffer count k = inl (0, k)) /\
  (offset < f_size file -> buffer_ok (k_mm k) r buffer (Z.to_nat n) ->
   (forall i, 0 <= i < n -> not_user (k_mm k) roots (f_data file + offset + i)) ->
   exists s', syscall_read fd buffer count k =
       inl (n, with_fd (with_mm k s') p fd (ProcessFd FD_FILE file (offset + n))) /\
     stored roots l r buffer (bytes_at (ram (k_mm k)) (f_data file + offset) (Z.to_nat n)) (k_mm k) s').
Proof.
  intros Hk Hp Hfd Hf Hc Hsz Hof Hv _ n. unfold in_u64 in *.
  assert (Hstart : syscall_read fd buffer count k =
    (if f_size file <=? offset then mret 0
     else
       _ ← user_copy_out (Z.to_nat n) buffer (f_data file + offset);
       _ ← put_fd fd (ProcessFd FD_FILE file (offset +u n));
       mret n) k).
  { unfold syscall_read. rewrite Hv, fd_in_range_true by exact Hfd. cbn [negb].
    rewrite run_bind, (run_this_fd fd k p Hp), Hf. cbn [fd_kind fd_file fd_offset].
    rewrite !bool_decide_eq_false_2, bool_decide_eq_true_2 by (reflexivity || discriminate). cbn [negb].
    destruct (Z.leb_spec (f_size file) offset); [reflexivity|]. rewrite (uwrap_small 64 (f_size file - offset)) by lia.
    replace (if count <? f_size file - offset then count else f_size file - offset) with n; [reflexivity|].
    unfold n. case_bool; lia. }
  rewrite Hstart. split.
  - intros H. destruct (Z.leb_spec (f_size file) offset); [reflexivity|lia].
  - intros H Hb Hsrc. destruct (Z.leb_spec (f_size file) offset); [lia|]. assert (Hn : 0 <= n) by (unfold n; lia).
    destruct (user_copy_out_ok (Z.to_nat n) k roots l r buffer (f_data file + offset) Hk Hb) as (s' & E & Hs).
    { intros i Hi. apply Hsrc. lia. }
    exists s'. split; [|exact Hs]. rewrite run_bind, E, run_bind.
    rewrite (run_put_fd _ _ (with_mm k s') p Hp). rewrite run_ret. rewrite uwrap_small by (unfold n; lia). reflexivity.
Qed.

(** C29. [syscall_read] on an open file copies the next [min count (size - offset)] bytes
    of the file to the user's buffer, answers their number and advances the offset by it.
    Only those bytes of the current address space change: every other user byte of every
    process, the page tables and the kernel's own memory are as before.  At or past the
    end it answers 0 and changes nothing. *)
Theorem read_file_correct k roots l r p fd buffer count file offset :
  running k roots l r -> processes k !! current_process k = Some p ->
  0 <= fd < 16 -> fds p !! Z.to_nat fd = Some (ProcessFd FD_FILE file offset) ->
  in_u64 count -> in_u64 (f_size file) -> in_u64 offset ->
  user_range_is_valid buffer count = true -> in_u64 buffer ->
  let n := Z.min count (f_size file - offset) in
  (f_size file <= offset -> syscall_read fd buffer count k = inl (0, k)) /\
  (offset < f_size file -> buffer_ok (k_mm k) r buffer (Z.to_nat n) ->
   (forall i, 0 <= i < n -> not_user (k_mm k) roots (f_data file + offset + i)) ->
   exists s', syscall_read fd buffer count k =
       inl (n, with_fd (with_mm k s') p fd (ProcessFd FD_FILE file (offset + n))) /\
     stored roots l r buffer (bytes_at (ram (k_mm k)) (f_data file + offset) (Z.to_nat n)) (k_mm k) s').
Proof. apply read_file_ok. Qed.

(** Six bytes at address 1024, read from offset 2 into the mapped page. *)
Definition demo_open_file : xbks_ramdisk_file := RamdiskFile (lit "/etc/motd") 1024 6 false false.
Definition demo_reader : process :=
  set_fds (<[3%nat := ProcessFd FD_FILE demo_open_file 2]> (fds demo_process)) demo_process.

(** The first page is nobody's: user frames start at 4096. *)
Lemma demo_low_not_user s l a : space s [36864] l -> a < 4096 -> not_user s [36864] a.
Proof.
  intros Hsp Ha r p f Hr Hp Hf. apply list_elem_of_singleton in Hr as ->.
  destruct (sp_frame _ _ _ Hsp 36864 p f ltac:(left) Hp Hf) as [(H0 & H1 & H2 & _) _].
  pose proof (Z.div_mod f 4096). unfold in_page. lia.
Qed.

Lemma read_file_correct_witness :
  exists s l s', syscall_read 3 4194304 100 (demo_user_kernel s 4096 1024 demo_reader) =
      inl (4, with_fd (with_mm (demo_user_kernel s 4096 1024 demo_reader) s') demo_reader 3
                (ProcessFd FD_FILE demo_open_file 6)) /\
    stored [36864] l 36864 4194304 (bytes_at (ram s) 1026 4) s s'.
Proof.
  destruct demo_user_page as (s & l & Hsp & Hc & Hz & Hb & Hb1 & Hb2). set (k := demo_user_kernel s 4096 1024 demo_reader).
  assert (Hk : running k [36864] l 36864) by (split; [exact Hsp|]; split; [left|exact Hc]).
  exists s, l. apply (read_file_correct k [36864] l 36864 demo_reader 3 4194304 100 demo_open_file 2 Hk); try reflexivity; unfold in_u64; cbn; try lia.
  - split; [lia|]. split; [lia|]. intros i Hi. apply Hb2. lia.
  - intros i Hi. apply (demo_low_not_user s l _ Hsp). change (f_data demo_open_file) with 1024. lia.
Defined.

(** ** lseek *)

(** The offset that a seek asks for, modulo 2^64 as the code computes it. *)
Definition seek_target (f : process_fd) (offset whence : Z) : option Z :=
  match whence with
  | 0 => Some offset
  | 1 => Some ((fd_offset f + offset) mod 2 ^ 64)
  | 2 => Some ((f_size (fd_file f) + offset) mod 2 ^ 64)
  | _ => None
  end.

Lemma seek_target_u64 f offset whence pos :
  in_u64 offset -> seek_target f offset whence = Some pos -> in_u64 pos.
Proof.
  unfold seek_target, in_u64. intros Ho H.
  destruct whence as [|[[w|w|]|[w|w|]|]|w]; try discriminate H; injection H as <-; try exact Ho; apply Z.mod_pos_bound; lia.
Qed.

Lemma lseek_file k p fd f offset whence :
  processes k !! current_process k = Some p -> 0 <= fd < 16 -> fds p !! Z.to_nat fd = Some f -> fd_kind f = FD_FILE ->
  in_u64 whence ->
  syscall_lseek fd offset whence k =
    match seek_target f offset whence with
    | None => inl (negative_errno XBKS_EINVAL, k)
    | Some n => inl (n, with_fd k p fd (ProcessFd FD_FILE (fd_file f) n))
    end.
Proof.
  intros Hp Hfd Hf Hkind Hw. unfold syscall_lseek. rewrite fd_in_range_true by exact Hfd. cbn [negb].
  rewrite run_bind, (run_this_fd fd k p Hp), Hf, bool_decide_eq_true_2 by exact Hkind. cbn [negb].
  assert (E : (if whence =? 0 then Some offset else if whence =? 1 then Some (fd_offset f +u offset)
     else if whence =? 2 then Some (f_size (fd_file f) +u offset) else None) = seek_target f offset whence).
  { unfold in_u64 in Hw. destruct whence as [|w|w]; [reflexivity| |lia].
    destruct w as [[w|w|]|[w|w|]|]; reflexivity. }
  rewrite E. destruct (seek_target f offset whence) as [n|]; [|reflexivity].
  rewrite run_bind, (run_put_fd _ _ k p Hp), run_ret, Hkind. reflexivity.
Qed.

(** A seek on an open file, from the start, the current position or the end, answers
    the new position, and the next read starts there: it gives exactly the bytes of the
    file from that position on.  An unknown origin gives EINVAL and a descriptor that is
    not an open file EBADF, both without any effect. *)
Theorem lseek_then_read k roots l r p fd f offset whence buffer count :
  running k roots l r -> processes k !! current_process k = Some p ->
  in_u64 fd -> (Z.to_nat fd < length (fds p))%nat -> length (fds p) = MAX_FDS ->
  fds p !! Z.to_nat fd = Some f -> in_u64 offset -> in_u64 whence -> in_u64 count -> in_u64 (f_size (fd_file f)) ->
  user_range_is_valid buffer count = true -> in_u64 buffer -> buffer_ok (k_mm k) r buffer (Z.to_nat count) ->
  (forall i, 0 <= i < f_size (fd_file f) -> not_user (k_mm k) roots (f_data (fd_file f) + i)) ->
  if bool_decide (fd_kind f = FD_FILE) then
    match seek_target f offset whence with
    | None => syscall_lseek fd offset whence k = inl (negative_errno XBKS_EINVAL, k)
    | Some pos =>
        exists k1, syscall_lseek fd offset whence k = inl (pos, k1) /\ k_mm k1 = k_mm k /\
        let n := Z.max 0 (Z.min count (f_size (fd_file f) - pos)) in
        exists k2, syscall_read fd buffer count k1 = inl (n, k2) /\
          stored roots l r buffer (bytes_at (ram (k_mm k)) (f_data (fd_file f) + pos) (Z.to_nat n)) (k_mm k) (k_mm k2)
    end
  else syscall_lseek fd offset whence k = inl (negative_errno XBKS_EBADF, k).
Proof.
  intros Hk Hp Hfd Hlt Hlen Hf Hoff Hwh Hc Hsz Hv Hbuf Hb Hsrc. unfold in_u64 in Hfd.
  assert (Hfd16 : 0 <= fd < 16) by (rewrite Hlen in Hlt; unfold MAX_FDS in Hlt; lia).
  case_bool_decide as Hkind.
  - rewrite (lseek_file k p fd f offset whence Hp Hfd16 Hf Hkind Hwh).
    destruct (seek_target f offset whence) as [pos|] eqn:Et; [|reflexivity].
    assert (Hpos : in_u64 pos) by exact (seek_target_u64 f offset whence pos Hoff Et).
    set (k1 := with_fd k p fd (ProcessFd FD_FILE (fd_file f) pos)). exists k1. split; [reflexivity|]. split; [reflexivity|].
    set (p1 := set_fds (<[Z.to_nat fd := ProcessFd FD_FILE (fd_file f) pos]> (fds p)) p).
    assert (Hp1 : processes k1 !! current_process k1 = Some p1) by (apply list_lookup_insert_eq, lookup_lt_is_Some_1; eauto).
    destruct (read_file_ok k1 roots l r p1 fd buffer count (fd_file f) pos) as [Hend Hmid]; try assumption.
    { apply list_lookup_insert_eq, Hlt. }
    intros n. destruct (Z.le_gt_cases (f_size (fd_file f)) pos) as [Hle|Hgt].
    + exists k1. replace n with 0 by (unfold n; lia). split; [exact (Hend Hle)|]. apply stored_nil, Hk.
    + unfold in_u64 in *. assert (En : n = Z.min count (f_size (fd_file f) - pos)) by (unfold n; lia).
      destruct (Hmid ltac:(lia)) as (s' & E & Hs).
      * destruct Hb as (H0 & H1 & H2). split; [exact H0|]. split; [lia|]. intros i Hi. apply H2. lia.
      * intros i Hi. rewrite <- Z.add_assoc. apply Hsrc. lia.
      * rewrite <- En in *. eexists. split; [exact E|exact Hs].
  - unfold syscall_lseek. rewrite fd_in_range_true by exact Hfd16. cbn [negb].
    rewrite run_bind, (run_this_fd fd k p Hp), Hf, bool_decide_eq_false_2 by exact Hkind. reflexivity.
Qed.

(** The last two bytes of the six: seek to -2 from the end, then read. *)
Lemma lseek_then_read_witness :
  exists s l k1 k2, let k := demo_user_kernel s 4096 1024 demo_reader in
    syscall_lseek 3 (2 ^ 64 - 2) 2 k = inl (4, k1) /\
    syscall_read 3 4194304 100 k1 = inl (2, k2) /\
    stored [36864] l 36864 4194304 (bytes_at (ram s) 1028 2) s (k_mm k2).
Proof.
  destruct demo_user_page as (s & l & Hsp & Hc & Hz & Hb & Hb1 & Hb2). set (k := demo_user_kernel s 4096 1024 demo_reader).
  assert (Hk : running k [36864] l 36864) by (split; [exact Hsp|]; split; [left|exact Hc]).
  destruct (lseek_then_read k [36864] l 36864 demo_reader 3 (ProcessFd FD_FILE demo_open_file 2) (2 ^ 64 - 2) 2 4194304 100 Hk)
    as (k1 & E1 & _ & k2 & E2 & Hs); try reflexivity; unfold in_u64; try (cbn; lia).
  - split; [lia|]. split; [lia|]. intros i Hi. apply Hb2. lia.
  - intros i Hi. apply (demo_low_not_user s l _ Hsp). cbn in *. lia.
  - exists s, l, k1, k2. split; [exact E1|]. split; [exact E2|exact Hs].
Defined.

(** ** write *)

Lemma user_load_whole k roots l r bs buffer :
  running k roots l r ->
  Z.of_nat (length bs) = 0 \/ (USER_IMAGE_MIN <= buffer /\ buffer + Z.of_nat (length bs) <= XBKS_USER_TOP) ->
  user_holds k r buffer bs -> user_load_bytes (length bs) buffer k = inl (bs, k).
Proof.
  intros Hk [H|[H1 H2]] Hh.
  - destruct bs; [reflexivity|cbn in H; lia].
  - apply (user_load_bytes_ok k roots l r); try assumption; unfold USER_IMAGE_MIN, XBKS_USER_TOP in *; lia.
Qed.

(** [syscall_write] to descriptor 1 or 2 sends exactly the bytes of the user's buffer
    to the console and answers their number; memory, files and processes stay as they
    were.  Any other descriptor gives EBADF, and a buffer that leaves the user half
    EFAULT, before anything is printed. *)
Theorem write_correct k roots l r fd buffer bs :
  running k roots l r -> in_u64 buffer -> Z.of_nat (length bs) < 2 ^ 64 ->
  (user_range_is_valid buffer (Z.of_nat (length bs)) = true -> user_holds k r buffer bs) ->
  syscall_write fd buffer (Z.of_nat (length bs)) k =
    if bool_decide (fd = 1 \/ fd = 2) then
      if user_range_is_valid buffer (Z.of_nat (length bs))
      then inl (Z.of_nat (length bs), with_console k (k_console k ++ bs))
      else inl (negative_errno XBKS_EFAULT, k)
    else inl (negative_errno XBKS_EBADF, k).
Proof.
  intros Hk Hb Hn Hh. unfold syscall_write.
  replace (negb (fd =? 1) && negb (fd =? 2)) with (negb (bool_decide (fd = 1 \/ fd = 2))).
  2: { destruct (Z.eqb_spec fd 1), (Z.eqb_spec fd 2); case_bool_decide; cbn; lia. }
  case_bool_decide as Hfd; cbn [negb]; [|reflexivity].
  destruct (user_range_is_valid buffer (Z.of_nat (length bs))) eqn:Hv; cbn [negb]; [|reflexivity].
  rewrite Nat2Z.id, run_bind. apply user_range_iff in Hv; [|exact Hb|unfold in_u64; lia].
  rewrite (user_load_whole k roots l r bs buffer Hk Hv (Hh eq_refl)). reflexivity.
Qed.

Lemma write_correct_witness :
  exists s, let k := demo_user_kernel s 4096 1024 demo_process in
    syscall_write 1 4194304 1 k = inl (1, with_console k [0]).
Proof.
  destruct demo_user_page as (s & l & Hsp & Hc & Hz & _). exists s. set (k := demo_user_kernel s 4096 1024 demo_process).
  assert (Hk : running k [36864] l 36864) by (split; [exact Hsp|]; split; [left|exact Hc]).
  apply (write_correct k [36864] l 36864 1 4194304 [0] Hk); [unfold in_u64; lia|cbn; lia|].
  intros _. apply user_holds_cons. split; [exact Hz|]. intros i b Hb. discriminate.
Defined.

(** ** close *)

(** Computations that only look at the machine. *)
Definition reads {A} (c : K A) : Prop := forall k a k', c k = inl (a, k') -> k' = k.

Lemma reads_ret {A} (a : A) : reads (mret a).
Proof. intros k b k' H. injection H as _ <-. reflexivity. Qed.

Lemma reads_bind {A B} (c : K A) (g : A -> K B) : reads c -> (forall a, reads (g a)) -> reads (mbind g c).
Proof.
  intros Hc Hg k b k' H. rewrite run_bind in H. destruct (c k) as [[a k1]|] eqn:E; [|discriminate].
  apply Hc in E as ->. exact (Hg a k b k' H).
Qed.

Lemma reads_user_load va : reads (user_load va).
Proof. intros k b k' H. unfold user_load in H. rewrite run_bind in H. cbn [get_kernel] in H. destruct (mmu (k_mm k) va); [|discriminate]. injection H as _ <-. reflexivity. Qed.

Lemma reads_in_object {A} (o : option A) : reads (in_object o).
Proof. intros k b k' H. destruct o; [|discriminate]. injection H as _ <-. reflexivity. Qed.

Lemma reads_copy_user_loop n source i dest cap : reads (copy_user_loop n source i dest cap).
Proof.
  revert i dest. induction n as [|n IH]; intros i dest; cbn [copy_user_loop].
  - apply reads_bind; [apply reads_in_object|]. intros d. apply reads_ret.
  - destruct (negb _); [apply reads_ret|]. apply reads_bind; [apply reads_user_load|]. intros b.
    apply reads_bind; [apply reads_in_object|]. intros d. destruct (_ =? 0); [apply reads_ret|apply IH].
Qed.

Lemma reads_copy_user_string dest cap a : reads (copy_user_string dest cap a).
Proof. unfold copy_user_string. destruct (_ || _); [apply reads_ret|apply reads_copy_user_loop]. Qed.

Lemma reads_find_file path : reads (find_file path).
Proof.
  intros k o k' H. unfold find_file in H. rewrite run_bind in H. cbn [get_kernel] in H.
  destruct (xbks_ramdisk_find _ _ _ _ _); [|discriminate]. injection H as _ <-. reflexivity.
Qed.

Lemma negative_errno_large e : 0 < e < 256 -> negative_errno e = 2 ^ 64 - e.
Proof. intros H. unfold negative_errno, uwrap. symmetry. apply (Z.mod_unique _ _ (-1)); lia. Qed.

(** The only way for open to answer a descriptor. *)
Lemma open_success k p a fd k1 :
  processes k !! current_process k = Some p -> syscall_open a k = inl (fd, k1) -> 0 <= fd < 16 ->
  exists n g f, fd = Z.of_nat n /\ (3 <= n)%nat /\ fds p !! n = Some g /\ fd_kind g = FD_NONE /\
    fd_kind f <> FD_NONE /\ k1 = with_fd k p fd f.
Proof.
  intros Hp H Hfd. unfold syscall_open in H. rewrite run_bind, run_this_process, Hp in H.
  unfold allocate_fd in H. pose proof (first_free_fd_spec (drop 3 (fds p)) 3) as Hf.
  destruct (first_free_fd _ _) as [n|].
  2: { injection H as <- _. rewrite negative_errno_large in Hfd by (unfold XBKS_EMFILE; lia). unfold XBKS_EMFILE in Hfd. lia. }
  destruct Hf as (H3 & (g & Hg & Hgk) & _). rewrite lookup_drop in Hg. replace (3 + (n - 3))%nat with n in Hg by lia.
  rewrite run_bind in H. destruct (copy_user_string _ _ _ k) as [[[ok path] k0]|] eqn:Ec; [|discriminate].
  apply reads_copy_user_string in Ec as ->. destruct ok; cbn [negb] in H.
  2: { injection H as <- _. rewrite negative_errno_large in Hfd by (unfold XBKS_EFAULT; lia). unfold XBKS_EFAULT in Hfd. lia. }
  rewrite run_bind in H. destruct (find_file path k) as [[o k0]|] eqn:Ef; [|discriminate]. apply reads_find_file in Ef as ->.
  destruct o as [file|].
  2: { injection H as <- _. rewrite negative_errno_large in Hfd by (unfold XBKS_ENOENT; lia). unfold XBKS_ENOENT in Hfd. lia. }
  rewrite run_bind, (run_put_fd _ _ k p Hp), run_ret in H. injection H as <- <-.
  eexists n, g, _. repeat (split; [assumption || reflexivity|]). split; [|reflexivity]. cbn. destruct (f_directory file); discriminate.
Qed.

Lemma close_open_fd k p fd f :
  processes k !! current_process k = Some p -> 3 <= fd < 16 -> fds p !! Z.to_nat fd = Some f -> 
  syscall_close fd k = if bool_decide (fd_kind f = FD_NONE) then inl (negative_errno XBKS_EBADF, k)
                       else inl (0, with_fd k p fd zero_fd).
Proof.
  intros Hp Hfd Hf. unfold syscall_close. rewrite fd_in_range_true by lia. destruct (Z.leb_spec fd 2); [lia|]. cbn [negb orb].
  rewrite run_bind, (run_this_fd fd k p Hp), Hf. case_bool_decide; [reflexivity|].
  rewrite run_bind, (run_put_fd _ _ k p Hp). reflexivity.
Qed.

(** Closing what [open] gave undoes it: whenever [open] answers a descriptor, closing
    it succeeds and puts the machine back as it was before the open, so descriptors do not
    leak; closing it a second time gives EBADF and changes nothing. *)
Theorem open_close_roundtrip k p a fd k1 :
  processes k !! current_process k = Some p -> Forall (fun f => fd_kind f = FD_NONE -> f = zero_fd) (fds p) ->
  syscall_open a k = inl (fd, k1) -> 0 <= fd < 16 ->
  syscall_close fd k1 = inl (0, k) /\ syscall_close fd k = inl (negative_errno XBKS_EBADF, k).
Proof.
  intros Hp Hz Ho Hfd. destruct (open_success k p a fd k1 Hp Ho Hfd) as (n & g & f & -> & H3 & Hg & Hgk & Hfk & ->).
  pose proof (Forall_lookup_1 _ _ _ _ Hz Hg Hgk) as ->.
  assert (Hn : (n < length (fds p))%nat) by (apply lookup_lt_is_Some_1; eauto).
  split.
  - rewrite (close_open_fd _ (set_fds (<[Z.to_nat (Z.of_nat n) := f]> (fds p)) p) _ f); try lia.
    + rewrite bool_decide_eq_false_2 by exact Hfk. rewrite with_fd_twice by exact Hp. rewrite with_fd_same; [reflexivity|exact Hp|].
      rewrite Nat2Z.id. exact Hg.
    + apply list_lookup_insert_eq, lookup_lt_is_Some_1. eauto.
    + cbn. rewrite Nat2Z.id. apply list_lookup_insert_eq, Hn.
  - rewrite (close_open_fd k p _ zero_fd Hp); [|lia|rewrite Nat2Z.id; exact Hg]. rewrite bool_decide_eq_true_2 by exact Hgk. reflexivity.
Qed.

(** The empty path names the root directory of the mounted image. *)
Lemma demo_open_root :
  exists s l k1, running (demo_user_kernel s 4096 1024 demo_process) [36864] l 36864 /\
    syscall_open 4194304 (demo_user_kernel s 4096 1024 demo_process) = inl (3, k1).
Proof.
  destruct demo_user_page as (s & l & Hsp & Hc & Hz & _). set (k := demo_user_kernel s 4096 1024 demo_process).
  assert (Hk : running k [36864] l 36864) by (split; [exact Hsp|]; split; [left|exact Hc]).
  pose proof (open_ok k [36864] l 36864 demo_process 4194304 [] Hk eq_refl) as H.
  destruct H as (_ & _ & _ & o & Ho & E); try reflexivity; cbn; unfold USER_IMAGE_MIN, XBKS_USER_TOP; try lia.
  - constructor.
  - apply user_holds_cons. split; [exact Hz|]. intros i b Hb. discriminate.
  - destruct o as [f|]; [|exfalso; apply Ho; reflexivity]. exists s, l. eexists. split; [exact Hk|exact E].
Qed.

Lemma open_close_roundtrip_witness :
  exists s k1, let k := demo_user_kernel s 4096 1024 demo_process in
    syscall_open 4194304 k = inl (3, k1) /\ syscall_close 3 k1 = inl (0, k).
Proof.
  destruct demo_open_root as (s & l & k1 & _ & E). exists s, k1. split; [exact E|].
  apply (open_close_roundtrip (demo_user_kernel s 4096 1024 demo_process) demo_process 4194304 3 k1 eq_refl); [|exact E|lia].
  repeat (constructor; [intros H; (reflexivity || discriminate H)|]). constructor.
Defined.
