(* ===== verification/DirProps.v ===== *)
(** * Directory listings for user programs

    [syscall_getdents64] of src/kernel/process.c against a specification: which entries of
    the listing fit the buffer, and the bytes of each record. *)

From Stdlib Require Import Ascii String.
From S2P Require Import Prelude CMem CStr Pmm Vmm VmmSpec MmProps Ramdisk RamdiskSpec RamdiskArchive RamdiskListing RamdiskImage RamdiskProps Elf Keyboard Kernel Loader Syscalls ProcTable UserMem LoaderSpec StackSpec FileProps.

(** ** The last component of a path *)

Definition last_component_step (component : list Z) (c : Z) : list Z := if c =? chr "/" then [] else component ++ [c].

(** What follows the last slash of [path], if [component] follows the last one before it. *)
Definition last_component (component path : list Z) : list Z := fold_left last_component_step path component.

Lemma base_name_ok path r component : text path ->
  base_name (path ++ 0 :: r) (component ++ path ++ 0 :: r) = Some (last_component component path ++ 0 :: r).
Proof.
  revert component. induction path as [|c path IH]; intros component Ht; [reflexivity|]. apply text_cons in Ht as [Hc Ht].
  cbn [app base_name]. destruct (Z.eqb_spec c 0); [lia|]. unfold last_component. cbn [fold_left]. unfold last_component_step at 2.
  destruct (c =? chr "/").
  - exact (IH [] Ht).
  - change (component ++ c :: path ++ 0 :: r) with (component ++ [c] ++ (path ++ 0 :: r)). rewrite (app_assoc component [c]). exact (IH (component ++ [c]) Ht).
Qed.

Lemma last_component_text path component : text component -> text path -> text (last_component component path).
Proof.
  revert component. induction path as [|c path IH]; intros component H Ht; [exact H|]. apply text_cons in Ht as [Hc Ht]. apply IH; [|exact Ht].
  unfold last_component_step. destruct (c =? chr "/"); [constructor|]. apply Forall_app. split; [exact H|repeat constructor; apply Hc].
Qed.

Lemma length_last_component path component : (length (last_component component path) <= length component + length path)%nat.
Proof.
  revert component. induction path as [|c path IH]; intros component; cbn [last_component fold_left length]; [lia|].
  etransitivity; [apply IH|]. unfold last_component_step. destruct (c =? chr "/"); [cbn [length]|rewrite length_app; cbn [length]]; lia.
Qed.

Lemma last_component_plain path component : chr "/" ∉ path -> last_component component path = component ++ path.
Proof.
  revert component. induction path as [|c path IH]; intros component Hn; [rewrite app_nil_r; reflexivity|].
  apply not_elem_of_cons in Hn as [Hne Hn]. unfold last_component in *. cbn [fold_left]. unfold last_component_step at 2.
  destruct (Z.eqb_spec c (chr "/")); [congruence|]. rewrite IH, <- app_assoc by exact Hn. reflexivity.
Qed.

Lemma last_component_slash u v component : last_component component (u ++ chr "/" :: v) = last_component [] v.
Proof. unfold last_component. rewrite fold_left_app. reflexivity. Qed.

(** The name under which the child [c] of the directory [q] is shown: the last component of
    its path, cut off where the path buffer ends. *)
Definition shown_name (q c : list Z) : list Z := last_component [] (public (join q c)).

(** A path that fits the buffer loses nothing. *)
Lemma shown_name_short q c : (length (join q c) <= 254)%nat -> chr "/" ∉ c -> shown_name q c = c.
Proof.
  intros Hl Hn. unfold shown_name, public. rewrite take_ge by exact Hl. unfold join. destruct q as [|q0 q].
  - change (chr "/" :: c) with ([] ++ chr "/" :: c). rewrite last_component_slash. exact (last_component_plain c [] Hn).
  - change (chr "/" :: (q0 :: q) ++ chr "/" :: c) with ((chr "/" :: q0 :: q) ++ chr "/" :: c).
    rewrite last_component_slash. exact (last_component_plain c [] Hn).
Qed.

Lemma shown_child rd q x f : child_file rd q x f ->
  exists r, base_name (f_path f) (f_path f) = Some (shown_name q (child_name x) ++ 0 :: r) /\
    text (shown_name q (child_name x)) /\ (length (shown_name q (child_name x)) <= 255)%nat.
Proof.
  destruct x as [[c nested] e]. intros ((_ & Ht & r & Ep) & _). exists r. cbn [child_name fst]. rewrite Ep. split; [|split].
  - exact (base_name_ok (public (join q c)) r [] Ht).
  - apply last_component_text; [constructor|exact Ht].
  - etransitivity; [apply length_last_component|]. unfold public. cbn [length]. rewrite length_take. lia.
Qed.

(** ** Kernel data stored in user memory *)

Lemma buffer_ok_part s r va n m k :
  buffer_ok s r va n -> (m + k <= n)%nat -> buffer_ok s r (va + Z.of_nat m) k.
Proof.
  intros (H0 & H1 & H) Hmk. split; [lia|]. split; [lia|]. intros i Hi. rewrite <- Z.add_assoc. apply H. lia.
Qed.

Section Stores.
Context (roots l : list Z) (r : Z).

(** A computation stores [bs] at [va] and does nothing else. *)
Definition puts (va : Z) (bs : list Z) (c : K unit) : Prop := forall k,
  running k roots l r -> buffer_ok (k_mm k) r va (length bs) ->
  exists s', c k = inl (tt, with_mm k s') /\ stored roots l r va bs (k_mm k) s'.

Lemma puts_nil va : puts va [] (mret tt).
Proof using. intros k Hk _. exists (k_mm k). split; [destruct k; reflexivity|apply stored_nil, Hk]. Qed.

Lemma puts_byte va v : 0 <= v < 256 -> puts va [v] (user_store va v).
Proof using.
  intros Hv k Hk Hb. apply buffer_ok_S in Hb as (Hva & Hm & _).
  destruct (user_store_ok k roots l r va v Hk Hva Hm) as (s' & E & H). exists s'. split; [exact E|].
  rewrite uwrap_small in H by exact Hv. exact H.
Qed.

Lemma puts_app va b1 b2 (c1 c2 : K unit) :
  puts va b1 c1 -> puts (va + Z.of_nat (length b1)) b2 c2 -> puts va (b1 ++ b2) (_ ← c1; c2).
Proof using.
  intros H1 H2 k Hk Hb. rewrite length_app in Hb. pose proof Hk as (_ & Hr & _).
  destruct (H1 k Hk) as (s1 & E1 & S1). { rewrite <- (Z.add_0_r va). apply (buffer_ok_part _ _ _ _ 0 _ Hb). lia. }
  destruct (H2 (with_mm k s1)) as (s2 & E2 & S2).
  - exact (running_stored _ _ _ _ _ _ _ Hk S1).
  - apply (buffer_ok_stored _ _ _ _ _ _ _ _ _ S1 Hr). apply (buffer_ok_part _ _ _ _ _ _ Hb). lia.
  - exists s2. split; [rewrite run_bind, E1; exact E2|]. exact (stored_app _ _ _ _ _ _ _ _ _ Hr S1 S2).
Qed.

Lemma puts_le n va v : puts va (le_bytes n v) (user_store_le n va v).
Proof using.
  revert va v. induction n as [|n IH]; intros va v; cbn [user_store_le le_bytes]; [apply puts_nil|].
  apply (puts_app va [v mod 256]); [apply puts_byte, Z.mod_pos_bound; lia|apply IH].
Qed.

(** A string with its terminator; the capacity counts the terminator. *)
Lemma puts_string va name rest : text name ->
  puts va (name ++ [0]) (copy_kernel_string va (Z.of_nat (length name) + 1) (name ++ 0 :: rest)).
Proof using.
  intros Ht. unfold copy_kernel_string. destruct (Z.eqb_spec (Z.of_nat (length name) + 1) 0); [lia|].
  replace (Z.to_nat (Z.of_nat (length name) + 1 - 1)) with (length name) by lia.
  revert va. induction name as [|c name IH]; intros va; cbn [length app copy_kernel_loop]; [apply puts_byte; lia|].
  apply text_cons in Ht as [Hc Ht]. destruct (Z.eqb_spec c 0); [lia|].
  apply (puts_app va [c]); [apply puts_byte; lia|]. apply IH; [exact Ht|lia].
Qed.
End Stores.

(** ** The records *)

Definition shown_directory (x : child) : bool := let '(_, nested, e) := x in nested || is_dir (te_header e).

(** The length of a record: 19 bytes of fields padded to 24, the name with its terminator,
    and padding to a multiple of 8. *)
Definition dirent_length (name : list Z) : Z := 8 * ((Z.of_nat (length name) + 32) / 8).

(** The bytes of the record of the child [x] at [index]; the padding is not written. *)
Definition dirent (q : list Z) (index : Z) (x : child) : list Z :=
  let name := shown_name q (child_name x) in
  le_bytes 8 (index + 1) ++ le_bytes 8 (index + 1) ++ le_bytes 2 (dirent_length name) ++
  [if shown_directory x then DT_DIR else DT_REG] ++ name ++ [0].

(** The records of the children [l] from [position] on, as far as they fit [count] bytes,
    each with its place, and the end of the last one. *)
Fixpoint dirents (q : list Z) (index position count : Z) (l : list child) : list (Z * list Z) * Z :=
  match l with
  | [] => ([], position)
  | x :: l' =>
      let next := position + dirent_length (shown_name q (child_name x)) in
      if count <? next then ([], position)
      else let '(records, stop) := dirents q (index + 1) next count l' in ((position, dirent q index x) :: records, stop)
  end.

(** User memory with the records stored at their places in the buffer. *)
Definition records_view (buffer : Z) (records : list (Z * list Z)) (view : Z -> option Z) : Z -> option Z :=
  fold_left (fun v '(position, bs) => written (buffer + position) bs v) records view.

Lemma records_view_ext buffer records v v' a :
  (forall b, user_va b -> v b = v' b) -> user_va a -> records_view buffer records v a = records_view buffer records v' a.
Proof.
  revert v v'. induction records as [|[position bs] records IH]; intros v v' H Ha; [exact (H a Ha)|]. cbn [records_view fold_left].
  apply IH; [|exact Ha]. intros b Hb. unfold written. destruct (overlay _ _ b); [reflexivity|exact (H b Hb)].
Qed.

Lemma dirent_length_bounds q c : (length (shown_name q c) <= 255)%nat ->
  let n := dirent_length (shown_name q c) in
  32 <= n <= 287 /\ Z.of_nat (length (shown_name q c)) + 20 <= n /\ align_up (24 +u (Z.of_nat (length (shown_name q c)) + 1)) 8 = n.
Proof.
  intros Hl n. unfold n, dirent_length. set (m := Z.of_nat (length (shown_name q c))) in *. pose proof (Z.div_mod (m + 32) 8).
  pose proof (Z.mod_pos_bound (m + 32) 8). split; [lia|]. split; [lia|]. unfold align_up.
  rewrite (uwrap_small 64 (24 + _)), (uwrap_small 64 (24 + (m + 1) + 8)), (uwrap_small 64) by lia.
  change (8 -u 1) with (2 ^ 3 - 1). rewrite land_not_mask by (unfold in_u64; lia). change (2 ^ 3) with 8.
  replace (24 + (m + 1) + 8 - 1) with (m + 32) by lia. lia.
Qed.

Lemma length_dirent q index x : length (dirent q index x) = (20 + length (shown_name q (child_name x)))%nat.
Proof. unfold dirent. rewrite !length_app. change (length (le_bytes 8 _)) with 8%nat. change (length (le_bytes 2 _)) with 2%nat. cbn [length]. lia. Qed.

Lemma puts_dirent roots l r va q index x child rest :
  0 <= index < 2 ^ 64 - 1 -> text (shown_name q (child_name x)) -> (length (shown_name q (child_name x)) <= 255)%nat ->
  f_directory child = shown_directory x ->
  let name := shown_name q (child_name x) in
  puts roots l r va (dirent q index x)
    (store_dirent va index (dirent_length name) child (name ++ 0 :: rest) (Z.of_nat (length name) + 1)).
Proof.
  intros Hi Ht Hl Hd name. destruct (dirent_length_bounds q (child_name x) Hl) as (Hn & _). fold name in Hn, Ht.
  unfold store_dirent, dirent. fold name. rewrite Hd, (uwrap_small 64 (index + 1)), (uwrap_small 16) by lia.
  apply puts_app; [apply puts_le|]. change (Z.of_nat (length (le_bytes 8 (index + 1)))) with 8.
  apply puts_app; [apply puts_le|]. change (Z.of_nat (length (le_bytes 8 (index + 1)))) with 8.
  replace (va + 8 + 8) with (va + 16) by lia.
  apply puts_app; [apply puts_le|]. change (Z.of_nat (length (le_bytes 2 _))) with 2. replace (va + 16 + 2) with (va + 18) by lia.
  apply puts_app; [apply puts_byte; destruct (shown_directory x); vm_compute; intuition discriminate|].
  change (Z.of_nat (length [_])) with 1. replace (va + 18 + 1) with (va + 19) by lia. apply puts_string, Ht.
Qed.

(** ** The loop *)

Section Listing.
Context (roots l : list Z) (r fd : Z) (dir : xbks_ramdisk_file) (s t : list Z) (buffer count : Z).
Context (Hdir : f_path dir = s ++ 0 :: t) (Hs : text s) (Hcount : 0 <= count < 2 ^ 48).

(** The directory is open at [index], the buffer is mapped and the archive lies outside of
    user memory. *)
Record listing_at (k : kernel) (p : process) (index : Z) : Prop := {
  la_running : running k roots l r;
  la_process : processes k !! current_process k = Some p;
  la_fd : fds p !! Z.to_nat fd = Some (ProcessFd FD_DIR dir index);
  la_mounted : rd_available (k_ramdisk k) = true /\ 0 <= rd_size (k_ramdisk k) < 2 ^ 62;
  la_apart : forall i, 0 <= i < rd_size (k_ramdisk k) -> not_user (k_mm k) roots (rd_data (k_ramdisk k) + i);
  la_buffer : buffer_ok (k_mm k) r buffer (Z.to_nat count);
}.

Definition listed (k : kernel) : list child := listing (norm s) (archive (ramdisk_image k)).

Lemma read_listed k p index : listing_at k p index -> 0 <= index < 2 ^ 64 ->
  match drop (Z.to_nat index) (listed k) with
  | [] => read_directory (f_path dir) index k = inl (None, k)
  | x :: rest => rest = drop (Z.to_nat (index + 1)) (listed k) /\
      exists f, read_directory (f_path dir) index k = inl (Some f, k) /\ child_file (rd_data (k_ramdisk k)) (norm s) x f
  end.
Proof using Hdir Hs.
  intros [_ _ _ [Ha Hsz] _ _] Hi. unfold read_directory, listed. rewrite run_bind. cbn [get_kernel]. rewrite Ha, Hdir.
  destruct (read_dir_ok (rd_data (k_ramdisk k)) (ramdisk_image k) s t (Z.to_nat index)) as (o & E & Ho); [apply bytes_at_bytes| |exact Hs|lia|].
  { unfold ramdisk_image. rewrite length_bytes_at. lia. }
  rewrite Z2Nat.id in E by lia. rewrite E. destruct (listing _ _ !! Z.to_nat index) as [x|] eqn:Ex.
  - rewrite (drop_S _ _ _ Ex). destruct Ho as (f & -> & Hf). split; [f_equal; lia|]. exists f. split; [reflexivity|exact Hf].
  - rewrite drop_ge by (apply lookup_ge_None, Ex). rewrite Ho. reflexivity.
Qed.

(** After one record. *)
Lemma listing_next k p index va bs s1 :
  listing_at k p index -> stored roots l r va bs (k_mm k) s1 ->
  let f := ProcessFd FD_DIR dir (index + 1) in
  listing_at (with_fd (with_mm k s1) p fd f) (set_fds (<[Z.to_nat fd := f]> (fds p)) p) (index + 1) /\
  listed (with_fd (with_mm k s1) p fd f) = listed k.
Proof using.
  intros [Hk Hp Hf [Ha Hsz] Hap Hb] H f. pose proof Hk as (_ & Hr & _). split; [constructor|].
  - exact (running_stored _ _ _ _ _ _ _ Hk H).
  - cbn. apply list_lookup_insert_eq, (lookup_lt_Some _ _ _ Hp).
  - cbn. apply list_lookup_insert_eq, (lookup_lt_Some _ _ _ Hf).
  - split; assumption.
  - intros i Hi. exact (not_user_stored _ _ _ _ _ _ _ _ H (Hap i Hi)).
  - exact (buffer_ok_stored _ _ _ _ _ _ _ _ _ H Hr Hb).
  - unfold listed, ramdisk_image. cbn [with_fd with_processes with_mm k_mm k_ramdisk]. do 2 f_equal. apply bytes_at_ext. intros a Ha'.
    apply (sd_kernel _ _ _ _ _ _ _ H), (not_user_off _ roots); [exact Hr|].
    replace a with (rd_data (k_ramdisk k) + (a - rd_data (k_ramdisk k))) by lia. apply Hap. lia.
Qed.

Lemma getdents_loop_ok n k p index position :
  listing_at k p index -> 0 <= index -> index + (count - position) < 2 ^ 64 -> 0 <= position <= count -> count - position < 24 * Z.of_nat n ->
  let '(records, stop) := dirents (norm s) index position count (drop (Z.to_nat index) (listed k)) in
  exists s', getdents_loop n fd buffer count position k =
      inl (stop, with_fd (with_mm k s') p fd (ProcessFd FD_DIR dir (index + Z.of_nat (length records)))) /\
    refilled roots l l r (records_view buffer records (user_byte (k_mm k) r)) (k_mm k) s'.
Proof using All.
  revert k p index position. induction n as [|n IH]; intros k p index position Hat Hi Htop Hpos Hn; [lia|].
  pose proof Hat as [Hk Hp Hf _ _ Hb]. pose proof Hk as (Hsp & Hr & _). cbn [getdents_loop].
  rewrite run_bind, (run_this_fd fd k p Hp), Hf, run_bind. cbn [fd_file fd_offset fd_kind].
  assert (Hnone : exists s', (inl (position, k) : _ + stop) = inl (position, with_fd (with_mm k s') p fd (ProcessFd FD_DIR dir (index + 0))) /\
    refilled roots l l r (user_byte (k_mm k) r) (k_mm k) s').
  { exists (k_mm k). rewrite Z.add_0_r. split; [|apply refilled_refl, Hsp].
    rewrite (with_fd_same (with_mm k (k_mm k)) p fd _ Hp Hf). destruct k. reflexivity. }
  pose proof (read_listed k p index Hat ltac:(lia)) as Hread. destruct (drop (Z.to_nat index) (listed k)) as [|x rest] eqn:Ed; cbn [dirents].
  { rewrite Hread, run_ret. exact Hnone. }
  destruct Hread as (-> & f & -> & Hchild). destruct (shown_child _ _ _ _ Hchild) as (w & Eb & Ht & Hl).
  destruct (dirent_length_bounds (norm s) (child_name x) Hl) as (Hlen & Hfits & Hal). set (name := shown_name (norm s) (child_name x)) in *.
  rewrite run_bind, Eb. cbn [in_object]. rewrite run_ret, run_bind, strlen_cstr, cstr_app by exact Ht. cbn [in_object fmap option_fmap option_map].
  rewrite run_ret, Hal. rewrite (uwrap_small 64 (position + _)) by lia. destruct (Z.ltb_spec count (position + dirent_length name)) as [|Hle]; [rewrite run_ret; exact Hnone|].
  assert (Hdirectory : f_directory f = shown_directory x) by (destruct x as [[c nested] e]; apply Hchild).
  destruct (puts_dirent roots l r (buffer + position) (norm s) index x f w ltac:(lia) Ht Hl Hdirectory k Hk) as (s1 & E1 & S1).
  { rewrite <- (Z2Nat.id position) by lia. apply (buffer_ok_part _ _ _ _ _ _ Hb). rewrite length_dirent. fold name. lia. }
  fold name in E1. rewrite run_bind, E1, run_bind, (run_put_fd _ _ (with_mm k s1) p Hp). rewrite (uwrap_small 64 (index + 1)) by lia.
  destruct (listing_next k p index _ _ s1 Hat S1) as [Hat' El].
  specialize (IH _ _ (index + 1) (position + dirent_length name) Hat' ltac:(lia) ltac:(lia) ltac:(lia) ltac:(lia)). rewrite El in IH.
  destruct (dirents _ _ _ _ _) as [records stop]. destruct IH as (s2 & E2 & R2). exists s2. split.
  - rewrite E2. cbn [length]. f_equal. f_equal.
    pose proof (with_fd_twice (with_mm k s2) p fd (ProcessFd FD_DIR dir (index + 1)) (ProcessFd FD_DIR dir (index + Z.of_nat (S (length records)))) Hp) as <-.
    replace (index + 1 + Z.of_nat (length records)) with (index + Z.of_nat (S (length records))) by lia. reflexivity.
  - pose proof (stored_refilled _ _ _ _ _ _ _ Hr S1) as R1. pose proof (refilled_trans _ _ _ _ _ _ _ _ _ _ _ Hr R1 R2) as R.
    refine (refilled_view _ _ _ _ _ _ _ _ _ R _). intros a Ha. cbn [records_view fold_left].
    apply records_view_ext; [|exact Ha]. intros b Hb'. exact (rf_user _ _ _ _ _ _ _ _ R1 b Hb').
Qed.
End Listing.

Lemma shown_name_length q c : (length (shown_name q c) <= 255)%nat.
Proof. etransitivity; [apply length_last_component|]. unfold public. cbn [length]. rewrite length_take. lia. Qed.

(** The records are those of the first children, and with room for the longest record
    there is none only at the end. *)
Lemma dirents_prefix q index position count l :
  let '(records, stop) := dirents q index position count l in
  map snd records = imap (fun i x => dirent q (index + Z.of_nat i) x) (take (length records) l) /\
  (position <= count -> position <= stop <= count /\ (position + 288 <= count -> stop = position -> l = [])).
Proof.
  revert index position. induction l as [|x l IH]; intros index position; cbn [dirents]; [split; [reflexivity|]; split; [lia|auto]|].
  destruct (dirent_length_bounds q (child_name x) (shown_name_length q (child_name x))) as (Hn & _).
  destruct (Z.ltb_spec count (position + dirent_length (shown_name q (child_name x)))) as [Hlt|Hle].
  - split; [reflexivity|]. split; [lia|]. intros ?. lia.
  - specialize (IH (index + 1) (position + dirent_length (shown_name q (child_name x)))). destruct (dirents _ _ _ _ l) as [records stop].
    destruct IH as (I1 & I2). split; [|split; lia].
    cbn [map snd length take imap]. rewrite Z.add_0_r. f_equal. rewrite I1. apply imap_ext. intros i y _. cbn [compose]. f_equal. lia.
Qed.

(** C18. [syscall_getdents64] writes the listing of the directory into the buffer: from the
    offset of the descriptor on, one record per child in the order of the listing, each at
    the end of the one before, as many as fit.  A record holds the child's index plus one
    twice, its length, the kind of the child and its name with the terminator.  The answer
    is the end of the last record and the offset moves past the children written, so that
    further calls go on from there; with room for the longest record the answer is 0 only
    at the end of the listing.  Nothing else changes: not the padding, not another address
    space. *)
Theorem getdents_correct k roots l r p fd dir s t buffer count index :
  listing_at roots l r fd dir buffer count k p index -> f_path dir = s ++ 0 :: t -> text s ->
  0 <= fd < 16 -> 0 <= count -> user_range_is_valid buffer count = true -> 0 <= index < 2 ^ 63 ->
  let children := drop (Z.to_nat index) (listing (norm s) (archive (ramdisk_image k))) in
  let '(records, stop) := dirents (norm s) index 0 count children in
  (exists s', syscall_getdents64 fd buffer count k =
      inl (stop, with_fd (with_mm k s') p fd (ProcessFd FD_DIR dir (index + Z.of_nat (length records)))) /\
    refilled roots l l r (records_view buffer records (user_byte (k_mm k) r)) (k_mm k) s') /\
  map snd records = imap (fun i x => dirent (norm s) (index + Z.of_nat i) x) (take (length records) children) /\
  0 <= stop <= count /\ (288 <= count -> stop = 0 -> children = []).
Proof.
  intros Hat Hdir Hs Hfd Hc Hv Hi children. pose proof Hat as [_ Hp Hf _ _ (Hb0 & Hb1 & _)].
  assert (Hcount : 0 <= count < 2 ^ 48) by lia.
  pose proof (getdents_loop_ok roots l r fd dir s t buffer count Hdir Hs Hcount (S (Z.to_nat (count / 24))) k p index 0 Hat) as H.
  assert (Hfuel : count - 0 < 24 * Z.of_nat (S (Z.to_nat (count / 24)))).
  { pose proof (Z.div_mod count 24). pose proof (Z.mod_pos_bound count 24). pose proof (Z.div_pos count 24). lia. }
  specialize (H ltac:(lia) ltac:(lia) ltac:(lia) Hfuel). unfold listed in H. fold children in H.
  pose proof (dirents_prefix (norm s) index 0 count children) as P. destruct (dirents _ _ _ _ _) as [records stop].
  destruct P as (P1 & P2). destruct (P2 Hc) as [P3 P4]. split; [|split; [exact P1|split; [exact P3|exact P4]]].
  unfold syscall_getdents64. rewrite fd_in_range_true by exact Hfd. cbn [negb].
  rewrite run_bind, (run_this_fd fd k p Hp), Hf. cbn [fd_kind]. rewrite bool_decide_eq_true_2 by reflexivity. cbn [negb].
  rewrite Hv. exact H.
Qed.

(** *** The root of a small archive

    The archive lies at 512, below all frames; its root holds [bin] and [etc]. *)

Definition demo_dir : xbks_ramdisk_file := RamdiskFile (lit "/") 0 0 true false.
Definition demo_lister : process := set_fds (<[3%nat := ProcessFd FD_DIR demo_dir 0]> (fds demo_process)) demo_process.

Lemma space_outside_frames s roots l m :
  space s roots l -> (forall f a, frame_ok (hhdm_offset_value s) f -> in_page (hhdm_offset_value s) f a -> rd8 m a = rd8 (ram s) a) ->
  space (set_ram s m) roots l /\ forall r q, r ∈ roots -> upath q -> node (set_ram s m) r q = node s r q.
Proof.
  intros Hsp Hm. assert (Hn : forall r q, r ∈ roots -> upath q -> node (set_ram s m) r q = node s r q).
  { intros r q Hr Hq. apply node_agree. intros q1 j q2 x -> Hx. pose proof (upath_app_inv _ _ Hq) as Hq1.
    apply entry_at_agree; [reflexivity|exact (upath_index _ _ _ Hq)|]. intros a Ha.
    exact (Hm x a (proj1 (sp_frame _ _ _ Hsp r q1 x Hr Hq1 Hx)) Ha). }
  split; [|exact Hn]. destruct Hsp as [H1 H2 H3]. split.
  - apply pool_set_ram; [exact H1|]. intros f a Hf. apply Hm. destruct (fp_frames _ _ H1) as [_ Hok]. rewrite List.Forall_forall in Hok.
    exact (Hok f (proj1 (list_elem_of_In _ _) Hf)).
  - intros r p f Hr Hp Hf. rewrite Hn in Hf by assumption. exact (H2 r p f Hr Hp Hf).
  - intros r r' p p' f Hr Hr' Hp Hp' Hf Hf'. rewrite Hn in Hf, Hf' by assumption. exact (H3 r r' p p' f Hr Hr' Hp Hp' Hf Hf').
Qed.

Lemma getdents_correct_witness :
  exists k l s', running k [36864] l 36864 /\
    syscall_getdents64 3 4194304 4096 k =
      inl (64, with_fd (with_mm k s') demo_lister 3 (ProcessFd FD_DIR demo_dir 2)) /\
    user_byte s' 36864 (4194304 + 32 + 19) = Some (chr "e").
Proof.
  destruct demo_user_page as (s & l & Hsp & Hc & _ & Hb & Hb1 & Hb2). destruct demo_image_ok as [Hby _].
  destruct (space_outside_frames s [36864] l (store_bytes (ram s) 512 (tar_image demo_files)) Hsp) as [Hsp' Hn].
  { intros f a (H0 & H1 & H2 & _) Ha. apply rd8_store_bytes_out. right. change (length (tar_image demo_files)) with 3584%nat.
    pose proof (Z.div_mod f 4096). unfold in_page in Ha. lia. }
  set (s1 := set_ram s _) in *. set (k := demo_user_kernel s1 512 3584 demo_lister).
  assert (Hk : running k [36864] l 36864) by (split; [exact Hsp'|]; split; [left|exact Hc]).
  assert (Him : ramdisk_image k = tar_image demo_files) by exact (bytes_at_store_bytes (ram s) 512 (tar_image demo_files) Hby).
  assert (Hat : listing_at [36864] l 36864 3 demo_dir 4194304 4096 k demo_lister 0).
  { split; [exact Hk|reflexivity|reflexivity|split; [reflexivity|cbn; lia]| |].
    - intros i Hi. apply (demo_low_not_user s1 l _ Hsp'). change (rd_data (k_ramdisk k)) with 512. change (rd_size (k_ramdisk k)) with 3584 in Hi. lia.
    - split; [lia|]. split; [lia|]. intros i Hi. destruct (Hb2 i ltac:(lia)) as [f Hf]. exists f. change (k_mm k) with s1.
      rewrite Hn; [exact Hf|left|apply upath_path; unfold user_va; lia]. }
  pose proof (getdents_correct k [36864] l 36864 demo_lister 3 demo_dir (str "/") [] 4194304 4096 0 Hat eq_refl
    ltac:(apply text_check; reflexivity) ltac:(lia) ltac:(lia) eq_refl ltac:(lia)) as H.
  rewrite Him in H. cbv zeta in H.
  set (D := dirents _ _ _ _ _) in H. assert (E1 : snd D = 64) by (vm_compute; reflexivity).
  assert (E2 : length (fst D) = 2%nat) by (vm_compute; reflexivity).
  assert (E3 : forall v, records_view 4194304 (fst D) v (4194304 + 32 + 19) = Some (chr "e")) by (intros v; vm_compute; reflexivity).
  clearbody D. destruct D as [records stop]. cbn [fst snd] in E1, E2, E3. subst stop. rewrite E2 in H.
  destruct H as ((s' & E & R) & _). exists k, l, s'. split; [exact Hk|]. split; [exact E|].
  rewrite (rf_user _ _ _ _ _ _ _ _ R) by (unfold user_va; lia). apply E3.
Defined.
