(* ===== verification/StdinProps.v ===== *)
(** * Reading the keyboard from a program

    [syscall_read] of src/kernel/process.c on the standard input: the characters that
    src/drivers/keyboard.c makes of the devices' answers arrive in user memory. *)

From Stdlib Require Import Ascii String.
From S2P Require Import Prelude CMem CStr Pmm Vmm VmmSpec MmProps Ramdisk Elf Keyboard Kernel Loader Syscalls ProcTable UserMem FileProps.

(** The kernel after a part of the input has been read. *)
Definition with_input (k : kernel) (shift : bool) (polls : list poll) : kernel :=
  Kernel (k_mm k) (k_ramdisk k) (processes k) (current_process k) (next_pid k) shift polls (k_console k).

Lemma run_read_key k :
  read_key k = match xbks_keyboard_read_char_blocking (k_shift k) (k_polls k) with
               | None => inr NoInput
               | Some (ch, sh, rest) => inl (ch, with_input k sh rest)
               end.
Proof. reflexivity. Qed.

(** Without a character there is nothing but waiting. *)
Lemma blocking_empty sh polls last :
  transcript sh polls = ([], last) -> xbks_keyboard_read_char_blocking sh polls = None.
Proof.
  revert sh. induction polls as [|p polls IH]; intros sh H; cbn in *; [reflexivity|].
  destruct (xbks_keyboard_read_char sh p) as [[ch|] sh1]; destruct (transcript sh1 polls) as [u w] eqn:E; [discriminate|].
  injection H as -> ->. exact (IH sh1 E).
Qed.

Lemma read_stdin_ok n k roots l r buffer typed last :
  running k roots l r -> buffer_ok (k_mm k) r buffer n -> transcript (k_shift k) (k_polls k) = (typed, last) ->
  Forall (fun c => 0 <= c < 256) typed ->
  if (n <=? length typed)%nat then
    exists s' sh rest, read_stdin n buffer k = inl (tt, with_input (with_mm k s') sh rest) /\
      stored roots l r buffer (take n typed) (k_mm k) s' /\ transcript sh rest = (drop n typed, last)
  else read_stdin n buffer k = inr NoInput.
Proof.
  revert k buffer typed. induction n as [|n IH]; intros k buffer typed Hk Hb Ht Hc.
  { exists (k_mm k), (k_shift k), (k_polls k). split; [destruct k; reflexivity|]. split; [apply stored_nil, Hk|exact Ht]. }
  cbn [read_stdin]. rewrite run_bind, run_read_key. destruct typed as [|c typed].
  { rewrite (blocking_empty _ _ _ Ht). reflexivity. }
  destruct (blocking_transcript _ _ _ _ _ Ht) as (sh & rest & -> & Hrest). apply buffer_ok_S in Hb as (Hva & Hm & Hb).
  apply Forall_cons_iff in Hc as [Hc0 Hc].
  destruct (user_store_ok (with_input k sh rest) roots l r buffer c Hk Hva Hm) as (s1 & E1 & H1). cbn [with_input k_mm] in H1.
  rewrite uwrap_small in H1 by exact Hc0. rewrite run_bind, E1. pose proof Hk as (_ & Hr & _).
  specialize (IH (with_mm (with_input k sh rest) s1) (buffer + 1) typed (running_stored _ _ _ _ _ _ _ Hk H1)
    (buffer_ok_stored _ _ _ _ _ _ _ _ _ H1 Hr Hb) Hrest Hc).
  change (S n <=? length (c :: typed))%nat with (n <=? length typed)%nat. destruct (n <=? length typed)%nat; [|exact IH].
  destruct IH as (s2 & sh2 & rest2 & E2 & H2 & Ht2). exists s2, sh2, rest2. split; [exact E2|]. split; [|exact Ht2].
  exact (stored_app_cons _ _ _ _ _ _ _ _ _ Hr H1 H2).
Qed.

(** C30. A program that reads its standard input gets what was typed: of the characters that the
    answers of the keyboard and of the serial port make, the first [count] land in order
    in its buffer, nothing else of its memory or of another process changes, and the rest
    is there for the next read.  As long as fewer have been typed the call does not
    return. *)
Theorem stdin_read_correct k roots l r p fd file offset buffer count :
  running k roots l r -> processes k !! current_process k = Some p ->
  0 <= fd < 16 -> fds p !! Z.to_nat fd = Some (ProcessFd FD_STDIN file offset) ->
  0 <= count -> user_range_is_valid buffer count = true -> buffer_ok (k_mm k) r buffer (Z.to_nat count) ->
  let '(typed, last) := transcript (k_shift k) (k_polls k) in
  Forall (fun c => 0 <= c < 256) typed ->
  if count <=? Z.of_nat (length typed) then
    exists s' sh rest, syscall_read fd buffer count k = inl (count, with_input (with_mm k s') sh rest) /\
      stored roots l r buffer (take (Z.to_nat count) typed) (k_mm k) s' /\
      transcript sh rest = (drop (Z.to_nat count) typed, last)
  else syscall_read fd buffer count k = inr NoInput.
Proof.
  intros Hk Hp Hfd Hf Hc Hv Hb. destruct (transcript (k_shift k) (k_polls k)) as [typed last] eqn:Ht. intros Hbytes.
  pose proof (read_stdin_ok (Z.to_nat count) k roots l r buffer typed last Hk Hb Ht Hbytes) as H.
  assert (Hstart : syscall_read fd buffer count k = (_ ← read_stdin (Z.to_nat count) buffer; mret count) k).
  { unfold syscall_read. rewrite Hv, fd_in_range_true by exact Hfd. cbn [negb]. rewrite run_bind, (run_this_fd fd k p Hp), Hf. reflexivity. }
  rewrite Hstart, run_bind. replace (Z.to_nat count <=? length typed)%nat with (count <=? Z.of_nat (length typed)) in H
    by (destruct (Z.leb_spec count (Z.of_nat (length typed))), (Nat.leb_spec (Z.to_nat count) (length typed)); lia || reflexivity).
  destruct (count <=? Z.of_nat (length typed)); [|rewrite H; reflexivity].
  destruct H as (s' & sh & rest & E & H1 & H2). exists s', sh, rest. rewrite E. split; [reflexivity|]. split; assumption.
Qed.

(** *** A line typed at the keyboard *)

Definition demo_typist (s : mm) : kernel :=
  Kernel s (RamdiskState 0 0 false) [set_fds (<[0%nat := ProcessFd FD_STDIN zero_file 0]> (fds demo_process)) demo_process] 0 2
    xbks_keyboard_init (default [] (strokes (str "Ls" ++ [10]))) [].

Lemma stdin_read_correct_witness :
  exists s l s' sh rest, syscall_read 0 4194304 2 (demo_typist s) = inl (2, with_input (with_mm (demo_typist s) s') sh rest) /\
    stored [36864] l 36864 4194304 (str "Ls") s s' /\ fst (transcript sh rest) = [10].
Proof.
  destruct demo_user_page as (s & l & Hsp & Hc & _ & Hb & Hb1 & Hb2). exists s, l.
  assert (Hk : running (demo_typist s) [36864] l 36864) by (split; [exact Hsp|]; split; [left|exact Hc]).
  assert (Et : transcript (k_shift (demo_typist s)) (k_polls (demo_typist s)) = (str "Ls" ++ [10], false)) by (vm_compute; reflexivity).
  pose proof (stdin_read_correct (demo_typist s) [36864] l 36864 _ 0 zero_file 0 4194304 2 Hk eq_refl ltac:(lia) eq_refl ltac:(lia) eq_refl) as H.
  rewrite Et in H. destruct H as (s' & sh & rest & E & H1 & H2).
  - split; [lia|]. split; [lia|]. intros i Hi. apply Hb2. lia.
  - repeat constructor; vm_compute; discriminate.
  - exists s', sh, rest. split; [exact E|]. split; [exact H1|]. rewrite H2. reflexivity.
Defined.
