(* ===== verification/LoaderProps.v ===== *)
(** * Process memory: the properties

    The break, writes into another address space, and the stack a new program finds
    (src/kernel/process.c). *)

From Stdlib Require Import Ascii String.
From S2P Require Import Prelude CMem CStr Pmm Vmm VmmSpec MmProps Ramdisk Elf Keyboard Kernel Loader Syscalls ProcTable UserMem FileProps LoaderSpec StackSpec ElfProps ProgramSpec Lifecycle LifecycleProps.

(** ** A machine with a hundred frames and an empty address space *)

Lemma demo_large :
  exists s l, space s [409600] l /\ length l = 99%nat /\ cr3_register s = 1048576 /\
    forall a, user_va a -> user_byte s 409600 a = None.
Proof.
  destruct (add_usable_range_pool demo_boot [] 4096 409600 demo_boot_pool) as (s0 & _ & Hp & Hc & _).
  { vm_compute. intuition discriminate. }
  { intros f _ H. inversion H. }
  rewrite app_nil_r in Hp. set (fs := rev (usable_pages 4096 409600)) in Hp.
  assert (Ef : fs = 409600 :: tail fs) by (vm_compute; reflexivity). rewrite Ef in Hp.
  destruct (create_pml4_spec s0 [] (tail fs) 409600) as (s & _ & Hsp & Hc' & _ & Hn & _).
  - split; [exact Hp|intros r p f H; inversion H|intros r r' p p' f H; inversion H].
  - rewrite (proj1 Hc), (proj1 (proj2 Hc)). vm_compute. intuition discriminate.
  - rewrite (proj1 (proj2 Hc)). discriminate.
  - exists s, (tail fs). split; [exact Hsp|]. split; [vm_compute; reflexivity|].
    split; [rewrite (proj2 (proj2 Hc')), (proj2 (proj2 Hc)); reflexivity|]. intros a Ha.
    rewrite (user_byte_node s [409600] (tail fs) 409600 a Hsp ltac:(left) Ha). pose proof (upath_path a Ha) as Hu.
    unfold path in *. rewrite Hn by exact Hu. reflexivity.
Qed.

(** ** Writing into an address space *)

(** [write_process_memory] copies the source into the given address space, across any
    number of pages, up to its end or to the first address that is not mapped, and
    answers accordingly.  It changes exactly those bytes: no other address space, page
    table or kernel byte differs. *)
Theorem write_process_memory_correct s roots l r va src size :
  space s roots l -> r ∈ roots -> 0 <= va -> va + Z.of_nat size <= 2 ^ 47 -> source_ok s r src size ->
  exists ok s' k, write_process_memory s r va src (Z.of_nat size) = (ok, s') /\ (k <= size)%nat /\
    stored roots l r va (source_bytes s src 0 k) s s' /\
    (if (ok : bool) then k = size else (k < size)%nat /\ user_byte s r (va + Z.of_nat k) = None).
Proof. apply write_process_memory_spec. Qed.

(** Three bytes into the mapped page of the small machine. *)
Lemma write_process_memory_correct_witness :
  exists s l s', write_process_memory s 36864 4194305 (FromBytes [1; 2; 3]) 3 = (true, s') /\
    stored [36864] l 36864 4194305 [1; 2; 3] s s'.
Proof.
  destruct demo_user_page as (s & l & Hsp & _ & _ & _ & _ & Hm). exists s, l.
  destruct (write_process_memory_correct s [36864] l 36864 4194305 (FromBytes [1; 2; 3]) 3 Hsp ltac:(left))
    as (ok & s' & k & E & Hk & Hst & Hres); [lia|lia| |].
  { split; [reflexivity|]. repeat constructor; lia. }
  exists s'. destruct ok; [subst k; split; [exact E|exact Hst]|]. exfalso. destruct Hres as [Hlt Hnone].
  assert (Hva : user_va (4194305 + Z.of_nat k)) by (unfold user_va; lia).
  apply (proj1 (mapped_byte s [36864] l 36864 _ Hsp ltac:(left) Hva)); [|exact Hnone].
  replace (4194305 + Z.of_nat k) with (4194304 + (1 + Z.of_nat k)) by lia. apply Hm. lia.
Defined.

(** ** The stack of a new program *)

(** C36. [build_user_stack] gives a program the stack that the x86-64 ABI prescribes: at the
    stack pointer the argument count, then one pointer per argument, a null, one pointer
    per environment string and a null, every pointer leading to its string with its
    terminator.  It succeeds whenever the stack area is unmapped, 64 frames are free and
    the strings fit, and changes nothing outside the stack area of this address space.
    The stack pointer is a multiple of 16 exactly when the number of strings is odd. *)
Theorem user_stack_correct s roots l p bargv benvp argv envp :
  space s roots l -> cr3 p ∈ roots -> Forall2 holds_text bargv argv -> Forall2 holds_text benvp envp ->
  (forall a, STACK_LOW <= a < XBKS_USER_STACK_TOP -> user_byte s (cr3 p) a = None) -> (64 <= length l)%nat ->
  STACK_LOW <= entry_sp argv envp ->
  exists s' l' view, let sp := entry_sp argv envp in
    build_user_stack s p bargv benvp = inl (Some (s', set_image (cr3 p) (entry p) sp (brk p) p)) /\
    refilled roots l l' (cr3 p) view s s' /\
    (forall a, ~ STACK_LOW <= a < XBKS_USER_STACK_TOP -> view a = user_byte s (cr3 p) a) /\
    abi_stack s' (cr3 p) sp argv envp /\
    sp mod 16 = 8 * ((Z.of_nat (length argv) + Z.of_nat (length envp) + 1) mod 2).
Proof.
  intros Hsp Hr Hargv Henvp Hun Hl Hfit.
  destruct (stack_mapped s roots l (cr3 p) Hsp Hr Hun Hl) as (s1 & l1 & Em & _ & H1).
  destruct (stack_build s roots l p argv envp bargv benvp Hsp Hr Hargv Henvp Hfit s1 l1 Em H1) as (s' & E & H & Hw & Hs).
  eexists s', l1, _. split; [exact E|]. split; [exact H|]. split; [|split; [exact (entry_stack_ok _ _ _ _ Hw Hs)|apply entry_sp_mod]].
  intros a Ha. exact (stack_view_out argv envp _ a Hfit Ha).
Qed.

(** The strings of the first process: the stack pointer is 8 modulo 16. *)
Lemma user_stack_correct_witness :
  exists s l s' l' view, let p := set_image 409600 0 0 0 zero_process in
    build_user_stack s p [lit "xsh"] [lit "PATH=/bin:/sbin:/usr/bin"] =
      inl (Some (s', set_image 409600 0 140737488347064 0 p)) /\
    refilled [409600] l l' 409600 view s s' /\ 140737488347064 mod 16 = 8.
Proof.
  destruct demo_large as (s & l & Hsp & Hl & _ & Hn). exists s, l.
  destruct (user_stack_correct s [409600] l (set_image 409600 0 0 0 zero_process) [lit "xsh"] [lit "PATH=/bin:/sbin:/usr/bin"]
    [str "xsh"] [str "PATH=/bin:/sbin:/usr/bin"] Hsp ltac:(left)) as (s' & l' & view & E & H & _).
  - repeat constructor; try lia. exists []. reflexivity.
  - repeat constructor; try lia. exists []. reflexivity.
  - intros a Ha. apply Hn. unfold user_va, STACK_LOW, XBKS_USER_STACK_TOP, XBKS_USER_STACK_SIZE in *. lia.
  - rewrite Hl. lia.
  - vm_compute. discriminate.
  - exists s', l', view. split; [exact E|]. split; [exact H|reflexivity].
Defined.

(** ** The break *)

(** C38. [syscall_brk] grows the heap page by page: a request between the current break and
    256 MiB maps the pages up to it, zeroed, and moves the break, provided none of them
    was mapped and memory lasts.  Otherwise the answer and the break are the old ones, but
    the pages mapped before the obstacle stay.  Nothing outside the new pages changes,
    and all other requests change nothing at all. *)
Theorem brk_correct k roots l p req :
  space (k_mm k) roots l -> processes k !! current_process k = Some p -> cr3 p ∈ roots ->
  0 <= brk p < 2 ^ 28 -> in_u64 req ->
  let old := page_up (brk p) in
  let new := page_up req in
  if negb (req =? 0) && (brk p <=? req) && (req <? 2 ^ 28) then
    exists ok s' l' mid,
      syscall_brk req k =
        (if (ok : bool) then inl (req, with_processes (with_mm k s') (<[current_process k := set_brk req p]> (processes k)))
         else inl (brk p, with_mm k s')) /\
      old <= mid <= new /\
      refilled roots l l' (cr3 p) (zeroed old mid (user_byte (k_mm k) (cr3 p))) (k_mm k) s' /\
      (if ok then mid = new /\ forall a, old <= a < new -> user_byte (k_mm k) (cr3 p) a = None
       else mid < new /\ (user_byte (k_mm k) (cr3 p) mid <> None \/ 4096 * Z.of_nat (length l) < 4 * (new - old)))
  else syscall_brk req k = inl (brk p, k).
Proof.
  intros Hsp Hp Hr Hb Hreq old new. unfold in_u64 in Hreq.
  unfold syscall_brk. rewrite run_bind, run_this_process, Hp.
  destruct (Z.eqb_spec req 0) as [|Hnz]; cbn [negb andb]; [reflexivity|]. change 268435456 with (2 ^ 28).
  destruct (Z.leb_spec (brk p) req), (Z.ltb_spec req (brk p)); try lia; cbn [orb andb]; [|reflexivity].
  destruct (Z.ltb_spec req (2 ^ 28)), (Z.leb_spec (2 ^ 28) req); try lia; [|reflexivity].
  rewrite !align_up_page_up by lia. fold old new. rewrite run_bind, run_on_mm, brk_loop_range.
  assert (Hon : old <= new) by (apply page_up_mono; lia).
  pose proof (page_up_ok (brk p)) as Ho. pose proof (page_up_ok req) as Hn. fold old in Ho. fold new in Hn.
  assert (Hpos : 0 <= old) by (unfold old, page_up; pose proof (Z.div_pos (brk p + 4095) 4096); lia).
  assert (H47 : new <= 2 ^ 47) by (unfold new, page_up; assert ((req + 4095) / 4096 <= 2 ^ 20) by (apply Z.div_le_upper_bound; lia); lia).
  set (n := Z.to_nat ((new - old) / XBKS_PAGE_SIZE)).
  assert (En : old + 4096 * Z.of_nat n = new).
  { apply page_count; assumption. }
  pose proof (map_range_loop_spec n roots (cr3 p) XBKS_PAGE_WRITABLE (k_mm k) l old new Hsp Hr Hpos Ho En H47 ltac:(unfold XBKS_PAGE_WRITABLE; lia)) as M.
  destruct (map_range_loop n (k_mm k) (cr3 p) old new XBKS_PAGE_WRITABLE) as [[|] s']; cbn [fst snd].
  - destruct M as (Hun & l' & _ & M). exists true, s', l', new. rewrite run_bind, run_update_this.
    change (processes (with_mm k s')) with (processes k). change (current_process (with_mm k s')) with (current_process k). rewrite Hp.
    split; [reflexivity|]. split; [lia|]. split; [exact M|]. split; [reflexivity|exact Hun].
  - destruct M as (mid & l' & Hmid & _ & M & Hwhy). exists false, s', l', mid.
    split; [reflexivity|]. split; [lia|]. split; [exact M|]. split; [lia|]. destruct Hwhy as [?|?]; [left; assumption|right; lia].
Qed.

(** A break at 0x800000 moved up by two pages and a bit. *)
Lemma brk_correct_witness :
  exists s l s' l' view, let p := set_image 409600 0 0 8388608 (fresh_process 1) in
    let k := Kernel s (RamdiskState 0 0 false) [p] 0 2 false [] [] in
    syscall_brk 8397000 k = inl (8397000, with_processes (with_mm k s') [set_brk 8397000 p]) /\
    refilled [409600] l l' 409600 view s s' /\ view 8388608 = Some 0.
Proof.
  destruct demo_large as (s & l & Hsp & Hl & _ & Hn). exists s, l.
  set (p := set_image 409600 0 0 8388608 (fresh_process 1)). set (k := Kernel s (RamdiskState 0 0 false) [p] 0 2 false [] []).
  destruct (brk_correct k [409600] l p 8397000 Hsp eq_refl ltac:(left)) as (ok & s' & l' & mid & E & Hmid & M & Hok).
  - cbn. lia.
  - unfold in_u64. lia.
  - change (page_up (brk p)) with 8388608 in *. change (page_up 8397000) with 8400896 in *. cbn [k_mm k] in *.
    destruct ok.
    + destruct Hok as [-> _]. exists s', l', (zeroed 8388608 8400896 (user_byte s 409600)).
      split; [exact E|]. split; [exact M|reflexivity].
    + exfalso. destruct Hok as [Hlt [Hx|Hx]]; [|rewrite Hl in Hx; lia]. apply Hx. apply Hn. unfold user_va. lia.
Defined.

(** ** A program *)

(** The address space [r] of a freshly loaded program: each segment of the file with zeros
    after its bytes, the stack, and nothing else. *)
Record program_image (m : mem) (data : Z) (segs : list elf64_phdr) (argv envp : list (list Z)) (s : mm) (r sp : Z) : Prop := {
  im_segments : forall ph a, ph ∈ segs -> p_vaddr ph <= a < p_vaddr ph + p_memsz ph ->
    user_byte s r a = Some (if a <? p_vaddr ph + p_filesz ph then rd8 m (data + p_offset ph + (a - p_vaddr ph)) else 0);
  im_stack : abi_stack s r sp argv envp;
  im_rest : forall a, user_va a -> (forall ph, ph ∈ segs -> ~ seg_lo ph <= a < seg_hi ph) ->
    ~ STACK_LOW <= a < XBKS_USER_STACK_TOP -> user_byte s r a = None;
}.

Lemma segments_range m file : program_ok m file ->
  Forall (fun ph => phdr_range ph /\ user_segment (f_size file) ph) (segments m (f_data file)).
Proof.
  intros Hpg. destruct (pg_segments _ _ Hpg) as [Hs _].
  pose proof (loads_range m (f_data file + e_phoff m (f_data file)) (Z.to_nat (e_phnum m (f_data file))) 0) as Hr.
  fold (segments m (f_data file)) in Hr. rewrite List.Forall_forall in Hs, Hr |- *. auto.
Qed.

(** The image of a program depends on the user half of its address space alone. *)
Lemma program_image_ext m file argv envp s s' r :
  program_ok m file -> STACK_LOW <= entry_sp argv envp ->
  (forall va, user_va va -> user_byte s' r va = user_byte s r va) ->
  program_image m (f_data file) (segments m (f_data file)) argv envp s r (entry_sp argv envp) ->
  program_image m (f_data file) (segments m (f_data file)) argv envp s' r (entry_sp argv envp).
Proof.
  intros Hpg Hfit H [H1 H2 H3]. pose proof (segments_range m file Hpg) as Hr. rewrite List.Forall_forall in Hr. split.
  - intros ph a Hph Ha. destruct (Hr ph (proj1 (list_elem_of_In _ _) Hph)) as [Hr1 Hr2]. destruct (seg_lo_hi _ _ Hr1 Hr2) as (? & ? & ? & ?).
    assert (2 ^ 47 = 140737488355328) by reflexivity. rewrite H; [exact (H1 ph a Hph Ha)|]. unfold user_va. destruct Hr2 as (_ & _ & ? & _). lia.
  - exact (abi_stack_ext s s' r argv envp H Hfit H2).
  - intros a Ha Hs Hst. rewrite H by exact Ha. exact (H3 a Ha Hs Hst).
Qed.

Section Program.
Context (k : kernel) (roots l : list Z) (f : Z) (p : process) (path : list Z) (file : xbks_ramdisk_file).
Context (argv envp bargv benvp : list (list Z)).
Let m := ram (k_mm k).
Let segs := segments m (f_data file).
Context (Hsp : space (k_mm k) roots (f :: l)) (Hroot : frame_ok (hhdm_offset_value (k_mm k)) (kernel_cr3_value (k_mm k)))
  (Hrf : kernel_cr3_value (k_mm k) <> f).
Context (Hfind : find_file path k = inl (Some file, k)) (Hexec : f_executable file = true) (Hpg : program_ok m file).
Context (Hfile : forall i g, 0 <= i < f_size file -> g ∈ f :: l -> ~ in_page (hhdm_offset_value (k_mm k)) g (f_data file + i)).
Context (Hbelow : Forall (fun ph => seg_hi ph <= STACK_LOW) segs).
Context (Hframes : 4 * seg_bytes segs + 262144 <= 4096 * Z.of_nat (length l)).
Context (Hargv : Forall2 holds_text bargv argv) (Henvp : Forall2 holds_text benvp envp) (Hfit : STACK_LOW <= entry_sp argv envp).

Lemma segs_range : Forall (fun ph => phdr_range ph /\ user_segment (f_size file) ph) segs.
Proof using Hpg. exact (segments_range m file Hpg). Qed.

Let clear_of (a : Z) : Prop := forall g, g ∈ f :: l -> ~ in_page (hhdm_offset_value (k_mm k)) g a.

(** The new root: an empty user half, everything but free memory as before. *)
Lemma program_root :
  exists s1, xbks_create_kernel_mapped_pml4 (k_mm k) = (f, s1) /\ space s1 (f :: roots) l /\ same_config (k_mm k) s1 /\
    (forall a, user_va a -> user_byte s1 f a = None) /\
    (forall r a, r ∈ roots -> user_va a -> user_byte s1 r a = user_byte (k_mm k) r a) /\
    (forall a, clear_of a -> outside s1 f l a /\ rd8 (ram s1) a = rd8 m a) /\
    (forall r q, r ∈ roots -> upath q -> node s1 r q = node (k_mm k) r q).
Proof using Hsp Hroot Hrf.
  destruct (create_pml4_spec (k_mm k) roots l f Hsp Hroot Hrf) as (s1 & Ec & Hsp1 & Hc1 & Hb1 & Hn1 & Ho1 & _).
  destruct (fp_frames _ _ (sp_pool _ _ _ Hsp)) as [_ Hok]. apply Forall_cons_iff in Hok as [Hf _].
  exists s1. split; [exact Ec|]. split; [exact Hsp1|]. split; [exact Hc1|]. split; [|split; [|split; [|exact Ho1]]].
  - intros a Ha. rewrite (user_byte_node s1 _ _ f a Hsp1 ltac:(left) Ha). pose proof (upath_path a Ha) as Hu.
    unfold VmmSpec.path in *. rewrite Hn1 by exact Hu. reflexivity.
  - intros r a Hr Ha. pose proof (upath_path a Ha) as Hu.
    destruct (sp_frame _ _ _ Hsp r [] r Hr ltac:(split; [cbn; lia|split; [constructor|exact I]]) eq_refl) as [_ Hrl].
    rewrite (user_byte_node s1 _ _ r a Hsp1) by (exact Ha || (right; exact Hr)). rewrite (user_byte_node _ _ _ r a Hsp Hr Ha), Ho1 by assumption.
    destruct (node (k_mm k) r (VmmSpec.path a)) as [x|] eqn:Ex; [|reflexivity]. cbn. f_equal. unfold kva. rewrite (proj1 Hc1). apply Hb1.
    destruct (sp_frame _ _ _ Hsp r _ x Hr Hu Ex) as [Hx Hxl]. intros Hin. apply Hxl.
    rewrite (in_page_inj _ x f (hhdm_offset_value (k_mm k) + x + a mod 4096) Hx Hf); [left| |exact Hin].
    unfold in_page. pose proof (Z.mod_pos_bound a 4096). lia.
  - intros a Ha. split; [|apply Hb1, Ha; left]. unfold outside. rewrite (proj1 Hc1). split; [intros g Hg; apply Ha; right; exact Hg|].
    intros q x Hq Hx. destruct q as [|i q]; [injection Hx as <-; apply Ha; left|]. rewrite Hn1 in Hx by exact Hq. discriminate.
Qed.

(** The user half filled: segments, then the stack. *)
Lemma program_filled s1 :
  space s1 (f :: roots) l -> (forall a, user_va a -> user_byte s1 f a = None) ->
  (forall a, clear_of a -> outside s1 f l a /\ rd8 (ram s1) a = rd8 m a) ->
  let p2 := set_image f (e_entry m (f_data file)) (stack p) 8388608 (set_image f (entry p) (stack p) (brk p) p) in
  exists s2 l2 s4 l4 view, load_elf_into_process s1 (set_image f (entry p) (stack p) (brk p) p) file = (true, s2, p2) /\
    build_user_stack s2 p2 bargv benvp = inl (Some (s4, set_image f (entry p2) (entry_sp argv envp) (brk p2) p2)) /\
    refilled (f :: roots) l l2 f (fold_left (segment_view (ram s1) (f_data file)) segs (user_byte s1 f)) s1 s2 /\
    refilled (f :: roots) l2 l4 f view s2 s4 /\
    (forall a, ~ STACK_LOW <= a < XBKS_USER_STACK_TOP -> view a = user_byte s2 f a) /\
    abi_stack s4 f (entry_sp argv envp) argv envp /\
    4096 * Z.of_nat (length l) <= 4 * seg_bytes segs + 262144 + 4096 * Z.of_nat (length l4).
Proof using Hpg Hfile Hbelow Hframes Hargv Henvp Hfit.
  intros Hsp1 Hempty Hclear p2. set (p1 := set_image f (entry p) (stack p) (brk p) p) in *.
  assert (Hsame1 : file_same m file s1) by (intros j Hj; apply Hclear; intros g; apply Hfile, Hj).
  destruct (program_same m file s1 Hpg Hsame1) as (Hpg1 & Eseg & Eent). fold segs in Eseg. pose proof segs_range as Hsr.
  destruct (load_elf_ok s1 (f :: roots) l p1 file Hsp1 ltac:(left) Hpg1) as (s2 & l2 & E2 & L2 & M2).
  { intros i Hi. apply Hclear. intros g. apply Hfile, Hi. }
  { intros ph a Hph Ha. apply Hempty. rewrite Eseg in Hph. rewrite List.Forall_forall in Hsr.
    destruct (Hsr ph (proj1 (list_elem_of_In _ _) Hph)) as [Hr1 Hr2]. destruct (seg_lo_hi _ _ Hr1 Hr2) as (? & _ & _ & ?). unfold user_va. lia. }
  { rewrite Eseg. lia. }
  change (cr3 p1) with f in *. rewrite Eseg, Eent in *. pose proof (rf_space _ _ _ _ _ _ _ _ M2) as Hsp2.
  assert (Htop : STACK_LOW + 65536 = XBKS_USER_STACK_TOP /\ XBKS_USER_STACK_TOP + 8192 = 2 ^ 47 /\ 0 <= STACK_LOW) by (repeat split; vm_compute; congruence).
  destruct (stack_mapped s2 (f :: roots) l2 f Hsp2 ltac:(left)) as (s3 & l3 & E3 & L3 & M3).
  { intros a Ha. assert (Hua : user_va a) by (unfold user_va; lia). rewrite (rf_user _ _ _ _ _ _ _ _ M2 a Hua).
    rewrite (fold_view_out _ _ (f_size file) segs _ a Hsr); [exact (Hempty a Hua)|].
    intros ph Hph. rewrite List.Forall_forall in Hbelow. specialize (Hbelow ph (proj1 (list_elem_of_In _ _) Hph)). lia. }
  { lia. }
  destruct (stack_build s2 (f :: roots) l2 p2 argv envp bargv benvp Hsp2 ltac:(left) Hargv Henvp Hfit s3 l3 E3 M3) as (s4 & E4 & M4 & Hw & Hs).
  eexists s2, l2, s4, l3, _. split; [exact E2|]. split; [exact E4|]. split; [exact M2|]. split; [exact M4|].
  split; [intros a Ha; exact (stack_view_out argv envp _ a Hfit Ha)|]. split; [exact (entry_stack_ok _ _ _ _ Hw Hs)|lia].
Qed.

Lemma program_run s1 s2 s4 p2 p3 :
  xbks_create_kernel_mapped_pml4 (k_mm k) = (f, s1) ->
  load_elf_into_process s1 (set_image f (entry p) (stack p) (brk p) p) file = (true, s2, p2) ->
  build_user_stack s2 p2 bargv benvp = inl (Some (s4, p3)) ->
  load_program p path bargv benvp k = inl ((true, p3), with_mm k s4).
Proof using Hsp Hfind Hexec Hpg.
  intros E1 E2 E4. destruct (fp_frames _ _ (sp_pool _ _ _ Hsp)) as [_ Hok]. apply Forall_cons_iff in Hok as [(_ & Hf0 & _) _].
  unfold load_program. rewrite run_bind. cbn [get_kernel]. rewrite run_bind.
  unfold find_file in Hfind. rewrite run_bind in Hfind. cbn [get_kernel] in Hfind. unfold ramdisk_image in Hfind. rewrite Hfind.
  rewrite Hexec, (proj1 (proj2 (pg_regular _ _ Hpg))). cbn [negb orb]. rewrite run_bind, run_on_mm, E1. cbn [fst snd].
  destruct (Z.eqb_spec f 0); [lia|]. rewrite run_bind. cbn [get_kernel with_mm k_mm]. rewrite E2, E4. reflexivity.
Qed.

Lemma program_loaded :
  exists s' l', load_program p path bargv benvp k =
      inl ((true, set_image f (e_entry m (f_data file)) (entry_sp argv envp) 8388608 p), with_mm k s') /\
    space s' (f :: roots) l' /\ same_config (k_mm k) s' /\
    program_image m (f_data file) segs argv envp s' f (entry_sp argv envp) /\
    (forall r a, r ∈ roots -> user_va a -> user_byte s' r a = user_byte (k_mm k) r a) /\
    (forall a, clear_of a -> rd8 (ram s') a = rd8 m a) /\ (forall g, g ∈ l' -> g ∈ l) /\
    4096 * Z.of_nat (length l) <= 4 * seg_bytes segs + 262144 + 4096 * Z.of_nat (length l') /\
    (forall g, g ∈ l -> g ∈ l' \/ exists q, upath q /\ node s' f q = Some g) /\
    (forall r q g, r ∈ roots -> upath q -> node (k_mm k) r q = Some g -> node s' r q = Some g).
Proof using All.
  destruct program_root as (s1 & E1 & Hsp1 & Hc1 & Hempty & Hoth & Hclear & Hnodes).
  destruct (program_filled s1 Hsp1 Hempty Hclear) as (s2 & l2 & s4 & l4 & view & E2 & E4 & M2 & M4 & Hv & Habi & L4).
  pose proof (refilled_trans _ _ _ _ _ _ _ _ _ _ _ ltac:(left) M2 M4) as R. pose proof segs_range as Hsr. pose proof Hsr as Hsr'.
  pose proof (proj2 (pg_segments _ _ Hpg)) as Hsep. fold segs in Hsep. rewrite List.Forall_forall in Hsr'.
  assert (Hlow : STACK_LOW <= 2 ^ 47) by (vm_compute; discriminate).
  exists s4, l4. split; [exact (program_run s1 s2 s4 _ _ E1 E2 E4)|]. split; [apply M4|].
  split; [pose proof (rf_config _ _ _ _ _ _ _ _ R); eauto with xbks|]. split; [|split].
  - constructor; [|exact Habi|].
    + intros ph a Hph Ha. apply list_elem_of_In in Hph as Hph'. destruct (Hsr' ph Hph') as [Hr1 Hr2].
      destruct (seg_lo_hi _ _ Hr1 Hr2) as (? & ? & ? & ?). rewrite List.Forall_forall in Hbelow. specialize (Hbelow ph Hph').
      assert (Hua : user_va a) by (unfold user_va; lia). rewrite (rf_user _ _ _ _ _ _ _ _ M4 a Hua), Hv by lia.
      rewrite (rf_user _ _ _ _ _ _ _ _ M2 a Hua), (fold_view_in _ _ (f_size file) segs _ ph a Hsr Hsep Hph Ha).
      destruct (Z.ltb_spec a (p_vaddr ph + p_filesz ph)); [|reflexivity]. f_equal. rewrite <- Z.add_assoc. apply Hclear. intros g. apply Hfile.
      destruct Hr1 as (? & _). destruct Hr2 as (_ & ? & _). lia.
    + intros a Hua Hseg Hstk. rewrite (rf_user _ _ _ _ _ _ _ _ M4 a Hua), Hv, (rf_user _ _ _ _ _ _ _ _ M2 a Hua) by exact Hstk.
      rewrite (fold_view_out _ _ (f_size file) segs _ a Hsr Hseg). exact (Hempty a Hua).
  - intros r a Hr Ha. rewrite <- Hoth by assumption. apply (rf_other _ _ _ _ _ _ _ _ R); [right; exact Hr| |exact Ha].
    intros ->. destruct (space_root _ _ _ _ Hsp Hr) as [_ Hn]. apply Hn. left.
  - split; [|split; [exact (rf_free _ _ _ _ _ _ _ _ R)|split; [exact L4|split]]].
    2: { intros g Hg. destruct (rf_used _ _ _ _ _ _ _ _ R g Hg) as [H|H]; [inversion H|exact H]. }
    2: { intros r q g Hr Hq Hg. apply (rf_keep _ _ _ _ _ _ _ _ R); [right; exact Hr|exact Hq|]. rewrite Hnodes by assumption. exact Hg. }
    intros a Ha. destruct (Hclear a Ha) as [H1 H2]. rewrite (rf_mem _ _ _ _ _ _ _ _ R a H1). exact H2.
Qed.
End Program.

(** C5. [load_program] turns an executable of the ramdisk into a process image: it answers
    true, takes the first free frame as the root of the new address space, and sets the
    entry point of the file, the stack pointer and the break.  The address space holds
    every segment with its bytes and zeros after them, the arguments and environment as
    the ABI wants them, and nothing else; no other address space and no memory that was
    in use changes; at most four frames are taken for every page, and each of them is a
    table or page of the new space.  The hypotheses ask
    for a file found under the path, marked executable and well formed, segments that
    share no page and stay below the stack, and enough free memory (four frames for
    every page). *)
Theorem load_program_correct k roots l f p path file argv envp bargv benvp :
  let m := ram (k_mm k) in
  let segs := segments m (f_data file) in
  space (k_mm k) roots (f :: l) -> frame_ok (hhdm_offset_value (k_mm k)) (kernel_cr3_value (k_mm k)) ->
  kernel_cr3_value (k_mm k) <> f ->
  find_file path k = inl (Some file, k) -> f_executable file = true -> program_ok m file ->
  (forall i g, 0 <= i < f_size file -> g ∈ f :: l -> ~ in_page (hhdm_offset_value (k_mm k)) g (f_data file + i)) ->
  Forall (fun ph => seg_hi ph <= STACK_LOW) segs ->
  4 * seg_bytes segs + 262144 <= 4096 * Z.of_nat (length l) ->
  Forall2 holds_text bargv argv -> Forall2 holds_text benvp envp -> STACK_LOW <= entry_sp argv envp ->
  exists s' l', load_program p path bargv benvp k =
      inl ((true, set_image f (e_entry m (f_data file)) (entry_sp argv envp) 8388608 p), with_mm k s') /\
    space s' (f :: roots) l' /\ same_config (k_mm k) s' /\
    program_image m (f_data file) segs argv envp s' f (entry_sp argv envp) /\
    (forall r a, r ∈ roots -> user_va a -> user_byte s' r a = user_byte (k_mm k) r a) /\
    (forall a, (forall g, g ∈ f :: l -> ~ in_page (hhdm_offset_value (k_mm k)) g a) -> rd8 (ram s') a = rd8 m a) /\
    (forall g, g ∈ l' -> g ∈ l) /\ 4096 * Z.of_nat (length l) <= 4 * seg_bytes segs + 262144 + 4096 * Z.of_nat (length l') /\
    (forall g, g ∈ l -> g ∈ l' \/ exists q, upath q /\ node s' f q = Some g) /\
    (forall r q g, r ∈ roots -> upath q -> node (k_mm k) r q = Some g -> node s' r q = Some g).
Proof. intros m segs. intros. apply (program_loaded k roots l f p path file); assumption. Qed.

(** *** The first program of the booted machine, with a hundred frames *)

Definition demo_mounted : kernel :=
  let s := default demo_boot (add_usable_range demo_boot 4096 409600) in
  Kernel (set_ram s (store_bytes (ram s) demo_ramdisk_address demo_ramdisk))
    (RamdiskState demo_ramdisk_address (Z.of_nat (length demo_ramdisk)) true)
    (replicate MAX_PROCESSES zero_process) 0 1 false [] [].

Definition demo_program : xbks_ramdisk_file :=
  match ran (find_file (lit "/bin/xsh") demo_mounted) with Some (Some f) => f | _ => zero_file end.

Lemma demo_frames_low g : g ∈ rev (usable_pages 4096 409600) -> g <= 409600.
Proof.
  intros Hg. assert (H : forallb (fun g => g <=? 409600) (rev (usable_pages 4096 409600)) = true) by (vm_compute; reflexivity).
  rewrite forallb_forall in H. apply Z.leb_le, H, list_elem_of_In, Hg.
Qed.

Lemma demo_mounted_space :
  space (k_mm demo_mounted) [] (rev (usable_pages 4096 409600)) /\
  hhdm_offset_value (k_mm demo_mounted) = demo_hhdm /\ kernel_cr3_value (k_mm demo_mounted) = 1048576.
Proof.
  destruct (add_usable_range_pool demo_boot [] 4096 409600 demo_boot_pool) as (s0 & E & Hp & Hc & _).
  { vm_compute. intuition discriminate. }
  { intros f _ H. inversion H. }
  unfold demo_mounted. rewrite E. cbn [default k_mm]. rewrite app_nil_r in Hp.
  split; [|split; [exact (proj1 Hc)|exact (proj1 (proj2 Hc))]].
  split; [|intros r p f H; inversion H|intros r r' p p' f H; inversion H].
  apply pool_set_ram; [exact Hp|]. intros g a Hg Ha. apply rd8_store_bytes_out. left.
  pose proof (demo_frames_low g Hg).
  unfold in_page, demo_ramdisk_address in *. unfold id in Ha. rewrite (proj1 Hc) in Ha. change (hhdm_offset_value demo_boot) with demo_hhdm in Ha. lia.
Qed.

Lemma demo_program_found : find_file (lit "/bin/xsh") demo_mounted = inl (Some demo_program, demo_mounted).
Proof.
  assert (H : match ran (find_file (lit "/bin/xsh") demo_mounted) with Some (Some _) => true | _ => false end = true) by (vm_compute; reflexivity).
  unfold demo_program. destruct (find_file (lit "/bin/xsh") demo_mounted) as [[o k]|] eqn:E; [|discriminate H].
  pose proof (reads_find_file _ _ _ _ E) as ->. cbn [ran] in *. destruct o as [f|]; [reflexivity|discriminate H].
Qed.

Lemma demo_program_fields :
  f_data demo_program = demo_ramdisk_address + 512 /\ f_size demo_program = 128 /\
  f_executable demo_program = true /\ f_directory demo_program = false.
Proof. repeat split; vm_compute; reflexivity. Qed.

Lemma demo_program_segments :
  segments (ram (k_mm demo_mounted)) (demo_ramdisk_address + 512) = [Phdr 1 120 4194304 8 8].
Proof. vm_compute. reflexivity. Qed.

Lemma demo_program_ok : program_ok (ram (k_mm demo_mounted)) demo_program.
Proof.
  destruct demo_program_fields as (Hd & Hs & _ & Hdir). pose proof demo_program_segments as Es.
  constructor; rewrite ?Hd, ?Hs.
  - split; [vm_compute; discriminate|]. split; [exact Hdir|unfold sizeof_ehdr; lia].
  - vm_compute. reflexivity.
  - vm_compute. reflexivity.
  - split; [vm_compute; reflexivity|]. split; vm_compute; discriminate.
  - rewrite Es. split; [|split; [constructor|exact I]]. constructor; [|constructor]. repeat split; vm_compute; congruence.
Qed.

Lemma load_program_correct_witness :
  exists s', load_program zero_process (lit "/bin/xsh") [lit "xsh"] [lit "PATH=/bin:/sbin:/usr/bin"] demo_mounted =
      inl ((true, set_image 409600 4194304 140737488347064 8388608 zero_process), with_mm demo_mounted s') /\
    user_byte s' 409600 4194304 = Some 184 /\ user_byte s' 409600 4198400 = None.
Proof.
  destruct demo_mounted_space as (Hsp & Hh & Hk). destruct demo_program_fields as (Hd & Hs & Hx & Hdir).
  assert (Ef : rev (usable_pages 4096 409600) = 409600 :: tail (rev (usable_pages 4096 409600))) by (vm_compute; reflexivity).
  pose proof demo_program_segments as Es.
  destruct (load_program_correct demo_mounted [] (tail (rev (usable_pages 4096 409600))) 409600 zero_process (lit "/bin/xsh") demo_program
    [str "xsh"] [str "PATH=/bin:/sbin:/usr/bin"] [lit "xsh"] [lit "PATH=/bin:/sbin:/usr/bin"]) as (s' & l' & E & _ & _ & Him & _).
  - rewrite <- Ef. exact Hsp.
  - rewrite Hh, Hk. vm_compute. intuition discriminate.
  - rewrite Hk. discriminate.
  - exact demo_program_found.
  - exact Hx.
  - exact demo_program_ok.
  - intros i g Hi Hg. rewrite <- Ef in Hg. rewrite Hh, Hd. rewrite Hs in Hi.
    pose proof (demo_frames_low g Hg). unfold in_page, demo_ramdisk_address. lia.
  - rewrite Hd, Es. constructor; [vm_compute; discriminate|constructor].
  - rewrite Hd, Es. vm_compute. discriminate.
  - repeat constructor; try lia. exists []. reflexivity.
  - repeat constructor; try lia. exists []. reflexivity.
  - vm_compute. discriminate.
  - exists s'. rewrite Hd, Es in *. split; [|split].
    + rewrite E. replace (e_entry (ram (k_mm demo_mounted)) (demo_ramdisk_address + 512)) with 4194304 by (vm_compute; reflexivity). reflexivity.
    + rewrite (im_segments _ _ _ _ _ _ _ _ Him (Phdr 1 120 4194304 8 8) 4194304 ltac:(left)) by (cbn; lia). vm_compute. reflexivity.
    + apply (im_rest _ _ _ _ _ _ _ _ Him); [unfold user_va; lia| |vm_compute; intuition discriminate].
      intros ph Hph. apply list_elem_of_singleton in Hph as ->. change (seg_hi (Phdr 1 120 4194304 8 8)) with 4198400. lia.
Defined.
