(* ===== verification/Outcome.v ===== *)
(** * Computations that may refuse or go wrong

    The font code is written as functions that return [false] on bad input and that
    would leave the semantics of C on an access outside an object or an [int32_t]
    overflow.  [outcome] keeps the three results apart: a value, the early
    [return false], and undefined behaviour. *)

From S2P Require Import Prelude.

Inductive outcome (A : Type) : Type :=
| Ok (a : A)
| Refused
| Undefined.
Arguments Ok {A} a.
Arguments Refused {A}.
Arguments Undefined {A}.

#[export] Instance outcome_ret : MRet outcome := @Ok.
#[export] Instance outcome_bind : MBind outcome := fun A B f o =>
  match o with Ok a => f a | Refused => Refused | Undefined => Undefined end.

(** [if (!b) return false;] *)
Definition require (b : bool) : outcome unit := if b then Ok tt else Refused.

(** A call whose [false] the caller handles. *)
Definition attempt {A} (o : outcome A) : outcome (option A) :=
  match o with Ok a => Ok (Some a) | Refused => Ok None | Undefined => Undefined end.

(** An [int32_t] result. *)
Definition in_i32 (x : Z) : bool := (- 2 ^ 31 <=? x) && (x <? 2 ^ 31).
Definition i32 (x : Z) : outcome Z := if in_i32 x then Ok x else Undefined.

(** A counted loop whose body may leave it. *)
Fixpoint scan_out {S R : Type} (n : nat) (i : Z) (f : Z -> S -> outcome (ctl S R)) (s : S)
  : outcome (ctl S R) :=
  match n with
  | O => Ok (Next s)
  | Datatypes.S n' =>
      r ← f i s;
      match r with
      | Next s' => scan_out n' (i + 1) f s'
      | Exit r => Ok (Exit r)
      end
  end.

(** ** Reasoning about outcomes

    [yields Q o]: the computation stays within C, and its value, if it has one,
    satisfies [Q]. *)
Definition yields {A} (Q : A -> Prop) (o : outcome A) : Prop :=
  match o with Ok a => Q a | Refused => True | Undefined => False end.

(** It also has a value. *)
Definition returns {A} (Q : A -> Prop) (o : outcome A) : Prop :=
  match o with Ok a => Q a | _ => False end.

(** If it has a value, the value satisfies [Q]. *)
Definition ensures {A} (Q : A -> Prop) (o : outcome A) : Prop :=
  match o with Ok a => Q a | _ => True end.

Lemma ensures_bind {A B} (P : A -> Prop) (Q : B -> Prop) (o : outcome A) (f : A -> outcome B) :
  ensures P o -> (forall a, P a -> ensures Q (f a)) -> ensures Q (o ≫= f).
Proof. destruct o; cbn; auto. Qed.

Lemma ensures_skip {A B} (Q : B -> Prop) (o : outcome A) (f : A -> outcome B) :
  (forall a, o = Ok a -> ensures Q (f a)) -> ensures Q (o ≫= f).
Proof. destruct o; cbn; auto. Qed.

Lemma ensures_ok {A} (Q : A -> Prop) (o : outcome A) a : ensures Q o -> o = Ok a -> Q a.
Proof. intros H ->. exact H. Qed.

Lemma yields_bind {A B} (P : A -> Prop) (Q : B -> Prop) (o : outcome A) (f : A -> outcome B) :
  yields P o -> (forall a, P a -> yields Q (f a)) -> yields Q (o ≫= f).
Proof. destruct o; cbn; auto. Qed.

Lemma yields_returns {A B} (P : A -> Prop) (Q : B -> Prop) (o : outcome A) (f : A -> outcome B) :
  returns P o -> (forall a, P a -> yields Q (f a)) -> yields Q (o ≫= f).
Proof. destruct o; cbn; auto; tauto. Qed.

Lemma returns_bind {A B} (P : A -> Prop) (Q : B -> Prop) (o : outcome A) (f : A -> outcome B) :
  returns P o -> (forall a, P a -> returns Q (f a)) -> returns Q (o ≫= f).
Proof. destruct o; cbn; auto; tauto. Qed.

Lemma yields_mono {A} (P Q : A -> Prop) (o : outcome A) :
  yields P o -> (forall a, P a -> Q a) -> yields Q o.
Proof. destruct o; cbn; auto. Qed.

Lemma returns_mono {A} (P Q : A -> Prop) (o : outcome A) :
  returns P o -> (forall a, P a -> Q a) -> returns Q o.
Proof. destruct o; cbn; auto. Qed.

Lemma returns_yields {A} (Q : A -> Prop) (o : outcome A) : returns Q o -> yields Q o.
Proof. destruct o; cbn; tauto. Qed.

Lemma returns_iff {A} (Q : A -> Prop) (o : outcome A) : returns Q o <-> exists a, o = Ok a /\ Q a.
Proof.
  destruct o as [b| |]; cbn; split; try tauto; try (intros (c & E & ?); congruence).
  - intros H. eauto.
Qed.

Lemma returns_ok {A} (o : outcome A) a : returns (eq a) o -> o = Ok a.
Proof. destruct o; cbn; congruence || tauto. Qed.

Lemma yields_require {B} (Q : B -> Prop) (b : bool) (k : outcome B) :
  (b = true -> yields Q k) -> yields Q (require b;; k).
Proof. destruct b; cbn; auto. Qed.

Lemma yields_attempt {A} (P : A -> Prop) (o : outcome A) :
  yields P o -> returns (fun r => match r with Some a => P a | None => True end) (attempt o).
Proof. destruct o; cbn; auto. Qed.

Lemma returns_i32 x : - 2 ^ 31 <= x < 2 ^ 31 -> i32 x = Ok x.
Proof. intros H. unfold i32, in_i32. rewrite (proj2 (Z.leb_le _ _)), (proj2 (Z.ltb_lt _ _)) by lia. reflexivity. Qed.

Lemma i32_ok x y : i32 x = Ok y -> y = x /\ - 2 ^ 31 <= x < 2 ^ 31.
Proof. unfold i32, in_i32. destruct (_ && _) eqn:E; [|discriminate]. intros [= <-]. to_prop. lia. Qed.

(** Loop rule. *)
Lemma scan_out_yields {S R} (P : Z -> S -> Prop) (Q : R -> Prop) n i f (s : S) :
  P i s ->
  (forall j t, i <= j < i + Z.of_nat n -> P j t ->
     yields (fun r => match r with Next t' => P (j + 1) t' | Exit r => Q r end) (f j t)) ->
  yields (fun r => match r with Next s' => P (i + Z.of_nat n) s' | Exit r => Q r end) (scan_out n i f s).
Proof.
  revert i s. induction n as [|n IH]; intros i s H0 Hstep; cbn [scan_out].
  - replace (i + Z.of_nat 0) with i by lia. exact H0.
  - eapply yields_bind; [apply (Hstep i s ltac:(lia) H0)|]. intros [s'|r] Hr; [|exact Hr].
    replace (i + Z.of_nat (Datatypes.S n)) with (i + 1 + Z.of_nat n) by lia.
    apply IH; [exact Hr|]. intros; apply Hstep; [lia|assumption].
Qed.

Lemma scan_out_ensures {S R} (P : Z -> S -> Prop) (Q : R -> Prop) n i f (s : S) :
  P i s ->
  (forall j t, i <= j < i + Z.of_nat n -> P j t ->
     ensures (fun r => match r with Next t' => P (j + 1) t' | Exit r => Q r end) (f j t)) ->
  ensures (fun r => match r with Next s' => P (i + Z.of_nat n) s' | Exit r => Q r end) (scan_out n i f s).
Proof.
  revert i s. induction n as [|n IH]; intros i s H0 Hstep; cbn [scan_out].
  - replace (i + Z.of_nat 0) with i by lia. exact H0.
  - eapply ensures_bind; [apply (Hstep i s ltac:(lia) H0)|]. intros [s'|r] Hr; [|exact Hr].
    replace (i + Z.of_nat (Datatypes.S n)) with (i + 1 + Z.of_nat n) by lia.
    apply IH; [exact Hr|]. intros; apply Hstep; [lia|assumption].
Qed.

Lemma scan_out_returns {S R} (P : Z -> S -> Prop) (Q : R -> Prop) n i f (s : S) :
  P i s ->
  (forall j t, i <= j < i + Z.of_nat n -> P j t ->
     returns (fun r => match r with Next t' => P (j + 1) t' | Exit r => Q r end) (f j t)) ->
  returns (fun r => match r with Next s' => P (i + Z.of_nat n) s' | Exit r => Q r end) (scan_out n i f s).
Proof.
  revert i s. induction n as [|n IH]; intros i s H0 Hstep; cbn [scan_out].
  - replace (i + Z.of_nat 0) with i by lia. exact H0.
  - eapply returns_bind; [apply (Hstep i s ltac:(lia) H0)|]. intros [s'|r] Hr; [|exact Hr].
    replace (i + Z.of_nat (Datatypes.S n)) with (i + 1 + Z.of_nat n) by lia.
    apply IH; [exact Hr|]. intros; apply Hstep; [lia|assumption].
Qed.

Ltac guarded := apply yields_require; intros ?.
