(* ===== verification/Console.v ===== *)
(** * Serial port, terminal output and log (src/drivers/serial.c, src/drivers/tty.c,
      src/kernel/log.c, include/xbks/io.h)

    The drivers talk to devices: every port read is answered by the environment, every
    write is recorded.  An [IO] computation takes the answers still to come and the
    record so far; it stops when it polls a device that never becomes ready, when it
    leaves an object, or when it halts.  The terminal emulator is third-party code: what
    is written to it is recorded. *)

From Stdlib Require Import Ascii String.
From S2P Require Import Prelude CStr Format.

(** ** Devices *)

(** What happens at the machine's edge: a port read with its answer, a port write, one
    call of [flanterm_write], a read and a write of a model-specific register, [lgdt],
    [cli]. *)
Inductive io_event :=
| Inb (port value : Z)
| Outb (port value : Z)
| Flanterm (text : list Z)
| Rdmsr (msr value : Z)
| Wrmsr (msr value : Z)
| Lgdt (limit base : Z)
| Cli.

#[export] Instance io_event_eq_dec : EqDecision io_event.
Proof. solve_decision. Defined.

(** [answers] are the values the next [inb] (and [rdmsr]) find; [tty_context] is whether the
    terminal is there. *)
Record devices := Devices {
  answers : list Z;
  trace : list io_event;
  tty_context : bool;
}.

(** Waiting for a device for ever, an access outside an object, the final [hlt] loop. *)
Inductive io_stop := WAITING (trace : list io_event) | STRAY | HALTED (trace : list io_event).

Definition IO (A : Type) : Type := devices -> (A * devices) + io_stop.

#[export] Instance IO_ret : MRet IO := fun A a d => inl (a, d).
#[export] Instance IO_bind : MBind IO := fun A B f c d =>
  match c d with inl (a, d') => f a d' | inr e => inr e end.

Definition stray {A} : IO A := fun _ => inr STRAY.
Definition waiting {A} : IO A := fun d => inr (WAITING (trace d)).
Definition lift {A} (o : option A) : IO A := match o with Some a => mret a | None => stray end.
(** A polling loop: every round takes at least one answer, so that their number bounds the
    rounds. *)
Definition polling {A} (loop : nat -> IO A) : IO A := fun d => loop (length (answers d)) d.
Definition event (e : io_event) : IO unit := fun d =>
  inl (tt, Devices (answers d) (trace d ++ [e]) (tty_context d)).

(** ** include/xbks/io.h *)

Definition xbks_inb (port : Z) : IO Z := fun d =>
  match answers d with
  | [] => inr (WAITING (trace d))
  | v :: rest => inl (u8 v, Devices rest (trace d ++ [Inb port (u8 v)]) (tty_context d))
  end.

Definition xbks_outb (port value : Z) : IO unit := event (Outb port value).

Definition xbks_debugcon_write_byte (value : Z) : IO unit := event (Outb 0xe9 value).

Definition xbks_io_wait : IO unit := event (Outb 0x80 0).

Definition xbks_cli : IO unit := event Cli.

(** [for (;;) xbks_hlt();]: no interrupt is enabled that would end it. *)
Definition xbks_hlt {A} : IO A := fun d => inr (HALTED (trace d)).

(** ** src/drivers/serial.c *)

Definition SERIAL_DATA : Z := 0.
Definition SERIAL_INTERRUPT_ENABLE : Z := 1.
Definition SERIAL_FIFO_CONTROL : Z := 2.
Definition SERIAL_LINE_CONTROL : Z := 3.
Definition SERIAL_MODEM_CONTROL : Z := 4.
Definition SERIAL_LINE_STATUS : Z := 5.
Definition XBKS_SERIAL_COM1 : Z := 0x3f8.

Definition serial_transmit_empty (port : Z) : IO bool :=
  v ← xbks_inb (u16 (port + SERIAL_LINE_STATUS)); mret (negb ((v & 0x20) =? 0)).

Definition serial_received (port : Z) : IO bool :=
  v ← xbks_inb (u16 (port + SERIAL_LINE_STATUS)); mret (negb ((v & 0x01) =? 0)).

Definition xbks_serial_init (port : Z) : IO bool :=
  xbks_outb (u16 (port + SERIAL_INTERRUPT_ENABLE)) 0x00;;
  xbks_outb (u16 (port + SERIAL_LINE_CONTROL)) 0x80;;
  xbks_outb (u16 (port + SERIAL_DATA)) 0x03;;
  xbks_outb (u16 (port + SERIAL_INTERRUPT_ENABLE)) 0x00;;
  xbks_outb (u16 (port + SERIAL_LINE_CONTROL)) 0x03;;
  xbks_outb (u16 (port + SERIAL_FIFO_CONTROL)) 0xc7;;
  xbks_outb (u16 (port + SERIAL_MODEM_CONTROL)) 0x0b;;
  mret true.

(** [Some byte] for [true] and [*out = byte]. *)
Definition xbks_serial_read_byte (port : Z) (out_null : bool) : IO (option Z) :=
  if out_null then mret None
  else
    received ← serial_received port;
    if negb received then mret None
    else byte ← xbks_inb port; mret (Some byte).

(** [while (!serial_transmit_empty(port))]: one answer of the line status per round, so
    that the rounds are at most the answers to come. *)
Fixpoint wait_transmit (rounds : nat) (port : Z) : IO unit :=
  ready ← serial_transmit_empty port;
  if (ready : bool) then mret tt
  else match rounds with O => waiting | S n => wait_transmit n port end.

Definition xbks_serial_write_byte (port byte : Z) : IO unit :=
  polling (fun rounds => wait_transmit rounds port);; xbks_outb port byte.

Fixpoint xbks_serial_write (port : Z) (data : list Z) : IO unit :=
  match data with
  | [] => mret tt
  | c :: rest =>
      (if c =? 10 then xbks_serial_write_byte port 13 else mret tt);;
      xbks_serial_write_byte port (u8 c);;
      xbks_serial_write port rest
  end.

Fixpoint xbks_serial_write_string (port : Z) (text : list Z) : IO unit :=
  match text with
  | [] => stray
  | c :: rest =>
      if c =? 0 then mret tt
      else
        (if c =? 10 then xbks_serial_write_byte port 13 else mret tt);;
        xbks_serial_write_byte port (u8 c);;
        xbks_serial_write_string port rest
  end.

(** ** src/drivers/tty.c: output *)

Definition xbks_tty_is_available : IO bool := fun d => inl (tty_context d, d).

Fixpoint tty_write_loop (data : list Z) : IO unit :=
  match data with
  | [] => mret tt
  | c :: rest =>
      (if c =? 10 then event (Flanterm [13; 10]) else event (Flanterm [c]));;
      tty_write_loop rest
  end.

Definition xbks_tty_write (data : list Z) : IO unit :=
  available ← xbks_tty_is_available;
  if negb available then mret tt else tty_write_loop data.

Definition xbks_tty_write_string (text : list Z) : IO unit :=
  available ← xbks_tty_is_available;
  if negb available then mret tt
  else
    n ← lift (strlen text);
    event (Flanterm (take (Z.to_nat n) text)).

(** ** src/kernel/log.c *)

Inductive xbks_log_level := XBKS_LOG_DEBUG | XBKS_LOG_INFO | XBKS_LOG_WARN | XBKS_LOG_ERROR.

Definition level_name (level : xbks_log_level) : list Z :=
  match level with
  | XBKS_LOG_DEBUG => lit "debug"
  | XBKS_LOG_INFO => lit "info"
  | XBKS_LOG_WARN => lit "warn"
  | XBKS_LOG_ERROR => lit "error"
  end.

Definition xbks_log_init : IO unit := xbks_serial_init XBKS_SERIAL_COM1;; mret tt.

Fixpoint debugcon_loop (data : list Z) : IO unit :=
  match data with
  | [] => mret tt
  | c :: rest => xbks_debugcon_write_byte (u8 c);; debugcon_loop rest
  end.

(** [data] is the first [length] bytes of the buffer. *)
Definition xbks_console_write (data : list Z) : IO unit :=
  debugcon_loop data;;
  xbks_serial_write XBKS_SERIAL_COM1 data;;
  xbks_tty_write data.

Definition xbks_console_write_string (text : list Z) : IO unit :=
  n ← lift (strlen text);
  xbks_console_write (take (Z.to_nat n) text).

Definition xbks_log_write (level : xbks_log_level) (message : list Z) : IO unit :=
  xbks_console_write_string (lit "[");;
  xbks_console_write_string (level_name level);;
  xbks_console_write_string (lit "] ");;
  xbks_console_write_string message;;
  xbks_console_write_string [10; 0].

Definition xbks_log_printf (level : xbks_log_level) (fmt : list Z) (args : list va) : IO unit :=
  '(buffer, _) ← lift (xbks_vsnprintf (uninit 512) 512 fmt args);
  xbks_log_write level buffer.

(** ** What the devices see *)

(** [\n] becomes [\r\n]. *)
Fixpoint crlf (data : list Z) : list Z :=
  match data with
  | [] => []
  | c :: rest => if c =? 10 then 13 :: 10 :: crlf rest else c :: crlf rest
  end.

(** The bytes written to a port, and to the terminal. *)
Definition port_bytes (port : Z) (t : list io_event) : list Z :=
  omap (fun e => match e with Outb p v => if p =? port then Some v else None | _ => None end) t.

Fixpoint tty_bytes (t : list io_event) : list Z :=
  match t with
  | [] => []
  | Flanterm l :: rest => l ++ tty_bytes rest
  | _ :: rest => tty_bytes rest
  end.

(** A status of the line with an empty transmitter. *)
Definition ready (v : Z) : bool := negb ((u8 v & 0x20) =? 0).

(** The number of ready answers, and what is left after the first [n] of them. *)
Definition ready_count (l : list Z) : nat := length (filter (fun v => ready v = true) l).

Fixpoint after_ready (n : nat) (l : list Z) : list Z :=
  match n, l with
  | O, _ => l
  | _, [] => []
  | S n', v :: rest => if ready v then after_ready n' rest else after_ready n rest
  end.

