(* ===== verification/ConsoleProps.v ===== *)
(** * What the console sends

    Every console write reaches the debug port, the serial line and the terminal with
    the same bytes, the latter two with [\r] before [\n]; the serial line gets a byte only
    after its transmitter has announced that it is empty; and the write ends as soon as
    the line has been ready often enough.  [sends] states this of a computation;
    it composes, so that the log routines follow from the single write. *)

From Stdlib Require Import Ascii String.
From S2P Require Import Prelude CStr Format FormatProps Console.

(** ** Well-mannered traces

    Every byte sent on [port] comes right after an answer of the line status with an empty
    transmitter. *)
Definition polite (port : Z) (t : list io_event) : Prop :=
  forall a w b, t = a ++ Outb port w :: b ->
  exists a' v, a = a' ++ [Inb (u16 (port + SERIAL_LINE_STATUS)) v] /\ ready v = true.

Lemma polite_nil port : polite port [].
Proof. intros a w b H. destruct a; discriminate. Qed.

Lemma polite_app port t u : polite port t -> polite port u -> polite port (t ++ u).
Proof.
  intros Ht Hu a w b H. destruct (app_eq_inv _ _ _ _ H) as [(k & -> & Hk)|(k & -> & Hk)].
  - destruct k as [|e k].
    + cbn in Hk. destruct (Hu [] w b) as (a' & v & E & _); [symmetry; exact Hk|].
      destruct a'; discriminate.
    + injection Hk as <- ->. apply (Ht a w k eq_refl).
  - destruct (Hu k w b Hk) as (a' & v & -> & Hv). exists (t ++ a'), v. rewrite app_assoc. auto.
Qed.

Lemma polite_other port t : (forall w, ~ In (Outb port w) t) -> polite port t.
Proof. intros H a w b ->. exfalso. apply (H w). apply in_or_app. right. left. reflexivity. Qed.

Lemma port_bytes_app port t u : port_bytes port (t ++ u) = port_bytes port t ++ port_bytes port u.
Proof. unfold port_bytes. apply omap_app. Qed.

Lemma tty_bytes_app t u : tty_bytes (t ++ u) = tty_bytes t ++ tty_bytes u.
Proof. induction t as [|[] t IH]; cbn; rewrite ?IH, <- ?app_assoc; reflexivity. Qed.

Lemma crlf_app a b : crlf (a ++ b) = crlf a ++ crlf b.
Proof. induction a as [|c a IH]; cbn; [reflexivity|]. rewrite IH. destruct (c =? 10); reflexivity. Qed.

(** ** Readiness *)

Lemma ready_count_cons v l : ready_count (v :: l) = ((if ready v then 1 else 0) + ready_count l)%nat.
Proof. unfold ready_count. rewrite filter_cons. destruct (ready v); reflexivity. Qed.

Lemma after_ready_0 l : after_ready 0 l = l.
Proof. destruct l; reflexivity. Qed.

Lemma after_ready_add n k l : after_ready (n + k) l = after_ready k (after_ready n l).
Proof.
  revert n. induction l as [|v l IH]; intros n.
  - destruct n, k; reflexivity.
  - destruct n as [|n]; [reflexivity|]. cbn [Nat.add after_ready]. destruct (ready v); [apply IH|].
    apply (IH (S n)).
Qed.

Lemma ready_count_after n l : (n <= ready_count l)%nat -> ready_count (after_ready n l) = (ready_count l - n)%nat.
Proof.
  revert n. induction l as [|v l IH]; intros n H.
  - destruct n; reflexivity.
  - destruct n as [|n]; [cbn; lia|]. rewrite ready_count_cons in *. cbn [after_ready].
    destruct (ready v); rewrite IH by lia; lia.
Qed.

(** ** Sending

    [sends io dbg ser tty]: the computation writes [dbg] to the debug port, [ser] to the
    serial line and [tty] to the terminal if there is one; it ends if and only if the
    line's answers are ready for each byte of [ser]. *)
Record sent (d d' : devices) (dbg ser tty : list Z) : Prop := {
  sent_ready : (length ser <= ready_count (answers d))%nat;
  sent_answers : answers d' = after_ready (length ser) (answers d);
  sent_context : tty_context d' = tty_context d;
  sent_trace : exists t, trace d' = trace d ++ t /\
    port_bytes 0xe9 t = dbg /\ port_bytes XBKS_SERIAL_COM1 t = ser /\
    tty_bytes t = (if tty_context d then tty else []) /\ polite XBKS_SERIAL_COM1 t;
}.

Definition sends (io : IO unit) (dbg ser tty : list Z) : Prop := forall d,
  match io d with
  | inl (_, d') => sent d d' dbg ser tty
  | inr (WAITING _) => (ready_count (answers d) < length ser)%nat
  | inr _ => False
  end.

Lemma sends_ret : sends (mret tt) [] [] [].
Proof.
  intros d. cbn. constructor; [cbn; lia|symmetry; apply after_ready_0|reflexivity|]. exists []. rewrite app_nil_r.
  repeat split; [destruct (tty_context d); reflexivity|apply polite_nil].
Qed.

Lemma sends_bind io1 io2 g1 s1 t1 g2 s2 t2 :
  sends io1 g1 s1 t1 -> sends io2 g2 s2 t2 -> sends (io1;; io2) (g1 ++ g2) (s1 ++ s2) (t1 ++ t2).
Proof.
  intros H1 H2 d. specialize (H1 d). unfold mbind, IO_bind. rewrite length_app.
  destruct (io1 d) as [[[] d1]|[]]; [|lia|destruct H1|destruct H1].
  destruct H1 as [Hr1 Ha1 Hc1 (u1 & Ht1 & Hg1 & Hs1 & Hy1 & Hp1)].
  specialize (H2 d1). pose proof (ready_count_after _ _ Hr1) as Hn. rewrite <- Ha1 in Hn.
  destruct (io2 d1) as [[[] d2]|[]]; [|lia|destruct H2|destruct H2].
  destruct H2 as [Hr2 Ha2 Hc2 (u2 & Ht2 & Hg2 & Hs2 & Hy2 & Hp2)].
  constructor; rewrite ?length_app; [lia|rewrite Ha2, Ha1, after_ready_add; reflexivity|congruence|].
  exists (u1 ++ u2). rewrite Ht2, Ht1, app_assoc. rewrite Hc1 in Hy2.
  rewrite !port_bytes_app, tty_bytes_app, Hg1, Hs1, Hg2, Hs2, Hy1, Hy2.
  repeat split; [destruct (tty_context d); reflexivity|apply polite_app; assumption].
Qed.

(** The same with the lists given up to equality. *)
Lemma sends_seq io1 io2 g1 s1 t1 g2 s2 t2 g s t :
  sends io1 g1 s1 t1 -> sends io2 g2 s2 t2 -> g = g1 ++ g2 -> s = s1 ++ s2 -> t = t1 ++ t2 ->
  sends (io1;; io2) g s t.
Proof. intros H1 H2 -> -> ->. apply sends_bind; assumption. Qed.

Lemma sends_event e :
  (forall w, e <> Outb XBKS_SERIAL_COM1 w) ->
  sends (event e) (port_bytes 0xe9 [e]) [] (tty_bytes [e]) \/ exists l, e = Flanterm l.
Proof.
  intros He. destruct e as [p v|p v|l|m v|m v|l b|]; try (right; eexists; reflexivity); left; intros d; cbn.
  all: constructor; [cbn; lia|symmetry; apply after_ready_0|reflexivity|]; eexists; split; [reflexivity|].
  all: repeat split; try reflexivity; try (destruct (tty_context d); reflexivity).
  all: try (cbn; destruct (Z.eqb_spec p XBKS_SERIAL_COM1) as [->|Hp]; [destruct (He v eq_refl)|reflexivity]).
  all: apply polite_other; intros w [H|[]]; try discriminate; destruct (He w H).
Qed.

Lemma sends_debugcon v : sends (xbks_debugcon_write_byte v) [v] [] [].
Proof.
  destruct (sends_event (Outb 0xe9 v)) as [H|[l H]]; [discriminate|exact H|discriminate].
Qed.

Lemma sends_debugcon_loop data :
  Forall (fun c => 0 <= c < 256) data -> sends (debugcon_loop data) data [] [].
Proof.
  induction 1 as [|c data Hc _ IH]; cbn [debugcon_loop]; [apply sends_ret|].
  rewrite uwrap_small by lia. apply (sends_bind _ _ [c] [] [] data [] []); [apply sends_debugcon|exact IH].
Qed.

(** ** The serial line *)

Lemma wait_transmit_spec rounds l t c :
  (length l <= rounds)%nat ->
  match wait_transmit rounds XBKS_SERIAL_COM1 (Devices l t c) with
  | inl (_, d') => (1 <= ready_count l)%nat /\ answers d' = after_ready 1 l /\ tty_context d' = c /\
      exists busy v, trace d' = t ++ busy ++ [Inb (u16 (XBKS_SERIAL_COM1 + SERIAL_LINE_STATUS)) v] /\
        ready v = true /\ port_bytes 0xe9 busy = [] /\ port_bytes XBKS_SERIAL_COM1 busy = [] /\
        tty_bytes busy = [] /\ (forall w, ~ In (Outb XBKS_SERIAL_COM1 w) busy)
  | inr (WAITING _) => ready_count l = O
  | inr _ => False
  end.
Proof.
  revert l t. induction rounds as [|n IH]; intros [|v l] t Hl; cbn in Hl; try lia; cbn [wait_transmit]; try reflexivity.
  unfold serial_transmit_empty, xbks_inb, mbind, IO_bind, mret, IO_ret. cbn [answers trace tty_context].
  rewrite ready_count_cons. cbn [after_ready]. fold (ready v).
  destruct (ready v) eqn:Hv; cbn [answers trace tty_context].
  { split; [lia|]. split; [symmetry; apply after_ready_0|]. split; [reflexivity|]. exists [], (u8 v). split; [reflexivity|].
    split; [|repeat split; intros w []]. unfold ready. rewrite (uwrap_small 8 (u8 v)) by (apply uwrap_range; lia). exact Hv. }
  specialize (IH l (t ++ [Inb (u16 (XBKS_SERIAL_COM1 + SERIAL_LINE_STATUS)) (u8 v)]) ltac:(lia)).
  destruct (wait_transmit n _ _) as [[[] d']|[]]; try assumption.
  destruct IH as (Hr & Ha & Hc & busy & w & Ht & Hw & Hg & Hs & Hy & Hn).
  split; [lia|]. split; [exact Ha|]. split; [exact Hc|].
  exists (Inb (u16 (XBKS_SERIAL_COM1 + SERIAL_LINE_STATUS)) (u8 v) :: busy), w.
  rewrite Ht, <- !app_assoc. repeat split; try assumption. intros x [H|H]; [discriminate|apply (Hn x H)].
Qed.

Lemma sends_serial_byte c : sends (xbks_serial_write_byte XBKS_SERIAL_COM1 c) [] [c] [].
Proof.
  intros [l t x]. unfold xbks_serial_write_byte, polling, mbind at 1, IO_bind at 1. cbn [answers].
  pose proof (wait_transmit_spec (length l) l t x (le_n _)) as H.
  destruct (wait_transmit _ _ _) as [[[] d']|[]]; [|cbn; lia|exact H|exact H].
  destruct H as (Hr & Ha & Hc & busy & v & Ht & Hv & Hg & Hs & Hy & Hn).
  cbn. constructor; cbn [answers trace tty_context]; [cbn; lia|exact Ha|exact Hc|].
  eexists. rewrite Ht, <- app_assoc. split; [reflexivity|].
  rewrite !port_bytes_app, !tty_bytes_app, Hg, Hs, Hy.
  repeat split; [destruct x; reflexivity|]. intros a w b H.
  rewrite <- app_assoc in H. cbn [app] in H.
  destruct (app_eq_inv _ _ _ _ H) as [(k & -> & Hk)|(k & -> & Hk)].
  - destruct k; [discriminate|]. injection Hk as <- _. destruct (Hn w). apply in_or_app. right. left. reflexivity.
  - destruct k as [|e k]; [discriminate|]. injection Hk as <- Hk. destruct k as [|e k].
    + exists busy, v. split; [reflexivity|exact Hv].
    + injection Hk as _ Hk. destruct k; discriminate.
Qed.

Lemma sends_serial data :
  Forall (fun c => 0 <= c < 256) data -> sends (xbks_serial_write XBKS_SERIAL_COM1 data) [] (crlf data) [].
Proof.
  induction 1 as [|c data Hc _ IH]; cbn [xbks_serial_write crlf]; [apply sends_ret|].
  rewrite uwrap_small by lia. destruct (Z.eqb_spec c 10) as [->|Hn].
  - apply (sends_bind _ _ [] [13] [] [] (10 :: crlf data) []); [apply sends_serial_byte|].
    apply (sends_bind _ _ [] [10] [] [] (crlf data) []); [apply sends_serial_byte|exact IH].
  - apply (sends_bind _ _ [] [] [] [] (c :: crlf data) []); [apply sends_ret|].
    apply (sends_bind _ _ [] [c] [] [] (crlf data) []); [apply sends_serial_byte|exact IH].
Qed.

(** ** The terminal *)

Lemma tty_write_loop_spec data l t c :
  exists u, tty_write_loop data (Devices l t c) = inl (tt, Devices l (t ++ u) c) /\
    port_bytes 0xe9 u = [] /\ port_bytes XBKS_SERIAL_COM1 u = [] /\ tty_bytes u = crlf data /\
    (forall w, ~ In (Outb XBKS_SERIAL_COM1 w) u).
Proof.
  revert t. induction data as [|x data IH]; intros t; cbn [tty_write_loop crlf].
  { exists []. rewrite app_nil_r. repeat split; intros w []. }
  set (e := if x =? 10 then Flanterm [13; 10] else Flanterm [x]).
  destruct (IH (t ++ [e])) as (u & Hu & Hg & Hs & Hy & Hn). exists (e :: u).
  split. { unfold mbind, IO_bind, event. cbn [answers trace tty_context]. subst e.
    destruct (x =? 10); cbn [answers trace tty_context]; rewrite Hu, <- app_assoc; reflexivity. }
  unfold e. destruct (x =? 10); cbn; rewrite ?Hy; repeat split; try assumption.
  all: intros w [H|H]; [discriminate|apply (Hn w H)].
Qed.

Lemma sends_tty data : sends (xbks_tty_write data) [] [] (crlf data).
Proof.
  intros [l t c]. unfold xbks_tty_write, xbks_tty_is_available, mbind, IO_bind. cbn [tty_context].
  destruct c; cbn [negb].
  2: { constructor; cbn [answers trace tty_context]; [cbn; lia|symmetry; apply after_ready_0|reflexivity|].
       exists []. rewrite app_nil_r. repeat split. apply polite_nil. }
  destruct (tty_write_loop_spec data l t true) as (u & -> & Hg & Hs & Hy & Hn).
  constructor; cbn [answers trace tty_context]; [cbn; lia|symmetry; apply after_ready_0|reflexivity|].
  exists u. repeat split; try assumption. apply polite_other, Hn.
Qed.

(** ** The console and the log *)

Lemma sends_console data :
  Forall (fun c => 0 <= c < 256) data -> sends (xbks_console_write data) data (crlf data) (crlf data).
Proof.
  intros H. unfold xbks_console_write.
  eapply sends_seq; [apply sends_debugcon_loop, H| | | |].
  - eapply sends_seq; [apply sends_serial, H|apply sends_tty|reflexivity..].
  - rewrite app_nil_r. reflexivity.
  - cbn [app]. rewrite app_nil_r. reflexivity.
  - reflexivity.
Qed.

Lemma strlen_app s t : Forall (fun c => c <> 0) s -> strlen (s ++ 0 :: t) = Some (Z.of_nat (length s)).
Proof.
  induction 1 as [|c s Hc _ IH]; [reflexivity|]. cbn [app strlen]. destruct (Z.eqb_spec c 0); [congruence|].
  rewrite IH. cbn [mbind option_bind length]. f_equal. lia.
Qed.

Lemma sends_string s t :
  text s -> sends (xbks_console_write_string (s ++ 0 :: t)) s (crlf s) (crlf s).
Proof.
  intros H d. unfold xbks_console_write_string. rewrite strlen_app by (apply text_nonzero, H).
  unfold mbind, IO_bind, lift, mret, IO_ret. rewrite Nat2Z.id, take_app_length.
  apply sends_console, text_bytes, H.
Qed.

(** A line of the log. *)
Definition level_text (level : xbks_log_level) : list Z := default [] (cstr (level_name level)).

Definition log_line (level : xbks_log_level) (message : list Z) : list Z :=
  str "[" ++ level_text level ++ str "] " ++ message ++ [10].

Lemma sends_log_write level s t :
  text s -> sends (xbks_log_write level (s ++ 0 :: t)) (log_line level s) (crlf (log_line level s)) (crlf (log_line level s)).
Proof.
  intros H. unfold xbks_log_write, log_line.
  assert (Hn : text (level_text level)) by (destruct level; apply text_check; reflexivity).
  assert (En : level_name level = level_text level ++ 0 :: []) by (destruct level; reflexivity).
  rewrite En, !crlf_app.
  eapply sends_bind; [apply (sends_string (str "[") []), text_check; reflexivity|].
  eapply sends_bind; [apply sends_string, Hn|].
  eapply sends_bind; [apply (sends_string (str "] ") []), text_check; reflexivity|].
  eapply sends_bind; [apply sends_string, H|]. apply (sends_string [10] []), text_check. reflexivity.
Qed.

(** ** Computations that only talk to the console

    [says Q io]: the computation stays within its objects and halts or waits only on the
    serial line; with the answer [a] it has sent some text [l] such that [Q a l], to all
    three outputs. *)
Definition says {A} (Q : A -> list Z -> Prop) (io : IO A) : Prop := forall d,
  match io d with
  | inl (a, d') => exists l, Q a l /\ sent d d' l (crlf l) (crlf l)
  | inr (WAITING _) => True
  | inr _ => False
  end.

Lemma says_sends (Q : unit -> list Z -> Prop) io l : sends io l (crlf l) (crlf l) -> Q tt l -> says Q io.
Proof.
  intros H HQ d. specialize (H d). destruct (io d) as [[[] d']|[]]; [|exact I|exact H|exact H].
  exists l. split; assumption.
Qed.

Lemma says_ret {A} (Q : A -> list Z -> Prop) a : Q a [] -> says Q (mret a).
Proof.
  intros H d. exists []. split; [exact H|]. exact (sends_ret d).
Qed.

Lemma sent_trans d d1 d2 l1 l2 :
  sent d d1 l1 (crlf l1) (crlf l1) -> sent d1 d2 l2 (crlf l2) (crlf l2) ->
  sent d d2 (l1 ++ l2) (crlf (l1 ++ l2)) (crlf (l1 ++ l2)).
Proof.
  intros H1 H2.
  destruct H1 as [Hr1 Ha1 Hc1 (u1 & Ht1 & Hg1 & Hs1 & Hy1 & Hp1)].
  destruct H2 as [Hr2 Ha2 Hc2 (u2 & Ht2 & Hg2 & Hs2 & Hy2 & Hp2)].
  pose proof (ready_count_after _ _ Hr1) as Hn. rewrite <- Ha1 in Hn. rewrite crlf_app.
  constructor; rewrite ?length_app; [lia|rewrite Ha2, Ha1, after_ready_add; reflexivity|congruence|].
  exists (u1 ++ u2). rewrite Ht2, Ht1, app_assoc. rewrite Hc1 in Hy2.
  rewrite !port_bytes_app, tty_bytes_app, Hg1, Hs1, Hg2, Hs2, Hy1, Hy2.
  repeat split; [destruct (tty_context d); reflexivity|apply polite_app; assumption].
Qed.

Lemma says_bind {A B} (P : A -> list Z -> Prop) (Q : B -> list Z -> Prop) (io : IO A) (f : A -> IO B) :
  says P io -> (forall a l, P a l -> says (fun b l' => Q b (l ++ l')) (f a)) -> says Q (io ≫= f).
Proof.
  intros H1 H2 d. specialize (H1 d). unfold mbind, IO_bind.
  destruct (io d) as [[a d1]|[]]; [|exact I|exact H1|exact H1]. destruct H1 as (l & Hl & S1).
  specialize (H2 a l Hl d1). destruct (f a d1) as [[b d2]|[]]; [|exact I|exact H2|exact H2].
  destruct H2 as (l' & Hl' & S2). exists (l ++ l'). split; [exact Hl'|]. eapply sent_trans; eassumption.
Qed.

Lemma says_mono {A} (P Q : A -> list Z -> Prop) (io : IO A) :
  says P io -> (forall a l, P a l -> Q a l) -> says Q io.
Proof.
  intros H HPQ d. specialize (H d). destruct (io d) as [[a d']|[]]; try exact H.
  destruct H as (l & Hl & Hs). exists l. auto.
Qed.

(** C23. A write to the console sends exactly its bytes to the debug port, and to the serial
    line and the terminal the bytes with [\r\n] for [\n].  Each serial byte is sent
    right after the line reported an empty transmitter, one report for each byte; the
    write ends if and only if enough such reports come, however many busy ones come
    between them. *)
Theorem console_write_correct data :
  Forall (fun c => 0 <= c < 256) data ->
  sends (xbks_console_write data) data (crlf data) (crlf data).
Proof. apply sends_console. Qed.

Lemma console_write_correct_witness :
  sends (xbks_console_write [104; 105; 10]) [104; 105; 10] [104; 105; 13; 10] [104; 105; 13; 10].
Proof. apply (console_write_correct [104; 105; 10]). repeat (constructor; [lia|]). constructor. Defined.

(** Rendering plain characters and a string argument. *)
Lemma render_chars s ps args : render (map PChar s ++ ps) args = o ← render ps args; Some (s ++ o).
Proof.
  induction s as [|c s IH]; cbn [map app render]; [destruct (render ps args); reflexivity|].
  rewrite IH. destruct (render ps args); reflexivity.
Qed.

Lemma render_string w s t ps args :
  text s -> render (PConv w (chr "s") :: ps) (VaStr (Some (s ++ 0 :: t)) :: args) = o ← render ps args; Some (s ++ o).
Proof.
  intros Hs. transitivity ('(o, rest) ← (r ← cstr (s ++ 0 :: t); Some (r, args)); o' ← render ps rest; Some (o ++ o'));
    [reflexivity|]. rewrite cstr_app by exact Hs. reflexivity.
Qed.

Lemma sends_log_printf level fmt t args ps out :
  Forall (fun c => c <> 0) fmt -> pieces fmt = Some ps -> render ps args = Some out -> text out ->
  Z.of_nat (length out) < 2 ^ 64 ->
  let line := log_line level (take 511 out) in
  sends (xbks_log_printf level (fmt ++ 0 :: t) args) line (crlf line) (crlf line).
Proof.
  intros Hf Hp Hr Ht Ho line d. unfold xbks_log_printf, mbind, IO_bind, lift.
  pose proof (vsnprintf_formatted (uninit 512) fmt t args ps out Hf Hp Hr ltac:(cbn; lia) Ho) as E.
  change (Z.of_nat (length (uninit 512))) with 512 in E. rewrite E. cbn [mret IO_ret].
  unfold formatted, kept. change (length (uninit 512) - 1)%nat with 511%nat.
  apply sends_log_write, Forall_take, Ht.
Qed.

(** [xbks_log_printf] sends one line: the level in brackets, the longest prefix of the
    rendered message that fits the 511 bytes of its buffer, and a newline, for every
    format and arguments that match it. *)
Theorem log_printf_correct level fmt t args ps out :
  Forall (fun c => c <> 0) fmt -> pieces fmt = Some ps -> render ps args = Some out -> text out ->
  Z.of_nat (length out) < 2 ^ 64 ->
  let line := log_line level (take 511 out) in
  sends (xbks_log_printf level (fmt ++ 0 :: t) args) line (crlf line) (crlf line).
Proof. apply sends_log_printf. Qed.

Lemma log_printf_correct_witness :
  sends (xbks_log_printf XBKS_LOG_INFO (lit "cmdline: %s") [VaStr (Some (lit "quiet"))])
    (str "[info] cmdline: quiet" ++ [10]) (str "[info] cmdline: quiet" ++ [13; 10])
    (str "[info] cmdline: quiet" ++ [13; 10]).
Proof.
  apply (log_printf_correct XBKS_LOG_INFO (str "cmdline: %s") [] [VaStr (Some (lit "quiet"))]
    (map PChar (str "cmdline: ") ++ [PConv W32 (chr "s")]) (str "cmdline: quiet"));
    [repeat constructor; discriminate|reflexivity|reflexivity|apply text_check; reflexivity|cbn; lia].
Defined.
