(* ===== verification/Font.v ===== *)
(** * The TrueType reader of src/drivers/font_ttf.c

    The font file is the list [file] of its bytes.  A pointer into it is its offset, so
    [font->data] is 0 and [font->size] is the length of the list; reading outside the
    file is [Undefined].  Offsets are sums of a 64-bit offset below the file's size and
    products of 16- and 32-bit counts with small constants, so that the [size_t]
    arithmetic does not wrap and is written without reduction. *)

From Stdlib Require Import Ascii String.
From S2P Require Import Prelude CStr Ramdisk Outcome.

(** ** Constants *)

Definition TAG_CMAP : Z := 0x636d6170.
Definition TAG_GLYF : Z := 0x676c7966.
Definition TAG_HEAD : Z := 0x68656164.
Definition TAG_HHEA : Z := 0x68686561.
Definition TAG_HMTX : Z := 0x686d7478.
Definition TAG_LOCA : Z := 0x6c6f6361.
Definition TAG_MAXP : Z := 0x6d617870.
Definition TAG_OS_2 : Z := 0x4f532f32.

Definition ARG_1_AND_2_ARE_WORDS : Z := 1.
Definition ARGS_ARE_XY_VALUES : Z := 2.
Definition WE_HAVE_A_SCALE : Z := 8.
Definition MORE_COMPONENTS : Z := 32.
Definition WE_HAVE_AN_X_AND_Y_SCALE : Z := 64.
Definition WE_HAVE_A_TWO_BY_TWO : Z := 128.
Definition WE_HAVE_INSTRUCTIONS : Z := 256.

Definition GLYPH_ON_CURVE : Z := 1.
Definition GLYPH_X_SHORT_VECTOR : Z := 2.
Definition GLYPH_Y_SHORT_VECTOR : Z := 4.
Definition GLYPH_REPEAT_FLAG : Z := 8.
Definition GLYPH_X_IS_SAME_OR_POSITIVE : Z := 16.
Definition GLYPH_Y_IS_SAME_OR_POSITIVE : Z := 32.

Definition MAX_GLYPH_POINTS : Z := 384.
Definition MAX_GLYPH_CONTOURS : Z := 64.
Definition MAX_RASTER_EDGES : Z := 768.
Definition MAX_COMPONENT_DEPTH : Z := 8.

(** [(flags & bit) != 0] *)
Definition has (flags bit : Z) : bool := negb ((flags & bit) =? 0).

(** ** Data *)

Record ttf_table := TtfTable { t_data : Z; t_size : Z }.

(** The null [cmap_subtable] is [None]. *)
Record ttf_font := TtfFont {
  font_cmap : ttf_table;
  font_glyf : ttf_table;
  font_head : ttf_table;
  font_hhea : ttf_table;
  font_hmtx : ttf_table;
  font_loca : ttf_table;
  font_maxp : ttf_table;
  font_os_2 : ttf_table;
  cmap_subtable : option Z;
  cmap_subtable_size : Z;
  num_glyphs : Z;
  number_of_hmetrics : Z;
  units_per_em : Z;
  ascent : Z;
  descent : Z;
  line_gap : Z;
  typo_ascent : Z;
  typo_descent : Z;
  typo_line_gap : Z;
  index_to_loc_format : Z;
}.

Record glyph_point := Point { px : Z; py : Z; on_curve : bool }.

(** The arrays [points] and [contours] are their parts in use, so that [point_count] and
    [contour_count] are the lengths. *)
Record glyph_outline := Outline {
  points : list glyph_point;
  contours : list Z;
  x_min : Z;
  y_min : Z;
  x_max : Z;
  y_max : Z;
  advance_width : Z;
  has_bounds : bool;
}.

Definition point_count (o : glyph_outline) : Z := Z.of_nat (length (points o)).
Definition contour_count (o : glyph_outline) : Z := Z.of_nat (length (contours o)).

(** [memset(outline, 0, sizeof *outline)] *)
Definition empty_outline : glyph_outline := Outline [] [] 0 0 0 0 0 false.

(** ** Choosing the module *)

Definition module_is_font (m : limine_file) : option bool :=
  let module_string := default (lit "") (m_string m) in
  let module_path := default (lit "") (m_path m) in
  d ← strcmp module_string (lit "system-font");
  if d =? 0 then Some true
  else
    e ← string_ends_with module_path (lit "/system.ttf");
    if (e : bool) then Some true else string_ends_with module_path (lit "system.ttf").

Fixpoint find_font_module_loop (modules : list (option limine_file)) : option (option limine_file) :=
  match modules with
  | [] => Some None
  | m :: rest =>
      match module_loaded m with
      | None => find_font_module_loop rest
      | Some f => b ← module_is_font f; if (b : bool) then Some (Some f) else find_font_module_loop rest
      end
  end.

(** [modules] is [None] when the response or its array is null; the outer [None] is an
    access outside a string. *)
Definition find_font_module (modules : option (list (option limine_file))) : option (option limine_file) :=
  match modules with
  | None => Some None
  | Some modules => find_font_module_loop modules
  end.

Definition range_is_valid (size offset length : Z) : bool :=
  (offset <=? size) && (length <=? size -u offset).

Section File.
Context (file : list Z).

Definition file_size : Z := Z.of_nat (length file).

Definition byte_at (p : Z) : outcome Z :=
  if 0 <=? p then match file !! Z.to_nat p with Some b => Ok (u8 b) | None => Undefined end
  else Undefined.

Definition read_u16 (p : Z) : outcome Z :=
  b0 ← byte_at p; b1 ← byte_at (p + 1);
  Ok (u16 (Z.lor (Z.shiftl b0 8) b1)).

Definition read_s16 (p : Z) : outcome Z := v ← read_u16 p; Ok (s16 v).

Definition read_u32 (p : Z) : outcome Z :=
  b0 ← byte_at p; b1 ← byte_at (p + 1); b2 ← byte_at (p + 2); b3 ← byte_at (p + 3);
  Ok (Z.lor (Z.lor (Z.lor (Z.shiftl b0 24) (Z.shiftl b1 16)) (Z.shiftl b2 8)) b3).

Definition tag_from_string (tag : Z) : outcome Z :=
  b0 ← byte_at tag; b1 ← byte_at (tag + 1); b2 ← byte_at (tag + 2); b3 ← byte_at (tag + 3);
  Ok (Z.lor (Z.lor (Z.lor (Z.shiftl b0 24) (Z.shiftl b1 16)) (Z.shiftl b2 8)) b3).

(** ** The table directory *)

Definition get_table_step (tag i : Z) (_ : unit) : outcome (ctl unit ttf_table) :=
  let record := 12 + i * 16 in
  record_tag ← tag_from_string record;
  offset ← read_u32 (record + 8);
  length ← read_u32 (record + 12);
  if record_tag =? tag then
    require (range_is_valid file_size offset length);;
    Ok (Exit (TtfTable offset length))
  else Ok (Next tt).

Definition get_table (tag : Z) : outcome ttf_table :=
  require (range_is_valid file_size 0 12);;
  table_count ← read_u16 4;
  require (range_is_valid file_size 12 (table_count * 16));;
  r ← scan_out (Z.to_nat table_count) 0 (get_table_step tag) tt;
  match r with Exit out => Ok out | Next _ => Refused end.

(** ** The character map *)

(** The length field of a subtable in a known format, [None] for [continue]. *)
Definition subtable_length (cmap : ttf_table) (offset : Z) : outcome (option Z) :=
  let subtable := t_data cmap + offset in
  format ← read_u16 subtable;
  if format =? 4 then
    if range_is_valid (t_size cmap) offset 4 then l ← read_u16 (subtable + 2); Ok (Some l) else Ok None
  else if format =? 12 then
    if range_is_valid (t_size cmap) offset 16 then l ← read_u32 (subtable + 4); Ok (Some l) else Ok None
  else Ok None.

(** The state of the loop is [fallback] with its size, once set. *)
Definition select_cmap_step (cmap : ttf_table) (i : Z) (fallback : option (Z * Z))
  : outcome (ctl (option (Z * Z)) (Z * Z)) :=
  let record := t_data cmap + 4 + i * 8 in
  platform ← read_u16 record;
  encoding ← read_u16 (record + 2);
  offset ← read_u32 (record + 4);
  if negb (range_is_valid (t_size cmap) offset 2) then Ok (Next fallback)
  else
    l ← subtable_length cmap offset;
    match l with
    | None => Ok (Next fallback)
    | Some length =>
        if negb (range_is_valid (t_size cmap) offset length) then Ok (Next fallback)
        else
          let subtable := t_data cmap + offset in
          if ((platform =? 3) && ((encoding =? 1) || (encoding =? 10))) || (platform =? 0)
          then Ok (Exit (subtable, length))
          else Ok (Next (match fallback with None => Some (subtable, length) | Some _ => fallback end))
    end.

Definition select_cmap_subtable (cmap : ttf_table) : outcome (Z * Z) :=
  require (range_is_valid (t_size cmap) 0 4);;
  subtable_count ← read_u16 (t_data cmap + 2);
  require (range_is_valid (t_size cmap) 4 (subtable_count * 8));;
  r ← scan_out (Z.to_nat subtable_count) 0 (select_cmap_step cmap) None;
  match r with
  | Exit chosen => Ok chosen
  | Next (Some fallback) => Ok fallback
  | Next None => Refused
  end.

(** ** Opening a font *)

Definition parse_ttf : outcome ttf_font :=
  require (range_is_valid file_size 0 12);;
  scaler_type ← read_u32 0;
  require ((scaler_type =? 0x00010000) || (scaler_type =? 0x74727565));;
  cmap ← get_table TAG_CMAP;
  glyf ← get_table TAG_GLYF;
  head ← get_table TAG_HEAD;
  hhea ← get_table TAG_HHEA;
  hmtx ← get_table TAG_HMTX;
  loca ← get_table TAG_LOCA;
  maxp ← get_table TAG_MAXP;
  o ← attempt (get_table TAG_OS_2);
  let os_2 := default (TtfTable 0 0) o in
  require (negb ((t_size head <? 54) || (t_size hhea <? 36) || (t_size maxp <? 6)));;
  units_per_em ← read_u16 (t_data head + 18);
  index_to_loc_format ← read_s16 (t_data head + 50);
  ascent ← read_s16 (t_data hhea + 4);
  descent ← read_s16 (t_data hhea + 6);
  line_gap ← read_s16 (t_data hhea + 8);
  number_of_hmetrics ← read_u16 (t_data hhea + 34);
  num_glyphs ← read_u16 (t_data maxp + 4);
  '(typo_ascent, typo_descent, typo_line_gap) ←
    (if 74 <=? t_size os_2 then
       a ← read_s16 (t_data os_2 + 68);
       d ← read_s16 (t_data os_2 + 70);
       g ← read_s16 (t_data os_2 + 72);
       Ok (a, d, g)
     else Ok (0, 0, 0));
  require (negb ((units_per_em =? 0) || (num_glyphs =? 0) || (number_of_hmetrics =? 0) ||
                 (num_glyphs <? number_of_hmetrics) ||
                 (negb (index_to_loc_format =? 0) && negb (index_to_loc_format =? 1))));;
  let loca_entry_size := if index_to_loc_format =? 0 then 2 else 4 in
  require (negb ((t_size loca <? (num_glyphs + 1) * loca_entry_size) ||
                 (t_size hmtx <? number_of_hmetrics * 4)));;
  '(subtable, subtable_size) ← select_cmap_subtable cmap;
  Ok (TtfFont cmap glyf head hhea hmtx loca maxp os_2 (Some subtable) subtable_size
        num_glyphs number_of_hmetrics units_per_em ascent descent line_gap
        typo_ascent typo_descent typo_line_gap index_to_loc_format).

(** ** From characters to glyphs *)

Definition cmap_format4_step (subtable size seg_count codepoint i : Z) (_ : unit) : outcome (ctl unit Z) :=
  let end_codes := 14 in
  let start_codes := end_codes + seg_count * 2 + 2 in
  let id_deltas := start_codes + seg_count * 2 in
  let id_range_offsets := id_deltas + seg_count * 2 in
  end_code ← read_u16 (subtable + end_codes + i * 2);
  start_code ← read_u16 (subtable + start_codes + i * 2);
  if codepoint <? start_code then Ok (Exit 0)
  else if end_code <? codepoint then Ok (Next tt)
  else
    delta ← read_s16 (subtable + id_deltas + i * 2);
    range_offset ← read_u16 (subtable + id_range_offsets + i * 2);
    if range_offset =? 0 then Ok (Exit (u16 (Z.land (u32 (codepoint + u32 delta)) 0xffff)))
    else
      let glyph_offset := id_range_offsets + i * 2 + range_offset + (codepoint - start_code) * 2 in
      if negb (range_is_valid size glyph_offset 2) then Ok (Exit 0)
      else
        glyph ← read_u16 (subtable + glyph_offset);
        if glyph =? 0 then Ok (Exit 0)
        else Ok (Exit (u16 (Z.land (glyph + u16 delta) 0xffff))).

Definition cmap_format4_glyph (subtable size codepoint : Z) : outcome Z :=
  if (0xffff <? codepoint) || (size <? 16) then Ok 0
  else
    n ← read_u16 (subtable + 6);
    let seg_count := n / 2 in
    let end_codes := 14 in
    let start_codes := end_codes + seg_count * 2 + 2 in
    let id_deltas := start_codes + seg_count * 2 in
    let id_range_offsets := id_deltas + seg_count * 2 in
    if negb (range_is_valid size id_range_offsets (seg_count * 2)) then Ok 0
    else
      r ← scan_out (Z.to_nat seg_count) 0 (cmap_format4_step subtable size seg_count codepoint) tt;
      match r with Exit glyph => Ok glyph | Next _ => Ok 0 end.

Definition cmap_format12_step (subtable codepoint i : Z) (_ : unit) : outcome (ctl unit Z) :=
  let group := subtable + 16 + i * 12 in
  start_char ← read_u32 group;
  end_char ← read_u32 (group + 4);
  if codepoint <? start_char then Ok (Exit 0)
  else if codepoint <=? end_char then
    start_glyph ← read_u32 (group + 8);
    let glyph := u32 (u32 (start_glyph + codepoint) - start_char) in
    Ok (Exit (if glyph <=? 0xffff then u16 glyph else 0))
  else Ok (Next tt).

Definition cmap_format12_glyph (subtable size codepoint : Z) : outcome Z :=
  if size <? 16 then Ok 0
  else
    group_count ← read_u32 (subtable + 12);
    if negb (range_is_valid size 16 (group_count * 12)) then Ok 0
    else
      r ← scan_out (Z.to_nat group_count) 0 (cmap_format12_step subtable codepoint) tt;
      match r with Exit glyph => Ok glyph | Next _ => Ok 0 end.

Definition glyph_for_codepoint (font : ttf_font) (codepoint : Z) : outcome Z :=
  match cmap_subtable font with
  | None => Ok 0
  | Some subtable =>
      if cmap_subtable_size font <? 2 then Ok 0
      else
        format ← read_u16 subtable;
        if format =? 4 then cmap_format4_glyph subtable (cmap_subtable_size font) codepoint
        else if format =? 12 then cmap_format12_glyph subtable (cmap_subtable_size font) codepoint
        else Ok 0
  end.

(** ** Where a glyph's data is *)

Definition glyph_bounds (font : ttf_font) (glyph : Z) : outcome (Z * Z) :=
  require (negb (num_glyphs font <=? glyph));;
  '(start, fin) ←
    (if index_to_loc_format font =? 0 then
       let loca_offset := glyph * 2 in
       a ← read_u16 (t_data (font_loca font) + loca_offset);
       b ← read_u16 (t_data (font_loca font) + loca_offset + 2);
       Ok (a * 2, b * 2)
     else
       let loca_offset := glyph * 4 in
       a ← read_u32 (t_data (font_loca font) + loca_offset);
       b ← read_u32 (t_data (font_loca font) + loca_offset + 4);
       Ok (a, b));
  require (negb ((fin <? start) || negb (range_is_valid (t_size (font_glyf font)) start (fin - start))));;
  Ok (start, fin - start).

Definition glyph_advance (font : ttf_font) (glyph : Z) : outcome Z :=
  if glyph <? number_of_hmetrics font then read_s16 (t_data (font_hmtx font) + glyph * 4)
  else read_s16 (t_data (font_hmtx font) + (number_of_hmetrics font - 1) * 4).

(** ** Outlines *)

Definition append_point (outline : glyph_outline) (x y : Z) (on : bool) : outcome glyph_outline :=
  require (negb (MAX_GLYPH_POINTS <=? point_count outline));;
  Ok (Outline (points outline ++ [Point x y on]) (contours outline) (x_min outline) (y_min outline)
        (x_max outline) (y_max outline) (advance_width outline) (has_bounds outline)).

(** The first loop of [append_outline], over the points of [src]. *)
Fixpoint append_points (dest : glyph_outline) (src : list glyph_point) (dx dy : Z) : outcome glyph_outline :=
  match src with
  | [] => Ok dest
  | p :: rest =>
      x ← i32 (px p + dx);
      y ← i32 (py p + dy);
      dest ← append_point dest x y (on_curve p);
      append_points dest rest dx dy
  end.

(** The bounds at its end. *)
Definition append_bounds (dest src : glyph_outline) (dx dy : Z) : glyph_outline :=
  if has_bounds src then
    if negb (has_bounds dest) then
      Outline (points dest) (contours dest) (s16 (x_min src + dx)) (s16 (y_min src + dy))
        (s16 (x_max src + dx)) (s16 (y_max src + dy)) (advance_width dest) true
    else
      let xmin := x_min src + dx in
      let xmax := x_max src + dx in
      let ymin := y_min src + dy in
      let ymax := y_max src + dy in
      Outline (points dest) (contours dest)
        (if xmin <? x_min dest then s16 xmin else x_min dest)
        (if ymin <? y_min dest then s16 ymin else y_min dest)
        (if x_max dest <? xmax then s16 xmax else x_max dest)
        (if y_max dest <? ymax then s16 ymax else y_max dest)
        (advance_width dest) true
  else dest.

Definition append_outline (dest src : glyph_outline) (dx dy : Z) : outcome glyph_outline :=
  let point_base := point_count dest in
  require (negb ((MAX_GLYPH_POINTS <? point_count dest + point_count src) ||
                 (MAX_GLYPH_CONTOURS <? contour_count dest + contour_count src)));;
  dest ← append_points dest (points src) dx dy;
  let dest := Outline (points dest) (contours dest ++ map (fun c => u16 (point_base + c)) (contours src))
                (x_min dest) (y_min dest) (x_max dest) (y_max dest) (advance_width dest) (has_bounds dest) in
  Ok (append_bounds dest src dx dy).

(** ** Simple glyphs *)

(** The loop over [end_points]: the array so far. *)
Definition end_points_step (p i : Z) (end_points : list Z) : outcome (ctl (list Z) unit) :=
  e ← read_u16 (p + i * 2);
  require (negb (negb (i =? 0) && (e <=? default 0 (list.last end_points))));;
  Ok (Next (end_points ++ [e])).

(** [while (repeat != 0 && flag_index < point_count)] *)
Fixpoint repeat_flag (repeat : nat) (count flag : Z) (flags : list Z) : nat * list Z :=
  match repeat with
  | O => (O, flags)
  | S repeat' =>
      if Z.of_nat (length flags) <? count then repeat_flag repeat' count flag (flags ++ [flag])
      else (repeat, flags)
  end.

(** [while (flag_index < point_count)] *)
Fixpoint flags_loop (fuel : nat) (glyph_data glyph_size count cursor : Z) (flags : list Z)
  : outcome (list Z * Z) :=
  if Z.of_nat (length flags) <? count then
    match fuel with
    | O => Undefined
    | S fuel' =>
        require (range_is_valid glyph_size cursor 1);;
        flag ← byte_at (glyph_data + cursor);
        let cursor := cursor + 1 in
        let flags := flags ++ [flag] in
        if has flag GLYPH_REPEAT_FLAG then
          require (range_is_valid glyph_size cursor 1);;
          repeat ← byte_at (glyph_data + cursor);
          let cursor := cursor + 1 in
          let '(repeat_left, flags) := repeat_flag (Z.to_nat repeat) count flag flags in
          require (repeat_left =? 0)%nat;;
          flags_loop fuel' glyph_data glyph_size count cursor flags
        else flags_loop fuel' glyph_data glyph_size count cursor flags
    end
  else Ok (flags, cursor).

(** The coordinate loops: one for x with the x bits, one for y with the y bits.  [v] is
    the running coordinate. *)
Fixpoint coordinates_loop (short same glyph_data glyph_size : Z) (flags : list Z) (cursor v : Z)
  : outcome (list Z * Z) :=
  match flags with
  | [] => Ok ([], cursor)
  | flag :: rest =>
      '(v, cursor) ←
        (if has flag short then
           require (range_is_valid glyph_size cursor 1);;
           delta ← byte_at (glyph_data + cursor);
           v ← i32 (v + (if has flag same then delta else - delta));
           Ok (v, cursor + 1)
         else if negb (has flag same) then
           require (range_is_valid glyph_size cursor 2);;
           delta ← read_s16 (glyph_data + cursor);
           v ← i32 (v + delta);
           Ok (v, cursor + 2)
         else Ok (v, cursor));
      '(vs, cursor) ← coordinates_loop short same glyph_data glyph_size rest cursor v;
      Ok (v :: vs, cursor)
  end.

Fixpoint make_points (xs ys flags : list Z) : list glyph_point :=
  match xs, ys, flags with
  | x :: xs, y :: ys, flag :: flags => Point x y (has flag GLYPH_ON_CURVE) :: make_points xs ys flags
  | _, _, _ => []
  end.

(** [outline] comes in cleared, as [load_glyph_outline] hands it over. *)
Definition load_simple_outline (font : ttf_font) (glyph glyph_data glyph_size : Z) : outcome glyph_outline :=
  require (negb (glyph_size <? 10));;
  contour_count ← read_s16 glyph_data;
  require (negb ((contour_count <? 0) || (MAX_GLYPH_CONTOURS <? contour_count)));;
  xmin ← read_s16 (glyph_data + 2);
  ymin ← read_s16 (glyph_data + 4);
  xmax ← read_s16 (glyph_data + 6);
  ymax ← read_s16 (glyph_data + 8);
  advance ← glyph_advance font glyph;
  if contour_count =? 0 then Ok (Outline [] [] xmin ymin xmax ymax advance true)
  else
    let cursor := 10 in
    require (range_is_valid glyph_size cursor (contour_count * 2));;
    r ← scan_out (Z.to_nat contour_count) 0 (end_points_step (glyph_data + cursor)) [];
    match r with
    | Exit _ => Refused
    | Next end_points =>
        let last_point := default 0 (list.last end_points) in
        let cursor := cursor + contour_count * 2 in
        let count := last_point + 1 in
        require (negb (MAX_GLYPH_POINTS <? count));;
        require (range_is_valid glyph_size cursor 2);;
        instruction_length ← read_u16 (glyph_data + cursor);
        let cursor := cursor + 2 in
        require (range_is_valid glyph_size cursor instruction_length);;
        let cursor := cursor + instruction_length in
        '(flags, cursor) ← flags_loop (Z.to_nat count) glyph_data glyph_size count cursor [];
        '(xs, cursor) ← coordinates_loop GLYPH_X_SHORT_VECTOR GLYPH_X_IS_SAME_OR_POSITIVE
                          glyph_data glyph_size flags cursor 0;
        '(ys, _) ← coordinates_loop GLYPH_Y_SHORT_VECTOR GLYPH_Y_IS_SAME_OR_POSITIVE
                     glyph_data glyph_size flags cursor 0;
        Ok (Outline (make_points xs ys flags) end_points xmin ymin xmax ymax advance true)
    end.

(** ** Composite glyphs *)

(** The two offsets of a component and the cursor after them. *)
Definition component_args (glyph_data glyph_size cursor flags : Z) : outcome (Z * Z * Z) :=
  if has flags ARG_1_AND_2_ARE_WORDS then
    require (range_is_valid glyph_size cursor 4);;
    arg1 ← read_s16 (glyph_data + cursor);
    arg2 ← read_s16 (glyph_data + cursor + 2);
    Ok (arg1, arg2, cursor + 4)
  else
    require (range_is_valid glyph_size cursor 2);;
    arg1 ← byte_at (glyph_data + cursor);
    arg2 ← byte_at (glyph_data + cursor + 1);
    Ok (s8 arg1, s8 arg2, cursor + 2).

(** Skipping a component's transformation, which is not applied. *)
Definition skip_transform (glyph_size cursor flags : Z) : outcome Z :=
  if has flags WE_HAVE_A_SCALE then
    require (range_is_valid glyph_size cursor 2);; Ok (cursor + 2)
  else if has flags WE_HAVE_AN_X_AND_Y_SCALE then
    require (range_is_valid glyph_size cursor 4);; Ok (cursor + 4)
  else if has flags WE_HAVE_A_TWO_BY_TWO then
    require (range_is_valid glyph_size cursor 8);; Ok (cursor + 8)
  else Ok cursor.

(** One round of the loop, [load] loading the component: [flags], the cursor and the
    outline. *)
Definition component_step (load : Z -> outcome glyph_outline) (glyph_data glyph_size cursor : Z)
    (outline : glyph_outline) : outcome (Z * Z * glyph_outline) :=
  require (range_is_valid glyph_size cursor 4);;
  flags ← read_u16 (glyph_data + cursor);
  component_glyph ← read_u16 (glyph_data + cursor + 2);
  '(arg1, arg2, cursor) ← component_args glyph_data glyph_size (cursor + 4) flags;
  let dx := if has flags ARGS_ARE_XY_VALUES then arg1 else 0 in
  let dy := if has flags ARGS_ARE_XY_VALUES then arg2 else 0 in
  cursor ← skip_transform glyph_size cursor flags;
  component ← load component_glyph;
  outline ← append_outline outline component dx dy;
  Ok (flags, cursor, outline).

Fixpoint components_loop (fuel : nat) (load : Z -> outcome glyph_outline) (glyph_data glyph_size cursor : Z)
    (outline : glyph_outline) : outcome (Z * Z * glyph_outline) :=
  match fuel with
  | O => Undefined
  | S fuel' =>
      '(flags, cursor, outline) ← component_step load glyph_data glyph_size cursor outline;
      if has flags MORE_COMPONENTS then components_loop fuel' load glyph_data glyph_size cursor outline
      else Ok (flags, cursor, outline)
  end.

Definition load_composite_outline (load : Z -> outcome glyph_outline) (font : ttf_font)
    (glyph glyph_data glyph_size : Z) : outcome glyph_outline :=
  require (negb (glyph_size <? 10));;
  xmin ← read_s16 (glyph_data + 2);
  ymin ← read_s16 (glyph_data + 4);
  xmax ← read_s16 (glyph_data + 6);
  ymax ← read_s16 (glyph_data + 8);
  advance ← glyph_advance font glyph;
  '(flags, cursor, outline) ←
    components_loop (Z.to_nat glyph_size) load glyph_data glyph_size 10
      (Outline [] [] xmin ymin xmax ymax advance true);
  if has flags WE_HAVE_INSTRUCTIONS then
    require (range_is_valid glyph_size cursor 2);;
    instruction_length ← read_u16 (glyph_data + cursor);
    require (range_is_valid glyph_size (cursor + 2) instruction_length);;
    Ok outline
  else Ok outline.

Fixpoint load_glyph_outline (fuel : nat) (font : ttf_font) (glyph depth : Z) : outcome glyph_outline :=
  match fuel with
  | O => Undefined
  | S fuel' =>
      require (negb (MAX_COMPONENT_DEPTH <? depth));;
      advance ← glyph_advance font glyph;
      '(offset, size) ← glyph_bounds font glyph;
      if size =? 0 then Ok (Outline [] [] 0 0 0 0 advance false)
      else
        let glyph_data := t_data (font_glyf font) + offset in
        require (negb (size <? 10));;
        contour_count ← read_s16 glyph_data;
        if 0 <=? contour_count then load_simple_outline font glyph glyph_data size
        else load_composite_outline (fun component => load_glyph_outline fuel' font component (depth + 1))
               font glyph glyph_data size
  end.

(** Ten levels, one for each depth up to the refused one, are enough. *)
Definition outline_fuel : nat := 10.
End File.
