(* ===== verification/FontRaster.v ===== *)
(** * Rasterising glyphs (src/drivers/font_ttf.c, metrics to [xbks_font_load_system_tty])

    Outlines in font units are scaled to a cell of 13 by 28 pixels, sixteen units to the
    pixel, cut into edges and sampled on a 4 by 4 grid per pixel.  All arithmetic is
    [int32_t]; an overflow is [Undefined]. *)

From Stdlib Require Import Ascii String.
From S2P Require Import Prelude CMem CStr Format Ramdisk Console Outcome Font.

Definition XBKS_TTY_FONT_GLYPHS : Z := 256.
Definition XBKS_TTY_FONT_WIDTH : Z := 13.
Definition XBKS_TTY_FONT_HEIGHT : Z := 28.

Record font_metrics := Metrics {
  scale : Z;
  design_top : Z;
  design_span : Z;
  origin_y : Z;
}.

Record raster_edge := Edge { x0 : Z; y0 : Z; x1 : Z; y1 : Z }.

(** ** Metrics *)

(** [a / b] in [int32_t]. *)
Definition div32 (a b : Z) : outcome Z := if b =? 0 then Undefined else i32 (Z.quot a b).

Definition scale_design (value scale units_per_em : Z) : outcome Z :=
  half ← div32 units_per_em 2;
  if 0 <=? value then
    p ← i32 (value * scale); s ← i32 (p + half); div32 s units_per_em
  else
    n ← i32 (- value); p ← i32 (n * scale); s ← i32 (p + half); q ← div32 s units_per_em; i32 (- q).

Definition positive_or_default (value fallback : Z) : Z := if 0 <? value then value else fallback.

(** [min_y] and [max_y]. *)
Definition include_outline_bounds (outline : glyph_outline) (bounds : Z * Z) : Z * Z :=
  if negb (has_bounds outline) || (point_count outline =? 0) then bounds
  else
    let '(min_y, max_y) := bounds in
    (if y_min outline <? min_y then y_min outline else min_y,
     if max_y <? y_max outline then y_max outline else max_y).

Section File.
Context (file : list Z).

(** The loop over the printable characters. *)
Definition metrics_step (font : ttf_font) (codepoint : Z) (bounds : Z * Z) : outcome (ctl (Z * Z) unit) :=
  glyph ← glyph_for_codepoint file font codepoint;
  if glyph =? 0 then Ok (Next bounds)
  else
    r ← attempt (load_glyph_outline file outline_fuel font glyph 0);
    Ok (Next (match r with Some outline => include_outline_bounds outline bounds | None => bounds end)).

(** [design_top], [design_bottom] and [design_gap] before the loop. *)
Definition design_box (font : ttf_font) : Z * Z * Z :=
  let top := if negb (typo_ascent font =? 0) then typo_ascent font else ascent font in
  let bottom := if negb (typo_descent font =? 0) then typo_descent font else descent font in
  let gap := if negb (typo_line_gap font =? 0) then typo_line_gap font else line_gap font in
  let '(top, bottom, gap) := if top <=? bottom then (ascent font, descent font, line_gap font) else (top, bottom, gap) in
  if top <=? bottom then (units_per_em font, 0, 0) else (top, bottom, gap).

Definition build_font_metrics (font : ttf_font) : outcome font_metrics :=
  let '(design_top, design_bottom, design_gap) := design_box font in
  r ← scan_out 95 0x20 (metrics_step font) (design_bottom, design_top);
  match r with
  | Exit _ => Refused
  | Next (min_y, max_y) =>
      require (negb (max_y <=? min_y));;
      let target_height := XBKS_TTY_FONT_HEIGHT - 4 in
      d ← i32 (max_y - min_y);
      span ← i32 (d + positive_or_default design_gap 0);
      let design_span := if span <=? 0 then d else span in
      require (negb ((target_height <=? 0) || (design_span <=? 0)));;
      g ← div32 (positive_or_default design_gap 0) 2;
      top ← i32 (max_y + g);
      o ← div32 (XBKS_TTY_FONT_HEIGHT - target_height) 2;
      Ok (Metrics target_height top design_span o)
  end.
End File.

(** ** From contours to edges *)

Definition point_midpoint (lhs rhs : glyph_point) : outcome glyph_point :=
  sx ← i32 (px lhs + px rhs); x ← div32 sx 2;
  sy ← i32 (py lhs + py rhs); y ← div32 sy 2;
  Ok (Point x y true).

(** The array [edges] is its part in use, so that [*edge_count] is its length. *)
Definition add_edge (edges : list raster_edge) (x0 y0 x1 y1 : Z) : outcome (list raster_edge) :=
  if y0 =? y1 then Ok edges
  else
    require (negb (MAX_RASTER_EDGES <=? Z.of_nat (length edges)));;
    Ok (edges ++ [Edge x0 y0 x1 y1]).

Definition STEPS : Z := 8.

(** One coordinate of the curve at step [i]. *)
Definition quadratic_at (i c0 c1 c2 : Z) : outcome Z :=
  let t := i in
  let mt := STEPS - i in
  a ← i32 (mt * mt * c0);
  b ← i32 (2 * mt * t * c1);
  ab ← i32 (a + b);
  c ← i32 (t * t * c2);
  s ← i32 (ab + c);
  div32 s (STEPS * STEPS).

Definition quadratic_step (p0 p1 p2 : glyph_point) (i : Z) (st : Z * Z * list raster_edge)
  : outcome (ctl (Z * Z * list raster_edge) unit) :=
  let '(previous_x, previous_y, edges) := st in
  x ← quadratic_at i (px p0) (px p1) (px p2);
  y ← quadratic_at i (py p0) (py p1) (py p2);
  edges ← add_edge edges previous_x previous_y x y;
  Ok (Next (x, y, edges)).

Definition add_quadratic (edges : list raster_edge) (p0 p1 p2 : glyph_point) : outcome (list raster_edge) :=
  r ← scan_out 8 1 (quadratic_step p0 p1 p2) (px p0, py p0, edges);
  match r with Next (_, _, edges) => Ok edges | Exit _ => Refused end.

(** [outline->points[i]] *)
Definition point_at (outline : glyph_outline) (i : Z) : outcome glyph_point :=
  match points outline !! Z.to_nat i with Some p => Ok p | None => Undefined end.

(** [while (index <= end)] *)
Fixpoint contour_loop (fuel : nat) (outline : glyph_outline) (start fin count index : Z)
    (current : glyph_point) (edges : list raster_edge) : outcome (glyph_point * list raster_edge) :=
  if index <=? fin then
    match fuel with
    | O => Undefined
    | S fuel' =>
        control ← point_at outline index;
        next ← point_at outline (start + (index - start + 1) mod count);
        if on_curve control then
          edges ← add_edge edges (px current) (py current) (px control) (py control);
          contour_loop fuel' outline start fin count (index + 1) control edges
        else
          '(next, index) ←
            (if negb (on_curve next) then m ← point_midpoint control next; Ok (m, index)
             else Ok (next, index + 1));
          edges ← add_quadratic edges current control next;
          contour_loop fuel' outline start fin count (index + 1) next edges
    end
  else Ok (current, edges).

Definition contour_to_edges (outline : glyph_outline) (start fin : Z) (edges : list raster_edge)
  : outcome (list raster_edge) :=
  require (negb ((fin <? start) || (point_count outline <=? fin)));;
  let count := fin - start + 1 in
  first ← point_at outline start;
  last ← point_at outline fin;
  first ← (if negb (on_curve first) then
             if on_curve last then Ok last else point_midpoint last first
           else Ok first);
  '(current, edges) ← contour_loop (Z.to_nat count) outline start fin count start first edges;
  add_edge edges (px current) (py current) (px first) (py first).

(** The loop over the contours: [start] and the edges. *)
Fixpoint outline_edges_loop (outline : glyph_outline) (ends : list Z) (start : Z) (edges : list raster_edge)
  : outcome (list raster_edge) :=
  match ends with
  | [] => Ok edges
  | fin :: rest =>
      edges ← contour_to_edges outline start fin edges;
      outline_edges_loop outline rest (fin + 1) edges
  end.

Definition outline_edges (outline : glyph_outline) : outcome (list raster_edge) :=
  outline_edges_loop outline (contours outline) 0 [].

(** ** Sampling *)

(** The body of the loop of [point_inside_outline]: does the edge flip [inside]? *)
Definition edge_flips (edge : raster_edge) (sample_x sample_y : Z) : outcome bool :=
  let '(ax, ay, bx, by_) :=
    if y1 edge <? y0 edge then (x1 edge, y1 edge, x0 edge, y0 edge) else (x0 edge, y0 edge, x1 edge, y1 edge) in
  if (sample_y <? ay) || (by_ <=? sample_y) then Ok false
  else
    h ← i32 (sample_y - ay);
    w ← i32 (bx - ax);
    d ← i32 (by_ - ay);
    intersection ← i32 (ax + s32 (Z.quot (h * w) d));
    Ok (intersection <=? sample_x).

Fixpoint inside_loop (edges : list raster_edge) (sample_x sample_y : Z) (inside : bool) : outcome bool :=
  match edges with
  | [] => Ok inside
  | edge :: rest =>
      flip ← edge_flips edge sample_x sample_y;
      inside_loop rest sample_x sample_y (if (flip : bool) then negb inside else inside)
  end.

Definition point_inside_outline (edges : list raster_edge) (sample_x sample_y : Z) : outcome bool :=
  inside_loop edges sample_x sample_y false.

Definition samples : list (Z * Z) :=
  [(2, 2); (6, 2); (10, 2); (14, 2); (2, 6); (6, 6); (10, 6); (14, 6);
   (2, 10); (6, 10); (10, 10); (14, 10); (2, 14); (6, 14); (10, 14); (14, 14)].

Fixpoint covered_loop (edges : list raster_edge) (x y : Z) (l : list (Z * Z)) (covered : Z) : outcome Z :=
  match l with
  | [] => Ok covered
  | (sx, sy) :: rest =>
      inside ← point_inside_outline edges (x * 16 + sx) (y * 16 + sy);
      covered_loop edges x y rest (if (inside : bool) then covered + 1 else covered)
  end.

Definition rasterize_coverage (edges : list raster_edge) (x y : Z) : outcome Z :=
  covered ← covered_loop edges x y samples 0;
  Ok (u8 ((covered * 255 + 8) / 16)).

(** ** One glyph *)

Fixpoint scale_points (l : list glyph_point) (offset_x : Z) (metrics : font_metrics) : outcome (list glyph_point) :=
  match l with
  | [] => Ok []
  | p :: rest =>
      sx ← scale_design (px p) (scale metrics) (design_span metrics);
      ax ← i32 (offset_x + sx);
      x ← i32 (ax * 16);
      dy ← i32 (design_top metrics - py p);
      sy ← scale_design dy (scale metrics) (design_span metrics);
      ay ← i32 (origin_y metrics + sy);
      y ← i32 (ay * 16);
      r ← scale_points rest offset_x metrics;
      Ok (Point x y (on_curve p) :: r)
  end.

(** The width of the glyph in pixels. *)
Definition cell_width (font : ttf_font) (source : glyph_outline) (metrics : font_metrics) : outcome Z :=
  let advance := if advance_width source <=? 0 then units_per_em font / 2 else advance_width source in
  glyph_width ← scale_design advance (scale metrics) (design_span metrics);
  let glyph_width := if glyph_width <=? 0 then 1 else glyph_width in
  Ok (if XBKS_TTY_FONT_WIDTH - 1 <? glyph_width then XBKS_TTY_FONT_WIDTH - 1 else glyph_width).

Definition scale_outline_to_cell (font : ttf_font) (source : glyph_outline) (metrics : font_metrics)
  : outcome glyph_outline :=
  require (negb ((design_span metrics <=? 0) || (scale metrics <=? 0) ||
                 (MAX_GLYPH_POINTS <? point_count source) || (MAX_GLYPH_CONTOURS <? contour_count source)));;
  glyph_width ← cell_width font source metrics;
  let offset_x := (XBKS_TTY_FONT_WIDTH - glyph_width) / 2 in
  pts ← scale_points (points source) offset_x metrics;
  Ok (Outline pts (contours source) (x_min source) (y_min source) (x_max source) (y_max source)
        (s16 glyph_width) (has_bounds source)).

(** [n] results of [f], at [i], [i + 1], ... *)
Fixpoint map_out {A : Type} (n : nat) (i : Z) (f : Z -> outcome A) : outcome (list A) :=
  match n with
  | O => Ok []
  | S n' => a ← f i; l ← map_out n' (i + 1) f; Ok (a :: l)
  end.

(** The two loops over the cell; the rows one after the other. *)
Definition rasterize_cell (edges : list raster_edge) : outcome (list Z) :=
  rows ← map_out (Z.to_nat XBKS_TTY_FONT_HEIGHT) 0 (fun y =>
           map_out (Z.to_nat XBKS_TTY_FONT_WIDTH) 0 (fun x => rasterize_coverage edges x y));
  Ok (concat rows).

(** [memset(rows, 0, ...)] *)
Definition blank_cell : list Z := replicate (Z.to_nat (XBKS_TTY_FONT_WIDTH * XBKS_TTY_FONT_HEIGHT)) 0.

Definition rasterize_glyph (file : list Z) (font : ttf_font) (metrics : font_metrics) (codepoint : Z)
  : outcome (list Z) :=
  if codepoint =? 32 then Ok blank_cell
  else
    glyph ← glyph_for_codepoint file font codepoint;
    require (negb (glyph =? 0));;
    outline ← load_glyph_outline file outline_fuel font glyph 0;
    require (negb (point_count outline =? 0));;
    scaled ← scale_outline_to_cell font outline metrics;
    edges ← outline_edges scaled;
    rasterize_cell edges.

Definition draw_missing_glyph : list Z :=
  let put (rows : list Z) (i : Z) : list Z := <[Z.to_nat i := 220]> rows in
  let rows := for_range 9 2 (fun x rows =>
    put (put rows (3 * XBKS_TTY_FONT_WIDTH + x)) ((XBKS_TTY_FONT_HEIGHT - 4) * XBKS_TTY_FONT_WIDTH + x)) blank_cell in
  for_range 23 3 (fun y rows =>
    put (put rows (y * XBKS_TTY_FONT_WIDTH + 2)) (y * XBKS_TTY_FONT_WIDTH + XBKS_TTY_FONT_WIDTH - 3)) rows.

(** ** The whole font *)

(** The loop over the 256 characters: the cells so far, [rendered], and the characters of
    [failed_ascii], which has room for 95 of them. *)
Record cells := Cells { alpha : list Z; rendered : Z; failed_ascii : list Z }.

Definition render_step (file : list Z) (font : ttf_font) (metrics : font_metrics) (codepoint : Z) (c : cells)
  : outcome (ctl cells unit) :=
  r ← attempt (rasterize_glyph file font metrics codepoint);
  match r with
  | Some rows => Ok (Next (Cells (alpha c ++ rows) (rendered c + 1) (failed_ascii c)))
  | None =>
      let failed :=
        if (0x21 <=? codepoint) && (codepoint <=? 0x7e) && (Z.of_nat (length (failed_ascii c)) + 1 <? 96)
        then failed_ascii c ++ [codepoint] else failed_ascii c in
      Ok (Next (Cells (alpha c ++ draw_missing_glyph) (rendered c) failed))
  end.

Definition render_font (file : list Z) (font : ttf_font) (metrics : font_metrics) : outcome cells :=
  r ← scan_out (Z.to_nat XBKS_TTY_FONT_GLYPHS) 0 (render_step file font metrics) (Cells [] 0 []);
  match r with Next c => Ok c | Exit _ => Refused end.

Record xbks_bitmap_font := BitmapFont {
  font_alpha : list Z;
  font_glyphs : Z;
  font_width : Z;
  font_height : Z;
  font_source : list Z;
}.

(** What is done with an outcome: go on with [Some], or [None] for [false]. *)
Definition run_outcome {A} (o : outcome A) : IO (option A) :=
  match o with Ok a => mret (Some a) | Refused => mret None | Undefined => stray end.

Definition warn (message : list Z) : IO (option xbks_bitmap_font) :=
  xbks_log_write XBKS_LOG_WARN message;; mret None.

(** [m] is the memory the modules are in; [Some] for [true] with [*out]. *)
Definition xbks_font_load_system_tty (m : mem) (modules : option (list (option limine_file))) (out_null : bool)
  : IO (option xbks_bitmap_font) :=
  if out_null then mret None
  else
    chosen ← lift (find_font_module modules);
    match chosen with
    | None => warn (lit "system TTF module not found; using built-in terminal font")
    | Some module =>
        let file := bytes_at m (m_address module) (Z.to_nat (m_size module)) in
        font ← run_outcome (parse_ttf file);
        match font with
        | None => warn (lit "system TTF parse failed; using built-in terminal font")
        | Some font =>
            metrics ← run_outcome (build_font_metrics file font);
            match metrics with
            | None => warn (lit "system TTF metrics failed; using built-in terminal font")
            | Some metrics =>
                c ← run_outcome (render_font file font metrics);
                match c with
                | None => mret None
                | Some c =>
                    xbks_log_printf XBKS_LOG_INFO
                      (lit "system TTF terminal font loaded: %zu glyphs, cell=%zux%zu")
                      [VaLong (rendered c); VaLong XBKS_TTY_FONT_WIDTH; VaLong XBKS_TTY_FONT_HEIGHT];;
                    (if negb (Z.of_nat (length (failed_ascii c)) =? 0) then
                       xbks_log_printf XBKS_LOG_WARN (lit "system TTF missing ASCII glyphs: %s")
                         [VaStr (Some (failed_ascii c ++ [0]))]
                     else mret tt);;
                    mret (Some (BitmapFont (alpha c) XBKS_TTY_FONT_GLYPHS XBKS_TTY_FONT_WIDTH XBKS_TTY_FONT_HEIGHT
                                  (default (lit "system-font") (m_path module))))
                end
            end
        end
    end.
