(* ===== verification/FontSafe.v ===== *)
(** * The TrueType reader stays within its file and its arrays

    Whatever bytes the font module holds, the reader of [Font] never leaves them, never
    overflows an [int32_t] and ends; the outlines it returns fit the arrays of
    [struct glyph_outline], with contours that cut the points into consecutive runs. *)

From S2P Require Import Prelude Outcome Font.

Lemma range_is_valid_true size offset length :
  range_is_valid size offset length = true -> offset <= size /\ offset + length <= size.
Proof.
  unfold range_is_valid. intros H. to_prop. split; [assumption|].
  assert (uwrap 64 (size - offset) <= size - offset) by (apply Z.mod_le; lia). lia.
Qed.

Lemma range_is_valid_spec size offset length :
  0 <= offset -> 0 <= length -> 0 <= size < 2 ^ 63 -> range_is_valid size offset length = (offset + length <=? size).
Proof.
  intros. unfold range_is_valid. destruct (Z.leb_spec offset size); cbn [andb].
  - rewrite uwrap_small by lia. destruct (Z.leb_spec length (size - offset)), (Z.leb_spec (offset + length) size); lia || reflexivity.
  - symmetry. apply Z.leb_gt. lia.
Qed.

Lemma range_valid size offset length :
  0 <= offset -> 0 <= length -> offset + length <= size < 2 ^ 63 -> range_is_valid size offset length = true.
Proof. intros. rewrite range_is_valid_spec by lia. apply Z.leb_le. lia. Qed.

Ltac ranges :=
  repeat match goal with
  | H : range_is_valid _ _ _ = true |- _ => apply range_is_valid_true in H
  | H : negb (range_is_valid _ _ _) = false |- _ => apply negb_false_iff in H
  end.

(** Hypotheses from guards, ready for [lia]. *)
Ltac guards :=
  repeat match goal with
  | H : negb (_ || _) = true |- _ => apply negb_true_iff in H
  | H : _ /\ _ |- _ => destruct H
  end; to_prop; ranges;
  repeat match goal with H : _ /\ _ |- _ => destruct H end.

(** A byte-wide left operand of the [lor]s of the reads. *)
Lemma lor_shift_range n x y :
  0 <= n -> 0 <= x < 256 -> 0 <= y < 2 ^ n -> 0 <= Z.lor (Z.shiftl x n) y < 2 ^ (n + 8).
Proof.
  intros Hn Hx Hy. apply lor_range; [lia| |].
  - rewrite Z.shiftl_mul_pow2, Z.pow_add_r by lia. change (2 ^ 8) with 256.
    pose proof (Z.pow_pos_nonneg 2 n). nia.
  - rewrite Z.pow_add_r by lia. change (2 ^ 8) with 256. pose proof (Z.pow_pos_nonneg 2 n). nia.
Qed.

Section File.
Context (file : list Z).
Abbreviation size := (file_size file).

(** ** Reads *)

Lemma byte_at_ok p : 0 <= p < size -> returns (fun b => 0 <= b < 256) (byte_at file p).
Proof.
  intros Hp. unfold byte_at. rewrite (proj2 (Z.leb_le _ _)) by lia.
  destruct (lookup_lt_is_Some_2 file (Z.to_nat p)) as [b ->]; [unfold file_size in Hp; lia|].
  cbn. apply uwrap_range. lia.
Qed.

Ltac bytes := repeat (eapply returns_bind; [apply byte_at_ok; lia|]; intros ? ?; cbn beta in * ).

Lemma read_u16_ok p : 0 <= p -> p + 2 <= size -> returns (fun v => 0 <= v < 65536) (read_u16 file p).
Proof. intros. unfold read_u16. bytes. apply (uwrap_range 16). lia. Qed.

Lemma read_s16_ok p : 0 <= p -> p + 2 <= size -> returns (fun v => -32768 <= v < 32768) (read_s16 file p).
Proof.
  intros. unfold read_s16. eapply returns_bind; [apply read_u16_ok; lia|]. intros. apply (swrap_range 16). lia.
Qed.

Lemma read_u32_ok p : 0 <= p -> p + 4 <= size -> returns (fun v => 0 <= v < 2 ^ 32) (read_u32 file p).
Proof.
  intros. unfold read_u32. bytes. cbn [returns]. rewrite <- !Z.lor_assoc.
  apply (lor_shift_range 24); [lia|assumption|]. apply (lor_shift_range 16); [lia|assumption|].
  apply (lor_shift_range 8); [lia|assumption|lia].
Qed.

Lemma tag_from_string_ok p : 0 <= p -> p + 4 <= size -> returns (fun _ => True) (tag_from_string file p).
Proof. intros. unfold tag_from_string. bytes. exact I. Qed.

(** Passes the next read, when [lia] sees that it is inside the file. *)
Ltac fetch :=
  (eapply yields_returns || eapply returns_bind);
  [first [apply read_u16_ok | apply read_s16_ok | apply read_u32_ok | apply tag_from_string_ok | apply byte_at_ok]; lia|];
  intros ? ?; cbn beta in *.
Ltac guarded := apply yields_require; intros ?; guards.

(** ** The table directory *)

Definition table_in (t : ttf_table) : Prop := 0 <= t_data t /\ 0 <= t_size t /\ t_data t + t_size t <= size.

Lemma get_table_ok tag : yields table_in (get_table file tag).
Proof.
  unfold get_table. guarded. fetch. guarded.
  eapply yields_bind.
  - apply (scan_out_yields (fun _ _ => True) table_in); [exact I|]. intros j t Hj _. unfold get_table_step.
    fetch. fetch. fetch. destruct (_ =? _); [|exact I]. guarded. repeat split; cbn; lia.
  - intros [u|t] Ht; [exact I|exact Ht].
Qed.

(** ** The character map *)

Definition subtable_in (s : Z * Z) : Prop := 0 <= s.1 /\ 0 <= s.2 /\ s.1 + s.2 <= size.

Lemma subtable_length_ok cmap offset :
  table_in cmap -> 0 <= offset -> offset + 2 <= t_size cmap ->
  returns (fun l => match l with Some n => 0 <= n | None => True end) (subtable_length file cmap offset).
Proof.
  intros (H0 & H1 & H2) Ho Hs. unfold subtable_length. fetch.
  repeat case_match; try exact I; guards; fetch; cbn; lia.
Qed.

Lemma select_cmap_step_ok cmap i fallback :
  table_in cmap -> 0 <= i -> 4 + i * 8 + 8 <= t_size cmap ->
  match fallback with Some s => subtable_in s | None => True end ->
  returns (fun r => match r with
    | Next f => match f with Some s => subtable_in s | None => True end
    | Exit s => subtable_in s end) (select_cmap_step file cmap i fallback).
Proof.
  intros (H0 & H1 & H2) Hi Hr Hf. unfold select_cmap_step. fetch. fetch. fetch.
  destruct (negb _) eqn:E; [exact Hf|]. guards.
  eapply returns_bind; [apply subtable_length_ok; [repeat split; assumption|lia|lia]|].
  intros [n|] Hn; [|exact Hf]. destruct (negb _) eqn:E2; [exact Hf|]. guards.
  destruct (_ || _); [repeat split; cbn; lia|]. destruct fallback; [exact Hf|]. repeat split; cbn; lia.
Qed.

Lemma select_cmap_ok cmap : table_in cmap -> yields subtable_in (select_cmap_subtable file cmap).
Proof.
  intros Hc. pose proof Hc as (H0 & H1 & H2). unfold select_cmap_subtable. guarded. fetch. guarded.
  eapply yields_bind.
  - apply returns_yields.
    apply (scan_out_returns (fun _ f => match f with Some s => subtable_in s | None => True end) subtable_in); [exact I|].
    intros j t Hj Ht. apply select_cmap_step_ok; [exact Hc|lia|lia|exact Ht].
  - intros [[s|]|s] Hs; exact Hs || exact I.
Qed.

(** ** Opening *)

Definition in_s16 (x : Z) : Prop := -32768 <= x < 32768.

Record font_ok (font : ttf_font) : Prop := {
  ok_glyf : table_in (font_glyf font);
  ok_hmtx : table_in (font_hmtx font);
  ok_loca : table_in (font_loca font);
  ok_subtable : match cmap_subtable font with
    | Some p => subtable_in (p, cmap_subtable_size font) | None => False end;
  ok_glyphs : num_glyphs font < 65536;
  ok_hmetrics : 1 <= number_of_hmetrics font <= num_glyphs font;
  ok_units : 1 <= units_per_em font < 65536;
  ok_format : index_to_loc_format font = 0 \/ index_to_loc_format font = 1;
  ok_loca_size : (num_glyphs font + 1) * (if index_to_loc_format font =? 0 then 2 else 4) <= t_size (font_loca font);
  ok_hmtx_size : number_of_hmetrics font * 4 <= t_size (font_hmtx font);
  ok_metrics : Forall in_s16 [ascent font; descent font; line_gap font; typo_ascent font; typo_descent font;
    typo_line_gap font];
}.

Lemma os_2_metrics_ok os_2 :
  table_in os_2 ->
  returns (fun v => let '(a, d, g) := v in in_s16 a /\ in_s16 d /\ in_s16 g)
    (if 74 <=? t_size os_2 then
       a ← read_s16 file (t_data os_2 + 68); d ← read_s16 file (t_data os_2 + 70);
       g ← read_s16 file (t_data os_2 + 72); Ok (a, d, g)
     else Ok (0, 0, 0)).
Proof.
  intros (H0 & H1 & H2). destruct (Z.leb_spec 74 (t_size os_2)).
  - fetch. fetch. fetch. cbn. unfold in_s16. lia.
  - cbn. unfold in_s16. lia.
Qed.

Lemma parse_ttf_ok : yields font_ok (parse_ttf file).
Proof.
  unfold parse_ttf. guarded. fetch. apply yields_require. intros _.
  do 7 (eapply yields_bind; [apply get_table_ok|]; intros ? (? & ? & ?)).
  eapply yields_returns; [apply (yields_attempt table_in), get_table_ok|]. intros o Ho.
  guarded. do 7 fetch.
  eapply yields_returns.
  { apply os_2_metrics_ok. destruct o as [t|]; [exact Ho|]. repeat split; cbn; unfold file_size; lia. }
  intros [[ta td] tg] (? & ? & ?). guarded. guarded.
  eapply yields_bind; [apply select_cmap_ok; repeat split; assumption|]. intros [s n] Hs. cbn.
  assert (Hf : a8 = 0 \/ a8 = 1).
  { match goal with H : (negb (a8 =? 0) && _)%bool = false |- _ =>
      apply andb_false_iff in H as [H|H]; apply negb_false_iff in H; apply Z.eqb_eq in H; auto end. }
  assert (a12 * 4 <= t_size a4 /\ 1 <= a12 <= a13 /\ 1 <= a7 < 65536) as (? & ? & ?) by lia.
  constructor; cbn; try assumption; try (repeat split; assumption).
  repeat constructor; unfold in_s16 in *; lia.
Qed.

(** ** From characters to glyphs *)

Definition in_u16 (x : Z) : Prop := 0 <= x < 65536.

Lemma u16_in x : in_u16 (u16 x).
Proof. apply (uwrap_range 16). lia. Qed.

Lemma zero_in : in_u16 0.
Proof. unfold in_u16. lia. Qed.

Hint Resolve u16_in zero_in : xbks.

Lemma cmap_format4_ok p n cp : subtable_in (p, n) -> 0 <= cp -> returns in_u16 (cmap_format4_glyph file p n cp).
Proof.
  intros (H0 & H1 & H2) Hcp. cbn in *. unfold cmap_format4_glyph.
  destruct (_ || _) eqn:E; [apply zero_in|]. guards. fetch.
  pose proof (Z.div_pos a 2 ltac:(lia) ltac:(lia)).
  destruct (negb _) eqn:E2; [apply zero_in|]. guards.
  eapply returns_bind.
  - apply (scan_out_returns (fun _ _ => True) in_u16); [exact I|]. intros j t Hj _. unfold cmap_format4_step.
    fetch. fetch. destruct (cp <? a1) eqn:E3; [apply zero_in|]. destruct (a0 <? cp) eqn:E4; [exact I|]. guards.
    fetch. fetch. destruct (_ =? 0); [apply u16_in|]. destruct (negb _) eqn:E5; [apply zero_in|]. guards.
    fetch. destruct (_ =? 0); [apply zero_in|apply u16_in].
  - intros [t|g] Hg; [apply zero_in|exact Hg].
Qed.

Lemma cmap_format12_ok p n cp : subtable_in (p, n) -> returns in_u16 (cmap_format12_glyph file p n cp).
Proof.
  intros (H0 & H1 & H2). cbn in *. unfold cmap_format12_glyph.
  destruct (_ <? _) eqn:E; [apply zero_in|]. guards. fetch.
  destruct (negb _) eqn:E2; [apply zero_in|]. guards.
  eapply returns_bind.
  - apply (scan_out_returns (fun _ _ => True) in_u16); [exact I|]. intros j t Hj _. unfold cmap_format12_step.
    fetch. fetch. destruct (cp <? a0); [apply zero_in|]. destruct (cp <=? a1); [|exact I].
    fetch. destruct (_ <=? _); [apply u16_in|apply zero_in].
  - intros [t|g] Hg; [apply zero_in|exact Hg].
Qed.

Lemma glyph_for_codepoint_ok font cp :
  font_ok font -> 0 <= cp -> returns in_u16 (glyph_for_codepoint file font cp).
Proof.
  intros Hf Hcp. unfold glyph_for_codepoint. pose proof (ok_subtable _ Hf) as Hs.
  destruct (cmap_subtable font) as [p|]; [|apply zero_in]. destruct (_ <? _) eqn:E; [apply zero_in|]. guards.
  pose proof Hs as (H0 & H1 & H2). cbn in *. fetch.
  destruct (_ =? 4); [apply cmap_format4_ok; assumption|].
  destruct (_ =? 12); [apply cmap_format12_ok; assumption|apply zero_in].
Qed.

(** ** Where a glyph is *)

Lemma glyph_bounds_ok font glyph :
  font_ok font -> 0 <= glyph ->
  yields (fun r => 0 <= r.1 /\ 0 <= r.2 /\ r.1 + r.2 <= t_size (font_glyf font)) (glyph_bounds file font glyph).
Proof.
  intros Hf Hg. unfold glyph_bounds. guarded.
  pose proof (ok_loca_size _ Hf). pose proof (ok_loca _ Hf) as (? & ? & ?).
  eapply (yields_returns (fun r : Z * Z => 0 <= r.1 /\ 0 <= r.2)).
  - destruct (index_to_loc_format font =? 0); fetch; fetch; cbn; lia.
  - intros [s e] [Hs He]. cbn in Hs, He. guarded. cbn. lia.
Qed.

Lemma glyph_advance_ok font glyph :
  font_ok font -> 0 <= glyph -> returns in_s16 (glyph_advance file font glyph).
Proof.
  intros Hf Hg. unfold glyph_advance. pose proof (ok_hmtx_size _ Hf). pose proof (ok_hmetrics _ Hf).
  pose proof (ok_hmtx _ Hf) as (? & ? & ?).
  destruct (_ <? _) eqn:E; guards; eapply returns_mono; [apply read_s16_ok; lia|auto|apply read_s16_ok; lia|auto].
Qed.
End File.

#[export] Hint Resolve u16_in zero_in : xbks.

(** Passes the next read, when [lia] sees that it is inside the file; passes a [require]. *)
Ltac fetch :=
  (eapply yields_returns || eapply returns_bind);
  [first [apply read_u16_ok | apply read_s16_ok | apply read_u32_ok | apply byte_at_ok]; lia|];
  intros ? ?; cbn beta in *.
Ltac guarded := apply yields_require; intros ?; guards.
