(* ===== verification/FontOutline.v ===== *)
(** * Outlines

    [load_glyph_outline] ends on every font that [parse_ttf] accepts, however its glyphs
    refer to each other, and what it returns fits [struct glyph_outline]. *)

From S2P Require Import Prelude Outcome Font FontSafe.

(** ** The invariant of an outline *)

(** The contour ends cut the points from [start] to [n] into consecutive, non-empty
    runs. *)
Fixpoint cuts (start : Z) (ends : list Z) (n : Z) : Prop :=
  match ends with
  | [] => start = n
  | e :: rest => start <= e < n /\ cuts (e + 1) rest n
  end.

Lemma cuts_le start ends n : cuts start ends n -> start <= n.
Proof.
  revert start. induction ends as [|e ends IH]; cbn; intros start H; [lia|].
  destruct H as [H1 H2]. apply IH in H2. lia.
Qed.

Lemma cuts_snoc start ends n e : cuts start ends n -> n <= e -> cuts start (ends ++ [e]) (e + 1).
Proof.
  revert start. induction ends as [|x ends IH]; cbn; intros start H He; [lia|].
  destruct H as [H1 H2]. split; [lia|]. apply IH; assumption.
Qed.

Lemma cuts_app start l m l' n : cuts start l m -> cuts m l' n -> cuts start (l ++ l') n.
Proof.
  revert start. induction l as [|e l IH]; cbn; intros start H H'; [subst; exact H'|].
  destruct H as [H1 H2]. pose proof (cuts_le _ _ _ H'). split; [lia|]. apply IH; assumption.
Qed.

Lemma cuts_shift b start l n : cuts start l n -> cuts (b + start) (map (fun c => b + c) l) (b + n).
Proof.
  revert start. induction l as [|e l IH]; cbn; intros start H; [lia|]. destruct H as [H1 H2].
  split; [lia|]. replace (b + e + 1) with (b + (e + 1)) by lia. apply IH, H2.
Qed.

Lemma cuts_bound start l n : cuts start l n -> Forall (fun e => start <= e < n) l.
Proof.
  revert start. induction l as [|e l IH]; cbn; intros start H; constructor; [tauto|].
  destruct H as [H1 H2]. eapply List.Forall_impl; [|apply IH, H2]. cbn. lia.
Qed.

Definition coord_in (B : Z) (p : glyph_point) : Prop := - B <= px p <= B /\ - B <= py p <= B.

Record outline_ok (B : Z) (o : glyph_outline) : Prop := {
  ok_points : point_count o <= MAX_GLYPH_POINTS;
  ok_contours : contour_count o <= MAX_GLYPH_CONTOURS;
  ok_cuts : cuts 0 (contours o) (point_count o);
  ok_coords : Forall (coord_in B) (points o);
  ok_bounds : Forall in_s16 [x_min o; y_min o; x_max o; y_max o; advance_width o];
}.

Lemma outline_ok_mono B B' o : B <= B' -> outline_ok B o -> outline_ok B' o.
Proof.
  intros HB [H1 H2 H3 H4 H5]. constructor; try assumption.
  eapply List.Forall_impl; [|exact H4]. unfold coord_in. lia.
Qed.

Lemma s16_in x : in_s16 (s16 x).
Proof. apply (swrap_range 16). lia. Qed.

Lemma no_points_ok B a b c d e h :
  in_s16 a -> in_s16 b -> in_s16 c -> in_s16 d -> in_s16 e -> outline_ok B (Outline [] [] a b c d e h).
Proof.
  intros. split.
  - discriminate.
  - discriminate.
  - reflexivity.
  - constructor.
  - cbn. auto 10 using List.Forall_cons, List.Forall_nil.
Qed.

(** ** Appending *)

Lemma append_points_ok B src : forall dest dx dy,
  Forall (coord_in B) src -> -32768 <= dx <= 32768 -> -32768 <= dy <= 32768 -> B + 32768 < 2 ^ 31 ->
  point_count dest + Z.of_nat (length src) <= MAX_GLYPH_POINTS ->
  append_points dest src dx dy =
    Ok (Outline (points dest ++ map (fun p => Point (px p + dx) (py p + dy) (on_curve p)) src) (contours dest)
          (x_min dest) (y_min dest) (x_max dest) (y_max dest) (advance_width dest) (has_bounds dest)).
Proof.
  induction src as [|p src IH]; intros dest dx dy Hs Hx Hy HB Hn; cbn [append_points map].
  { rewrite app_nil_r. destruct dest. reflexivity. }
  apply Forall_cons_iff in Hs as [[Hpx Hpy] Hs]. cbn [length] in Hn.
  rewrite !returns_i32 by lia. cbn [mbind outcome_bind]. unfold append_point.
  destruct (Z.leb_spec MAX_GLYPH_POINTS (point_count dest)); [lia|]. cbn [negb require mbind outcome_bind].
  rewrite IH; try assumption.
  - cbn. rewrite <- app_assoc. reflexivity.
  - unfold point_count in *. cbn. rewrite length_app. cbn. lia.
Qed.

Lemma append_bounds_ok dest src dx dy :
  Forall in_s16 [x_min dest; y_min dest; x_max dest; y_max dest; advance_width dest] ->
  let o := append_bounds dest src dx dy in
  points o = points dest /\ contours o = contours dest /\
  Forall in_s16 [x_min o; y_min o; x_max o; y_max o; advance_width o].
Proof.
  intros H. pose proof H as H'. rewrite !Forall_cons_iff in H'. destruct H' as (H1 & H2 & H3 & H4 & H5 & _).
  unfold append_bounds. destruct (has_bounds src); [|auto]. destruct (negb _); cbn.
  - split; [reflexivity|]. split; [reflexivity|]. auto 10 using s16_in, List.Forall_cons, List.Forall_nil.
  - split; [reflexivity|]. split; [reflexivity|].
    repeat match goal with |- context [if ?b then s16 _ else _] => destruct b end; auto 10 using s16_in, List.Forall_cons, List.Forall_nil.
Qed.

Lemma append_outline_ok B B' dest src dx dy :
  outline_ok B dest -> outline_ok B' src -> B' + 32768 <= B -> B < 2 ^ 31 ->
  -32768 <= dx <= 32768 -> -32768 <= dy <= 32768 ->
  yields (outline_ok B) (append_outline dest src dx dy).
Proof.
  intros [D1 D2 D3 D4 D5] [S1 S2 S3 S4 S5] HB HB' Hx Hy. unfold append_outline. guarded.
  rewrite (append_points_ok B') by (assumption || lia || (unfold point_count in *; lia)).
  cbn [mbind outcome_bind yields points contours x_min y_min x_max y_max advance_width has_bounds].
  set (o := Outline _ _ _ _ _ _ _ _).
  destruct (append_bounds_ok o src dx dy D5) as (Ep & Ec & Hb).
  assert (Hp : point_count o = point_count dest + point_count src).
  { unfold point_count, o. cbn. rewrite length_app, length_map. lia. }
  constructor; unfold point_count, contour_count; rewrite ?Ep, ?Ec.
  - fold (point_count o). lia.
  - unfold o. cbn. rewrite length_app, length_map. unfold contour_count in *. lia.
  - fold (point_count o). rewrite Hp. unfold o. cbn. eapply cuts_app; [exact D3|].
    rewrite (List.map_ext_in _ (fun c => point_count dest + c)).
    + replace (point_count dest) with (point_count dest + 0) at 1 by lia. apply cuts_shift, S3.
    + intros c Hc. apply (proj1 (List.Forall_forall _ _) (cuts_bound _ _ _ S3)) in Hc.
      apply uwrap_small. unfold MAX_GLYPH_POINTS in *. unfold point_count in *. lia.
  - unfold o. cbn. apply Forall_app. split.
    + exact D4.
    + apply List.Forall_map. eapply List.Forall_impl; [|exact S4]. unfold coord_in. cbn. lia.
  - exact Hb.
Qed.

Section File.
Context (file : list Z).
Abbreviation size := (file_size file).

(** A glyph's data, inside the file. *)
Definition data_in (p n : Z) : Prop := 0 <= p /\ 0 <= n /\ p + n <= size.

(** ** Simple glyphs *)

Lemma end_points_ok p n :
  0 <= p -> p + Z.of_nat n * 2 <= size ->
  yields (fun r => match r with
    | Next l => length l = n /\ (n <> O -> cuts 0 l (default 0 (list.last l) + 1))
    | Exit _ => False end)
    (scan_out n 0 (end_points_step file p) []).
Proof.
  intros H0 H1. eapply yields_mono.
  - apply (scan_out_yields (fun i l => Z.of_nat (length l) = i /\
      (i <> 0 -> cuts 0 l (default 0 (list.last l) + 1))) (fun _ => False)).
    + split; [reflexivity|congruence].
    + intros j l Hj [Hl Hc]. unfold end_points_step. fetch. apply yields_require. intros Hr. cbn.
      rewrite length_app. cbn. split; [lia|]. intros _. rewrite last_snoc. cbn.
      destruct (Z.eq_dec j 0) as [->|Hne].
      * destruct l; [|cbn in Hl; lia]. cbn. lia.
      * apply cuts_snoc with (n := default 0 (list.last l) + 1); [apply Hc, Hne|].
        destruct (Z.eqb_spec j 0); [congruence|]. cbn in Hr. apply negb_true_iff in Hr. to_prop. lia.
  - intros [l|u] H; [|exact H]. destruct H as [Hl Hc]. split; [lia|]. intros Hn. apply Hc. lia.
Qed.

Lemma repeat_flag_ok repeat count flag flags :
  let r := repeat_flag repeat count flag flags in
  Z.of_nat (length flags) <= count -> Z.of_nat (length r.2) <= count /\ (length flags <= length r.2)%nat.
Proof.
  revert flags. induction repeat as [|n IH]; intros flags r H; unfold r; cbn; [lia|].
  destruct (Z.ltb_spec (Z.of_nat (length flags)) count); [|cbn; lia].
  assert (Hl : length (flags ++ [flag]) = S (length flags)) by (rewrite length_app; cbn; lia).
  destruct (IH (flags ++ [flag])); [lia|]. lia.
Qed.

Lemma flags_loop_ok fuel p n count : forall cursor flags,
  data_in p n -> 0 <= cursor -> Z.of_nat (length flags) <= count ->
  count <= Z.of_nat (length flags) + Z.of_nat fuel ->
  yields (fun r => Z.of_nat (length r.1) = count /\ cursor <= r.2) (flags_loop file fuel p n count cursor flags).
Proof.
  induction fuel as [|fuel IH]; intros cursor flags Hd Hc Hl Hf; cbn [flags_loop].
  - destruct (Z.ltb_spec (Z.of_nat (length flags)) count); [lia|]. cbn. lia.
  - pose proof Hd as (H0 & H1 & H2).
    destruct (Z.ltb_spec (Z.of_nat (length flags)) count); [|cbn; lia]. guarded. fetch.
    assert (Hl' : length (flags ++ [a]) = S (length flags)) by (rewrite length_app; cbn; lia).
    destruct (has a GLYPH_REPEAT_FLAG).
    + guarded. fetch. destruct (repeat_flag (Z.to_nat a0) count a (flags ++ [a])) as [k flags'] eqn:E.
      pose proof (repeat_flag_ok (Z.to_nat a0) count a (flags ++ [a]) ltac:(lia)) as Hr. rewrite E in Hr. cbn in Hr.
      apply yields_require. intros _. eapply yields_mono; [apply IH; [exact Hd|lia..]|]. cbn. lia.
    + eapply yields_mono; [apply IH; [exact Hd|lia..]|]. cbn. lia.
Qed.

Lemma coordinates_loop_ok short same p n flags : forall cursor v B,
  data_in p n -> 0 <= cursor -> - B <= v <= B -> B + 32768 * Z.of_nat (length flags) < 2 ^ 31 ->
  yields (fun r => length r.1 = length flags /\ cursor <= r.2 /\
      Forall (fun x => - (B + 32768 * Z.of_nat (length flags)) <= x <= B + 32768 * Z.of_nat (length flags)) r.1)
    (coordinates_loop file short same p n flags cursor v).
Proof.
  induction flags as [|flag flags IH]; intros cursor v B Hd Hc Hv HB; cbn [coordinates_loop].
  { cbn. repeat split; [lia|constructor]. }
  cbn [length] in HB |- *. pose proof Hd as (H0 & H1 & H2).
  eapply (yields_bind (fun r : Z * Z => - (B + 32768) <= r.1 <= B + 32768 /\ cursor <= r.2)).
  - destruct (has flag short).
    + guarded. fetch. rewrite returns_i32 by (destruct (has flag same); lia). cbn. destruct (has flag same); lia.
    + destruct (negb _).
      * guarded. fetch. rewrite returns_i32 by lia. cbn. lia.
      * cbn. lia.
  - intros [v' c'] [Hv' Hc']. cbn in Hv', Hc'.
    eapply yields_bind; [apply (IH c' v' (B + 32768)); [exact Hd|lia..]|].
    intros [vs c2] (Hl & Hc2 & Hf). cbn in *. split; [lia|]. split; [lia|]. constructor; [lia|].
    eapply List.Forall_impl; [|exact Hf]. cbn. lia.
Qed.

Lemma make_points_ok B xs : forall ys flags,
  length xs = length flags -> length ys = length flags ->
  Forall (fun x => - B <= x <= B) xs -> Forall (fun y => - B <= y <= B) ys ->
  length (make_points xs ys flags) = length flags /\ Forall (coord_in B) (make_points xs ys flags).
Proof.
  induction xs as [|x xs IH]; intros [|y ys] [|flag flags] Hx Hy Fx Fy; cbn in *; try lia; [auto|].
  apply Forall_cons_iff in Fx as [Fx0 Fx], Fy as [Fy0 Fy].
  destruct (IH ys flags) as [E F]; [lia|lia|assumption..|]. split; [lia|]. constructor; [split; assumption|exact F].
Qed.

Definition simple_bound : Z := 384 * 32768.

Lemma load_simple_ok font glyph p n :
  font_ok file font -> 0 <= glyph -> data_in p n ->
  yields (outline_ok simple_bound) (load_simple_outline file font glyph p n).
Proof.
  intros Hf Hg Hd. pose proof Hd as (H0 & H1 & H2). unfold load_simple_outline.
  guarded. fetch. guarded. do 4 fetch.
  eapply yields_returns; [apply glyph_advance_ok; eassumption|]. intros adv Hadv.
  assert (Hb : Forall in_s16 [a0; a1; a2; a3; adv]) by (unfold in_s16 in *; auto 10 using List.Forall_cons, List.Forall_nil).
  destruct (Z.eqb_spec a 0) as [->|Hne].
  { apply no_points_ok; assumption. }
  guarded. eapply yields_bind; [apply end_points_ok; lia|]. intros [ends|u] Hends; [|exact I].
  destruct Hends as [Hlen Hcuts]. specialize (Hcuts ltac:(lia)).
  set (count := default 0 (list.last ends) + 1) in *. pose proof (cuts_le _ _ _ Hcuts).
  guarded. guarded. fetch. guarded.
  eapply yields_bind; [apply flags_loop_ok; [exact Hd|lia|cbn; lia|cbn; lia]|]. intros [flags c1] [Hfl Hc1]. cbn in Hfl, Hc1.
  assert (Hl : 32768 * Z.of_nat (length flags) <= simple_bound) by (unfold simple_bound, MAX_GLYPH_POINTS in *; lia).
  eapply yields_bind; [apply (coordinates_loop_ok _ _ p n flags c1 0 0); [exact Hd|unfold simple_bound in *; lia..]|].
  intros [xs c2] (Hxl & Hc2 & Hxs). cbn in Hxl, Hc2, Hxs.
  eapply yields_bind; [apply (coordinates_loop_ok _ _ p n flags c2 0 0); [exact Hd|unfold simple_bound in *; lia..]|].
  intros [ys c3] (Hyl & Hc3 & Hys). cbn in Hyl, Hc3, Hys.
  destruct (make_points_ok simple_bound xs ys flags Hxl Hyl) as [Hml Hm].
  1, 2: eapply List.Forall_impl; [|eassumption]; cbn; lia.
  constructor; unfold point_count, contour_count; cbn; rewrite ?Hml; try assumption.
  - lia.
  - unfold MAX_GLYPH_CONTOURS in *. lia.
  - rewrite Hfl. exact Hcuts.
Qed.

(** ** Composite glyphs *)

Lemma component_args_ok p n cursor flags :
  data_in p n -> 0 <= cursor ->
  yields (fun r => let '(a, b, c) := r in -32768 <= a <= 32768 /\ -32768 <= b <= 32768 /\ cursor + 2 <= c <= n)
    (component_args file p n cursor flags).
Proof.
  intros (H0 & H1 & H2) Hc. unfold component_args. destruct (has _ _).
  - guarded. fetch. fetch. cbn. lia.
  - guarded. fetch. fetch. cbn. pose proof (swrap_range 8 a ltac:(lia)). pose proof (swrap_range 8 a0 ltac:(lia)).
    cbn in *. lia.
Qed.

Lemma skip_transform_ok n cursor flags :
  cursor <= n -> yields (fun c => cursor <= c <= n) (skip_transform n cursor flags).
Proof.
  intros H. unfold skip_transform. repeat case_match; try (guarded; cbn; lia). cbn. lia.
Qed.

Lemma component_step_ok load B B' p n cursor outline :
  data_in p n -> 0 <= cursor -> outline_ok B outline -> B' + 32768 <= B -> B < 2 ^ 31 ->
  (forall g, in_u16 g -> yields (outline_ok B') (load g)) ->
  yields (fun r => let '(_, c, o) := r in cursor + 6 <= c <= n /\ outline_ok B o)
    (component_step file load p n cursor outline).
Proof.
  intros Hd Hc Ho HB HB' Hload. pose proof Hd as (H0 & H1 & H2). unfold component_step. guarded. fetch. fetch.
  eapply yields_bind; [apply component_args_ok; [exact Hd|lia]|]. intros [[arg1 arg2] c1] (Ha1 & Ha2 & Hc1).
  eapply yields_bind; [apply skip_transform_ok; lia|]. intros c2 Hc2.
  eapply yields_bind; [apply Hload; assumption|]. intros component Hcomp.
  eapply yields_bind.
  - eapply append_outline_ok; [exact Ho|exact Hcomp|lia|lia| |]; destruct (has _ _); lia.
  - intros o Ho'. cbn. cbn beta in Hc2. split; [lia|exact Ho'].
Qed.

Lemma components_loop_ok fuel load B B' p n : forall cursor outline,
  data_in p n -> 0 <= cursor -> n - cursor + 6 <= 6 * Z.of_nat fuel -> cursor <= n ->
  outline_ok B outline -> B' + 32768 <= B -> B < 2 ^ 31 ->
  (forall g, in_u16 g -> yields (outline_ok B') (load g)) ->
  yields (fun r => let '(_, c, o) := r in 0 <= c /\ outline_ok B o) (components_loop file fuel load p n cursor outline).
Proof.
  induction fuel as [|fuel IH]; intros cursor outline Hd Hc Hn Hcn Ho HB HB' Hload; [lia|]. cbn [components_loop].
  eapply yields_bind; [eapply component_step_ok; eassumption|]. intros [[flags c] o] [Hcc Ho'].
  destruct (has _ _); [|split; [lia|exact Ho']]. apply IH; try assumption; lia.
Qed.

Lemma load_composite_ok load B B' font glyph p n :
  font_ok file font -> 0 <= glyph -> data_in p n -> 0 <= B -> B' + 32768 <= B -> B < 2 ^ 31 ->
  (forall g, in_u16 g -> yields (outline_ok B') (load g)) ->
  yields (outline_ok B) (load_composite_outline file load font glyph p n).
Proof.
  intros Hf Hg Hd HB0 HB HB' Hload. pose proof Hd as (H0 & H1 & H2). unfold load_composite_outline.
  guarded. do 4 fetch. eapply yields_returns; [apply glyph_advance_ok; eassumption|]. intros adv Hadv.
  eapply yields_bind.
  - eapply (components_loop_ok _ load B B'); try eassumption; try lia.
    apply no_points_ok; assumption.
  - intros [[flags c] o] [Hc Ho]. destruct (has _ _); [|exact Ho]. guarded. fetch. guarded. exact Ho.
Qed.

(** ** The recursion *)

(** The bound on coordinates of a glyph loaded at [depth]. *)
Definition coord_bound (depth : Z) : Z := (384 + 8 - depth) * 32768.

Lemma load_glyph_ok fuel font : forall glyph depth,
  font_ok file font -> in_u16 glyph -> 0 <= depth <= 9 -> 10 - depth <= Z.of_nat fuel ->
  yields (outline_ok (coord_bound depth)) (load_glyph_outline file fuel font glyph depth).
Proof.
  induction fuel as [|fuel IH]; intros glyph depth Hf Hg Hd Hfuel; [lia|]. cbn [load_glyph_outline].
  pose proof Hg as [Hg0 _].
  apply yields_require. intros Hdepth. apply negb_true_iff in Hdepth. unfold MAX_COMPONENT_DEPTH in Hdepth. to_prop.
  eapply yields_returns; [apply glyph_advance_ok; eassumption|]. intros adv Hadv.
  eapply yields_bind; [apply glyph_bounds_ok; eassumption|]. intros [offset n] (Ho & Hn & Hon). cbn in Ho, Hn, Hon.
  pose proof (ok_glyf _ _ Hf) as (G0 & G1 & G2).
  destruct (Z.eqb_spec n 0) as [->|Hne].
  { apply no_points_ok; assumption || (unfold in_s16; lia). }
  guarded. fetch.
  assert (Hdata : data_in (t_data (font_glyf font) + offset) n) by (unfold data_in; lia).
  destruct (0 <=? a).
  - eapply yields_mono; [apply load_simple_ok; eassumption|]. intros o. apply outline_ok_mono.
    unfold simple_bound, coord_bound. lia.
  - apply (load_composite_ok _ _ (coord_bound (depth + 1))); try assumption; unfold coord_bound; try lia.
    intros g Hgg. apply IH; [exact Hf|exact Hgg|lia|lia].
Qed.

Lemma load_outline_ok font glyph :
  font_ok file font -> in_u16 glyph -> yields (outline_ok (coord_bound 0)) (load_glyph_outline file outline_fuel font glyph 0).
Proof. intros Hf Hg. apply load_glyph_ok; [exact Hf|exact Hg|lia|unfold outline_fuel; lia]. Qed.
End File.
