(* ===== verification/FontShape.v ===== *)
(** * The edges of an outline are closed

    Every contour gives a closed chain of edges, so that a horizontal line crosses an
    even number of them, and the even-odd rule of [point_inside_outline] counts nothing
    outside the bounding box of the edges as ink. *)

From S2P Require Import Prelude Outcome Font FontRaster.

(** ** Crossings *)

(** The edge leads from above the line through [y] to below it, or back. *)
Definition crosses (y : Z) (e : raster_edge) : bool := xorb (y0 e <=? y) (y1 e <=? y).

(** An odd number of edges cross the line. *)
Fixpoint odd_crossings (y : Z) (edges : list raster_edge) : bool :=
  match edges with
  | [] => false
  | e :: rest => xorb (crosses y e) (odd_crossings y rest)
  end.

Lemma odd_crossings_app y a b : odd_crossings y (a ++ b) = xorb (odd_crossings y a) (odd_crossings y b).
Proof. induction a as [|e a IH]; cbn; [destruct (odd_crossings y b); reflexivity|]. rewrite IH. symmetry. apply xorb_assoc_reverse. Qed.

(** [runs y edges from to edges']: [edges'] adds to [edges] a chain that leads from height
    [from] to height [to]. *)
Definition runs (edges : list raster_edge) (from to : Z) (edges' : list raster_edge) : Prop :=
  forall y, odd_crossings y edges' = xorb (odd_crossings y edges) (xorb (from <=? y) (to <=? y)).

Lemma runs_refl edges a : runs edges a a edges.
Proof. intros y. destruct (a <=? y), (odd_crossings y edges); reflexivity. Qed.

Lemma runs_trans e1 a e2 b e3 c : runs e1 a b e2 -> runs e2 b c e3 -> runs e1 a c e3.
Proof.
  intros H1 H2 y. rewrite H2, H1. destruct (odd_crossings y e1), (a <=? y), (b <=? y), (c <=? y); reflexivity.
Qed.

Lemma add_edge_runs edges xa ya xb yb : ensures (runs edges ya yb) (add_edge edges xa ya xb yb).
Proof.
  unfold add_edge. destruct (Z.eqb_spec ya yb) as [->|Hne]; [apply runs_refl|].
  destruct (negb _); cbn; [|exact I]. intros y. rewrite odd_crossings_app. cbn.
  rewrite xorb_false_r. reflexivity.
Qed.

Lemma div32_ok a b c : div32 a b = Ok c -> b <> 0 /\ c = Z.quot a b.
Proof. unfold div32. destruct (Z.eqb_spec b 0); [discriminate|]. intros H. apply i32_ok in H. tauto. Qed.

(** A curve ends at its last point. *)
Lemma quadratic_end c0 c1 c2 c : quadratic_at 8 c0 c1 c2 = Ok c -> c = c2.
Proof.
  unfold quadratic_at, STEPS. intros H.
  do 5 match type of H with context [i32 ?v] =>
    let E := fresh in destruct (i32 v) eqn:E; cbn in H; [apply i32_ok in E as [-> _]|discriminate..] end.
  apply div32_ok in H as [_ ->].
  replace ((8 - 8) * (8 - 8) * c0 + 2 * (8 - 8) * 8 * c1 + 8 * 8 * c2) with (c2 * (8 * 8)) by lia.
  apply Z.quot_mul. lia.
Qed.

Lemma add_quadratic_runs edges p0 p1 p2 : ensures (runs edges (py p0) (py p2)) (add_quadratic edges p0 p1 p2).
Proof.
  unfold add_quadratic. eapply ensures_bind.
  - apply (scan_out_ensures (fun i st => let '(_, v, e) := st in
      runs edges (py p0) v e /\ (i = 9 -> v = py p2)) (fun _ => False)).
    + split; [apply runs_refl|lia].
    + intros i [[vx vy] e] Hi [Hr Hl]. unfold quadratic_step.
      apply ensures_skip. intros x _. apply ensures_skip. intros y Hy.
      eapply ensures_bind; [apply add_edge_runs|]. intros e' He'. cbn. split; [eapply runs_trans; eassumption|].
      intros H9. replace i with 8 in Hy by lia. apply quadratic_end in Hy. exact Hy.
  - intros [[[vx vy] e]|u] H; [|destruct H]. destruct H as [Hr Hl]. cbn. rewrite <- Hl by reflexivity. exact Hr.
Qed.

Lemma contour_loop_runs outline start fin count fuel : forall index current edges,
  ensures (fun r => runs edges (py current) (py r.1) r.2)
    (contour_loop fuel outline start fin count index current edges).
Proof.
  induction fuel as [|fuel IH]; intros index current edges; cbn [contour_loop].
  { destruct (index <=? fin); [exact I|apply runs_refl]. }
  destruct (index <=? fin); [|apply runs_refl].
  apply ensures_skip. intros control _. apply ensures_skip. intros next _.
  assert (Hnext : forall e' c index, runs edges (py current) (py c) e' ->
    ensures (fun r => runs edges (py current) (py r.1) r.2) (contour_loop fuel outline start fin count index c e')).
  { intros e' c i He. specialize (IH i c e'). destruct (contour_loop _ _ _ _ _ _ _ _) as [[c2 e2]| |]; try exact I.
    cbn in *. eapply runs_trans; eassumption. }
  destruct (on_curve control).
  - eapply ensures_bind; [apply add_edge_runs|]. intros e' He'. apply Hnext, He'.
  - apply ensures_skip. intros [next' i'] _. eapply ensures_bind; [apply add_quadratic_runs|]. intros e' He'.
    apply Hnext, He'.
Qed.

Lemma contour_runs outline start fin edges :
  ensures (fun e => forall y, odd_crossings y e = odd_crossings y edges) (contour_to_edges outline start fin edges).
Proof.
  unfold contour_to_edges. apply ensures_skip. intros _ _. apply ensures_skip. intros first _.
  apply ensures_skip. intros last _. apply ensures_skip. intros f _.
  eapply ensures_bind; [apply contour_loop_runs|]. intros [current e] He. cbn in He.
  pose proof (add_edge_runs e (px current) (py current) (px f) (py f)) as Ha.
  destruct (add_edge _ _ _ _ _) as [e'| |]; try exact I. intros y.
  rewrite (runs_trans _ _ _ _ _ _ He Ha). destruct (odd_crossings y edges), (py f <=? y); reflexivity.
Qed.

Lemma outline_edges_closed outline edges :
  outline_edges outline = Ok edges -> forall y, odd_crossings y edges = false.
Proof.
  intros H y. enough (G : forall l start e, ensures (fun e' => odd_crossings y e' = odd_crossings y e)
    (outline_edges_loop outline l start e)) by exact (ensures_ok _ _ _ (G _ _ _) H).
  induction l as [|fin l IH]; intros start e; cbn [outline_edges_loop]; [reflexivity|].
  eapply ensures_bind; [apply contour_runs|]. intros e' He'. cbn beta in He'.
  rewrite <- (He' y). apply IH.
Qed.

(** ** The even-odd rule *)

Lemma quot_between h w d : 0 <= h < d -> Z.min 0 w <= Z.quot (h * w) d <= Z.max 0 w.
Proof.
  intros Hh. destruct (Z.le_gt_cases 0 w).
  - rewrite Z.quot_div_nonneg by nia. pose proof (Z.div_pos (h * w) d ltac:(nia) ltac:(lia)).
    pose proof (Z.div_le_upper_bound (h * w) d w ltac:(lia) ltac:(nia)). lia.
  - replace (h * w) with (- (h * - w)) by lia. rewrite Z.quot_opp_l by lia. rewrite Z.quot_div_nonneg by nia.
    pose proof (Z.div_pos (h * - w) d ltac:(nia) ltac:(lia)).
    pose proof (Z.div_le_upper_bound (h * - w) d (- w) ltac:(lia) ltac:(nia)). lia.
Qed.

(** An edge flips only where it crosses the line, and where it does the meeting point
    lies between its ends. *)
Lemma edge_flips_spec e x y :
  ensures (fun b => if crosses y e then exists i, Z.min (x0 e) (x1 e) <= i <= Z.max (x0 e) (x1 e) /\ b = (i <=? x)
                    else b = false) (edge_flips e x y).
Proof.
  unfold edge_flips, crosses.
  assert (G : forall ax ay bx by_, ay <= by_ ->
    ensures (fun b => if xorb (ay <=? y) (by_ <=? y) then exists i, Z.min ax bx <= i <= Z.max ax bx /\ b = (i <=? x) else b = false)
      (if (y <? ay) || (by_ <=? y) then Ok false
       else h ← i32 (y - ay); w ← i32 (bx - ax); d ← i32 (by_ - ay);
            intersection ← i32 (ax + s32 (Z.quot (h * w) d)); Ok (intersection <=? x))).
  { intros ax ay bx by_ Hle. destruct (Z.ltb_spec y ay), (Z.leb_spec by_ y), (Z.leb_spec ay y); cbn; try lia; try reflexivity.
    apply ensures_skip. intros h Eh. apply ensures_skip. intros w Ew. apply ensures_skip. intros d Ed.
    apply i32_ok in Eh as [-> Hh], Ew as [-> Hw], Ed as [-> Hd].
    apply ensures_skip. intros i Ei. apply i32_ok in Ei as [-> Hi].
    pose proof (quot_between (y - ay) (bx - ax) (by_ - ay) ltac:(lia)).
    eexists. split; [|reflexivity]. rewrite swrap_small; [lia|lia|]. change (2 ^ (32 - 1)) with (2 ^ 31). lia. }
  destruct (Z.ltb_spec (y1 e) (y0 e)).
  - rewrite xorb_comm, Z.min_comm, Z.max_comm. apply G. lia.
  - apply G. lia.
Qed.

Lemma inside_left edges x y inside :
  Forall (fun e => x < x0 e /\ x < x1 e) edges -> ensures (eq inside) (inside_loop edges x y inside).
Proof.
  revert inside. induction edges as [|e edges IH]; intros inside H; cbn [inside_loop]; [reflexivity|].
  apply Forall_cons_iff in H as [He H]. eapply ensures_bind; [apply edge_flips_spec|]. intros b Hb. cbn beta in Hb.
  assert (b = false) as ->; [|apply IH, H]. destruct (crosses y e); [|exact Hb].
  destruct Hb as (i & Hi & ->). apply Z.leb_gt. lia.
Qed.

Lemma inside_right edges x y inside :
  Forall (fun e => x0 e <= x /\ x1 e <= x) edges ->
  ensures (eq (xorb inside (odd_crossings y edges))) (inside_loop edges x y inside).
Proof.
  revert inside. induction edges as [|e edges IH]; intros inside H; cbn [inside_loop odd_crossings].
  { destruct inside; reflexivity. }
  apply Forall_cons_iff in H as [He H]. eapply ensures_bind; [apply edge_flips_spec|]. intros b Hb. cbn beta in Hb.
  assert (b = crosses y e) as ->.
  { destruct (crosses y e); [|exact Hb]. destruct Hb as (i & Hi & ->). apply Z.leb_le. lia. }
  specialize (IH (if crosses y e then negb inside else inside) H).
  destruct (inside_loop _ _ _ _); try exact I. cbn in *. subst. destruct (crosses y e), inside, (odd_crossings y edges); reflexivity.
Qed.

(** A line beyond all ends is crossed by no edge. *)
Lemma inside_beyond edges x y inside :
  Forall (fun e => y < y0 e /\ y < y1 e \/ y0 e <= y /\ y1 e <= y) edges ->
  ensures (eq inside) (inside_loop edges x y inside).
Proof.
  revert inside. induction edges as [|e edges IH]; intros inside H; cbn [inside_loop]; [reflexivity|].
  apply Forall_cons_iff in H as [He H]. eapply ensures_bind; [apply edge_flips_spec|]. intros b Hb. cbn beta in Hb.
  assert (b = false) as ->; [|apply IH, H].
  replace (crosses y e) with false in Hb; [exact Hb|]. unfold crosses.
  destruct He; destruct (Z.leb_spec (y0 e) y), (Z.leb_spec (y1 e) y); cbn; lia || reflexivity.
Qed.

(** The bounding box of the edges does not contain the sample: it lies left of, right of,
    above or below all of them. *)
Definition outside_box (edges : list raster_edge) (x y : Z) : Prop :=
  Forall (fun e => x < x0 e /\ x < x1 e) edges \/ Forall (fun e => x0 e <= x /\ x1 e <= x) edges \/
  Forall (fun e => y < y0 e /\ y < y1 e) edges \/ Forall (fun e => y0 e <= y /\ y1 e <= y) edges.

Lemma outside_box_not_inside outline edges x y b :
  outline_edges outline = Ok edges -> outside_box edges x y ->
  point_inside_outline edges x y = Ok b -> b = false.
Proof.
  intros Ho Hb Hp. unfold point_inside_outline in Hp. symmetry.
  destruct Hb as [H|[H|[H|H]]].
  - apply (ensures_ok _ _ _ (inside_left edges x y false H) Hp).
  - pose proof (ensures_ok _ _ _ (inside_right edges x y false H) Hp) as E.
    rewrite (outline_edges_closed _ _ Ho y) in E. exact E.
  - apply (ensures_ok (eq false) _ _ (inside_beyond edges x y false (List.Forall_impl _ (fun e h => or_introl h) H)) Hp).
  - apply (ensures_ok (eq false) _ _ (inside_beyond edges x y false (List.Forall_impl _ (fun e h => or_intror h) H)) Hp).
Qed.
