(* ===== verification/FontBounds.v ===== *)
(** * The rasteriser's arithmetic stays in [int32_t]

    For a font whose design box is at least 160 units high, no [int32_t] of the scaling,
    the curves and the sampling overflows, and every cell has its 364 coverage bytes.
    Real fonts have boxes of some thousand units. *)

From S2P Require Import Prelude Outcome Font FontRaster FontSafe FontOutline.

(** ** Steps *)

Lemma div32_ok_pos a b : - 2 ^ 31 < a < 2 ^ 31 -> 0 < b -> div32 a b = Ok (Z.quot a b).
Proof.
  intros Ha Hb. unfold div32. destruct (Z.eqb_spec b 0); [lia|]. apply returns_i32.
  pose proof (Z.quot_abs a b ltac:(lia)) as E. rewrite (Z.abs_eq b) in E by lia.
  rewrite (Z.quot_div_nonneg (Z.abs a) b) in E by lia.
  pose proof (Z.div_le_upper_bound (Z.abs a) b (Z.abs a) ltac:(lia) ltac:(nia)). lia.
Qed.

(** Passes the next [i32] or [div32] whose argument [lia] shows in range. *)
Ltac int32 :=
  first [rewrite div32_ok_pos by lia | rewrite returns_i32 by lia]; cbn [mbind outcome_bind].

Lemma quot_bound a b B : - B <= a <= B -> 0 < b -> - (B / b) <= Z.quot a b <= B / b.
Proof.
  intros Ha Hb. pose proof (Z.quot_abs a b ltac:(lia)) as E. rewrite (Z.abs_eq b) in E by lia.
  rewrite (Z.quot_div_nonneg (Z.abs a) b) in E by lia.
  pose proof (Z.div_le_mono (Z.abs a) B b Hb ltac:(lia)). lia.
Qed.

Lemma scale_design_ok V value span :
  - V <= value <= V -> 24 * V + span < 2 ^ 31 -> 0 < span ->
  returns (fun r => - ((24 * V + span) / span) <= r <= (24 * V + span) / span) (scale_design value 24 span).
Proof.
  intros Hv HV Hs. unfold scale_design. int32. rewrite Z.quot_div_nonneg by lia.
  pose proof (Z.div_pos span 2 ltac:(lia) ltac:(lia)). pose proof (Z.div_le_upper_bound span 2 span ltac:(lia) ltac:(lia)).
  destruct (Z.leb_spec 0 value).
  - do 2 (rewrite returns_i32 by lia; cbn [mbind outcome_bind]). rewrite div32_ok_pos by lia. apply quot_bound; lia.
  - repeat int32.
    pose proof (quot_bound (- value * 24 + span / 2) span (24 * V + span) ltac:(lia) Hs).
    pose proof (Z.div_le_upper_bound (24 * V + span) span (24 * V + span) ltac:(lia) ltac:(nia)).
    rewrite returns_i32 by lia. cbn. lia.
Qed.

(** ** Metrics *)

Record metrics_ok (m : font_metrics) : Prop := {
  ok_scale : scale m = 24;
  ok_origin : origin_y m = 2;
  ok_span : 0 < design_span m < 2 ^ 17;
  ok_top : - 2 ^ 17 <= design_top m <= 2 ^ 17;
}.

Lemma design_box_ok file font :
  font_ok file font ->
  let '(top, bottom, gap) := design_box font in
  -32768 <= top < 65536 /\ -32768 <= bottom < 65536 /\ -32768 <= gap < 32768.
Proof.
  intros H. pose proof (ok_metrics _ _ H) as M. rewrite !Forall_cons_iff in M. unfold in_s16 in M.
  pose proof (ok_units _ _ H). unfold design_box.
  destruct (negb (typo_ascent font =? 0)), (negb (typo_descent font =? 0)), (negb (typo_line_gap font =? 0));
    cbn [fst snd]; repeat case_match; simplify_eq; lia.
Qed.

Definition bounds_in (b : Z * Z) : Prop := -32768 <= b.1 < 65536 /\ -32768 <= b.2 < 65536.

Lemma metrics_step_ok file font cp bounds :
  font_ok file font -> 0 <= cp -> bounds_in bounds ->
  returns (fun r => match r with Next b => bounds_in b | Exit _ => False end) (metrics_step file font cp bounds).
Proof.
  intros Hf Hcp Hb. unfold metrics_step.
  eapply returns_bind; [apply glyph_for_codepoint_ok; eassumption|]. intros g Hg. cbn beta in Hg.
  destruct (g =? 0); [exact Hb|].
  eapply returns_bind.
  { apply yields_attempt, load_outline_ok; assumption. }
  intros [o|] Ho; [|exact Hb]. cbn beta in Ho. cbn. unfold include_outline_bounds.
  destruct (_ || _); [exact Hb|]. pose proof (ok_bounds _ _ Ho) as B. rewrite !Forall_cons_iff in B.
  destruct bounds as [lo hi]. unfold bounds_in, in_s16 in *. cbn in *. repeat case_match; lia.
Qed.

Lemma build_font_metrics_ok file font : font_ok file font -> yields metrics_ok (build_font_metrics file font).
Proof.
  intros Hf. unfold build_font_metrics. pose proof (design_box_ok _ _ Hf) as Hd.
  destruct (design_box font) as [[top bottom] gap]. destruct Hd as (Ht & Hbt & Hg).
  eapply yields_returns.
  - apply (scan_out_returns (fun _ b => bounds_in b) (fun _ => False)); [unfold bounds_in; cbn; lia|].
    intros j t Hj Ht'. apply metrics_step_ok; [exact Hf|lia|exact Ht'].
  - intros [[lo hi]|u] H; [|destruct H]. unfold bounds_in in H. cbn in H. guarded.
    change (XBKS_TTY_FONT_HEIGHT - 4) with 24. change (XBKS_TTY_FONT_HEIGHT - 24) with 4.
    set (p := positive_or_default gap 0).
    assert (Hp : 0 <= p < 32768) by (unfold p, positive_or_default; case_match; to_prop; lia).
    do 2 (rewrite returns_i32 by lia; cbn [mbind outcome_bind]).
    destruct (Z.leb_spec (hi - lo + p) 0); [lia|]. guarded. int32. int32. rewrite (Z.quot_div_nonneg p 2) by lia.
    pose proof (Z.div_pos p 2 ltac:(lia) ltac:(lia)). pose proof (Z.div_le_upper_bound p 2 p ltac:(lia) ltac:(lia)).
    int32. constructor; cbn; lia || reflexivity.
Qed.

(** ** Scaling *)

(** The bound on scaled coordinates: curves multiply them by 64. *)
Definition cell_bound : Z := 2 ^ 25 - 1.

Lemma cell_width_ok file font o m :
  font_ok file font -> metrics_ok m -> in_s16 (advance_width o) -> returns (fun w => 1 <= w <= 12) (cell_width font o m).
Proof.
  intros Hf [Es Eo Hs Ht] Ha. unfold cell_width. rewrite Es. pose proof (ok_units _ _ Hf).
  pose proof (Z.div_pos (units_per_em font) 2 ltac:(lia) ltac:(lia)).
  pose proof (Z.div_le_upper_bound (units_per_em font) 2 65536 ltac:(lia) ltac:(lia)).
  eapply returns_bind.
  - apply (scale_design_ok 65536); [destruct (_ <=? 0); unfold in_s16 in *; lia|lia|lia].
  - intros w _. cbn. change (XBKS_TTY_FONT_WIDTH - 1) with 12. repeat case_match; to_prop; lia.
Qed.

Lemma scale_points_ok l m offset :
  metrics_ok m -> 160 <= design_span m -> 0 <= offset <= 13 -> Forall (coord_in (coord_bound 0)) l ->
  returns (fun l' => length l' = length l /\ Forall (coord_in cell_bound) l') (scale_points l offset m).
Proof.
  intros [Es Eo Hs Ht] Hspan Ho. unfold coord_bound, cell_bound.
  set (V := (384 + 8 - 0) * 32768 + 2 ^ 17).
  assert (HR : (24 * V + design_span m) / design_span m <= 1959500).
  { apply Z.div_le_upper_bound; unfold V; lia. }
  induction 1 as [|p l [Hx Hy] _ IH]; [split; [reflexivity|constructor]|]. cbn [scale_points]. rewrite Es, Eo.
  eapply returns_bind; [apply (scale_design_ok V); unfold V; lia|]. intros sx Hsx. cbn beta in Hsx.
  int32. int32. int32.
  eapply returns_bind; [apply (scale_design_ok V); unfold V; lia|]. intros sy Hsy. cbn beta in Hsy.
  int32. int32. eapply returns_bind; [exact IH|]. intros l' [El Hl']. cbn. split; [lia|].
  constructor; [|exact Hl']. split; cbn; lia.
Qed.

Lemma scale_outline_ok file font o m :
  font_ok file font -> metrics_ok m -> 160 <= design_span m -> outline_ok (coord_bound 0) o ->
  yields (fun s => point_count s = point_count o /\ contours s = contours o /\ Forall (coord_in cell_bound) (points s))
    (scale_outline_to_cell font o m).
Proof.
  intros Hf Hm Hs Ho. unfold scale_outline_to_cell. guarded.
  pose proof (ok_bounds _ _ Ho) as B. rewrite !Forall_cons_iff in B.
  eapply yields_returns; [eapply cell_width_ok; [eassumption..|tauto]|]. intros w Hw. cbn beta in Hw.
  eapply yields_returns.
  - apply (scale_points_ok _ _ _ Hm Hs); [|apply (ok_coords _ _ Ho)].
    change XBKS_TTY_FONT_WIDTH with 13. split; [apply Z.div_pos; lia|apply Z.div_le_upper_bound; lia].
  - intros l [El Hl]. cbn. unfold point_count. cbn. rewrite El. auto.
Qed.

(** ** Edges *)

Definition edge_in (e : raster_edge) : Prop :=
  (- cell_bound <= x0 e <= cell_bound /\ - cell_bound <= y0 e <= cell_bound) /\
  (- cell_bound <= x1 e <= cell_bound /\ - cell_bound <= y1 e <= cell_bound).

Lemma point_midpoint_ok a b :
  coord_in cell_bound a -> coord_in cell_bound b -> returns (coord_in cell_bound) (point_midpoint a b).
Proof.
  unfold coord_in, cell_bound. intros [Hax Hay] [Hbx Hby]. unfold point_midpoint. do 4 int32. cbn.
  pose proof (quot_bound (px a + px b) 2 (2 * (2 ^ 25 - 1)) ltac:(lia) ltac:(lia)).
  pose proof (quot_bound (py a + py b) 2 (2 * (2 ^ 25 - 1)) ltac:(lia) ltac:(lia)).
  change (2 * (2 ^ 25 - 1) / 2) with (2 ^ 25 - 1) in *. auto.
Qed.

Lemma add_edge_ok edges xa ya xb yb :
  Forall edge_in edges -> edge_in (Edge xa ya xb yb) -> yields (Forall edge_in) (add_edge edges xa ya xb yb).
Proof.
  intros H He. unfold add_edge. destruct (ya =? yb); [exact H|]. guarded. cbn. apply Forall_app. auto.
Qed.

Lemma quadratic_at_ok i c0 c1 c2 :
  1 <= i <= 8 -> - cell_bound <= c0 <= cell_bound -> - cell_bound <= c1 <= cell_bound ->
  - cell_bound <= c2 <= cell_bound -> returns (fun c => - cell_bound <= c <= cell_bound) (quadratic_at i c0 c1 c2).
Proof.
  unfold cell_bound. intros Hi H0 H1 H2. unfold quadratic_at, STEPS.
  assert (i = 1 \/ i = 2 \/ i = 3 \/ i = 4 \/ i = 5 \/ i = 6 \/ i = 7 \/ i = 8) as Hc by lia.
  repeat destruct Hc as [->|Hc]; try subst i; cbn [Z.sub Z.mul Z.add Z.opp Pos.mul Pos.add Z.pos_sub];
    do 5 (rewrite returns_i32 by lia; cbn [mbind outcome_bind]); rewrite div32_ok_pos by lia;
    apply (quot_bound _ 64 (64 * (2 ^ 25 - 1))); lia.
Qed.

Lemma add_quadratic_ok edges p0 p1 p2 :
  Forall edge_in edges -> coord_in cell_bound p0 -> coord_in cell_bound p1 -> coord_in cell_bound p2 ->
  yields (Forall edge_in) (add_quadratic edges p0 p1 p2).
Proof.
  intros He [Hx0 Hy0] [Hx1 Hy1] [Hx2 Hy2]. unfold add_quadratic. eapply yields_bind.
  - apply (scan_out_yields (fun _ st => let '(x, y, e) := st in
      - cell_bound <= x <= cell_bound /\ - cell_bound <= y <= cell_bound /\ Forall edge_in e) (fun _ => False)); [auto|].
    intros i [[x y] e] Hi (Hx & Hy & Hf). unfold quadratic_step.
    eapply yields_returns; [apply quadratic_at_ok; assumption || lia|]. intros x' Hx'.
    eapply yields_returns; [apply quadratic_at_ok; assumption || lia|]. intros y' Hy'. cbn beta in *.
    eapply yields_bind; [apply add_edge_ok; [exact Hf|repeat split; cbn; lia]|]. intros e' He'. cbn. auto.
  - intros [[[x y] e]|u] H; [|destruct H]. apply H.
Qed.

Lemma point_at_ok B o i :
  Forall (coord_in B) (points o) -> 0 <= i < point_count o -> returns (coord_in B) (point_at o i).
Proof.
  intros H Hi. unfold point_at. destruct (lookup_lt_is_Some_2 (points o) (Z.to_nat i)) as [p E]; [unfold point_count in Hi; lia|].
  rewrite E. apply (proj1 (list.Forall_lookup _ _) H _ _ E).
Qed.

Lemma contour_loop_ok o start fin fuel : forall index current edges,
  Forall (coord_in cell_bound) (points o) -> 0 <= start <= fin -> fin < point_count o ->
  start <= index -> fin - index + 1 <= Z.of_nat fuel -> coord_in cell_bound current -> Forall edge_in edges ->
  yields (fun r => coord_in cell_bound r.1 /\ Forall edge_in r.2)
    (contour_loop fuel o start fin (fin - start + 1) index current edges).
Proof.
  induction fuel as [|fuel IH]; intros index current edges Hp Hs Hf Hi Hfuel Hc He; cbn [contour_loop].
  { destruct (Z.leb_spec index fin); [lia|]. split; assumption. }
  destruct (Z.leb_spec index fin); [|split; assumption].
  eapply yields_returns; [apply (point_at_ok cell_bound); [exact Hp|lia]|]. intros control Hcontrol.
  pose proof (Z.mod_pos_bound (index - start + 1) (fin - start + 1) ltac:(lia)).
  eapply yields_returns; [apply (point_at_ok cell_bound); [exact Hp|lia]|]. intros next Hnext.
  destruct (on_curve control).
  - eapply yields_bind; [apply add_edge_ok; [exact He|split; assumption]|]. intros e' He'.
    apply IH; assumption || lia.
  - eapply (yields_returns (fun r => coord_in cell_bound r.1 /\ index <= r.2)).
    + destruct (negb _); [|split; [exact Hnext|cbn; lia]].
      eapply returns_bind; [apply (point_midpoint_ok control next); assumption|]. intros m Hm. split; [exact Hm|cbn; lia].
    + intros [next' i'] [Hn' Hi']. cbn in Hn', Hi'.
      eapply yields_bind; [apply add_quadratic_ok; eassumption|]. intros e' He'. apply IH; assumption || lia.
Qed.

Lemma contour_to_edges_ok o start fin edges :
  Forall (coord_in cell_bound) (points o) -> 0 <= start -> Forall edge_in edges ->
  yields (Forall edge_in) (contour_to_edges o start fin edges).
Proof.
  intros Hp Hs He. unfold contour_to_edges. guarded.
  eapply yields_returns; [apply (point_at_ok cell_bound); [exact Hp|lia]|]. intros first Hfirst.
  eapply yields_returns; [apply (point_at_ok cell_bound); [exact Hp|lia]|]. intros last Hlast.
  eapply (yields_returns (coord_in cell_bound)).
  { destruct (negb _); [|exact Hfirst]. destruct (on_curve last); [exact Hlast|apply point_midpoint_ok; assumption]. }
  intros f Hf.
  eapply yields_bind; [apply contour_loop_ok; assumption || lia|]. intros [current e] [Hc He']. cbn in Hc, He'.
  apply add_edge_ok; [exact He'|split; assumption].
Qed.

Lemma outline_edges_ok o :
  Forall (coord_in cell_bound) (points o) -> Forall (fun e => 0 <= e) (contours o) ->
  yields (Forall edge_in) (outline_edges o).
Proof.
  intros Hp Hc. unfold outline_edges.
  enough (G : forall l start e, Forall (fun e => 0 <= e) l -> 0 <= start -> Forall edge_in e ->
    yields (Forall edge_in) (outline_edges_loop o l start e)) by (apply G; [exact Hc|lia|constructor]).
  induction l as [|fin l IH]; intros start e Hl Hs He; cbn [outline_edges_loop]; [exact He|].
  apply Forall_cons_iff in Hl as [Hfin Hl]. cbn beta in Hfin.
  eapply yields_bind; [apply contour_to_edges_ok; eassumption|]. intros e' He'. apply IH; [exact Hl|lia|exact He'].
Qed.

(** ** Sampling *)

Lemma flips_ok ax ay bx by_ x y :
  - cell_bound <= ax <= cell_bound -> - cell_bound <= ay <= cell_bound -> - cell_bound <= bx <= cell_bound ->
  - cell_bound <= by_ <= cell_bound -> ay <= y < by_ ->
  returns (fun _ => True) (h ← i32 (y - ay); w ← i32 (bx - ax); d ← i32 (by_ - ay);
    intersection ← i32 (ax + s32 (Z.quot (h * w) d)); Ok (intersection <=? x)).
Proof.
  unfold cell_bound. intros Hax Hay Hbx Hby Hy. do 3 (rewrite returns_i32 by lia; cbn [mbind outcome_bind]).
  assert (Hq : - (2 ^ 26) <= Z.quot ((y - ay) * (bx - ax)) (by_ - ay) <= 2 ^ 26).
  { pose proof (quot_bound ((y - ay) * (bx - ax)) (by_ - ay) (2 ^ 26 * (by_ - ay)) ltac:(nia) ltac:(lia)) as Hq.
    rewrite Z.div_mul in Hq by lia. exact Hq. }
  rewrite swrap_small by (change (2 ^ (32 - 1)) with (2 ^ 31); lia). rewrite returns_i32 by lia. exact I.
Qed.

Lemma edge_flips_ok e x y : edge_in e -> returns (fun _ => True) (edge_flips e x y).
Proof.
  intros [[Hx0 Hy0] [Hx1 Hy1]]. unfold edge_flips.
  destruct (_ <? _); destruct (_ || _) eqn:E; try exact I; to_prop; apply flips_ok; assumption || lia.
Qed.

Lemma inside_ok edges x y inside :
  Forall edge_in edges -> returns (fun _ => True) (inside_loop edges x y inside).
Proof.
  intros H. revert inside. induction H as [|e edges He _ IH]; intros inside; cbn [inside_loop]; [exact I|].
  eapply returns_bind; [apply edge_flips_ok, He|]. intros b _. apply IH.
Qed.

Lemma covered_loop_ok edges x y l : forall covered,
  Forall edge_in edges -> 0 <= covered ->
  returns (fun c => 0 <= c <= covered + Z.of_nat (length l)) (covered_loop edges x y l covered).
Proof.
  induction l as [|[sx sy] l IH]; intros covered He Hc; cbn [covered_loop]; [cbn; lia|].
  eapply returns_bind; [apply inside_ok, He|]. intros b _. cbn [length].
  eapply returns_mono; [apply IH; [exact He|destruct b; lia]|]. cbn. destruct b; lia.
Qed.

Lemma rasterize_coverage_ok edges x y :
  Forall edge_in edges -> returns (fun c => 0 <= c < 256) (rasterize_coverage edges x y).
Proof.
  intros He. unfold rasterize_coverage. eapply returns_bind; [apply covered_loop_ok; [exact He|lia]|].
  intros c _. apply (uwrap_range 8). lia.
Qed.

Lemma map_out_ok {A} (P : A -> Prop) n i f :
  (forall j, returns P (f j)) -> returns (fun l => length l = n /\ Forall P l) (map_out n i f).
Proof.
  intros Hf. revert i. induction n as [|n IH]; intros i; cbn [map_out]; [split; [reflexivity|constructor]|].
  eapply returns_bind; [apply Hf|]. intros a Ha. eapply returns_bind; [apply IH|]. intros l [El Hl].
  cbn. split; [lia|]. constructor; assumption.
Qed.

(** ** Cells *)

(** The 13 by 28 coverage values of a character. *)
Definition cell (rows : list Z) : Prop := length rows = 364%nat /\ Forall (fun c => 0 <= c < 256) rows.

Lemma concat_length {A} n (l : list (list A)) :
  Forall (fun r => length r = n) l -> length (concat l) = (length l * n)%nat.
Proof. induction 1 as [|r l Hr _ IH]; cbn; [reflexivity|]. rewrite length_app. lia. Qed.

Lemma rasterize_cell_ok edges : Forall edge_in edges -> returns cell (rasterize_cell edges).
Proof.
  intros He. unfold rasterize_cell. eapply returns_bind.
  - apply (map_out_ok (fun r => length r = 13%nat /\ Forall (fun c => 0 <= c < 256) r)). intros y.
    apply (map_out_ok (fun c => 0 <= c < 256) 13). intros x. apply rasterize_coverage_ok, He.
  - intros rows [El Hr]. split.
    + rewrite (concat_length 13); [rewrite El; reflexivity|]. eapply List.Forall_impl; [|exact Hr]. cbn. tauto.
    + apply Forall_concat. eapply List.Forall_impl; [|exact Hr]. cbn. tauto.
Qed.

Lemma blank_cell_ok : cell blank_cell.
Proof. split; [reflexivity|]. apply Forall_replicate. lia. Qed.

Lemma missing_cell_ok : cell draw_missing_glyph.
Proof.
  split; [vm_compute; reflexivity|]. apply List.Forall_forall. intros c Hc.
  assert (H : forallb (fun c => (0 <=? c) && (c <? 256)) draw_missing_glyph = true) by (vm_compute; reflexivity).
  rewrite forallb_forall in H. specialize (H c Hc). cbn beta in H. to_prop. lia.
Qed.

Lemma rasterize_glyph_ok file font m cp :
  font_ok file font -> metrics_ok m -> 160 <= design_span m -> 0 <= cp -> yields cell (rasterize_glyph file font m cp).
Proof.
  intros Hf Hm Hs Hcp. unfold rasterize_glyph. destruct (cp =? 32); [apply blank_cell_ok|].
  eapply yields_returns; [apply glyph_for_codepoint_ok; eassumption|]. intros g Hg.
  apply yields_require. intros _.
  eapply yields_bind; [apply load_outline_ok; eassumption|]. intros o Ho.
  apply yields_require. intros _.
  eapply yields_bind; [eapply scale_outline_ok; eassumption|]. intros s (Ep & Ec & Hp).
  eapply yields_bind.
  - apply outline_edges_ok; [exact Hp|]. rewrite Ec. eapply List.Forall_impl; [|exact (cuts_bound _ _ _ (ok_cuts _ _ Ho))].
    cbn. lia.
  - intros e He. apply returns_yields, rasterize_cell_ok, He.
Qed.

(** The printable characters without a glyph, in order and at most once. *)
Definition failed_ok (i : Z) (failed : list Z) : Prop :=
  Forall (fun c => 0x21 <= c <= 0x7e) failed /\ Z.of_nat (length failed) <= Z.max 0 (Z.min i 0x7f - 0x21).

Definition cells_ok (i : Z) (c : cells) : Prop :=
  Z.of_nat (length (alpha c)) = i * 364 /\ Forall (fun v => 0 <= v < 256) (alpha c) /\ 0 <= rendered c <= i /\
  failed_ok i (failed_ascii c).

Lemma render_step_ok file font m i c :
  font_ok file font -> metrics_ok m -> 160 <= design_span m -> 0 <= i -> cells_ok i c ->
  returns (fun r => match r with Next c' => cells_ok (i + 1) c' | Exit _ => False end) (render_step file font m i c).
Proof.
  intros Hf Hm Hs Hi (Hl & Ha & Hr & Hfa & Hfl). unfold render_step.
  eapply returns_bind; [apply yields_attempt, rasterize_glyph_ok; eassumption|].
  intros [rows|] Hrows; cbn beta in Hrows.
  - destruct Hrows as [El Hv]. cbn. unfold cells_ok, failed_ok. cbn. rewrite length_app.
    repeat split; try lia; [apply Forall_app; auto|exact Hfa].
  - destruct missing_cell_ok as [El Hv]. cbn [returns]. unfold cells_ok, failed_ok. cbn [alpha rendered failed_ascii]. rewrite length_app.
    split; [lia|]. split; [apply Forall_app; auto|]. split; [lia|].
    destruct (_ && _) eqn:E; [|split; [exact Hfa|lia]]. to_prop. split.
    + apply Forall_app. split; [exact Hfa|]. repeat constructor; lia.
    + rewrite length_app, Nat2Z.inj_add. cbn [length]. lia.
Qed.

Lemma render_font_ok file font m :
  font_ok file font -> metrics_ok m -> 160 <= design_span m -> returns (cells_ok 256) (render_font file font m).
Proof.
  intros Hf Hm Hs. unfold render_font. eapply returns_bind.
  - apply (scan_out_returns cells_ok (fun _ => False)).
    + repeat split; try (cbn; lia); constructor.
    + intros j c Hj Hc. apply render_step_ok; assumption || lia.
  - intros [c|u] H; [exact H|destruct H].
Qed.
