(* ===== verification/FontMap.v ===== *)
(** * The character map

    A subtable of the file as a list of segments (format 4) or groups (format 12), and the
    lookup of a character in it: the linear search with its early exit finds the one
    segment that covers the character. *)

From S2P Require Import Prelude Outcome Font FontSafe.

(** ** Searching sorted ranges

    [pick] is the loop of both formats on a list: leave with [None] at the first range
    that starts after [c], with the range at the first one that ends at or after it. *)
Section Ranges.
Context {A : Type} (first last : A -> Z).

Fixpoint pick (l : list A) (c : Z) : option A :=
  match l with
  | [] => None
  | a :: rest => if c <? first a then None else if last a <? c then pick rest c else Some a
  end.

Definition covers (c : Z) (a : A) : bool := (first a <=? c) && (c <=? last a).

(** Non-empty ranges in order, without overlap. *)
Fixpoint ranges_sorted (l : list A) : Prop :=
  match l with
  | [] => True
  | a :: rest => first a <= last a /\ Forall (fun b => last a < first b) rest /\ ranges_sorted rest
  end.

Lemma pick_find l c : ranges_sorted l -> pick l c = List.find (covers c) l.
Proof.
  induction l as [|a l IH]; cbn; [reflexivity|]. intros (Ha & Hl & Hs). unfold covers at 1.
  destruct (Z.ltb_spec c (first a)), (Z.leb_spec (first a) c); try lia; cbn.
  - destruct (List.find _ l) as [b|] eqn:E; [|reflexivity]. apply find_some in E as [Hb Hc].
    apply (proj1 (List.Forall_forall _ _) Hl) in Hb. unfold covers in Hc. to_prop. lia.
  - destruct (Z.ltb_spec (last a) c), (Z.leb_spec c (last a)); try lia; [apply IH, Hs|reflexivity].
Qed.

(** At most one range covers a character. *)
Lemma covers_unique l c a : ranges_sorted l -> In a l -> covers c a = true -> List.find (covers c) l = Some a.
Proof.
  induction l as [|b l IH]; cbn; [tauto|]. intros (Hb & Hl & Hs) Hin Hc. destruct Hin as [->|Hin].
  { rewrite Hc. reflexivity. }
  destruct (covers c b) eqn:E; [|apply IH; assumption].
  apply (proj1 (List.Forall_forall _ _) Hl) in Hin. unfold covers in *. to_prop. lia.
Qed.
End Ranges.

(** ** Tables in the file *)

(** [seg_glyphs] is the offset in the subtable of the glyph of the first character, when the
    segment has an array of glyphs. *)
Record segment := Segment { seg_start : Z; seg_end : Z; seg_delta : Z; seg_glyphs : option Z }.
Record group := Group { grp_start : Z; grp_end : Z; grp_glyph : Z }.

Section File.
Context (file : list Z).

(** Entry [i] of the four parallel arrays of a format 4 subtable at [p] with [n] segments;
    the last word is an offset from its own place. *)
Definition segment_at (p n i : Z) (s : segment) : Prop :=
  read_u16 file (p + 14 + i * 2) = Ok (seg_end s) /\
  read_u16 file (p + (14 + n * 2 + 2) + i * 2) = Ok (seg_start s) /\
  read_s16 file (p + (14 + n * 2 + 2 + n * 2) + i * 2) = Ok (seg_delta s) /\
  exists offset, read_u16 file (p + (14 + n * 2 + 2 + n * 2 + n * 2) + i * 2) = Ok offset /\
    seg_glyphs s = (if offset =? 0 then None else Some (14 + n * 2 + 2 + n * 2 + n * 2 + i * 2 + offset)).

(** The subtable of [size] bytes at [p] holds these segments. *)
Record holds_segments (p size : Z) (l : list segment) : Prop := {
  seg_count : read_u16 file (p + 6) = Ok (Z.of_nat (length l) * 2);
  seg_room : 16 + 8 * Z.of_nat (length l) <= size < 2 ^ 63;
  seg_entries : forall i s, l !! i = Some s -> segment_at p (Z.of_nat (length l)) (Z.of_nat i) s;
}.

(** Group [i] of a format 12 subtable. *)
Definition group_at (p i : Z) (g : group) : Prop :=
  read_u32 file (p + 16 + i * 12) = Ok (grp_start g) /\
  read_u32 file (p + 16 + i * 12 + 4) = Ok (grp_end g) /\
  read_u32 file (p + 16 + i * 12 + 8) = Ok (grp_glyph g).

Record holds_groups (p size : Z) (l : list group) : Prop := {
  grp_count : read_u32 file (p + 12) = Ok (Z.of_nat (length l));
  grp_room : 16 + 12 * Z.of_nat (length l) <= size < 2 ^ 63;
  grp_entries : forall i g, l !! i = Some g -> group_at p (Z.of_nat i) g;
}.

(** The glyph of a character: by the difference, or from the array of glyphs. *)
Definition segment_glyph (p size : Z) (s : segment) (c : Z) : Z :=
  match seg_glyphs s with
  | None => (c + seg_delta s) mod 2 ^ 16
  | Some first =>
      let at_ := first + (c - seg_start s) * 2 in
      if at_ + 2 <=? size then
        match read_u16 file (p + at_) with
        | Ok glyph => if glyph =? 0 then 0 else (glyph + seg_delta s) mod 2 ^ 16
        | _ => 0
        end
      else 0
  end.

Definition group_glyph (g : group) (c : Z) : Z :=
  let glyph := (grp_glyph g + c - grp_start g) mod 2 ^ 32 in if glyph <=? 0xffff then glyph else 0.

(** ** The loops *)

Lemma land_ffff x : u16 (Z.land x 0xffff) = x mod 2 ^ 16.
Proof. unfold uwrap. change 0xffff with (2 ^ 16 - 1). rewrite land_low by lia. apply Z.mod_mod. lia. Qed.

Lemma mod_32_16 x : (x mod 2 ^ 32) mod 2 ^ 16 = x mod 2 ^ 16.
Proof. apply Z.mod_mod_divide. exists (2 ^ 16). reflexivity. Qed.

Lemma add_delta32 x d : u16 (Z.land (u32 (x + u32 d)) 0xffff) = (x + d) mod 2 ^ 16.
Proof. rewrite land_ffff. unfold uwrap. rewrite mod_32_16, Z.add_mod, mod_32_16, <- Z.add_mod by lia. reflexivity. Qed.

Lemma add_delta16 x d : u16 (Z.land (x + u16 d) 0xffff) = (x + d) mod 2 ^ 16.
Proof. rewrite land_ffff. unfold uwrap. rewrite Z.add_mod, Z.mod_mod, <- Z.add_mod by lia. reflexivity. Qed.

(** What the functions answer after their loop. *)
Definition answer (r : ctl unit Z) : outcome Z := match r with Exit glyph => Ok glyph | Next _ => Ok 0 end.

Definition picked {A} (glyph : A -> Z) (o : option A) : Z := match o with Some a => glyph a | None => 0 end.

Lemma read_u16_nonneg p v : read_u16 file p = Ok v -> 0 <= v.
Proof.
  unfold read_u16. intros H.
  do 2 (match type of H with context [byte_at file ?q] => destruct (byte_at file q) end; cbn in H; try discriminate).
  injection H as <-. apply (uwrap_range 16). lia.
Qed.

Lemma format4_step p size n i cp s :
  subtable_in file (p, size) -> size < 2 ^ 63 -> 0 <= n -> 0 <= i -> segment_at p n i s ->
  cmap_format4_step file p size n cp i tt =
    Ok (if cp <? seg_start s then Exit 0 else if seg_end s <? cp then Next tt else Exit (segment_glyph p size s cp)).
Proof.
  intros (H0 & H1 & H2) Hsize Hn Hi (Ee & Es & Ed & offset & Eo & Eg). cbn in H0, H1, H2.
  unfold cmap_format4_step. cbv zeta. rewrite Ee, Es. cbn [mbind outcome_bind].
  destruct (Z.ltb_spec cp (seg_start s)); [reflexivity|]. destruct (seg_end s <? cp); [reflexivity|].
  rewrite Ed, Eo. cbn [mbind outcome_bind]. unfold segment_glyph. rewrite Eg. pose proof (read_u16_nonneg _ _ Eo).
  destruct (Z.eqb_spec offset 0) as [->|Hne]; [rewrite add_delta32; reflexivity|].
  rewrite range_is_valid_spec by lia.
  set (a := 14 + n * 2 + 2 + n * 2 + n * 2 + i * 2 + offset + (cp - seg_start s) * 2).
  destruct (Z.leb_spec (a + 2) size); [|reflexivity]. cbn [negb].
  destruct (proj1 (returns_iff _ _) (read_u16_ok file (p + a) ltac:(lia) ltac:(lia))) as (g & -> & Hg).
  cbn [mbind outcome_bind]. destruct (g =? 0); [reflexivity|]. rewrite add_delta16. reflexivity.
Qed.

Lemma format4_loop p size n cp l : forall i,
  subtable_in file (p, size) -> size < 2 ^ 63 -> 0 <= n -> 0 <= i ->
  (forall k s, l !! k = Some s -> segment_at p n (i + Z.of_nat k) s) ->
  scan_out (length l) i (cmap_format4_step file p size n cp) tt ≫= answer =
    Ok (picked (fun s => segment_glyph p size s cp) (pick seg_start seg_end l cp)).
Proof.
  induction l as [|s l IH]; intros i Hs Hsize Hn Hi Hl; [reflexivity|]. cbn [length scan_out pick].
  pose proof (Hl O s eq_refl) as Hsi. rewrite Z.add_0_r in Hsi.
  rewrite (format4_step p size n i cp s) by assumption. cbn [mbind outcome_bind].
  destruct (cp <? seg_start s); [reflexivity|]. destruct (seg_end s <? cp); [|reflexivity].
  apply IH; try assumption; [lia|]. intros k s' Hk.
  replace (i + 1 + Z.of_nat k) with (i + Z.of_nat (S k)) by lia. apply Hl, Hk.
Qed.

Lemma format12_step p i cp g :
  0 <= cp < 2 ^ 32 -> group_at p i g ->
  cmap_format12_step file p cp i tt =
    Ok (if cp <? grp_start g then Exit 0 else if grp_end g <? cp then Next tt else Exit (group_glyph g cp)).
Proof.
  intros Hcp (Es & Ee & Eg). unfold cmap_format12_step. cbv zeta. rewrite Es, Ee. cbn [mbind outcome_bind].
  destruct (Z.ltb_spec cp (grp_start g)); [reflexivity|].
  destruct (Z.leb_spec cp (grp_end g)), (Z.ltb_spec (grp_end g) cp); try lia; [|reflexivity].
  rewrite Eg. cbn [mbind outcome_bind]. unfold group_glyph, uwrap. rewrite Zminus_mod_idemp_l.
  destruct (Z.leb_spec ((grp_glyph g + cp - grp_start g) mod 2 ^ 32) 0xffff) as [Hle|]; [|reflexivity].
  rewrite (Z.mod_small _ (2 ^ 16)); [reflexivity|].
  pose proof (Z.mod_pos_bound (grp_glyph g + cp - grp_start g) (2 ^ 32)). lia.
Qed.

Lemma format12_loop p cp l : forall i,
  0 <= cp < 2 ^ 32 -> (forall k g, l !! k = Some g -> group_at p (i + Z.of_nat k) g) ->
  scan_out (length l) i (cmap_format12_step file p cp) tt ≫= answer =
    Ok (picked (fun g => group_glyph g cp) (pick grp_start grp_end l cp)).
Proof.
  induction l as [|g l IH]; intros i Hcp Hl; [reflexivity|]. cbn [length scan_out pick].
  pose proof (Hl O g eq_refl) as Hg. rewrite Z.add_0_r in Hg.
  rewrite (format12_step p i cp g) by assumption. cbn [mbind outcome_bind].
  destruct (cp <? grp_start g); [reflexivity|]. destruct (grp_end g <? cp); [|reflexivity].
  apply IH; [exact Hcp|]. intros k g' Hk.
  replace (i + 1 + Z.of_nat k) with (i + Z.of_nat (S k)) by lia. apply Hl, Hk.
Qed.

(** ** The lookups *)

Lemma format4_pick p size l cp :
  subtable_in file (p, size) -> holds_segments p size l -> 0 <= cp <= 0xffff ->
  cmap_format4_glyph file p size cp = Ok (picked (fun s => segment_glyph p size s cp) (pick seg_start seg_end l cp)).
Proof.
  intros Hs [Hc Hr He] Hcp. unfold cmap_format4_glyph.
  destruct (Z.ltb_spec 0xffff cp), (Z.ltb_spec size 16); try lia. cbn [orb]. rewrite Hc. cbn [mbind outcome_bind].
  rewrite Z.div_mul by lia. set (n := Z.of_nat (length l)) in *. rewrite range_is_valid_spec by lia.
  destruct (Z.leb_spec (14 + n * 2 + 2 + n * 2 + n * 2 + n * 2) size); [|lia]. cbn [negb].
  unfold n. rewrite Nat2Z.id. apply (format4_loop p size n cp l 0); try lia; assumption.
Qed.

Lemma format12_pick p size l cp :
  holds_groups p size l -> 0 <= cp < 2 ^ 32 ->
  cmap_format12_glyph file p size cp = Ok (picked (fun g => group_glyph g cp) (pick grp_start grp_end l cp)).
Proof.
  intros [Hc Hr He] Hcp. unfold cmap_format12_glyph. destruct (Z.ltb_spec size 16); [lia|].
  rewrite Hc. cbn [mbind outcome_bind]. rewrite range_is_valid_spec by lia.
  destruct (Z.leb_spec (16 + Z.of_nat (length l) * 12) size); [|lia]. cbn [negb]. rewrite Nat2Z.id.
  apply (format12_loop p cp l 0); [exact Hcp|exact He].
Qed.

(** A character map in either format, and the glyph it gives by the one range that covers
    the character; format 4 has no characters above [0xffff]. *)
Inductive charmap := Map4 (l : list segment) | Map12 (l : list group).

Definition holds_map (p size : Z) (m : charmap) : Prop :=
  match m with
  | Map4 l => read_u16 file p = Ok 4 /\ holds_segments p size l /\ ranges_sorted seg_start seg_end l
  | Map12 l => read_u16 file p = Ok 12 /\ holds_groups p size l /\ ranges_sorted grp_start grp_end l
  end.

Definition char_glyph (p size : Z) (m : charmap) (c : Z) : Z :=
  match m with
  | Map4 l => if 0xffff <? c then 0
              else picked (fun s => segment_glyph p size s c) (List.find (covers seg_start seg_end c) l)
  | Map12 l => picked (fun g => group_glyph g c) (List.find (covers grp_start grp_end c) l)
  end.

Lemma glyph_for_codepoint_find font p m c :
  cmap_subtable font = Some p -> subtable_in file (p, cmap_subtable_size font) ->
  holds_map p (cmap_subtable_size font) m -> 0 <= c < 2 ^ 32 ->
  glyph_for_codepoint file font c = Ok (char_glyph p (cmap_subtable_size font) m c).
Proof.
  intros Ep Hs Hm Hc. unfold glyph_for_codepoint. rewrite Ep. set (size := cmap_subtable_size font) in *.
  destruct m as [l|l]; destruct Hm as (Ef & Hl & Hr); rewrite Ef.
  - pose proof (seg_room _ _ _ Hl). destruct (Z.ltb_spec size 2); [lia|]. cbn [mbind outcome_bind Z.eqb].
    cbn [char_glyph]. change (4 =? 4) with true. cbv iota. destruct (Z.ltb_spec 0xffff c).
    + unfold cmap_format4_glyph. rewrite (proj2 (Z.ltb_lt _ _)) by lia. reflexivity.
    + rewrite (format4_pick p size l) by (assumption || lia). rewrite pick_find by exact Hr. reflexivity.
  - pose proof (grp_room _ _ _ Hl). destruct (Z.ltb_spec size 2); [lia|]. cbn [mbind outcome_bind].
    rewrite (format12_pick p size l) by assumption. rewrite pick_find by exact Hr. reflexivity.
Qed.
End File.
