(* ===== verification/FontGlyph.v ===== *)
(** * Writing a simple glyph and loading it back

    A glyph as a font editor has it is a list of contours; [glyph_bytes] is its TrueType
    encoding, with any instructions and any way of run-length encoding the flags, and
    [load_simple_outline] reads the contours back. *)

From S2P Require Import Prelude Outcome Font FontSafe.

(** ** The encoding *)

Definition be16 (v : Z) : list Z := [v / 256 mod 256; v mod 256].

(** A coordinate is stored as the difference to the one before: nothing for zero, one byte
    below 256, else two. *)
Definition short_delta (d : Z) : bool := negb (d =? 0) && (Z.abs d <? 256).
Definition coord_bytes (d : Z) : list Z :=
  if d =? 0 then [] else if Z.abs d <? 256 then [Z.abs d] else be16 d.

Definition x_flags (d : Z) : Z := if d =? 0 then 16 else if Z.abs d <? 256 then if 0 <? d then 18 else 2 else 0.
Definition y_flags (d : Z) : Z := if d =? 0 then 32 else if Z.abs d <? 256 then if 0 <? d then 36 else 4 else 0.

Fixpoint deltas (prev : Z) (l : list Z) : list Z :=
  match l with [] => [] | v :: rest => v - prev :: deltas v rest end.

Fixpoint point_flags (xs ys : list Z) (ps : list glyph_point) : list Z :=
  match xs, ys, ps with
  | dx :: xs, dy :: ys, p :: ps =>
      (if on_curve p then 1 else 0) + x_flags dx + y_flags dy :: point_flags xs ys ps
  | _, _, _ => []
  end.

(** Runs of equal flags: the flag and how often it is repeated. *)
Definition run_flags (r : Z * nat) : list Z := replicate (S r.2) r.1.
Definition run_bytes (r : Z * nat) : list Z :=
  match r.2 with O => [r.1] | n => [r.1 + 8; Z.of_nat n] end.

Fixpoint contour_ends (n : Z) (cs : list (list glyph_point)) : list Z :=
  match cs with
  | [] => []
  | c :: rest => n + Z.of_nat (length c) - 1 :: contour_ends (n + Z.of_nat (length c)) rest
  end.

Definition glyph_bytes (bbox : Z * Z * Z * Z) (cs : list (list glyph_point)) (instructions : list Z)
    (runs : list (Z * nat)) : list Z :=
  let '(xmin, ymin, xmax, ymax) := bbox in
  let ps := concat cs in
  (be16 (Z.of_nat (length cs)) ++ be16 xmin ++ be16 ymin ++ be16 xmax ++ be16 ymax) ++
  concat (map be16 (contour_ends 0 cs)) ++
  be16 (Z.of_nat (length instructions)) ++ instructions ++
  concat (map run_bytes runs) ++
  concat (map coord_bytes (deltas 0 (map px ps))) ++
  concat (map coord_bytes (deltas 0 (map py ps))).

(** What the encoding and the loader's arrays can hold. *)
Record encodable (cs : list (list glyph_point)) (instructions : list Z) (runs : list (Z * nat)) : Prop := {
  enc_contours : (1 <= length cs <= 64)%nat;
  enc_nonempty : Forall (fun c => c <> []) cs;
  enc_points : (length (concat cs) <= 384)%nat;
  enc_x : Forall in_s16 (map px (concat cs)) /\ Forall in_s16 (deltas 0 (map px (concat cs)));
  enc_y : Forall in_s16 (map py (concat cs)) /\ Forall in_s16 (deltas 0 (map py (concat cs)));
  enc_instructions : Z.of_nat (length instructions) < 65536;
  enc_runs : concat (map run_flags runs) =
    point_flags (deltas 0 (map px (concat cs))) (deltas 0 (map py (concat cs))) (concat cs);
  enc_repeat : Forall (fun r => (r.2 < 256)%nat) runs;
}.

Section File.
Context (file : list Z).

(** The bytes [l] stand at [p]. *)
Definition bytes_in (p : Z) (l : list Z) : Prop := forall i b, l !! i = Some b -> byte_at file (p + Z.of_nat i) = Ok b.

Lemma bytes_in_app p a b : bytes_in p (a ++ b) <-> bytes_in p a /\ bytes_in (p + Z.of_nat (length a)) b.
Proof.
  unfold bytes_in. split.
  - intros H. split; intros i c Hi; [apply H, lookup_app_l_Some, Hi|].
    replace (p + Z.of_nat (length a) + Z.of_nat i) with (p + Z.of_nat (length a + i)) by lia.
    apply H. rewrite lookup_app_r by lia. rewrite <- Hi. f_equal. lia.
  - intros [Ha Hb] i c Hi. apply lookup_app_Some in Hi as [Hi|[Hl Hi]]; [apply Ha, Hi|].
    replace (p + Z.of_nat i) with (p + Z.of_nat (length a) + Z.of_nat (i - length a)) by lia. apply Hb, Hi.
Qed.

Lemma bytes_in_cons p b l : bytes_in p (b :: l) <-> byte_at file p = Ok b /\ bytes_in (p + 1) l.
Proof.
  rewrite (bytes_in_app p [b] l). cbn [length]. split; intros [H1 H2]; (split; [|exact H2]).
  - specialize (H1 O b eq_refl). rewrite Z.add_0_r in H1. exact H1.
  - intros [|i] c Hi; [|discriminate]. injection Hi as <-. rewrite Z.add_0_r. exact H1.
Qed.

Lemma read_be16 p v : bytes_in p (be16 v) -> read_u16 file p = Ok (v mod 65536).
Proof.
  unfold be16. rewrite !bytes_in_cons. intros (H0 & H1 & _). unfold read_u16. rewrite H0, H1. cbn [mbind outcome_bind].
  f_equal. rewrite Z.shiftl_mul_pow2 by lia. rewrite (lor_disjoint 8).
  - change 65536 with (256 * 256). change (2 ^ 8) with 256. unfold uwrap. change (2 ^ 16) with (256 * 256).
    rewrite (Z.rem_mul_r v 256 256) by lia.
    pose proof (Z.mod_pos_bound v 256). pose proof (Z.mod_pos_bound (v / 256) 256).
    rewrite Z.mod_small by lia. lia.
  - lia.
  - apply Z.mod_mul. lia.
  - apply Z.mod_pos_bound. lia.
Qed.

Lemma read_be16_small p v : bytes_in p (be16 v) -> 0 <= v < 65536 -> read_u16 file p = Ok v.
Proof. intros H Hv. rewrite (read_be16 p v H), Z.mod_small by lia. reflexivity. Qed.

Lemma read_be16_signed p v : bytes_in p (be16 v) -> in_s16 v -> read_s16 file p = Ok v.
Proof.
  intros H Hv. unfold read_s16. rewrite (read_be16 p v H). cbn [mbind outcome_bind]. f_equal.
  unfold swrap, in_s16 in *. change (2 ^ (16 - 1)) with 32768. change (2 ^ 16) with 65536.
  rewrite Z.add_mod_idemp_l, Z.mod_small by lia. lia.
Qed.

(** The same at an address written differently. *)
Lemma read_u16_at q p v : bytes_in q (be16 v) -> 0 <= v < 65536 -> p = q -> read_u16 file p = Ok v.
Proof. intros H Hv ->. apply read_be16_small; assumption. Qed.

Lemma read_s16_at q p v : bytes_in q (be16 v) -> in_s16 v -> p = q -> read_s16 file p = Ok v.
Proof. intros H Hv ->. apply read_be16_signed; assumption. Qed.

Lemma bytes_in_at q p l : bytes_in q l -> p = q -> bytes_in p l.
Proof. intros H ->. exact H. Qed.

Lemma length_be16s l : length (concat (map be16 l)) = (2 * length l)%nat.
Proof. induction l as [|v l IH]; cbn; lia. Qed.

(** ** Ends of contours *)

(** Increasing, above [prev] and in range. *)
Fixpoint rising (prev : Z) (l : list Z) : Prop :=
  match l with [] => True | e :: rest => prev < e < 65536 /\ rising e rest end.

Lemma end_points_read p l : forall acc prev,
  bytes_in (p + Z.of_nat (length acc) * 2) (concat (map be16 l)) -> rising prev l -> -1 <= prev ->
  (acc <> [] -> default 0 (list.last acc) = prev) ->
  scan_out (length l) (Z.of_nat (length acc)) (end_points_step file p) acc = Ok (Next (acc ++ l)).
Proof.
  induction l as [|e l IH]; intros acc prev Hb Hr Hprev Hacc; cbn [length scan_out]; [rewrite app_nil_r; reflexivity|].
  cbn [concat map] in Hb. apply bytes_in_app in Hb as [He Hl]. destruct Hr as [He2 Hr].
  assert (Hg : negb (Z.of_nat (length acc) =? 0) && (e <=? default 0 (list.last acc)) = false).
  { destruct (Z.eqb_spec (Z.of_nat (length acc)) 0) as [|Hne]; [reflexivity|]. cbn.
    rewrite Hacc by (intros ->; apply Hne; reflexivity). apply Z.leb_gt. lia. }
  assert (Hstep : end_points_step file p (Z.of_nat (length acc)) acc = Ok (Next (acc ++ [e]))).
  { unfold end_points_step. rewrite (read_be16_small _ e He) by lia. cbn [mbind outcome_bind]. rewrite Hg. reflexivity. }
  rewrite Hstep. cbn [mbind outcome_bind]. specialize (IH (acc ++ [e]) e). rewrite length_app in IH. cbn [length] in IH.
  replace (Z.of_nat (length acc) + 1) with (Z.of_nat (length acc + 1)) by lia. rewrite IH.
  - rewrite <- app_assoc. reflexivity.
  - replace (p + Z.of_nat (length acc + 1) * 2) with (p + Z.of_nat (length acc) * 2 + 2) by lia. exact Hl.
  - exact Hr.
  - lia.
  - intros _. rewrite last_snoc. reflexivity.
Qed.

(** ** Flags *)

Lemma repeat_flag_full n count flag flags :
  Z.of_nat (length flags) + Z.of_nat n <= count ->
  repeat_flag n count flag flags = (O, flags ++ replicate n flag).
Proof.
  revert flags. induction n as [|n IH]; intros flags H; cbn [repeat_flag replicate]; [rewrite app_nil_r; reflexivity|].
  destruct (Z.ltb_spec (Z.of_nat (length flags)) count); [|lia].
  rewrite IH by (rewrite length_app; cbn; lia). rewrite <- app_assoc. reflexivity.
Qed.

(** The flags as the loader keeps them: with the repeat bit of their run. *)
Definition kept_flags (r : Z * nat) : list Z := match r.2 with O => [r.1] | n => replicate (S n) (r.1 + 8) end.

Lemma length_kept_flags r : length (kept_flags r) = length (run_flags r).
Proof. unfold kept_flags, run_flags. destruct (r.2); cbn; rewrite ?length_replicate; reflexivity. Qed.

(** A flag of [point_flags]: below 64 with the repeat bit clear. *)
Definition plain_flag (f : Z) : Prop := 0 <= f < 64 /\ has f GLYPH_REPEAT_FLAG = false /\ has (f + 8) GLYPH_REPEAT_FLAG = true.

Lemma flags_read p n runs : forall fuel cursor flags count,
  bytes_in (p + cursor) (concat (map run_bytes runs)) ->
  0 <= cursor -> cursor + Z.of_nat (length (concat (map run_bytes runs))) <= n < 2 ^ 63 ->
  count = Z.of_nat (length flags) + Z.of_nat (length (concat (map run_flags runs))) ->
  Z.of_nat (length (concat (map run_flags runs))) <= Z.of_nat fuel ->
  Forall (fun r => (r.2 < 256)%nat /\ plain_flag r.1) runs ->
  flags_loop file fuel p n count cursor flags =
    Ok (flags ++ concat (map kept_flags runs), cursor + Z.of_nat (length (concat (map run_bytes runs)))).
Proof.
  induction runs as [|r runs IH]; intros fuel cursor flags count Hb Hc Hn Hcount Hfuel Hr.
  { cbn in *. rewrite app_nil_r, Z.add_0_r. destruct fuel; cbn [flags_loop]; rewrite (proj2 (Z.ltb_ge _ _)) by lia; reflexivity. }
  cbn [map concat] in *. apply Forall_cons_iff in Hr as [[Hr256 (Hf & Hf0 & Hf8)] Hr].
  rewrite !length_app in *. apply bytes_in_app in Hb as [Hb1 Hb2].
  assert (Hlr : length (run_flags r) = S (r.2)) by apply length_replicate.
  destruct fuel as [|fuel]; [lia|]. cbn [flags_loop]. rewrite (proj2 (Z.ltb_lt _ _)) by lia.
  destruct r as [f k]. cbn [fst snd] in *. destruct k as [|k].
  - change (run_bytes (f, O)) with [f] in *. change (kept_flags (f, O)) with [f]. apply bytes_in_cons in Hb1 as [Hb1 _]. cbn [length] in *.
    rewrite (range_valid n cursor 1) by lia. cbn [require mbind outcome_bind]. rewrite Hb1. cbn [mbind outcome_bind].
    rewrite Hf0. rewrite IH; try assumption; try (rewrite ?length_app; cbn [length]; lia).
    + rewrite <- app_assoc. cbn [app]. do 2 f_equal. lia.
    + replace (p + (cursor + 1)) with (p + cursor + Z.of_nat 1) by lia. exact Hb2.
  - change (run_bytes (f, S k)) with [f + 8; Z.of_nat (S k)] in *.
    change (kept_flags (f, S k)) with ([f + 8] ++ replicate (S k) (f + 8)). rewrite !bytes_in_cons in Hb1. destruct Hb1 as (Hb1 & Hb1' & _). cbn [length] in *.
    rewrite (range_valid n cursor 1) by lia. cbn [require mbind outcome_bind]. rewrite Hb1. cbn [mbind outcome_bind].
    rewrite Hf8, range_valid by lia. cbn [require mbind outcome_bind].
    replace (p + (cursor + 1)) with (p + cursor + 1) by lia. rewrite Hb1'. cbn [mbind outcome_bind].
    rewrite Nat2Z.id, repeat_flag_full by (rewrite length_app; cbn [length]; lia). cbn [Nat.eqb require mbind outcome_bind].
    rewrite IH; try assumption; try (rewrite ?length_app, ?length_replicate; cbn [length]; lia).
    + rewrite <- !app_assoc. cbn [app replicate]. do 2 f_equal. lia.
    + replace (p + (cursor + 1 + 1)) with (p + cursor + Z.of_nat 2) by lia. exact Hb2.
Qed.

(** ** Coordinates *)

(** The flag announces the encoding of the difference. *)
Definition announces (short same f d : Z) : Prop :=
  has f short = short_delta d /\ has f same = (d =? 0) || ((0 <? d) && (Z.abs d <? 256)).

Lemma coordinates_read short same p n flags : forall l cursor prev,
  Forall2 (announces short same) flags (deltas prev l) -> Forall in_s16 l -> Forall in_s16 (deltas prev l) ->
  bytes_in (p + cursor) (concat (map coord_bytes (deltas prev l))) ->
  0 <= cursor -> cursor + Z.of_nat (length (concat (map coord_bytes (deltas prev l)))) <= n < 2 ^ 63 ->
  coordinates_loop file short same p n flags cursor prev =
    Ok (l, cursor + Z.of_nat (length (concat (map coord_bytes (deltas prev l))))).
Proof.
  induction flags as [|f flags IH]; intros l cursor prev Ha Hl Hd Hb Hc Hn.
  { destruct l; [|inversion Ha]. cbn. rewrite Z.add_0_r. reflexivity. }
  destruct l as [|v l]; [inversion Ha|]. cbn [deltas map concat] in *. set (d := v - prev) in *.
  apply Forall_cons_iff in Hl as [Hv Hl], Hd as [Hd0 Hd].
  inversion_clear Ha as [|? ? ? ? [Hshort Hsame] Ha'].
  rewrite length_app in *. apply bytes_in_app in Hb as [Hb1 Hb2]. cbn [coordinates_loop].
  assert (Hsum : i32 (prev + d) = Ok v).
  { replace (prev + d) with v by (unfold d; lia). apply returns_i32. unfold in_s16 in Hv. lia. }
  assert (Hstep : (if has f short then
      require (range_is_valid n cursor 1);; delta ← byte_at file (p + cursor);
      v ← i32 (prev + (if has f same then delta else - delta)); Ok (v, cursor + 1)
    else if negb (has f same) then
      require (range_is_valid n cursor 2);; delta ← read_s16 file (p + cursor); v ← i32 (prev + delta); Ok (v, cursor + 2)
    else Ok (prev, cursor)) = Ok (v, cursor + Z.of_nat (length (coord_bytes d)))).
  { rewrite Hshort, Hsame. unfold short_delta, coord_bytes in *.
    destruct (Z.eqb_spec d 0) as [E|Hne]; cbn [negb andb orb].
    - replace v with prev by lia. rewrite Z.add_0_r. reflexivity.
    - destruct (Z.ltb_spec (Z.abs d) 256); cbn [andb].
      + rewrite range_valid by (cbn [length] in *; lia). cbn [require mbind outcome_bind].
        apply bytes_in_cons in Hb1 as [Hb1 _]. rewrite Hb1. cbn [mbind outcome_bind]. rewrite andb_true_r.
        replace (prev + (if 0 <? d then Z.abs d else - Z.abs d)) with (prev + d) by (destruct (Z.ltb_spec 0 d); lia).
        rewrite Hsum. reflexivity.
      + rewrite andb_false_r. cbn [negb].
        rewrite range_valid by (cbn [length be16] in *; lia). cbn [require mbind outcome_bind].
        rewrite (read_be16_signed _ d Hb1 Hd0). cbn [mbind outcome_bind]. rewrite Hsum. reflexivity. }
  rewrite Hstep. cbn [mbind outcome_bind].
  fold d in Hshort, Hsame.
  rewrite (IH l (cursor + Z.of_nat (length (coord_bytes d))) v); try assumption; try lia.
  - cbn [mbind outcome_bind]. do 2 f_equal. lia.
  - rewrite Z.add_assoc. exact Hb2.
Qed.
End File.

(** ** The flags of the points *)

Definition point_flag (dx dy : Z) (on : bool) : Z := (if on then 1 else 0) + x_flags dx + y_flags dy.

Lemma point_flag_bits dx dy on f :
  f = point_flag dx dy on \/ f = point_flag dx dy on + 8 ->
  announces GLYPH_X_SHORT_VECTOR GLYPH_X_IS_SAME_OR_POSITIVE f dx /\
  announces GLYPH_Y_SHORT_VECTOR GLYPH_Y_IS_SAME_OR_POSITIVE f dy /\ has f GLYPH_ON_CURVE = on.
Proof.
  unfold announces, short_delta, point_flag, x_flags, y_flags.
  destruct (dx =? 0), (Z.abs dx <? 256), (0 <? dx), (dy =? 0), (Z.abs dy <? 256), (0 <? dy), on;
    intros [-> | ->]; repeat split.
Qed.

Lemma point_flag_plain dx dy on : plain_flag (point_flag dx dy on).
Proof.
  unfold plain_flag, point_flag, x_flags, y_flags.
  destruct (dx =? 0), (Z.abs dx <? 256), (0 <? dx), (dy =? 0), (Z.abs dy <? 256), (0 <? dy), on;
    repeat split; lia || reflexivity.
Qed.

Definition same_or_repeat (f' f : Z) : Prop := f' = f \/ f' = f + 8.

Lemma kept_run_flags runs :
  Forall2 same_or_repeat (concat (map kept_flags runs)) (concat (map run_flags runs)).
Proof.
  induction runs as [|[f k] runs IH]; cbn [map concat]; [constructor|]. apply Forall2_app; [|exact IH].
  unfold kept_flags, run_flags. cbn [fst snd]. destruct k as [|k].
  - constructor; [left; reflexivity|constructor].
  - generalize (S (S k)). intros m. induction m; cbn [replicate]; constructor; [right; reflexivity|assumption].
Qed.

Lemma point_flags_read flags ps : forall prevx prevy,
  Forall2 same_or_repeat flags (point_flags (deltas prevx (map px ps)) (deltas prevy (map py ps)) ps) ->
  Forall2 (announces GLYPH_X_SHORT_VECTOR GLYPH_X_IS_SAME_OR_POSITIVE) flags (deltas prevx (map px ps)) /\
  Forall2 (announces GLYPH_Y_SHORT_VECTOR GLYPH_Y_IS_SAME_OR_POSITIVE) flags (deltas prevy (map py ps)) /\
  make_points (map px ps) (map py ps) flags = ps.
Proof.
  revert flags. induction ps as [|p ps IH]; intros flags prevx prevy H; cbn in H.
  { inversion_clear H. repeat split; constructor. }
  inversion_clear H as [|f f0 flags' rest Hf Hr]. apply IH in Hr as (Hx & Hy & Hp).
  destruct (point_flag_bits _ _ _ _ Hf) as (Bx & By & Bo). cbn. rewrite Hp, Bo.
  repeat split; try (constructor; assumption). destruct p. reflexivity.
Qed.

Lemma point_flags_plain ps : forall prevx prevy,
  Forall plain_flag (point_flags (deltas prevx (map px ps)) (deltas prevy (map py ps)) ps).
Proof.
  induction ps as [|p ps IH]; intros prevx prevy; cbn; constructor; [apply point_flag_plain|apply IH].
Qed.

Lemma length_point_flags ps : forall prevx prevy,
  length (point_flags (deltas prevx (map px ps)) (deltas prevy (map py ps)) ps) = length ps.
Proof. induction ps as [|p ps IH]; intros prevx prevy; cbn; [reflexivity|]. rewrite IH. reflexivity. Qed.

Lemma runs_plain runs fs n :
  concat (map run_flags runs) = fs -> Forall plain_flag fs -> Forall (fun r => (r.2 < n)%nat) runs ->
  Forall (fun r => (r.2 < n)%nat /\ plain_flag r.1) runs.
Proof.
  revert fs. induction runs as [|[f k] runs IH]; intros fs <- Hf Hn; constructor; cbn [map concat] in Hf;
    apply Forall_cons_iff in Hn as [Hk Hn]; apply Forall_app in Hf as [Hf1 Hf].
  - split; [exact Hk|]. unfold run_flags in Hf1. cbn in Hf1. apply Forall_cons_iff in Hf1 as [Hf1 _]. exact Hf1.
  - eapply IH; [reflexivity|exact Hf|exact Hn].
Qed.

Lemma contour_ends_rising cs : forall n,
  0 <= n -> Forall (fun c => c <> []) cs -> n + Z.of_nat (length (concat cs)) <= 65536 ->
  rising (n - 1) (contour_ends n cs) /\ length (contour_ends n cs) = length cs /\
  (cs <> [] -> list.last (contour_ends n cs) = Some (n + Z.of_nat (length (concat cs)) - 1)).
Proof.
  induction cs as [|c cs IH]; intros n Hn He Hl; cbn [contour_ends]; [repeat split; congruence|].
  apply Forall_cons_iff in He as [Hc He]. cbn [concat] in *. rewrite length_app in *.
  assert (0 < length c)%nat by (destruct c; [congruence|cbn; lia]).
  destruct (IH (n + Z.of_nat (length c)) ltac:(lia) He ltac:(lia)) as (Hr & El & Elast).
  split; [|split].
  - cbn [rising]. split; [lia|exact Hr].
  - cbn. lia.
  - intros _. destruct cs as [|c2 cs].
    + cbn. rewrite Z.add_0_r || idtac. f_equal. lia.
    + cbn [contour_ends] in *. change (list.last (?a :: ?b :: ?l)) with (list.last (b :: l)).
      rewrite Elast by discriminate. f_equal. lia.
Qed.

(** ** Loading *)

Lemma load_simple_glyph file font glyph p n advance xmin ymin xmax ymax cs instructions runs :
  encodable cs instructions runs -> in_s16 xmin -> in_s16 ymin -> in_s16 xmax -> in_s16 ymax ->
  bytes_in file p (glyph_bytes (xmin, ymin, xmax, ymax) cs instructions runs) ->
  Z.of_nat (length (glyph_bytes (xmin, ymin, xmax, ymax) cs instructions runs)) <= n < 2 ^ 63 ->
  glyph_advance file font glyph = Ok advance ->
  load_simple_outline file font glyph p n =
    Ok (Outline (concat cs) (contour_ends 0 cs) xmin ymin xmax ymax advance true).
Proof.
  intros [Hc Hne Hp [Hx Hdx] [Hy Hdy] Hi Hr Hrep] X0 Y0 X1 Y1 Hb Hn Hadv.
  destruct (contour_ends_rising cs 0 ltac:(lia) Hne ltac:(lia)) as (Hrise & Hlends & Hlast).
  specialize (Hlast ltac:(intros ->; cbn in Hc; lia)).
  pose proof (length_be16s (contour_ends 0 cs)) as Hle. rewrite Hlends in Hle.
  unfold glyph_bytes in *. cbv zeta in *. rewrite !length_app in Hn. cbn [length be16] in Hn.
  rewrite !bytes_in_app in Hb. cbn [length be16] in Hb. rewrite ?length_app in Hb. cbn [length be16] in Hb.
  rewrite Hle in Hb, Hn.
  destruct Hb as ((B0 & B1 & B2 & B3 & B4) & Bends & Blen & Binstr & Bflags & Bx & By).
  unfold load_simple_outline. rewrite (proj2 (Z.ltb_ge n 10)) by lia. cbn [negb require mbind outcome_bind].
  rewrite (read_s16_at file _ p _ B0) by (unfold in_s16; lia). cbn [mbind outcome_bind].
  rewrite (proj2 (Z.ltb_ge _ 0)), (proj2 (Z.ltb_ge MAX_GLYPH_CONTOURS _)) by (unfold MAX_GLYPH_CONTOURS; lia).
  cbn [orb negb require mbind outcome_bind].
  rewrite (read_s16_at file _ (p + 2) _ B1) by (assumption || lia). cbn [mbind outcome_bind].
  rewrite (read_s16_at file _ (p + 4) _ B2) by (assumption || lia). cbn [mbind outcome_bind].
  rewrite (read_s16_at file _ (p + 6) _ B3) by (assumption || lia). cbn [mbind outcome_bind].
  rewrite (read_s16_at file _ (p + 8) _ B4) by (assumption || lia). cbn [mbind outcome_bind].
  rewrite Hadv. cbn [mbind outcome_bind].
  rewrite (proj2 (Z.eqb_neq (Z.of_nat (length cs)) 0)) by lia.
  rewrite (range_valid n 10) by lia. cbn [require mbind outcome_bind]. rewrite Nat2Z.id, <- Hlends at 1.
  assert (E : scan_out (length (contour_ends 0 cs)) 0 (end_points_step file (p + 10)) [] = Ok (Next (contour_ends 0 cs))).
  { apply (end_points_read file (p + 10) (contour_ends 0 cs) [] (-1)); [|exact Hrise|lia|congruence].
    eapply bytes_in_at; [exact Bends|cbn [length]; lia]. }
  rewrite E. clear E. cbn [mbind outcome_bind]. rewrite Hlast. cbn [default from_option id].
  replace (0 + Z.of_nat (length (concat cs)) - 1 + 1) with (Z.of_nat (length (concat cs))) by lia.
  rewrite (proj2 (Z.ltb_ge MAX_GLYPH_POINTS _)) by (unfold MAX_GLYPH_POINTS; lia). cbn [negb require mbind outcome_bind].
  rewrite (range_valid n _ 2) by lia. cbn [require mbind outcome_bind].
  rewrite (read_u16_at file _ (p + (10 + Z.of_nat (length cs) * 2)) _ Blen) by lia. cbn [mbind outcome_bind].
  rewrite (range_valid n _ (Z.of_nat (length instructions))) by lia. cbn [require mbind outcome_bind].
  pose proof (length_point_flags (concat cs) 0 0) as Hlf. rewrite <- Hr in Hlf.
  rewrite (flags_read file p n runs _ _ [] (Z.of_nat (length (concat cs)))).
  2: { eapply bytes_in_at; [exact Bflags|lia]. }
  2-5: cbn [length]; lia.
  2: { eapply runs_plain; [exact Hr|apply point_flags_plain|exact Hrep]. }
  cbn [mbind outcome_bind app].
  pose proof (kept_run_flags runs) as Hk. rewrite Hr in Hk. apply point_flags_read in Hk as (Kx & Ky & Kp).
  rewrite (coordinates_read file _ _ p n _ (map px (concat cs)) _ 0 Kx Hx Hdx) by
    (lia || (eapply bytes_in_at; [exact Bx|lia])).
  cbn [mbind outcome_bind].
  rewrite (coordinates_read file _ _ p n _ (map py (concat cs)) _ 0 Ky Hy Hdy) by
    (lia || (eapply bytes_in_at; [exact By|lia])).
  cbn [mbind outcome_bind]. rewrite Kp. reflexivity.
Qed.
