(* ===== verification/FontProps.v ===== *)
(** * The font loader: the properties *)

From Stdlib Require Import Ascii String.
From S2P Require Import Prelude CMem CStr StringProps Format Ramdisk RamdiskProps Console ConsoleProps Outcome.
From S2P Require Import Font FontRaster FontSafe FontOutline FontShape FontBounds FontMap FontGlyph.

(** A font of three glyphs: an empty one, a bent box for [A], and a composite of two boxes for
    [B]. *)
Definition demo_font : list Z :=
  [0; 1; 0; 0; 0; 7; 0; 0; 0; 0; 0; 0; 99; 109; 97; 112; 0; 0; 0; 0; 0; 0; 0; 124; 0; 0; 0; 44; 103; 108;
   121; 102; 0; 0; 0; 0; 0; 0; 0; 168; 0; 0; 0; 56; 104; 101; 97; 100; 0; 0; 0; 0; 0; 0; 0; 224; 0; 0; 0; 54;
   104; 104; 101; 97; 0; 0; 0; 0; 0; 0; 1; 22; 0; 0; 0; 36; 104; 109; 116; 120; 0; 0; 0; 0; 0; 0; 1; 58; 0;
   0; 0; 4; 108; 111; 99; 97; 0; 0; 0; 0; 0; 0; 1; 62; 0; 0; 0; 8; 109; 97; 120; 112; 0; 0; 0; 0; 0; 0; 1;
   70; 0; 0; 0; 6; 0; 0; 0; 1; 0; 3; 0; 1; 0; 0; 0; 12; 0; 4; 0; 32; 0; 0; 0; 4; 0; 0; 0; 0; 0; 0; 0; 66;
   255; 255; 0; 0; 0; 65; 255; 255; 255; 192; 0; 1; 0; 0; 0; 0; 0; 1; 0; 10; 0; 0; 0; 50; 0; 100; 0; 3; 0; 0;
   1; 1; 0; 1; 0; 10; 0; 40; 0; 0; 255; 216; 0; 0; 0; 0; 0; 100; 0; 0; 255; 255; 0; 0; 0; 0; 0; 60; 0; 120;
   0; 34; 0; 1; 0; 0; 0; 2; 0; 1; 5; 236; 0; 0; 0; 0; 0; 0; 0; 0; 0; 0; 0; 0; 0; 0; 0; 0; 0; 0; 0; 64; 0; 0;
   0; 0; 0; 0; 0; 0; 0; 0; 0; 0; 0; 0; 0; 0; 0; 0; 0; 0; 0; 0; 0; 0; 0; 0; 0; 0; 0; 0; 0; 0; 0; 0; 0; 0; 0;
   0; 0; 200; 255; 200; 0; 0; 0; 0; 0; 0; 0; 0; 0; 0; 0; 0; 0; 0; 0; 0; 0; 0; 0; 0; 0; 0; 0; 0; 0; 0; 0; 1;
   0; 40; 0; 0; 0; 0; 0; 0; 0; 17; 0; 28; 0; 1; 0; 0; 0; 3].

(** A font that claims a height of one unit and draws points far away. *)
Definition hostile_font : list Z :=
  [0; 1; 0; 0; 0; 7; 0; 0; 0; 0; 0; 0; 99; 109; 97; 112; 0; 0; 0; 0; 0; 0; 0; 124; 0; 0; 0; 44; 103; 108;
   121; 102; 0; 0; 0; 0; 0; 0; 0; 168; 0; 0; 0; 34; 104; 101; 97; 100; 0; 0; 0; 0; 0; 0; 0; 202; 0; 0; 0; 54;
   104; 104; 101; 97; 0; 0; 0; 0; 0; 0; 1; 0; 0; 0; 0; 36; 104; 109; 116; 120; 0; 0; 0; 0; 0; 0; 1; 36; 0; 0;
   0; 4; 108; 111; 99; 97; 0; 0; 0; 0; 0; 0; 1; 40; 0; 0; 0; 6; 109; 97; 120; 112; 0; 0; 0; 0; 0; 0; 1; 46;
   0; 0; 0; 6; 0; 0; 0; 1; 0; 3; 0; 1; 0; 0; 0; 12; 0; 4; 0; 32; 0; 0; 0; 4; 0; 0; 0; 0; 0; 0; 0; 65; 255;
   255; 0; 0; 0; 65; 255; 255; 255; 192; 0; 1; 0; 0; 0; 0; 0; 1; 0; 0; 0; 0; 0; 0; 0; 0; 0; 3; 0; 0; 1; 1; 0;
   1; 0; 0; 127; 255; 127; 255; 127; 255; 0; 0; 0; 10; 255; 246; 0; 20; 0; 0; 0; 0; 0; 0; 0; 0; 0; 0; 0; 0;
   0; 0; 0; 0; 0; 0; 0; 64; 0; 0; 0; 0; 0; 0; 0; 0; 0; 0; 0; 0; 0; 0; 0; 0; 0; 0; 0; 0; 0; 0; 0; 0; 0; 0; 0;
   0; 0; 0; 0; 0; 0; 0; 0; 0; 0; 0; 0; 1; 0; 0; 0; 0; 0; 0; 0; 0; 0; 0; 0; 0; 0; 0; 0; 0; 0; 0; 0; 0; 0; 0;
   0; 0; 0; 0; 0; 0; 0; 1; 0; 40; 0; 0; 0; 0; 0; 0; 0; 17; 0; 1; 0; 0; 0; 2].

(** The fonts as the parser sees them. *)
Definition parsed (file : list Z) : ttf_font :=
  match parse_ttf file with
  | Ok font => font
  | _ => let t := TtfTable 0 0 in TtfFont t t t t t t t t None 0 0 0 0 0 0 0 0 0 0 0
  end.

Lemma demo_parsed : parse_ttf demo_font = Ok (parsed demo_font).
Proof. vm_compute. reflexivity. Qed.

Definition demo_metrics : font_metrics := Metrics 24 200 256 2.

Lemma demo_measured : build_font_metrics demo_font (parsed demo_font) = Ok demo_metrics.
Proof. vm_compute. reflexivity. Qed.

(** ** Reading *)

(** C26. [parse_ttf] reads no byte outside the file, whatever the file holds, and a font it
    accepts is well-formed: its tables and its character map lie in the file, [loca] and
    [hmtx] are long enough for its glyphs, and the counts and units are in range. *)
Theorem parse_ttf_well_formed file : yields (font_ok file) (parse_ttf file).
Proof. apply parse_ttf_ok. Qed.

(** C7. Loading a glyph ends and stays in the file on every accepted font, even when
    composite glyphs refer to each other in circles, and no [int32_t] overflows.  The
    outline fits the arrays of [struct glyph_outline], and its contour ends cut the
    points into consecutive non-empty runs. *)
Theorem load_glyph_terminates file font glyph :
  parse_ttf file = Ok font -> 0 <= glyph < 65536 ->
  yields (outline_ok (coord_bound 0)) (load_glyph_outline file outline_fuel font glyph 0).
Proof.
  intros Hp. apply load_outline_ok. pose proof (parse_ttf_ok file) as H. rewrite Hp in H. exact H.
Qed.

Lemma load_glyph_terminates_witness :
  yields (outline_ok (coord_bound 0)) (load_glyph_outline demo_font outline_fuel (parsed demo_font) 2 0).
Proof. apply load_glyph_terminates; [exact demo_parsed|lia]. Defined.

(** C14. Looking a character up in a format 4 or format 12 map whose ranges are sorted finds
    the glyph of the one range that covers it, and 0 when none does: the early exit
    of the linear search loses nothing. *)
Theorem glyph_lookup_correct file font p m c :
  parse_ttf file = Ok font -> cmap_subtable font = Some p ->
  holds_map file p (cmap_subtable_size font) m -> 0 <= c < 2 ^ 32 ->
  glyph_for_codepoint file font c = Ok (char_glyph file p (cmap_subtable_size font) m c).
Proof.
  intros Hp Es Hm Hc. apply glyph_for_codepoint_find; try assumption.
  pose proof (parse_ttf_ok file) as H. rewrite Hp in H. pose proof (ok_subtable _ _ H) as Hs. rewrite Es in Hs. exact Hs.
Qed.

Definition demo_map : charmap := Map4 [Segment 65 66 (-64) None; Segment 65535 65535 1 None].

Lemma demo_holds_map : holds_map demo_font 136 32 demo_map.
Proof.
  split; [vm_compute; reflexivity|]. split.
  - split; [vm_compute; reflexivity|cbn; lia|].
    intros [|[|i]] s Hs; try discriminate; injection Hs as <-.
    all: split; [vm_compute; reflexivity|]; split; [vm_compute; reflexivity|]; split; [vm_compute; reflexivity|].
    all: exists 0; split; [vm_compute; reflexivity|reflexivity].
  - cbn [demo_map ranges_sorted]. split; [cbn; lia|]. split; [constructor; [cbn; lia|constructor]|]. split; [cbn; lia|]. split; [constructor|exact I].
Qed.

Lemma glyph_lookup_correct_witness :
  glyph_for_codepoint demo_font (parsed demo_font) 66 = Ok 2 /\
  glyph_for_codepoint demo_font (parsed demo_font) 67 = Ok 0.
Proof.
  split.
  - apply (glyph_lookup_correct demo_font (parsed demo_font) 136 demo_map 66 demo_parsed eq_refl demo_holds_map). lia.
  - apply (glyph_lookup_correct demo_font (parsed demo_font) 136 demo_map 67 demo_parsed eq_refl demo_holds_map). lia.
Defined.

(** C25. A simple glyph written in the TrueType encoding, with any instructions and any
    run-length encoding of its flags, is loaded back: the same points in the same
    contours, its bounding box and its advance. *)
Theorem simple_glyph_roundtrip file font glyph p n advance xmin ymin xmax ymax cs instructions runs :
  encodable cs instructions runs -> in_s16 xmin -> in_s16 ymin -> in_s16 xmax -> in_s16 ymax ->
  bytes_in file p (glyph_bytes (xmin, ymin, xmax, ymax) cs instructions runs) ->
  Z.of_nat (length (glyph_bytes (xmin, ymin, xmax, ymax) cs instructions runs)) <= n < 2 ^ 63 ->
  glyph_advance file font glyph = Ok advance ->
  load_simple_outline file font glyph p n =
    Ok (Outline (concat cs) (contour_ends 0 cs) xmin ymin xmax ymax advance true).
Proof. apply load_simple_glyph. Qed.

(** Two triangles, the second with a control point, one instruction byte and a repeated
    flag. *)
Definition demo_contours : list (list glyph_point) :=
  [[Point 0 0 true; Point 300 0 true; Point 0 300 true]; [Point 10 310 true; Point 20 320 true; Point 30 330 false]].
Definition demo_runs : list (Z * nat) := [(49, O); (33, O); (1, O); (55, 1%nat); (54, O)].
Definition demo_glyph : list Z := glyph_bytes (0, 0, 300, 330) demo_contours [7] demo_runs.

Lemma simple_glyph_roundtrip_witness :
  load_simple_outline (demo_font ++ demo_glyph) (parsed demo_font) 1 (Z.of_nat (length demo_font)) (Z.of_nat (length demo_glyph)) =
    Ok (Outline (concat demo_contours) [2; 5] 0 0 300 330 40 true).
Proof.
  apply (simple_glyph_roundtrip (demo_font ++ demo_glyph) (parsed demo_font) 1 (Z.of_nat (length demo_font)) _ 40
    0 0 300 330 demo_contours [7] demo_runs).
  - split; try (vm_compute; lia); try (vm_compute; reflexivity).
    + repeat constructor; discriminate.
    + split; cbn; repeat (constructor; [split; lia|]); constructor.
    + split; cbn; repeat (constructor; [split; lia|]); constructor.
    + cbn. repeat constructor.
  - split; lia.
  - split; lia.
  - split; lia.
  - split; lia.
  - intros i b Hi. unfold byte_at. rewrite (proj2 (Z.leb_le _ _)) by lia.
    replace (Z.to_nat (Z.of_nat (length demo_font) + Z.of_nat i)) with (length demo_font + i)%nat by lia.
    rewrite lookup_app_r by lia. replace (length demo_font + i - length demo_font)%nat with i by lia.
    change (glyph_bytes _ _ _ _) with demo_glyph in Hi. rewrite Hi. f_equal.
    assert (Hb : Forall (fun b => 0 <= b < 256) demo_glyph).
    { apply List.Forall_forall. intros x Hx.
      assert (E : forallb (fun x => (0 <=? x) && (x <? 256)) demo_glyph = true) by (vm_compute; reflexivity).
      rewrite forallb_forall in E. specialize (E x Hx). to_prop. lia. }
    apply uwrap_small. exact (proj1 (list.Forall_lookup _ _) Hb _ _ Hi).
  - vm_compute. split; [discriminate|reflexivity].
  - vm_compute. reflexivity.
Defined.

(** ** Drawing *)

(** All edges lie right of the samples of the pixel, left of them, below or above. *)
Definition pixel_outside (edges : list raster_edge) (x y : Z) : Prop :=
  Forall (fun e => x * 16 + 14 < x0 e /\ x * 16 + 14 < x1 e) edges \/
  Forall (fun e => x0 e <= x * 16 + 2 /\ x1 e <= x * 16 + 2) edges \/
  Forall (fun e => y * 16 + 14 < y0 e /\ y * 16 + 14 < y1 e) edges \/
  Forall (fun e => y0 e <= y * 16 + 2 /\ y1 e <= y * 16 + 2) edges.

Lemma pixel_outside_sample edges x y sx sy :
  pixel_outside edges x y -> In (sx, sy) samples -> outside_box edges (x * 16 + sx) (y * 16 + sy).
Proof.
  intros H Hs. assert (2 <= sx <= 14 /\ 2 <= sy <= 14).
  { repeat (destruct Hs as [[= <- <-]|Hs]; [lia|]). destruct Hs. }
  destruct H as [H|[H|[H|H]]]; [left|right; left|right; right; left|right; right; right];
    (eapply List.Forall_impl; [|exact H]); cbn; lia.
Qed.

Lemma covered_outside o edges x y l : forall covered,
  outline_edges o = Ok edges -> Forall edge_in edges -> pixel_outside edges x y ->
  (forall s, In s l -> In s samples) -> covered_loop edges x y l covered = Ok covered.
Proof.
  induction l as [|[sx sy] l IH]; intros covered Ho He Hp Hl; cbn [covered_loop]; [reflexivity|].
  destruct (proj1 (returns_iff _ _) (inside_ok edges (x * 16 + sx) (y * 16 + sy) false He)) as (b & Eb & _).
  assert (b = false) as ->.
  { apply (outside_box_not_inside o edges (x * 16 + sx) (y * 16 + sy) b Ho); [|exact Eb].
    apply pixel_outside_sample; [exact Hp|]. apply Hl. left. reflexivity. }
  unfold point_inside_outline. rewrite Eb. cbn [mbind outcome_bind]. apply IH; try assumption.
  intros s Hs. apply Hl. right. exact Hs.
Qed.

(** C15. No ink outside the outline: a pixel whose samples lie beside, above or below all
    edges gets coverage 0.  Right of the outline this is the parity of closed contours:
    every contour, whatever its control points, ends where it started, so that a line
    crosses an even number of edges. *)
Theorem coverage_outside_blank o edges x y :
  Forall (coord_in cell_bound) (points o) -> Forall (fun e => 0 <= e) (contours o) ->
  outline_edges o = Ok edges -> pixel_outside edges x y -> rasterize_coverage edges x y = Ok 0.
Proof.
  intros Hp Hc Ho Hx. unfold rasterize_coverage. rewrite (covered_outside o) with (covered := 0); try assumption; auto.
  pose proof (outline_edges_ok o Hp Hc) as H. rewrite Ho in H. exact H.
Qed.

Definition demo_box : glyph_outline :=
  Outline [Point 32 32 true; Point 96 32 true; Point 96 96 false; Point 32 96 true] [3] 0 0 0 0 0 true.

Definition demo_edges : list raster_edge := match outline_edges demo_box with Ok e => e | _ => [] end.

Lemma coverage_outside_blank_witness :
  length demo_edges = 9%nat /\ rasterize_coverage demo_edges 3 3 = Ok 255 /\ rasterize_coverage demo_edges 9 3 = Ok 0.
Proof.
  split; [vm_compute; reflexivity|]. split; [vm_compute; reflexivity|].
  apply (coverage_outside_blank demo_box demo_edges 9 3).
  - repeat (constructor; [repeat split; cbn; unfold cell_bound; lia|]). constructor.
  - constructor; [lia|constructor].
  - vm_compute. reflexivity.
  - right. left. vm_compute. repeat (constructor; [split; discriminate|]). constructor.
Defined.

(** Where contours overlap the even-odd rule leaves a hole; TrueType fills by winding. *)
Definition overlapping_boxes : glyph_outline :=
  Outline [Point 0 0 true; Point 64 0 true; Point 64 64 true; Point 0 64 true;
           Point 0 0 true; Point 64 0 true; Point 64 64 true; Point 0 64 true] [3; 7] 0 0 0 0 0 true.

Lemma overlapping_contours_hole :
  (edges ← outline_edges overlapping_boxes; rasterize_coverage edges 1 1) = Ok 0.
Proof. vm_compute. reflexivity. Qed.

(** C27. For a font whose design box is at least 160 units high, no [int32_t] of scaling,
    curves or sampling overflows for any of the 256 characters, and the result is 256
    cells of 13 by 28 coverage bytes; the list of missing characters fits its buffer. *)
Theorem render_font_bounds file font metrics :
  parse_ttf file = Ok font -> build_font_metrics file font = Ok metrics -> 160 <= design_span metrics ->
  exists c, render_font file font metrics = Ok c /\
    Z.of_nat (length (alpha c)) = XBKS_TTY_FONT_GLYPHS * XBKS_TTY_FONT_WIDTH * XBKS_TTY_FONT_HEIGHT /\
    Forall (fun v => 0 <= v < 256) (alpha c) /\ 0 <= rendered c <= 256 /\
    Forall (fun ch => 0x21 <= ch <= 0x7e) (failed_ascii c) /\ (length (failed_ascii c) <= 94)%nat.
Proof.
  intros Hp Hm Hs. pose proof (parse_ttf_ok file) as Hf. rewrite Hp in Hf.
  pose proof (build_font_metrics_ok file font Hf) as Hok. rewrite Hm in Hok.
  destruct (proj1 (returns_iff _ _) (render_font_ok file font metrics Hf Hok Hs)) as (c & E & Hl & Ha & Hr & Hfa & Hfl).
  exists c. repeat split; try assumption; try lia.
Qed.

Lemma render_font_bounds_witness :
  exists c, render_font demo_font (parsed demo_font) demo_metrics = Ok c /\ Z.of_nat (length (alpha c)) = 93184.
Proof.
  destruct (render_font_bounds demo_font (parsed demo_font) demo_metrics demo_parsed demo_measured) as (c & E & Hl & _);
    [cbn; lia|]. exists c. split; [exact E|exact Hl].
Defined.

(** Below that height a font can make the rasteriser overflow: [hostile_font] is accepted,
    its metrics are accepted, and drawing its [A] computes an [int32_t] out of range,
    which C leaves undefined. *)
Theorem hostile_font_overflows :
  exists font metrics, parse_ttf hostile_font = Ok font /\ build_font_metrics hostile_font font = Ok metrics /\
    design_span metrics = 1 /\ rasterize_glyph hostile_font font metrics (chr "A") = Undefined.
Proof.
  exists (parsed hostile_font), (Metrics 24 1 1 2). split; [vm_compute; reflexivity|].
  split; [vm_compute; reflexivity|]. split; [reflexivity|]. vm_compute. reflexivity.
Qed.

(** ** The loader *)

Lemma module_is_font_ok m string path :
  module_strings m string path ->
  module_is_font m = Some (bool_decide (string = str "system-font" \/ str "system.ttf" `suffix_of` path)).
Proof.
  intros [Hs Hp]. unfold module_is_font. destruct (pointed_default _ _ Hs) as [rs ->], (pointed_default _ _ Hp) as [rp ->].
  unfold lit. destruct (strcmp_eq (string ++ 0 :: rs) (str "system-font" ++ [0]) string (str "system-font")) as (d & -> & Hd);
    [apply cstr_app, Hs|apply cstr_app, text_check; reflexivity|apply Hs|apply text_check; reflexivity|].
  cbn [mbind option_bind]. destruct (Z.eqb_spec d 0) as [H0|H0].
  { rewrite bool_decide_eq_true_2 by tauto. reflexivity. }
  rewrite !string_ends_with_ok by (apply Hp || (apply text_check; reflexivity)). cbn [mbind option_bind].
  destruct (bool_decide_reflect (str "/system.ttf" `suffix_of` path)) as [H1|H1].
  - rewrite bool_decide_eq_true_2; [reflexivity|]. right. etransitivity; [|exact H1]. exists (str "/"). reflexivity.
  - f_equal. apply bool_decide_ext. tauto.
Qed.

Section Modules.
Context (string path : limine_file -> list Z).

Definition font_module (m : limine_file) : bool :=
  bool_decide (string m = str "system-font" \/ str "system.ttf" `suffix_of` path m).

Lemma find_font_module_ok modules :
  (forall m, In (Some m) modules -> module_strings m (string m) (path m)) ->
  find_font_module (Some modules) = Some (List.find font_module (loaded modules)).
Proof.
  cbn [find_font_module]. induction modules as [|m rest IH]; intros H; [reflexivity|]. cbn [find_font_module_loop].
  specialize (IH (fun m' Hm => H m' (or_intror Hm))). unfold loaded. cbn [omap list_omap].
  destruct (module_loaded m) as [f|] eqn:E; [|exact IH]. cbn [List.find].
  assert (m = Some f) as ->.
  { unfold module_loaded in E. destruct m as [g|]; [|discriminate]. cbn in E. destruct (_ || _); congruence. }
  rewrite (module_is_font_ok f _ _ (H f (or_introl eq_refl))). cbn [mbind option_bind].
  fold (font_module f). destruct (font_module f); [reflexivity|exact IH].
Qed.
End Modules.

(** The bytes of a module, and what the loader may assume of its font. *)
Definition module_file (m : mem) (f : limine_file) : list Z := bytes_at m (m_address f) (Z.to_nat (m_size f)).

Definition tall_enough (file : list Z) : Prop :=
  forall font metrics, parse_ttf file = Ok font -> build_font_metrics file font = Ok metrics -> 160 <= design_span metrics.

(** The lines of the log. *)
Definition loaded_line (count : Z) : list Z :=
  log_line XBKS_LOG_INFO (str "system TTF terminal font loaded: " ++ numeral 10 false count ++ str " glyphs, cell=13x28").
Definition missing_line (chars : list Z) : list Z :=
  log_line XBKS_LOG_WARN (str "system TTF missing ASCII glyphs: " ++ chars).

Definition font_outcome (chosen : option limine_file) (r : option xbks_bitmap_font) (log : list Z) : Prop :=
  match r with
  | None => exists why, log = log_line XBKS_LOG_WARN why /\
      In why (map str ["system TTF module not found; using built-in terminal font"%string;
                       "system TTF parse failed; using built-in terminal font"%string;
                       "system TTF metrics failed; using built-in terminal font"%string])
  | Some font => exists f count chars, chosen = Some f /\
      font_glyphs font = 256 /\ font_width font = 13 /\ font_height font = 28 /\
      Z.of_nat (length (font_alpha font)) = 256 * 13 * 28 /\ Forall (fun v => 0 <= v < 256) (font_alpha font) /\
      font_source font = default (lit "system-font") (m_path f) /\ 0 <= count <= 256 /\
      log = loaded_line count ++ (match chars with [] => [] | _ => missing_line chars end)
  end.

Lemma says_warn chosen message :
  text message -> In message (map str ["system TTF module not found; using built-in terminal font"%string;
                       "system TTF parse failed; using built-in terminal font"%string;
                       "system TTF metrics failed; using built-in terminal font"%string]) ->
  says (font_outcome chosen) (warn (message ++ [0])).
Proof.
  intros Ht Hin. unfold warn. eapply says_bind.
  - eapply (says_sends (fun _ l => l = log_line XBKS_LOG_WARN message)); [apply sends_log_write, Ht|reflexivity].
  - intros [] l ->. apply says_ret. exists message. rewrite app_nil_r. auto.
Qed.

Lemma says_loaded count :
  0 <= count <= 256 ->
  says (fun _ l => l = loaded_line count)
    (xbks_log_printf XBKS_LOG_INFO (lit "system TTF terminal font loaded: %zu glyphs, cell=%zux%zu")
       [VaLong count; VaLong XBKS_TTY_FONT_WIDTH; VaLong XBKS_TTY_FONT_HEIGHT]).
Proof.
  intros Hc. set (out := str "system TTF terminal font loaded: " ++ numeral 10 false count ++ str " glyphs, cell=13x28").
  assert (Hlen : (length (numeral 10 false count) <= 3)%nat).
  { destruct (numeral_length 10 false 3 64 count) as [H|H]; [lia|cbn; lia|lia|apply H|discriminate]. }
  assert (Hl : (length out <= 100)%nat) by (unfold out; rewrite !length_app; cbn [length str]; lia).
  apply (says_sends (fun _ l => l = loaded_line count) _ (loaded_line count)); [|reflexivity].
  assert (E : loaded_line count = log_line XBKS_LOG_INFO (take 511 out)) by (unfold loaded_line; rewrite take_ge by lia; reflexivity).
  rewrite E. apply (sends_log_printf XBKS_LOG_INFO (str "system TTF terminal font loaded: %zu glyphs, cell=%zux%zu") [] _
    (map PChar (str "system TTF terminal font loaded: ") ++ [PConv W64 (chr "u")] ++ map PChar (str " glyphs, cell=") ++
     [PConv W64 (chr "u"); PChar (chr "x"); PConv W64 (chr "u")])).
  - repeat constructor; discriminate.
  - reflexivity.
  - transitivity (Some (str "system TTF terminal font loaded: " ++ numeral 10 false (u64 count) ++ str " glyphs, cell=13x28"));
      [reflexivity|]. rewrite uwrap_small by lia. reflexivity.
  - unfold out. apply Forall_app. split; [apply text_check; reflexivity|]. apply Forall_app. split.
    + apply numeral_text; lia.
    + apply text_check. reflexivity.
  - lia.
Qed.

Lemma says_missing chars :
  Forall (fun c => 0x21 <= c <= 0x7e) chars -> (length chars <= 94)%nat ->
  says (fun _ l => l = missing_line chars)
    (xbks_log_printf XBKS_LOG_WARN (lit "system TTF missing ASCII glyphs: %s") [VaStr (Some (chars ++ [0]))]).
Proof.
  intros Hc Hl. assert (Ht : text chars) by (eapply List.Forall_impl; [|exact Hc]; cbn; lia).
  set (out := str "system TTF missing ASCII glyphs: " ++ chars).
  assert (Hlo : (length out <= 200)%nat) by (unfold out; rewrite length_app; cbn [length str]; lia).
  apply (says_sends (fun _ l => l = missing_line chars) _ (missing_line chars)); [|reflexivity].
  assert (E : missing_line chars = log_line XBKS_LOG_WARN (take 511 out)) by (unfold missing_line; rewrite take_ge by lia; reflexivity).
  rewrite E. apply (sends_log_printf XBKS_LOG_WARN (str "system TTF missing ASCII glyphs: %s") [] _
    (map PChar (str "system TTF missing ASCII glyphs: ") ++ [PConv W32 (chr "s")])).
  - repeat constructor; discriminate.
  - reflexivity.
  - rewrite render_chars, (render_string W32 chars []) by exact Ht. cbn [render mbind option_bind]. rewrite app_nil_r. reflexivity.
  - unfold out. apply Forall_app. split; [apply text_check; reflexivity|exact Ht].
  - lia.
Qed.

Lemma says_load chosen f c :
  chosen = Some f ->
  Z.of_nat (length (alpha c)) = 256 * 13 * 28 -> Forall (fun v => 0 <= v < 256) (alpha c) -> 0 <= rendered c <= 256 ->
  Forall (fun ch => 0x21 <= ch <= 0x7e) (failed_ascii c) -> (length (failed_ascii c) <= 94)%nat ->
  says (font_outcome chosen)
    (xbks_log_printf XBKS_LOG_INFO (lit "system TTF terminal font loaded: %zu glyphs, cell=%zux%zu")
       [VaLong (rendered c); VaLong XBKS_TTY_FONT_WIDTH; VaLong XBKS_TTY_FONT_HEIGHT];;
     (if negb (Z.of_nat (length (failed_ascii c)) =? 0) then
        xbks_log_printf XBKS_LOG_WARN (lit "system TTF missing ASCII glyphs: %s") [VaStr (Some (failed_ascii c ++ [0]))]
      else mret tt);;
     mret (Some (BitmapFont (alpha c) XBKS_TTY_FONT_GLYPHS XBKS_TTY_FONT_WIDTH XBKS_TTY_FONT_HEIGHT
                   (default (lit "system-font") (m_path f))))).
Proof.
  intros -> Hl Ha Hr Hf Hfl. eapply says_bind; [apply says_loaded, Hr|]. intros [] l ->.
  eapply (says_bind (fun _ l => l = match failed_ascii c with [] => [] | _ => missing_line (failed_ascii c) end)).
  - destruct (failed_ascii c) as [|x chars]; [apply says_ret; reflexivity|]. apply says_missing; assumption.
  - intros [] l ->. apply says_ret. cbn. exists f, (rendered c), (failed_ascii c).
    rewrite app_nil_r. repeat split; try assumption; lia.
Qed.

(** An outcome decides how the loader goes on, without a word. *)
Lemma says_run {A B} (P : A -> Prop) (Q : B -> list Z -> Prop) (o : outcome A) (f : option A -> IO B) :
  yields P o -> (forall a, o = Ok a -> P a -> says Q (f (Some a))) -> (o = Refused -> says Q (f None)) ->
  says Q (run_outcome o ≫= f).
Proof.
  intros Ho Hs Hn. destruct o as [a| |]; [|apply Hn; reflexivity|destruct Ho]. apply Hs; [reflexivity|exact Ho].
Qed.

Lemma font_load_says string path m modules :
  (forall f, In (Some f) modules -> module_strings f (string f) (path f)) ->
  (forall f, List.find (font_module string path) (loaded modules) = Some f -> tall_enough (module_file m f)) ->
  says (font_outcome (List.find (font_module string path) (loaded modules)))
    (xbks_font_load_system_tty m (Some modules) false).
Proof.
  intros Hs Ht. unfold xbks_font_load_system_tty. rewrite (find_font_module_ok string path) by exact Hs. cbn [lift].
  destruct (List.find _ _) as [f|] eqn:E; [|apply says_warn; [apply text_check; reflexivity|left; reflexivity]].
  specialize (Ht f eq_refl). fold (module_file m f).
  apply (says_run (font_ok (module_file m f)) _ (parse_ttf (module_file m f))); [apply parse_ttf_ok| |].
  2: { intros _. apply says_warn; [apply text_check; reflexivity|right; left; reflexivity]. }
  intros font Ep Hp.
  apply (says_run metrics_ok _ (build_font_metrics (module_file m f) font)); [apply build_font_metrics_ok, Hp| |].
  2: { intros _. apply says_warn; [apply text_check; reflexivity|right; right; left; reflexivity]. }
  intros metrics Em Hm.
  pose proof (render_font_ok _ _ _ Hp Hm (Ht _ _ Ep Em)) as Hr.
  apply (says_run (cells_ok 256) _ (render_font (module_file m f) font metrics)); [apply returns_yields, Hr| |].
  - intros c _ (Hl & Ha & Hc & Hfa & Hfl). apply says_load; [reflexivity|lia|exact Ha|lia|exact Hfa|lia].
  - intros Ec. rewrite Ec in Hr. destruct Hr.
Qed.

(** The font loader, on any memory and module list: it never leaves the semantics of C
    when the chosen font is tall enough; it answers the first module named
    [system-font] or with a path ending in [system.ttf], rendered as 256 cells of 13
    by 28, and logs how many characters it drew and which printable ones it did not;
    otherwise it answers false and logs one of its three warnings. *)
Theorem font_load_correct string path m modules :
  (forall f, In (Some f) modules -> module_strings f (string f) (path f)) ->
  (forall f, List.find (font_module string path) (loaded modules) = Some f -> tall_enough (module_file m f)) ->
  says (font_outcome (List.find (font_module string path) (loaded modules)))
    (xbks_font_load_system_tty m (Some modules) false).
Proof. apply font_load_says. Qed.

(** Memory with the demo font at address 4096. *)
Definition font_memory : mem := store_bytes ∅ 4096 demo_font.
Definition font_file : limine_file := LimineFile 4096 (Z.of_nat (length demo_font)) (Some (lit "/boot/system.ttf")) None.

Lemma demo_module_file : module_file font_memory font_file = demo_font.
Proof. vm_compute. reflexivity. Qed.

Lemma font_load_correct_witness :
  says (font_outcome (Some font_file)) (xbks_font_load_system_tty font_memory (Some [None; Some font_file]) false) /\
  says (font_outcome None) (xbks_font_load_system_tty font_memory (Some []) false).
Proof.
  split.
  - apply (font_load_correct demo_string demo_path font_memory [None; Some font_file]).
    + intros f [Hf|[Hf|[]]]; [discriminate|]. injection Hf as <-. split; split.
      * constructor.
      * reflexivity.
      * apply text_check. reflexivity.
      * exists []. reflexivity.
    + intros f Hf. assert (f = font_file) as -> by (assert (E : List.find (font_module demo_string demo_path) (loaded [None; Some font_file]) = Some font_file)
        by (vm_compute; reflexivity); congruence).
      rewrite demo_module_file. intros font metrics Hp Hm. rewrite demo_parsed in Hp. injection Hp as <-.
      rewrite demo_measured in Hm. injection Hm as <-. cbn. lia.
  - apply (font_load_correct demo_string demo_path font_memory []); [intros f []|discriminate].
Defined.
