(* ===== verification/BootInfo.v ===== *)
(** * What the boot loader hands over (include/xbks/boot_info.h, src/boot/limine_requests.c)

    The responses of the boot protocol, as far as the kernel reads them; a null pointer
    is [None].  The loader fills in the responses, so they are inputs of the model. *)

From S2P Require Import Prelude CStr Pmm Ramdisk.

Record limine_bootloader_info := BootloaderInfo {
  bl_name : option (list Z);
  bl_version : option (list Z);
}.

Record limine_framebuffer := Framebuffer {
  fb_address : Z;
  fb_width : Z;
  fb_height : Z;
  fb_pitch : Z;
  fb_bpp : Z;
  fb_red_mask_size : Z;
  fb_red_mask_shift : Z;
  fb_green_mask_size : Z;
  fb_green_mask_shift : Z;
  fb_blue_mask_size : Z;
  fb_blue_mask_shift : Z;
}.

(** [framebuffers] is [None] when the array is null; its length is [framebuffer_count]. *)
Record limine_framebuffer_response := FramebufferResponse {
  framebuffers : option (list (option limine_framebuffer));
}.

Record xbks_boot_info := BootInfo {
  bi_bootloader : option limine_bootloader_info;
  bi_cmdline : option (option (list Z));
  bi_firmware : option Z;
  bi_hhdm : option Z;
  bi_memmap : option (list memmap_entry);
  bi_executable_file : option limine_file;
  bi_framebuffer : option limine_framebuffer_response;
  bi_modules : option (list (option limine_file));
}.

(** The [response] fields of the requests in the executable's [.limine_requests] section. *)
Record limine_requests := Requests {
  bootloader_info_request : option limine_bootloader_info;
  executable_cmdline_request : option (option (list Z));
  firmware_type_request : option Z;
  hhdm_request : option Z;
  memmap_request : option (list memmap_entry);
  executable_file_request : option limine_file;
  framebuffer_request : option limine_framebuffer_response;
  module_request : option (list (option limine_file));
}.

Definition xbks_limine_boot_info (r : limine_requests) : xbks_boot_info :=
  BootInfo (bootloader_info_request r) (executable_cmdline_request r) (firmware_type_request r)
    (hhdm_request r) (memmap_request r) (executable_file_request r) (framebuffer_request r) (module_request r).
