(* ===== verification/Shell.v ===== *)
(** * The fallback shell (src/kernel/shell.c)

    A line editor on a 128-byte buffer and five commands, reading the keyboard and
    writing the console; and the keyboard's reading routines on the ports. *)

From Stdlib Require Import Ascii String.
From S2P Require Import Prelude CStr Format Ramdisk Pmm Keyboard Console BootInfo.

(** ** src/drivers/keyboard.c on the ports *)

Definition PS2_DATA_PORT : Z := 0x60.
Definition PS2_STATUS_PORT : Z := 0x64.

(** What one call finds at the devices: the poll of [Keyboard]. *)
Definition poll_devices : IO poll :=
  b ← xbks_serial_read_byte XBKS_SERIAL_COM1 false;
  match b with
  | Some b => mret (Poll (Some b) 0 0)
  | None =>
      status ← xbks_inb PS2_STATUS_PORT;
      if (status & PS2_STATUS_OUTPUT_FULL) =? 0 then mret (Poll None status 0)
      else data ← xbks_inb PS2_DATA_PORT; mret (Poll None status data)
  end.

(** [while (!xbks_keyboard_read_char(&ch))]; a round takes at least one answer. *)
Fixpoint read_char_rounds (rounds : nat) (shift_pressed : bool) : IO (Z * bool) :=
  p ← poll_devices;
  match xbks_keyboard_read_char shift_pressed p with
  | (Some ch, shift) => mret (ch, shift)
  | (None, shift) => match rounds with O => waiting | S n => read_char_rounds n shift end
  end.

Definition read_char_blocking (shift_pressed : bool) : IO (Z * bool) :=
  polling (fun rounds => read_char_rounds rounds shift_pressed).

(** ** src/kernel/shell.c *)

Section Shell.
Context (boot_info : xbks_boot_info).

Definition write_prompt : IO unit := xbks_console_write_string (lit "xbks> ").

Inductive handler := command_help | command_info | command_memmap | command_clear | command_reboot.

Record shell_command := ShellCommand { cmd_name : list Z; cmd_summary : list Z; cmd_handler : handler }.

Definition commands : list shell_command := [
  ShellCommand (lit "help") (lit "list built-in commands") command_help;
  ShellCommand (lit "info") (lit "print boot protocol state") command_info;
  ShellCommand (lit "memmap") (lit "print memory map summary") command_memmap;
  ShellCommand (lit "clear") (lit "clear the terminal") command_clear;
  ShellCommand (lit "reboot") (lit "reset through the PS/2 controller") command_reboot].

(** The loop of [command_help]. *)
Fixpoint help_loop (l : list shell_command) : IO unit :=
  match l with
  | [] => mret tt
  | c :: rest =>
      xbks_console_write_string (lit "  ");;
      xbks_console_write_string (cmd_name c);;
      xbks_console_write_string (lit " - ");;
      xbks_console_write_string (cmd_summary c);;
      xbks_console_write_string [10; 0];;
      help_loop rest
  end.

Definition run_help : IO unit :=
  xbks_console_write_string (str "built-in commands:" ++ [10; 0]);; help_loop commands.

Definition run_info : IO unit :=
  let bootloader_name := match bi_bootloader boot_info with Some b => bl_name b | None => Some (lit "(unknown)") end in
  let bootloader_version := match bi_bootloader boot_info with Some b => bl_version b | None => Some (lit "(unknown)") end in
  let cmdline := match bi_cmdline boot_info with Some (Some c) => c | _ => lit "" end in
  xbks_log_printf XBKS_LOG_INFO (lit "bootloader: %s %s") [VaStr bootloader_name; VaStr bootloader_version];;
  xbks_log_printf XBKS_LOG_INFO (lit "cmdline: %s") [VaStr (Some cmdline)].

Definition run_memmap : IO unit :=
  match bi_memmap boot_info with
  | None => xbks_console_write_string (str "memory map unavailable" ++ [10; 0])
  | Some entries =>
      xbks_log_printf XBKS_LOG_INFO (lit "memory map has %llu entries") [VaLong (Z.of_nat (length entries))]
  end.

(** Erase the display, cursor to the top. *)
Definition run_clear : IO unit := xbks_console_write_string (27 :: str "[2J" ++ 27 :: str "[H" ++ [0]).

(** [while ((xbks_inb(0x64) & 0x02u) != 0)] *)
Fixpoint wait_controller (rounds : nat) : IO unit :=
  v ← xbks_inb 0x64;
  if (v & 0x02) =? 0 then mret tt
  else match rounds with O => waiting | S n => wait_controller n end.

Definition run_reboot : IO unit :=
  xbks_console_write_string (str "rebooting..." ++ [10; 0]);;
  polling wait_controller;;
  xbks_outb 0x64 0xfe;;
  xbks_hlt.

Definition run_handler (h : handler) : IO unit :=
  match h with
  | command_help => run_help
  | command_info => run_info
  | command_memmap => run_memmap
  | command_clear => run_clear
  | command_reboot => run_reboot
  end.

(** The loop over [commands]; [None] when no name matches. *)
Fixpoint find_command (name : list Z) (l : list shell_command) : option (option handler) :=
  match l with
  | [] => Some None
  | c :: rest => d ← strcmp name (cmd_name c); if d =? 0 then Some (Some (cmd_handler c)) else find_command name rest
  end.

Definition run_command (name : list Z) : IO unit :=
  first ← lift (head name);
  if first =? 0 then mret tt
  else
    found ← lift (find_command name commands);
    match found with
    | Some h => run_handler h
    | None =>
        xbks_console_write_string (lit "unknown command: ");;
        xbks_console_write_string name;;
        xbks_console_write_string [10; 0]
    end.

(** The body of the loop: [line] and [line_length]. *)
Definition shell_step (st : list Z * Z) (ch : Z) : IO (list Z * Z) :=
  let '(line, line_length) := st in
  if ch =? 10 then
    xbks_console_write_string [10; 0];;
    line ← lift (buf_set line line_length 0);
    run_command line;;
    write_prompt;;
    mret (line, 0)
  else if ch =? 8 then
    if negb (line_length =? 0) then
      xbks_console_write_string [8; 32; 8; 0];; mret (line, line_length - 1)
    else mret (line, line_length)
  else if (32 <=? ch) && (ch <=? 126) && (line_length + 1 <? 128) then
    line ← lift (buf_set line line_length ch);
    xbks_console_write [ch];;
    mret (line, line_length + 1)
  else mret (line, line_length).

(** [for (;;)]: a round takes at least one answer, so that [rounds] beyond their number
    are not reached. *)
Fixpoint shell_loop (rounds : nat) (shift_pressed : bool) (st : list Z * Z) : IO unit :=
  '(ch, shift) ← read_char_blocking shift_pressed;
  st ← shell_step st ch;
  match rounds with O => waiting | S n => shell_loop n shift st end.

Definition xbks_shell_run : IO unit :=
  xbks_console_write_string (10 :: str "xbks early shell" ++ [10; 0]);;
  xbks_console_write_string (str "type 'help' for commands" ++ [10; 0]);;
  write_prompt;;
  polling (fun rounds => shell_loop rounds xbks_keyboard_init (uninit 128, 0)).
End Shell.
