(* ===== verification/Feed.v ===== *)
(** * The answers the devices give, counted

    A computation that ends has taken as many answers as it recorded port reads, and one
    that waits for a device has taken every answer there was: the rounds the polling
    loops are given are never what stops them. *)

From Stdlib Require Import Ascii String.
From S2P Require Import Prelude CStr Format Ramdisk Pmm Keyboard Console BootInfo Shell.

Definition is_input (e : io_event) : bool := match e with Inb _ _ | Rdmsr _ _ => true | _ => false end.

(** The port reads of a record. *)
Definition inputs (t : list io_event) : nat := length (filter (fun e => is_input e = true) t).

(** Reads done and answers to come: no step changes their sum. *)
Definition budget (d : devices) : nat := (inputs (trace d) + length (answers d))%nat.

(** From [d], at least [k] answers are taken if the computation ends. *)
Definition fed_from {A} (k : nat) (d : devices) (r : (A * devices) + io_stop) : Prop :=
  match r with
  | inl (_, d') => budget d' = budget d /\ (length (answers d') + k <= length (answers d))%nat
  | inr (WAITING t) => inputs t = budget d
  | inr _ => True
  end.

Definition fed {A} (k : nat) (io : IO A) : Prop := forall d, fed_from k d (io d).

Create HintDb feed.

(** ** Composition *)

Lemma inputs_snoc t e : inputs (t ++ [e]) = (inputs t + if is_input e then 1 else 0)%nat.
Proof. unfold inputs. rewrite list.filter_app, length_app. destruct e; reflexivity. Qed.

Lemma fed_from_bind {A B} k (io : IO A) (f : A -> IO B) d :
  fed_from k d (io d) ->
  (forall a d', budget d' = budget d -> (length (answers d') + k <= length (answers d))%nat -> fed_from 0 d' (f a d')) ->
  fed_from k d ((io ≫= f) d).
Proof.
  unfold mbind, IO_bind. intros H1 H2. destruct (io d) as [[a d1]|[t| |t]]; [|exact H1|exact I|exact I].
  destruct H1 as [Hb Hl]. specialize (H2 a d1 Hb Hl). revert H2.
  destruct (f a d1) as [[b d2]|[t| |t]]; cbn [fed_from]; [|congruence|auto|auto].
  intros [H3 H4]. split; [congruence|lia].
Qed.

Lemma fed_bind {A B} k (io : IO A) (f : A -> IO B) : fed k io -> (forall a, fed 0 (f a)) -> fed k (io ≫= f).
Proof. intros H1 H2 d. apply fed_from_bind; [apply H1|]. intros a d' _ _. apply H2. Qed.

Lemma fed_weaken {A} k (io : IO A) : fed k io -> fed 0 io.
Proof. intros H d. specialize (H d). destruct (io d) as [[a d1]|[]]; cbn in *; [|exact H|exact I|exact I]. lia. Qed.

Lemma fed_ret {A} (a : A) : fed 0 (mret a : IO A).
Proof. intros d. cbn. lia. Qed.

Lemma fed_stray {A} : fed 0 (@stray A).
Proof. intros d. exact I. Qed.

Lemma fed_lift {A} (o : option A) : fed 0 (lift o).
Proof. destruct o; [apply fed_ret|apply fed_stray]. Qed.

Lemma fed_event e : is_input e = false -> fed 0 (event e).
Proof.
  intros H d. unfold event, fed_from, budget. cbn [answers trace]. rewrite inputs_snoc, H. split; lia.
Qed.

Lemma fed_inb port : fed 1 (xbks_inb port).
Proof.
  intros d. unfold xbks_inb. destruct (answers d) as [|v l] eqn:E; unfold fed_from, budget; cbn [answers trace]; rewrite E.
  - cbn [length]. lia.
  - rewrite inputs_snoc. cbn [is_input length]. split; lia.
Qed.

Lemma fed_if {A} k (b : bool) (x y : IO A) : fed k x -> fed k y -> fed k (if b then x else y).
Proof. destruct b; auto. Qed.

(** With no answer left, waiting has taken all. *)
Lemma fed_from_waiting {A} d : answers d = [] -> fed_from 0 d (@waiting A d).
Proof. intros H. unfold waiting, fed_from, budget. rewrite H. cbn [length]. lia. Qed.

#[export] Hint Resolve fed_ret fed_stray fed_lift fed_if : feed.
#[export] Hint Resolve fed_event : feed.

Ltac feed := repeat first
  [ apply fed_if | apply fed_ret | apply fed_stray | apply fed_lift | (apply fed_event; reflexivity)
  | solve [eauto with feed] | apply fed_bind; [|intros ?] ].

(** ** Polling: the rounds are at least the answers to come *)

Definition paid {A} (k : nat) (loop : nat -> IO A) : Prop :=
  forall n d, (length (answers d) <= n)%nat -> fed_from k d (loop n d).

Lemma fed_polling {A} k (loop : nat -> IO A) : paid k loop -> fed k (polling loop).
Proof. intros H d. apply H. reflexivity. Qed.

(** Nothing is left to wait for: the case of no round left. *)
Lemma fed_from_spent {A} d d' : (length (answers d) <= 0)%nat -> (length (answers d') + 1 <= length (answers d))%nat ->
  fed_from 0 d' (@waiting A d').
Proof. intros. lia. Qed.

Lemma fed_from_weaken {A} k d (r : (A * devices) + io_stop) : fed_from k d r -> fed_from 0 d r.
Proof. destruct r as [[a d1]|[]]; cbn; [lia|auto|auto|auto]. Qed.

(** ** The console *)

Lemma fed_transmit_empty port : fed 1 (serial_transmit_empty port).
Proof. apply fed_bind; [apply fed_inb|]. intros v. feed. Qed.

Lemma paid_wait_transmit port : paid 1 (fun n => wait_transmit n port).
Proof.
  intros n. induction n as [|n IH]; intros d Hd; cbn [wait_transmit]; apply fed_from_bind;
    try apply fed_transmit_empty; intros [] d' _ Hlen; try apply fed_ret; [lia|].
  apply (fed_from_weaken 1), IH. lia.
Qed.

Lemma fed_write_byte port byte : fed 0 (xbks_serial_write_byte port byte).
Proof.
  apply fed_bind; [apply (fed_weaken 1), fed_polling, paid_wait_transmit|]. intros _. apply fed_event. reflexivity.
Qed.

#[export] Hint Resolve fed_write_byte : feed.

Lemma fed_serial_write port data : fed 0 (xbks_serial_write port data).
Proof. induction data; cbn [xbks_serial_write]; feed; auto. Qed.

Lemma fed_debugcon data : fed 0 (debugcon_loop data).
Proof. induction data; cbn [debugcon_loop]; feed; auto. Qed.

Lemma fed_tty_write data : fed 0 (xbks_tty_write data).
Proof.
  apply fed_bind; [intros d; cbn; lia|]. intros t. apply fed_if; [apply fed_ret|].
  induction data; cbn [tty_write_loop]; feed; auto.
Qed.

#[export] Hint Resolve fed_debugcon fed_serial_write fed_tty_write : feed.

Lemma fed_console_write data : fed 0 (xbks_console_write data).
Proof. unfold xbks_console_write. feed. Qed.

#[export] Hint Resolve fed_console_write : feed.

Lemma fed_console_write_string text : fed 0 (xbks_console_write_string text).
Proof. unfold xbks_console_write_string. feed. Qed.

#[export] Hint Resolve fed_console_write_string : feed.

Lemma fed_log_write level message : fed 0 (xbks_log_write level message).
Proof. unfold xbks_log_write. feed. Qed.

#[export] Hint Resolve fed_log_write : feed.

Lemma fed_log_printf level fmt args : fed 0 (xbks_log_printf level fmt args).
Proof. unfold xbks_log_printf. apply fed_bind; [apply fed_lift|]. intros [buffer n]. feed. Qed.

#[export] Hint Resolve fed_log_printf : feed.

(** ** The shell *)

Lemma fed_poll_devices : fed 1 poll_devices.
Proof.
  unfold poll_devices, xbks_serial_read_byte, serial_received. apply fed_bind.
  - apply fed_bind; [apply fed_bind; [apply fed_inb|intros v; apply fed_ret]|].
    intros r. apply fed_if; [apply fed_ret|]. apply fed_bind; [apply (fed_weaken 1), fed_inb|]. intros v. apply fed_ret.
  - intros [v|]; [apply fed_ret|]. apply fed_bind; [apply (fed_weaken 1), fed_inb|]. intros st.
    apply fed_if; [apply fed_ret|]. apply fed_bind; [apply (fed_weaken 1), fed_inb|]. intros v. apply fed_ret.
Qed.

Lemma paid_read_char shift : paid 1 (fun n => read_char_rounds n shift).
Proof.
  intros n. revert shift. induction n as [|n IH]; intros shift d Hd; cbn [read_char_rounds]; apply fed_from_bind;
    try apply fed_poll_devices; intros p d' _ Hlen;
    (destruct (xbks_keyboard_read_char shift p) as [[ch|] sh]; [apply fed_ret|]); [lia|].
  apply (fed_from_weaken 1), IH. lia.
Qed.

Lemma paid_wait_controller : paid 1 wait_controller.
Proof.
  intros n. induction n as [|n IH]; intros d Hd; cbn [wait_controller]; apply fed_from_bind;
    try apply fed_inb; intros v d' _ Hlen; (destruct (_ =? 0); [apply fed_ret|]); [lia|].
  apply (fed_from_weaken 1), IH. lia.
Qed.

Lemma fed_help_loop l : fed 0 (help_loop l).
Proof. induction l; cbn [help_loop]; feed; auto. Qed.

Lemma fed_handler b h : fed 0 (run_handler b h).
Proof.
  destruct h; cbn [run_handler].
  - unfold run_help. apply fed_bind; [feed|intros _; apply fed_help_loop].
  - unfold run_info. feed.
  - unfold run_memmap. destruct (bi_memmap b); feed.
  - unfold run_clear. feed.
  - unfold run_reboot. feed; [apply (fed_weaken 1), fed_polling, paid_wait_controller|]. intros d. exact I.
Qed.

Lemma fed_command b name : fed 0 (run_command b name).
Proof. unfold run_command. feed. match goal with o : option handler |- _ => destruct o as [h|] end; [apply fed_handler|feed]. Qed.

#[export] Hint Resolve fed_command : feed.

Lemma fed_shell_step b st ch : fed 0 (shell_step b st ch).
Proof. destruct st as [line n]. unfold shell_step, write_prompt. feed. Qed.

Lemma paid_shell_loop b shift st : paid 1 (fun n => shell_loop b n shift st).
Proof.
  intros n. revert shift st. induction n as [|n IH]; intros shift st d Hd; cbn [shell_loop]; apply fed_from_bind;
    try apply (fed_polling 1), paid_read_char; intros [ch sh] d' _ Hlen; apply fed_from_bind; try apply fed_shell_step;
    intros st' d2 _ Hlen2; [lia|].
  apply (fed_from_weaken 1), IH. lia.
Qed.

Lemma fed_shell_run b : fed 0 (xbks_shell_run b).
Proof.
  unfold xbks_shell_run, write_prompt. feed. apply (fed_weaken 1), (fed_polling 1), paid_shell_loop.
Qed.

(** ** Kinds of events

    [adds P io]: every event the computation records satisfies [P]. *)
Definition adds {A} (P : io_event -> Prop) (io : IO A) : Prop := forall d a d',
  io d = inl (a, d') -> exists u, trace d' = trace d ++ u /\ Forall P u.

(** The events of a console write. *)
Definition is_output (e : io_event) : Prop :=
  match e with Inb _ _ | Outb _ _ | Flanterm _ => True | _ => False end.

Lemma adds_nil (P : io_event -> Prop) t : exists u, t = t ++ u /\ Forall P u.
Proof. exists []. split; [symmetry; apply app_nil_r|constructor]. Qed.

Lemma adds_ret {A} P (a : A) : adds P (mret a).
Proof. intros d b d' H. injection H as _ <-. apply adds_nil. Qed.

Lemma adds_bind {A B} P (io : IO A) (f : A -> IO B) : adds P io -> (forall a, adds P (f a)) -> adds P (io ≫= f).
Proof.
  intros H1 H2 d b d' H. unfold mbind, IO_bind in H. destruct (io d) as [[a d1]|] eqn:E; [|discriminate].
  destruct (H1 d a d1 E) as (u & Hu & Pu), (H2 a d1 b d' H) as (v & Hv & Pv).
  exists (u ++ v). rewrite Hv, Hu, app_assoc. split; [reflexivity|]. apply Forall_app. auto.
Qed.

Lemma adds_event (P : io_event -> Prop) e : P e -> adds P (event e).
Proof. intros He d a d' H. injection H as _ <-. exists [e]. split; [reflexivity|]. constructor; [exact He|constructor]. Qed.

Lemma adds_lift {A} P (o : option A) : adds P (lift o).
Proof. destruct o; [apply adds_ret|]. intros d a d' H. discriminate. Qed.

Lemma adds_if {A} P (b : bool) (x y : IO A) : adds P x -> adds P y -> adds P (if b then x else y).
Proof. destruct b; auto. Qed.

Lemma adds_polling {A} P (loop : nat -> IO A) : (forall n, adds P (loop n)) -> adds P (polling loop).
Proof. intros H d. apply H. Qed.

Lemma adds_inb port : adds is_output (xbks_inb port).
Proof.
  intros d a d' H. unfold xbks_inb in H. destruct (answers d); [discriminate|]. injection H as _ <-.
  eexists. split; [reflexivity|]. constructor; [exact I|constructor].
Qed.

Lemma adds_wait_transmit n port : adds is_output (wait_transmit n port).
Proof.
  induction n as [|n IH]; cbn [wait_transmit]; (apply adds_bind; [apply adds_bind; [apply adds_inb|intros v; apply adds_ret]|]);
    intros []; try apply adds_ret; [intros d a d' H; discriminate|apply IH].
Qed.

Lemma adds_write_byte port byte : adds is_output (xbks_serial_write_byte port byte).
Proof.
  apply adds_bind; [apply adds_polling; intros n; apply adds_wait_transmit|intros _; apply adds_event; exact I].
Qed.

#[export] Hint Resolve adds_ret adds_lift adds_write_byte : feed.

Ltac adds := repeat first
  [ apply adds_if | apply adds_ret | apply adds_lift | (apply adds_event; exact I)
  | solve [eauto with feed] | apply adds_bind; [|intros ?] ].

Lemma adds_serial_write port data : adds is_output (xbks_serial_write port data).
Proof. induction data; cbn [xbks_serial_write]; adds; auto. Qed.

Lemma adds_debugcon data : adds is_output (debugcon_loop data).
Proof. induction data; cbn [debugcon_loop]; adds; auto. Qed.

Lemma adds_tty_write data : adds is_output (xbks_tty_write data).
Proof.
  apply adds_bind; [intros d a d' H; injection H as _ <-; apply adds_nil|]. intros t. apply adds_if; [apply adds_ret|].
  induction data; cbn [tty_write_loop]; adds; auto.
Qed.

#[export] Hint Resolve adds_debugcon adds_serial_write adds_tty_write : feed.

Lemma adds_console_write_string text : adds is_output (xbks_console_write_string text).
Proof. unfold xbks_console_write_string, xbks_console_write. adds. Qed.

#[export] Hint Resolve adds_console_write_string : feed.

Lemma adds_log_write level message : adds is_output (xbks_log_write level message).
Proof. unfold xbks_log_write. adds. Qed.
