(* ===== verification/ShellProps.v ===== *)
(** * The fallback shell: the properties

    The line editor on its buffer refines editing a list of characters; every line
    produces the output of its command; the shell never returns and never leaves its
    buffer, whatever is typed. *)

From Stdlib Require Import Ascii String.
From S2P Require Import Prelude CStr StringProps Format Ramdisk Pmm Keyboard Console ConsoleProps BootInfo Shell Feed.

(** ** The specification *)

Definition printable (ch : Z) : bool := (32 <=? ch) && (ch <=? 126).

(** The line after one more character. *)
Definition edit (s : list Z) (ch : Z) : list Z :=
  if ch =? 10 then []
  else if ch =? 8 then take (length s - 1) s
  else if printable ch && (Z.of_nat (length s) <? 127) then s ++ [ch]
  else s.

(** The buffer holds the line [s]. *)
Record holds_line (st : list Z * Z) (s : list Z) : Prop := {
  line_buffer : length st.1 = 128%nat;
  line_length : st.2 = Z.of_nat (length s);
  line_bound : (length s <= 127)%nat;
  line_text : take (length s) st.1 = s;
  line_printable : Forall (fun c => printable c = true) s;
}.

Definition newline (s : list Z) : list Z := s ++ [10].

Definition help_text : list Z :=
  newline (str "built-in commands:") ++
  newline (str "  help - list built-in commands") ++ newline (str "  info - print boot protocol state") ++
  newline (str "  memmap - print memory map summary") ++ newline (str "  clear - clear the terminal") ++
  newline (str "  reboot - reset through the PS/2 controller").

(** The strings of the boot information are C strings: their texts. *)
Record boot_text (b : xbks_boot_info) (name version cmdline : list Z) : Prop := {
  name_text : text name /\ text version /\ text cmdline;
  name_length : Z.of_nat (length name) + Z.of_nat (length version) + Z.of_nat (length cmdline) < 2 ^ 62;
  name_string : match bi_bootloader b with
    | Some l => (exists t, bl_name l = Some (name ++ 0 :: t)) /\ (exists t, bl_version l = Some (version ++ 0 :: t))
    | None => name = str "(unknown)" /\ version = str "(unknown)" end;
  cmdline_string : match bi_cmdline b with
    | Some (Some l) => exists t, l = cmdline ++ 0 :: t
    | _ => cmdline = [] end;
}.

Definition info_text (name version cmdline : list Z) : list Z :=
  log_line XBKS_LOG_INFO (take 511 (str "bootloader: " ++ name ++ str " " ++ version)) ++
  log_line XBKS_LOG_INFO (take 511 (str "cmdline: " ++ cmdline)).

Definition memmap_text (b : xbks_boot_info) : list Z :=
  match bi_memmap b with
  | None => newline (str "memory map unavailable")
  | Some entries => log_line XBKS_LOG_INFO
      (str "memory map has " ++ numeral 10 false (Z.of_nat (length entries)) ++ str " entries")
  end.

Definition clear_text : list Z := 27 :: str "[2J" ++ 27 :: str "[H".

(** What a line other than [reboot] prints. *)
Definition command_text (b : xbks_boot_info) (name version cmdline s : list Z) : list Z :=
  if bool_decide (s = []) then []
  else if bool_decide (s = str "help") then help_text
  else if bool_decide (s = str "info") then info_text name version cmdline
  else if bool_decide (s = str "memmap") then memmap_text b
  else if bool_decide (s = str "clear") then clear_text
  else str "unknown command: " ++ newline s.

Definition echo (b : xbks_boot_info) (name version cmdline s : list Z) (ch : Z) : list Z :=
  if ch =? 10 then [10] ++ command_text b name version cmdline s ++ str "xbks> "
  else if ch =? 8 then if bool_decide (s = []) then [] else [8; 32; 8]
  else if printable ch && (Z.of_nat (length s) <? 127) then [ch]
  else [].

(** ** Output *)

Lemma says_string s t : text s -> says (fun _ l => l = s) (xbks_console_write_string (s ++ 0 :: t)).
Proof. intros H. eapply says_sends; [apply sends_string, H|reflexivity]. Qed.

Lemma says_lit s : forallb (fun c => (0 <? c) && (c <? 256)) (str s) = true -> says (fun _ l => l = str s) (xbks_console_write_string (lit s)).
Proof. intros H. apply says_string, text_check, H. Qed.

Lemma says_newline : says (fun _ l => l = [10]) (xbks_console_write_string [10; 0]).
Proof. apply (says_string [10] []), text_check. reflexivity. Qed.

Lemma says_lift {A B} (o : option A) (a : A) (Q : B -> list Z -> Prop) (f : A -> IO B) :
  o = Some a -> says Q (f a) -> says Q (lift o ≫= f).
Proof. intros -> H. exact H. Qed.

(** One more text, then the rest. *)
Lemma says_then {B} (io : IO unit) (l : list Z) (Q : B -> list Z -> Prop) (k : IO B) :
  says (fun _ l' => l' = l) io -> says (fun b l' => Q b (l ++ l')) k -> says Q (io;; k).
Proof. intros H1 H2. eapply says_bind; [exact H1|]. intros [] l' ->. exact H2. Qed.

Lemma says_eq (io : IO unit) l l' : says (fun _ x => x = l) io -> l = l' -> says (fun _ x => x = l') io.
Proof. intros H <-. exact H. Qed.

Lemma says_seq (io1 io2 : IO unit) l1 l2 l :
  says (fun _ x => x = l1) io1 -> says (fun _ x => x = l2) io2 -> l = l1 ++ l2 -> says (fun _ x => x = l) (io1;; io2).
Proof.
  intros H1 H2 ->. eapply says_then; [exact H1|]. eapply says_mono; [exact H2|]. intros _ x ->. reflexivity.
Qed.

(** The next entry of the command table, with its name and summary. *)
Ltac entry n s := constructor;
  [exists (str n), (str s); split; [reflexivity|]; split; [reflexivity|]; split; [apply text_check; reflexivity|];
   split; [apply text_check; reflexivity|reflexivity]|].

Lemma says_help : says (fun _ l => l = help_text) run_help.
Proof.
  unfold run_help. eapply says_seq.
  - apply (says_string (newline (str "built-in commands:")) []), text_check. reflexivity.
  - assert (G : forall l ts, Forall2 (fun c t => exists n s, cmd_name c = n ++ [0] /\ cmd_summary c = s ++ [0] /\
        text n /\ text s /\ t = newline (str "  " ++ n ++ str " - " ++ s)) l ts ->
      says (fun _ x => x = concat ts) (help_loop l)).
    { induction 1 as [|c t l ts (n & s & En & Es & Hn & Hs & ->) _ IH]; cbn [help_loop concat].
      { apply says_ret. reflexivity. }
      rewrite En, Es. eapply says_seq; [apply says_lit; reflexivity| |].
      - eapply says_seq; [apply says_string, Hn| |reflexivity].
        eapply says_seq; [apply says_lit; reflexivity| |reflexivity].
        eapply says_seq; [apply says_string, Hs| |reflexivity].
        eapply says_seq; [apply says_newline|exact IH|reflexivity].
      - unfold newline. rewrite <- !app_assoc. reflexivity. }
    apply (G commands [newline (str "  help - list built-in commands"); newline (str "  info - print boot protocol state");
      newline (str "  memmap - print memory map summary"); newline (str "  clear - clear the terminal");
      newline (str "  reboot - reset through the PS/2 controller")]).
    entry "help"%string "list built-in commands"%string. entry "info"%string "print boot protocol state"%string.
    entry "memmap"%string "print memory map summary"%string. entry "clear"%string "clear the terminal"%string.
    entry "reboot"%string "reset through the PS/2 controller"%string. constructor.
  - reflexivity.
Qed.

Lemma says_printf level fmt args ps out :
  forallb (fun c => (0 <? c) && (c <? 256)) (str fmt) = true -> pieces (str fmt) = Some ps -> render ps args = Some out ->
  text out -> Z.of_nat (length out) < 2 ^ 64 ->
  says (fun _ l => l = log_line level (take 511 out)) (xbks_log_printf level (lit fmt) args).
Proof.
  intros Hf Hp Hr Ht Hl. eapply says_sends; [|reflexivity].
  apply (sends_log_printf level (str fmt) [] args ps out); try assumption. apply text_nonzero, text_check, Hf.
Qed.

Section Boot.
Context (b : xbks_boot_info) (name version cmdline : list Z) (Hb : boot_text b name version cmdline).

Lemma says_info : says (fun _ l => l = info_text name version cmdline) (run_info b).
Proof using Hb.
  pose proof Hb as [(Tn & Tv & Tc) Hlen Hn Hc]. unfold run_info.
  assert (En : exists t, match bi_bootloader b with Some l => bl_name l | None => Some (lit "(unknown)") end = Some (name ++ 0 :: t)).
  { destruct (bi_bootloader b) as [l|]; [apply Hn|]. destruct Hn as [-> _]. exists []. reflexivity. }
  assert (Ev : exists t, match bi_bootloader b with Some l => bl_version l | None => Some (lit "(unknown)") end = Some (version ++ 0 :: t)).
  { destruct (bi_bootloader b) as [l|]; [apply Hn|]. destruct Hn as [_ ->]. exists []. reflexivity. }
  assert (Ec : exists t, match bi_cmdline b with Some (Some c) => c | _ => lit "" end = cmdline ++ 0 :: t).
  { destruct (bi_cmdline b) as [[l|]|]; [apply Hc| |]; rewrite Hc; exists []; reflexivity. }
  destruct En as [tn ->], Ev as [tv ->], Ec as [tc ->].
  eapply says_seq; [| |reflexivity].
  - eapply (says_printf _ _ _ (map PChar (str "bootloader: ") ++ PConv W32 (chr "s") :: PChar 32 :: [PConv W32 (chr "s")]));
      [reflexivity|reflexivity| | |].
    + rewrite render_chars, (render_string W32 name tn) by exact Tn. change [PConv W32 (chr "s")] with (map PChar [] ++ [PConv W32 (chr "s")]).
      cbn [render]. change (map PChar [] ++ ?l) with l. rewrite (render_string W32 version tv) by exact Tv.
      cbn [render mbind option_bind]. rewrite app_nil_r. reflexivity.
    + apply Forall_app. split; [apply text_check; reflexivity|]. apply Forall_app. split; [exact Tn|]. apply text_cons. split; [split; reflexivity|exact Tv].
    + rewrite !length_app. cbn [length str]. lia.
  - eapply (says_printf _ _ _ (map PChar (str "cmdline: ") ++ [PConv W32 (chr "s")])); [reflexivity|reflexivity| | |].
    + rewrite render_chars, (render_string W32 cmdline tc) by exact Tc. cbn [render mbind option_bind]. rewrite app_nil_r. reflexivity.
    + apply Forall_app. split; [apply text_check; reflexivity|exact Tc].
    + rewrite length_app. cbn [length str]. lia.
Qed.

Lemma says_memmap :
  Z.of_nat (length (default [] (bi_memmap b))) < 2 ^ 64 -> says (fun _ l => l = memmap_text b) (run_memmap b).
Proof.
  intros Hl. unfold run_memmap, memmap_text. destruct (bi_memmap b) as [entries|]; cbn [default from_option id] in Hl.
  - set (n := Z.of_nat (length entries)) in *.
    assert (Hnl : (length (numeral 10 false n) <= 20)%nat).
    { destruct (numeral_length 10 false 20 64 n) as [H|H]; [lia| |lia|apply H|discriminate].
      change (10 ^ Z.of_nat 20) with 100000000000000000000. lia. }
    eapply says_eq; [eapply (says_printf _ _ _ (map PChar (str "memory map has ") ++ PConv W64 (chr "u") :: map PChar (str " entries")));
      [reflexivity|reflexivity| | |]|].
    + rewrite render_chars. transitivity (Some (str "memory map has " ++ (numeral 10 false (u64 n) ++ str " entries"))); [reflexivity|].
      rewrite uwrap_small by lia. reflexivity.
    + apply Forall_app. split; [apply text_check; reflexivity|]. apply Forall_app.
      split; [apply numeral_text; lia|apply text_check; reflexivity].
    + rewrite !length_app. cbn [length str]. lia.
    + cbv beta. rewrite take_ge by (rewrite !length_app; cbn [length str]; lia). reflexivity.
  - apply (says_string (newline (str "memory map unavailable")) []), text_check. reflexivity.
Qed.

Lemma says_clear : says (fun _ l => l = clear_text) run_clear.
Proof. apply (says_string clear_text []), text_check. reflexivity. Qed.

(** ** Commands *)

Lemma strcmp_lit s t n :
  text s -> text (str n) -> exists d, strcmp (s ++ 0 :: t) (lit n) = Some d /\ (d = 0 <-> s = str n).
Proof.
  intros Hs Hn. apply strcmp_eq; [apply cstr_app, Hs|unfold lit; apply (cstr_app (str n) []), Hn|exact Hs|exact Hn].
Qed.

Lemma find_command_ok s t l :
  text s -> Forall (fun c => exists n, cmd_name c = lit n /\ text (str n)) l ->
  exists r, find_command (s ++ 0 :: t) l = Some r /\
    r = option_map cmd_handler (List.find (fun c => bool_decide (cmd_name c = s ++ [0])) l).
Proof.
  intros Hs. induction 1 as [|c l (n & En & Hn) _ (r & Er & IH)]; [exists None; split; reflexivity|].
  cbn [find_command List.find]. rewrite En. destruct (strcmp_lit s t n Hs Hn) as (d & -> & Hd). cbn [mbind option_bind].
  destruct (Z.eqb_spec d 0) as [H0|H0].
  - apply Hd in H0. subst. exists (Some (cmd_handler c)). split; [reflexivity|].
    rewrite bool_decide_eq_true_2 by reflexivity. reflexivity.
  - exists r. split; [exact Er|]. rewrite bool_decide_eq_false_2; [exact IH|]. intros E. apply H0, Hd.
    unfold lit in E. apply app_inj_tail in E as [-> _]. reflexivity.
Qed.
Lemma commands_named : Forall (fun c => exists n, cmd_name c = lit n /\ text (str n)) commands.
Proof. repeat (constructor; [eexists; split; [reflexivity|apply text_check; reflexivity]|]). constructor. Qed.

(** The handler of a line. *)
Definition handler_of (s : list Z) : option handler :=
  if bool_decide (s = str "help") then Some command_help
  else if bool_decide (s = str "info") then Some command_info
  else if bool_decide (s = str "memmap") then Some command_memmap
  else if bool_decide (s = str "clear") then Some command_clear
  else if bool_decide (s = str "reboot") then Some command_reboot
  else None.

Lemma lit_inj s n : bool_decide (lit n = s ++ [0]) = bool_decide (s = str n).
Proof.
  apply bool_decide_ext. unfold lit. split; [intros H; apply app_inj_tail in H as [-> _]; reflexivity|intros ->; reflexivity].
Qed.

Lemma find_command_handler s t : text s -> find_command (s ++ 0 :: t) commands = Some (handler_of s).
Proof.
  intros Hs. destruct (find_command_ok s t commands Hs commands_named) as (r & -> & ->). f_equal.
  unfold handler_of, commands. cbn [List.find cmd_name]. rewrite !lit_inj.
  repeat (destruct (bool_decide _); [reflexivity|]). reflexivity.
Qed.

Lemma says_command s t :
  text s -> s <> str "reboot" -> Z.of_nat (length (default [] (bi_memmap b))) < 2 ^ 64 ->
  says (fun _ l => l = command_text b name version cmdline s) (run_command b (s ++ 0 :: t)).
Proof using Hb.
  intros Hs Hr Hm. unfold run_command, command_text.
  destruct (bool_decide_reflect (s = [])) as [->|Hne].
  { apply (says_lift _ 0); [reflexivity|]. apply says_ret. reflexivity. }
  destruct s as [|c s]; [congruence|]. apply (says_lift _ c); [reflexivity|].
  assert (c <> 0) by (apply text_cons in Hs; lia). destruct (Z.eqb_spec c 0); [lia|].
  eapply says_lift; [apply find_command_handler, Hs|]. unfold handler_of.
  destruct (bool_decide _); [apply says_help|]. destruct (bool_decide _); [apply says_info|].
  destruct (bool_decide _); [apply says_memmap, Hm|]. destruct (bool_decide _); [apply says_clear|].
  rewrite bool_decide_eq_false_2 by exact Hr.
  eapply says_seq; [apply says_lit; reflexivity| |].
  - eapply says_seq; [apply says_string, Hs|apply says_newline|reflexivity].
  - reflexivity.
Qed.

(** ** The editor *)

Lemma printable_text s : Forall (fun c => printable c = true) s -> text s.
Proof. intros H. eapply List.Forall_impl; [|exact H]. unfold printable. intros c Hc. cbn beta in Hc. to_prop. lia. Qed.

Lemma take_insert_end {A} (l : list A) n x : (n < length l)%nat -> take (S n) (<[n := x]> l) = take n l ++ [x].
Proof.
  intros H. rewrite (take_S_r _ _ x); [|apply list_lookup_insert_eq, H]. rewrite take_insert_ge by lia. reflexivity.
Qed.

Lemma shell_step_ok st s ch :
  holds_line st s -> Z.of_nat (length (default [] (bi_memmap b))) < 2 ^ 64 ->
  (ch = 10 -> s <> str "reboot") ->
  says (fun st' l => holds_line st' (edit s ch) /\ l = echo b name version cmdline s ch) (shell_step b st ch).
Proof using Hb.
  intros [Hlen Hn Hs Ht Hp] Hm Hr. destruct st as [line n]. cbn [fst snd] in *. subst n.
  unfold shell_step, edit, echo. destruct (Z.eqb_spec ch 10) as [->|H10].
  { eapply says_then; [apply says_newline|]. eapply says_lift; [apply buf_set_ok; lia|]. rewrite Nat2Z.id.
    eapply says_then.
    - assert (E : <[length s := 0]> line = s ++ 0 :: drop (S (length s)) line).
      { rewrite insert_take_drop by lia. rewrite Ht. reflexivity. }
      rewrite E. apply says_command; [apply printable_text, Hp|apply Hr; reflexivity|exact Hm].
    - eapply says_then; [apply says_lit; reflexivity|]. apply says_ret. split; [|rewrite app_nil_r; reflexivity].
      split; cbn; [rewrite length_insert; exact Hlen|reflexivity|lia|reflexivity|constructor]. }
  destruct (Z.eqb_spec ch 8) as [->|H8].
  { destruct s as [|c s].
    - cbn [length Z.of_nat Z.eqb negb]. apply says_ret. split; [|reflexivity]. split; assumption || reflexivity.
    - rewrite (proj2 (Z.eqb_neq _ _)) by (cbn [length]; lia). cbn [negb].
      eapply says_then; [apply (says_string [8; 32; 8] []), text_check; reflexivity|]. apply says_ret.
      set (s' := c :: s) in *. split; [|reflexivity].
      assert (El : length (take (length s' - 1) s') = (length s' - 1)%nat) by (rewrite length_take; lia).
      split; cbn [fst snd]; rewrite ?El; [exact Hlen|cbn; lia|lia| |apply Forall_take, Hp].
      transitivity (take (length s' - 1) (take (length s') line)); [rewrite take_take; f_equal; lia|rewrite Ht; reflexivity]. }
  fold (printable ch). replace (Z.of_nat (length s) + 1 <? 128) with (Z.of_nat (length s) <? 127)
    by (destruct (Z.ltb_spec (Z.of_nat (length s)) 127), (Z.ltb_spec (Z.of_nat (length s) + 1) 128); lia || reflexivity).
  destruct (printable ch && _) eqn:E; [|apply says_ret; split; [split; assumption || reflexivity|reflexivity]].
  to_prop. eapply says_lift; [apply buf_set_ok; lia|]. rewrite Nat2Z.id.
  eapply says_then.
  - assert (Hs1 : sends (xbks_console_write [ch]) [ch] (crlf [ch]) (crlf [ch])).
    { apply sends_console. unfold printable in *. to_prop. constructor; [lia|constructor]. }
    eapply says_sends; [exact Hs1|reflexivity].
  - apply says_ret. split; [|reflexivity].
    split; cbn [fst snd]; rewrite ?length_insert, ?length_app; cbn [length]; [exact Hlen|lia|lia| |].
    + rewrite Nat.add_1_r, take_insert_end, Ht by lia. reflexivity.
    + apply Forall_app. split; [exact Hp|]. constructor; [assumption|constructor].
Qed.
End Boot.

(** ** Rebooting *)

Lemma wait_controller_ok rounds d :
  match wait_controller rounds d with
  | inl (_, d') => exists u v, trace d' = trace d ++ u ++ [Inb 0x64 v] /\ Z.land v 2 = 0 /\ (forall w, ~ In (Outb 0x64 w) u)
  | inr (WAITING _) => True
  | inr _ => False
  end.
Proof.
  revert d. induction rounds as [|n IH]; intros [[|v l] t c]; cbn [wait_controller]; try exact I;
    unfold xbks_inb, mbind, IO_bind, mret, IO_ret; cbn [answers trace tty_context].
  - destruct (Z.eqb_spec (Z.land (u8 v) 2) 0); [|exact I]. exists [], (u8 v). cbn. auto.
  - destruct (Z.eqb_spec (Z.land (u8 v) 2) 0); [exists [], (u8 v); cbn; auto|].
    specialize (IH (Devices l (t ++ [Inb 0x64 (u8 v)]) c)). destruct (wait_controller n _) as [[[] d']|[]]; try exact IH.
    destruct IH as (u & w & Et & Hw & Hu). exists (Inb 0x64 (u8 v) :: u), w. cbn [trace] in Et.
    rewrite Et, <- !app_assoc. split; [reflexivity|]. split; [exact Hw|]. intros x [H|H]; [discriminate|apply (Hu x H)].
Qed.

Lemma run_command_reboot b t : run_command b (str "reboot" ++ 0 :: t) = run_reboot.
Proof.
  unfold run_command. change (head (str "reboot" ++ 0 :: t)) with (Some (chr "r")). cbn [lift mbind IO_bind].
  rewrite find_command_handler by (apply text_check; reflexivity). reflexivity.
Qed.

(** The line [reboot] never returns: after its message it waits until the controller's
    input buffer is empty, writes the reset command in the very next event, and halts. *)
Lemma reboot_correct b t d :
  match run_command b (str "reboot" ++ 0 :: t) d with
  | inr (HALTED tr) => exists u v, tr = trace d ++ u ++ [Inb 0x64 v; Outb 0x64 0xfe] /\ Z.land v 2 = 0 /\
      exists u1 u2, u = u1 ++ u2 /\ port_bytes 0xe9 u1 = newline (str "rebooting...") /\ (forall w, ~ In (Outb 0x64 w) u2)
  | inr (WAITING _) => True
  | _ => False
  end.
Proof.
  rewrite run_command_reboot. unfold run_reboot, polling.
  pose proof (says_string (newline (str "rebooting...")) [] ltac:(apply text_check; reflexivity) d) as H.
  unfold newline in H. rewrite <- app_assoc in H. cbn [app] in H. unfold mbind, IO_bind.
  destruct (xbks_console_write_string _ d) as [[[] d1]|[]]; [|exact I|exact H|destruct H].
  destruct H as (l & -> & [_ _ _ (u1 & Et1 & Eg1 & _)]).
  pose proof (wait_controller_ok (length (answers d1)) d1) as H.
  destruct (wait_controller _ d1) as [[[] d2]|[]]; [|exact I|exact H|destruct H].
  destruct H as (u2 & v & Et2 & Hv & Hu2). cbn. exists (u1 ++ u2), v.
  rewrite Et2, Et1, <- !app_assoc. split; [reflexivity|]. split; [exact Hv|]. exists u1, u2. auto.
Qed.

(** ** The loop *)

(** The last two events: the keyboard controller is ready and is told to reset the machine. *)
Definition reset_requested (t : list io_event) : Prop :=
  exists u v, t = u ++ [Inb 0x64 v; Outb 0x64 0xfe] /\ Z.land v 2 = 0.

(** It stays within its objects, what it answers satisfies [Q], and it halts only after
    a request to reset. *)
Definition runs {A} (Q : A -> Prop) (io : IO A) : Prop := forall d,
  match io d with inl (a, _) => Q a | inr STRAY => False | inr (WAITING _) => True | inr (HALTED t) => reset_requested t end.

Lemma runs_bind {A B} (P : A -> Prop) (Q : B -> Prop) (io : IO A) (f : A -> IO B) :
  runs P io -> (forall a, P a -> runs Q (f a)) -> runs Q (io ≫= f).
Proof.
  intros H1 H2 d. specialize (H1 d). unfold mbind, IO_bind.
  destruct (io d) as [[a d1]|[]]; [apply H2, H1|exact I|exact H1|exact H1].
Qed.

Lemma runs_says {A} (Q : A -> list Z -> Prop) (io : IO A) (P : A -> Prop) :
  says Q io -> (forall a l, Q a l -> P a) -> runs P io.
Proof.
  intros H HP d. specialize (H d). destruct (io d) as [[a d']|[]]; try exact I; [|destruct H|destruct H].
  destruct H as (l & Hl & _). apply (HP _ _ Hl).
Qed.

Lemma runs_ret {A} (Q : A -> Prop) a : Q a -> runs Q (mret a).
Proof. intros H d. exact H. Qed.

Lemma runs_waiting {A} (Q : A -> Prop) : runs Q waiting.
Proof. intros d. exact I. Qed.

Lemma runs_polling {A} (Q : A -> Prop) loop : (forall n, runs Q (loop n)) -> runs Q (polling loop).
Proof. intros H d. apply (H (length (answers d)) d). Qed.

Lemma runs_inb port : runs (fun _ => True) (xbks_inb port).
Proof. intros d. unfold xbks_inb. destruct (answers d); exact I. Qed.

Lemma poll_devices_runs : runs (fun _ => True) poll_devices.
Proof.
  unfold poll_devices, xbks_serial_read_byte, serial_received. eapply runs_bind.
  - eapply runs_bind; [eapply runs_bind; [apply runs_inb|intros v _; apply (runs_ret (fun _ => True)); exact I]|].
    intros r _. destruct (negb r); [apply (runs_ret (fun _ => True)); exact I|].
    eapply runs_bind; [apply runs_inb|]. intros v _. apply (runs_ret (fun _ => True)); exact I.
  - intros [v|] _; [apply runs_ret; exact I|]. eapply runs_bind; [apply runs_inb|]. intros st _.
    destruct (_ =? 0); [apply runs_ret; exact I|]. eapply runs_bind; [apply runs_inb|]. intros v _. apply runs_ret. exact I.
Qed.

Lemma read_char_runs rounds shift : runs (fun _ => True) (read_char_rounds rounds shift).
Proof.
  revert shift. induction rounds as [|n IH]; intros shift; cbn [read_char_rounds].
  all: eapply runs_bind; [apply poll_devices_runs|]; intros p _;
    destruct (xbks_keyboard_read_char shift p) as [[ch|] sh]; [apply runs_ret; exact I|].
  - apply runs_waiting.
  - apply IH.
Qed.

Lemma reboot_runs b t : runs (fun _ => False) (run_command b (str "reboot" ++ 0 :: t)).
Proof.
  intros d. pose proof (reboot_correct b t d) as H. destruct (run_command _ _ d) as [[[] d1]|[tr| |tr]]; try exact H.
  destruct H as (u & v & -> & Hv & _). exists (trace d ++ u), v. rewrite <- app_assoc. split; [reflexivity|exact Hv].
Qed.

Section Loop.
Context (b : xbks_boot_info) (name version cmdline : list Z) (Hb : boot_text b name version cmdline).
Context (Hm : Z.of_nat (length (default [] (bi_memmap b))) < 2 ^ 64).

Lemma shell_step_runs st s ch : holds_line st s -> runs (fun st' => exists s', holds_line st' s') (shell_step b st ch).
Proof using Hb Hm.
  intros H. destruct (decide (ch = 10 /\ s = str "reboot")) as [[-> ->]|Hn].
  - destruct H as [Hlen Hn Hs Ht Hp]. destruct st as [line n]. cbn [fst snd] in *. subst n. unfold shell_step.
    change (10 =? 10) with true. cbv iota. eapply runs_bind.
    { eapply (runs_says _ _ (fun _ => True)); [apply says_newline|auto]. }
    intros _ _. rewrite buf_set_ok by (rewrite Hlen; cbn; lia). rewrite Nat2Z.id.
    assert (E : <[length (str "reboot") := 0]> line = str "reboot" ++ 0 :: drop (S (length (str "reboot"))) line).
    { rewrite insert_take_drop by (rewrite Hlen; cbn; lia). rewrite Ht. reflexivity. }
    rewrite E. cbn [lift]. unfold mbind at 1, IO_bind at 1, mret at 1, IO_ret at 1.
    eapply (runs_bind (fun _ => False)).
    + apply reboot_runs.
    + intros _ [].
  - eapply runs_says; [apply (shell_step_ok b name version cmdline Hb st s ch H Hm)|].
    + intros -> E. apply Hn. auto.
    + intros st' l [H' _]. eauto.
Qed.

Lemma shell_loop_runs rounds shift st s : holds_line st s -> runs (fun _ => False) (shell_loop b rounds shift st).
Proof using Hb Hm.
  revert shift st s. induction rounds as [|n IH]; intros shift st s H; cbn [shell_loop].
  all: eapply runs_bind; [apply runs_polling; intros k; apply read_char_runs|]; intros [ch sh] _;
    eapply runs_bind; [apply (shell_step_runs st s ch H)|]; intros st' [s' Hs'].
  - apply runs_waiting.
  - apply (IH sh st' s' Hs').
Qed.

Lemma uninit_line : holds_line (uninit 128, 0) [].
Proof. split; cbn [fst snd]; [reflexivity|reflexivity|cbn; lia|reflexivity|constructor]. Qed.

Lemma shell_run_runs : runs (fun _ => False) (xbks_shell_run b).
Proof using Hb Hm.
  unfold xbks_shell_run.
  eapply runs_bind; [eapply (runs_says _ _ (fun _ => True)); [|auto]; apply (says_string (10 :: newline (str "xbks early shell")) []), text_check; reflexivity|].
  intros _ _.
  eapply runs_bind; [eapply (runs_says _ _ (fun _ => True)); [|auto]; apply (says_string (newline (str "type 'help' for commands")) []), text_check; reflexivity|].
  intros _ _.
  eapply runs_bind; [eapply (runs_says _ _ (fun _ => True)); [|auto]; apply says_lit; reflexivity|]. intros _ _.
  apply runs_polling. intros n. apply (shell_loop_runs n _ _ []), uninit_line.
Qed.
End Loop.

(** C19. One character typed at the shell: the 128-byte buffer with its length behaves as
    the list of the characters of the line, at most 127 printable ones; the newline
    runs the line's command, whose output is exactly [command_text], and starts an empty
    line; a backspace takes the last character away, on the screen too; everything else
    is ignored. *)
Theorem shell_step_correct b name version cmdline st s ch :
  boot_text b name version cmdline -> Z.of_nat (length (default [] (bi_memmap b))) < 2 ^ 64 ->
  holds_line st s -> (ch = 10 -> s <> str "reboot") ->
  says (fun st' l => holds_line st' (edit s ch) /\ l = echo b name version cmdline s ch) (shell_step b st ch).
Proof. intros Hb Hm H Hr. apply shell_step_ok; assumption. Qed.

Definition bare_boot : xbks_boot_info := BootInfo None None None None None None None None.

Lemma bare_boot_text : boot_text bare_boot (str "(unknown)") (str "(unknown)") [].
Proof. split; cbn; [repeat split; try (apply text_check; reflexivity)|lia|auto|reflexivity]. Qed.

Lemma shell_step_correct_witness :
  says (fun st' l => holds_line st' [] /\ l = [10] ++ clear_text ++ str "xbks> ")
    (shell_step bare_boot (str "clear" ++ replicate 123 170, 5) 10) /\
  says (fun st' l => holds_line st' (str "h") /\ l = str "h") (shell_step bare_boot (uninit 128, 0) (chr "h")).
Proof.
  split.
  - apply (shell_step_correct bare_boot _ _ _ _ (str "clear") 10 bare_boot_text).
    + cbn. lia.
    + split; cbn [fst snd]; [reflexivity|reflexivity|cbn; lia|reflexivity|]. repeat (constructor; [reflexivity|]). constructor.
    + discriminate.
  - apply (shell_step_correct bare_boot _ _ _ _ [] (chr "h") bare_boot_text).
    + cbn. lia.
    + split; cbn [fst snd]; [reflexivity|reflexivity|cbn; lia|reflexivity|constructor].
    + discriminate.
Defined.

(** The shell never returns and never leaves its objects, whatever the devices answer:
    a run waits for a device only after it has taken every answer there was, one for each
    of its port reads, and ends otherwise in the halt of [reboot]. *)
Theorem shell_runs_forever b name version cmdline d :
  boot_text b name version cmdline -> Z.of_nat (length (default [] (bi_memmap b))) < 2 ^ 64 ->
  trace d = [] ->
  exists tr, (xbks_shell_run b d = inr (WAITING tr) /\ inputs tr = length (answers d)) \/
    (xbks_shell_run b d = inr (HALTED tr) /\ reset_requested tr).
Proof.
  intros Hb Hm Ht. pose proof (fed_shell_run b d) as Hf. unfold fed_from, budget in Hf. rewrite Ht in Hf. pose proof (shell_run_runs b name version cmdline Hb Hm d) as H.
  destruct (xbks_shell_run b d) as [[[] d']|[tr| |tr]]; [destruct H|eauto|destruct H|eauto].
Qed.

Lemma shell_runs_forever_witness :
  exists tr, (xbks_shell_run bare_boot (Devices (replicate 200 33) [] false) = inr (WAITING tr) /\ inputs tr = 200%nat) \/
    (xbks_shell_run bare_boot (Devices (replicate 200 33) [] false) = inr (HALTED tr) /\ reset_requested tr).
Proof.
  apply (shell_runs_forever bare_boot _ _ _ (Devices (replicate 200 33) [] false) bare_boot_text); [cbn; lia|reflexivity].
Defined.
