(* ===== verification/Entry.v ===== *)
(** * Entering and leaving the kernel (src/arch/x86_64, src/syscall/syscall.c,
      include/xbks/cpu.h, include/xbks/uapi/syscall.h)

    The descriptor table, the model-specific registers of the [syscall] instruction, the
    assembly routines that save and restore the user's registers, and the functions a
    user program calls.  The assembly is a list of instructions run by [run]; the
    C function it calls is a parameter, on which the calling convention is assumed. *)

From Stdlib Require Import Ascii String.
From S2P Require Import Prelude CMem CStr Kernel Console.

(** ** src/arch/x86_64/gdt.c *)

Definition GDT_KERNEL_CODE : Z := 0x08.
Definition GDT_KERNEL_DATA : Z := 0x10.
Definition GDT_USER_DATA : Z := 0x20.
Definition GDT_USER_CODE : Z := 0x28.

Record gdt_pointer := GdtPointer { limit : Z; base : Z }.

Definition gdt : list Z :=
  [0x0000000000000000; 0x00af9a000000ffff; 0x00cf92000000ffff;
   0x0000000000000000; 0x00cff2000000ffff; 0x00affa000000ffff].

(** ** The processor *)

Inductive reg := RAX | RBX | RCX | RDX | RSI | RDI | RBP | RSP | R8 | R9 | R10 | R11 | R12 | R13 | R14 | R15.

#[export] Instance reg_eq_dec : EqDecision reg.
Proof. solve_decision. Defined.

(** [gdtr] is the table the processor uses. *)
Record cpu := Cpu {
  regs : reg -> Z;
  rip : Z;
  rflags : Z;
  cs : Z;
  ss : Z;
  ds : Z;
  es : Z;
  gdtr : gdt_pointer;
  cpu_mem : mem;
}.

Definition upd (r : reg) (v : Z) (f : reg -> Z) : reg -> Z := fun r' => if decide (r' = r) then v else f r'.

Definition set_reg (r : reg) (v : Z) (c : cpu) : cpu :=
  Cpu (upd r v (regs c)) (rip c) (rflags c) (cs c) (ss c) (ds c) (es c) (gdtr c) (cpu_mem c).
Definition set_mem (m : mem) (c : cpu) : cpu :=
  Cpu (regs c) (rip c) (rflags c) (cs c) (ss c) (ds c) (es c) (gdtr c) m.

Inductive segment_register := DS | ES | SS.

Definition set_segment (s : segment_register) (v : Z) (c : cpu) : cpu :=
  match s with
  | DS => Cpu (regs c) (rip c) (rflags c) (cs c) (ss c) v (es c) (gdtr c) (cpu_mem c)
  | ES => Cpu (regs c) (rip c) (rflags c) (cs c) (ss c) (ds c) v (gdtr c) (cpu_mem c)
  | SS => Cpu (regs c) (rip c) (rflags c) (cs c) v (ds c) (es c) (gdtr c) (cpu_mem c)
  end.

(** The instructions of the routines, with the addresses of [(%rip)] operands. *)
Inductive instr :=
| PushR (r : reg)
| PushM (address : Z)
| PopR (r : reg)
| MovRM (r : reg) (address : Z)
| MovRR (src dst : reg)
| MovIR (value : Z) (r : reg)
| MovRS (r : reg) (offset : Z)
| Lea (address : Z) (r : reg)
| XorR (r : reg)
| LgdtR (r : reg)
| MovIW (value : Z) (r : reg)
| MovRSeg (r : reg) (s : segment_register)
| PushI (value : Z)
| Lretq
| Ret
| Call
| Sysret.

Definition pushed (v : Z) (c : cpu) : cpu :=
  let sp := regs c RSP -u 8 in set_mem (st64 (cpu_mem c) sp v) (set_reg RSP sp c).

(** An address with all of the bits from 47 on equal. *)
Definition canonical (a : Z) : bool := (a <? 2 ^ 47) || (2 ^ 64 - 2 ^ 47 <=? a).

(** The model-specific registers [syscall] and [sysret] read. *)
Record msrs := Msrs { star : Z; lstar : Z; fmask : Z }.

(** [syscall], at the instruction before [rip]. *)
Definition syscall_insn (m : msrs) (c : cpu) : cpu :=
  let kernel_cs := Z.land (Z.shiftr (star m) 32) 0xfffc in
  Cpu (upd R11 (rflags c) (upd RCX (rip c) (regs c))) (lstar m) (Z.land (rflags c) (~u (fmask m)))
    kernel_cs (kernel_cs + 8) (ds c) (es c) (gdtr c) (cpu_mem c).

(** [sysretq]: a return address that is not canonical faults. *)
Definition sysret (m : msrs) (c : cpu) : option cpu :=
  if canonical (regs c RCX) then
    let user := Z.shiftr (star m) 48 in
    Some (Cpu (regs c) (regs c RCX) (Z.lor (Z.land (regs c R11) 0x3c7fd7) 2)
            (Z.lor (user + 16) 3) (Z.lor (user + 8) 3) (ds c) (es c) (gdtr c) (cpu_mem c))
  else None.

Section Run.
Context (m : msrs) (callee : cpu -> option cpu).

Definition step (i : instr) (c : cpu) : option cpu :=
  match i with
  | PushR r => Some (pushed (regs c r) c)
  | PushM a => Some (pushed (ld64 (cpu_mem c) a) c)
  | PopR r => Some (set_reg r (ld64 (cpu_mem c) (regs c RSP)) (set_reg RSP (regs c RSP +u 8) c))
  | MovRM r a => Some (set_mem (st64 (cpu_mem c) a (regs c r)) c)
  | MovRR src dst => Some (set_reg dst (regs c src) c)
  | MovIR v r => Some (set_reg r v c)
  | MovRS r offset => Some (set_mem (st64 (cpu_mem c) (regs c RSP +u offset) (regs c r)) c)
  | Lea a r => Some (set_reg r a c)
  | XorR r => Some (set_reg r 0 c)
  | LgdtR r =>
      Some (Cpu (regs c) (rip c) (rflags c) (cs c) (ss c) (ds c) (es c)
              (GdtPointer (ld16 (cpu_mem c) (regs c r)) (ld64 (cpu_mem c) (regs c r + 2))) (cpu_mem c))
  | MovIW v r => Some (set_reg r (Z.lor (Z.land (regs c r) (~u 0xffff)) v) c)
  | MovRSeg r s => Some (set_segment s (u16 (regs c r)) c)
  | PushI v => Some (pushed v c)
  | Lretq =>
      let sp := regs c RSP in
      Some (set_reg RSP (sp +u 16)
              (Cpu (regs c) (ld64 (cpu_mem c) sp) (rflags c) (u16 (ld64 (cpu_mem c) (sp +u 8))) (ss c) (ds c) (es c)
                 (gdtr c) (cpu_mem c)))
  | Ret =>
      let sp := regs c RSP in
      Some (set_reg RSP (sp +u 8)
              (Cpu (regs c) (ld64 (cpu_mem c) sp) (rflags c) (cs c) (ss c) (ds c) (es c) (gdtr c) (cpu_mem c)))
  | Call => callee c
  | Sysret => sysret m c
  end.

Fixpoint run (l : list instr) (c : cpu) : option cpu :=
  match l with
  | [] => Some c
  | i :: rest => c ← step i c; run rest c
  end.
End Run.

(** ** src/arch/x86_64/syscall_entry.S *)

Section Stub.
Context (xbks_syscall_saved_user_rsp xbks_syscall_stack_top : Z).

(** The general registers in the order they are pushed. *)
Definition saved_registers : list reg :=
  [RAX; RBX; RCX; RDX; RSI; RDI; RBP; R8; R9; R10; R11; R12; R13; R14; R15].

Definition save_user : list instr :=
  [MovRM RSP xbks_syscall_saved_user_rsp; Lea xbks_syscall_stack_top RSP;
   PushM xbks_syscall_saved_user_rsp; PushR RCX; PushR R11]
  ++ map PushR saved_registers ++ [MovRR RSP RDI].

Definition restore_user : list instr :=
  [MovRS RAX 112] ++ map PopR (rev saved_registers) ++ [PopR R11; PopR RCX; PopR RSP; Sysret].

Definition xbks_x86_64_syscall_entry : list instr := save_user ++ [Call] ++ restore_user.
End Stub.

(** ** src/arch/x86_64/user_entry.S, with the arguments in [rdi] and [rsi] *)

Definition xbks_x86_64_enter_user : list instr :=
  [MovRR RSI RSP; MovIR 0x202 R11; MovRR RDI RCX]
  ++ map XorR [RAX; RBX; RDX; RSI; RDI; RBP; R8; R9; R10; R12; R13; R14; R15] ++ [Sysret].

(** ** src/arch/x86_64/gdt_entry.S

    [label_1] is the address of the instruction after the far return. *)
Definition xbks_x86_64_gdt_load (label_1 : Z) : list instr :=
  [LgdtR RDI; MovIW 0x10 RAX; MovRSeg RAX DS; MovRSeg RAX ES; MovRSeg RAX SS;
   PushI 0x08; Lea label_1 RAX; PushR RAX; Lretq; Ret].

(** [pointer] is on the stack at [frame]; [gdt_address] is the table's; the call leaves
    [return_address] on the stack. *)
Definition xbks_gdt_init (gdt_address frame label_1 return_address : Z) (c : cpu) : option cpu :=
  let pointer := GdtPointer (u16 (8 * Z.of_nat (length gdt) - 1)) gdt_address in
  let m := st64 (st16 (cpu_mem c) frame (limit pointer)) (frame + 2) (base pointer) in
  run (Msrs 0 0 0) Some (xbks_x86_64_gdt_load label_1) (pushed return_address (set_reg RDI frame (set_mem m c))).

(** ** src/syscall/syscall.c and include/xbks/cpu.h *)

Definition XBKS_MSR_EFER : Z := 0xc0000080.
Definition XBKS_MSR_STAR : Z := 0xc0000081.
Definition XBKS_MSR_LSTAR : Z := 0xc0000082.
Definition XBKS_MSR_FMASK : Z := 0xc0000084.

Definition EFER_SYSCALL_ENABLE : Z := 1.
Definition RFLAGS_INTERRUPT_ENABLE : Z := 512.
Definition RFLAGS_DIRECTION_FLAG : Z := 1024.

(** The two halves of the register are one answer. *)
Definition xbks_rdmsr (msr : Z) : IO Z := fun d =>
  match answers d with
  | [] => inr (WAITING (trace d))
  | v :: rest =>
      let low := u32 v in let high := u32 (Z.shiftr v 32) in
      let value := Z.lor (Z.shiftl high 32) low in
      inl (value, Devices rest (trace d ++ [Rdmsr msr value]) (tty_context d))
  end.

Definition xbks_wrmsr (msr value : Z) : IO unit :=
  let low := u32 value in let high := u32 (Z.shiftr value 32) in
  event (Wrmsr msr (Z.lor (Z.shiftl high 32) low)).

Definition xbks_syscall_init (syscall_entry_address : Z) : IO unit :=
  efer ← xbks_rdmsr XBKS_MSR_EFER;
  xbks_wrmsr XBKS_MSR_EFER (Z.lor efer EFER_SYSCALL_ENABLE);;
  xbks_wrmsr XBKS_MSR_LSTAR syscall_entry_address;;
  xbks_wrmsr XBKS_MSR_STAR (Z.lor (Z.shiftl 0x08 32) (Z.shiftl 0x18 48));;
  xbks_wrmsr XBKS_MSR_FMASK (Z.lor RFLAGS_INTERRUPT_ENABLE RFLAGS_DIRECTION_FLAG);;
  xbks_log_write XBKS_LOG_INFO (lit "x86_64 syscall MSRs configured").

(** The value a register has after a record of events: the last one written. *)
Fixpoint msr_after (msr v : Z) (t : list io_event) : Z :=
  match t with
  | [] => v
  | Wrmsr r w :: rest => msr_after msr (if r =? msr then w else v) rest
  | _ :: rest => msr_after msr v rest
  end.

Definition msrs_after (t : list io_event) : msrs :=
  Msrs (msr_after XBKS_MSR_STAR 0 t) (msr_after XBKS_MSR_LSTAR 0 t) (msr_after XBKS_MSR_FMASK 0 t).

(** ** include/xbks/uapi/syscall.h: the functions of user programs

    Each loads the number and the arguments and executes [syscall]; its value is what
    [rax] holds afterwards.  [trap] is the rest of the machine: the kernel's entry,
    run on the state [syscall] leaves. *)
Section Wrappers.
Context (trap : cpu -> option cpu).

Definition xbks_syscall0 (number : Z) (c : cpu) : option cpu :=
  trap (set_reg RAX number c).
Definition xbks_syscall1 (number arg0 : Z) (c : cpu) : option cpu :=
  trap (set_reg RDI arg0 (set_reg RAX number c)).
Definition xbks_syscall2 (number arg0 arg1 : Z) (c : cpu) : option cpu :=
  trap (set_reg RSI arg1 (set_reg RDI arg0 (set_reg RAX number c))).
Definition xbks_syscall3 (number arg0 arg1 arg2 : Z) (c : cpu) : option cpu :=
  trap (set_reg RDX arg2 (set_reg RSI arg1 (set_reg RDI arg0 (set_reg RAX number c)))).
Definition xbks_syscall4 (number arg0 arg1 arg2 arg3 : Z) (c : cpu) : option cpu :=
  trap (set_reg R10 arg3 (set_reg RDX arg2 (set_reg RSI arg1 (set_reg RDI arg0 (set_reg RAX number c))))).
Definition xbks_syscall5 (number arg0 arg1 arg2 arg3 arg4 : Z) (c : cpu) : option cpu :=
  trap (set_reg R8 arg4 (set_reg R10 arg3 (set_reg RDX arg2 (set_reg RSI arg1 (set_reg RDI arg0
    (set_reg RAX number c)))))).
Definition xbks_syscall6 (number arg0 arg1 arg2 arg3 arg4 arg5 : Z) (c : cpu) : option cpu :=
  trap (set_reg R9 arg5 (set_reg R8 arg4 (set_reg R10 arg3 (set_reg RDX arg2 (set_reg RSI arg1
    (set_reg RDI arg0 (set_reg RAX number c))))))).
End Wrappers.

(** [syscall] on the machine: the processor enters at [lstar], where the stub is. *)
Definition kernel_trap (m : msrs) (entry_address saved top : Z) (callee : cpu -> option cpu) (c : cpu)
  : option cpu :=
  if lstar m =? entry_address then run m callee (xbks_x86_64_syscall_entry saved top) (syscall_insn m c) else None.
