(* ===== verification/EntryProps.v ===== *)
(** * Crossing between user and kernel mode: the properties

    A system call reaches the dispatcher with the user's registers in its frame and comes
    back with what the dispatcher left there; the segments the processor loads on the
    way are the ones of the descriptor table; a new program starts with nothing of the
    kernel in its registers. *)

From Stdlib Require Import Ascii String.
From S2P Require Import Prelude CMem CStr Pmm Ramdisk Kernel Console ConsoleProps Feed Syscalls Entry.

(** A register is not in a list of others. *)
Ltac not_in := cbn [rev saved_registers app]; repeat (apply not_elem_of_cons; split; [discriminate|]); apply not_elem_of_nil.

(** ** Registers *)

Lemma upd_eq r v f : upd r v f r = v.
Proof. unfold upd. destruct (decide (r = r)); congruence. Qed.

Lemma upd_ne r r' v f : r' <> r -> upd r v f r' = f r'.
Proof. intros H. unfold upd. destruct (decide (r' = r)); congruence. Qed.

(** Everything but the general registers and the memory. *)
Definition same_mode (c c' : cpu) : Prop :=
  rip c' = rip c /\ rflags c' = rflags c /\ cs c' = cs c /\ ss c' = ss c /\ ds c' = ds c /\ es c' = es c /\ gdtr c' = gdtr c.

Lemma same_mode_refl c : same_mode c c.
Proof. repeat split. Qed.

Lemma same_mode_trans a b c : same_mode a b -> same_mode b c -> same_mode a c.
Proof. unfold same_mode. intros H1 H2. destruct_and!. repeat split; congruence. Qed.

Definition words (c : cpu) : Prop := forall r, in_u64 (regs c r).

Section Instructions.
Context (m : msrs) (callee : cpu -> option cpu).

Lemma run_app a b c : run m callee (a ++ b) c = c' ← run m callee a c; run m callee b c'.
Proof. revert c. induction a as [|i a IH]; intros c; cbn; [reflexivity|]. destruct (step m callee i c); cbn; auto. Qed.

(** ** Pushing and popping *)

Record pushes (l : list Z) (c c' : cpu) : Prop := {
  pushes_regs : forall r, regs c' r = if decide (r = RSP) then regs c RSP - 8 * Z.of_nat (length l) else regs c r;
  pushes_words : forall i v, l !! i = Some v -> ld64 (cpu_mem c') (regs c RSP - 8 * (Z.of_nat i + 1)) = v;
  pushes_below : forall a, regs c RSP <= a -> rd8 (cpu_mem c') a = rd8 (cpu_mem c) a;
  pushes_mode : same_mode c c';
}.

Lemma pushed_pushes v c : 8 <= regs c RSP -> in_u64 (regs c RSP) -> in_u64 v -> pushes [v] c (pushed v c).
Proof.
  intros Hl Hs Hv. unfold pushed. rewrite (u64_small (regs c RSP - 8)) by (unfold in_u64 in *; lia).
  split; cbn [regs cpu_mem set_mem set_reg length].
  - intros r. unfold upd. destruct (decide (r = RSP)); [lia|reflexivity].
  - intros [|i] w Hw; [|discriminate]. injection Hw as <-. rewrite <- (ld64_st64 (cpu_mem c) (regs c RSP - 8) v Hv) at 2.
    f_equal; lia.
  - intros a Ha. apply rd8_st64_out. lia.
  - repeat split.
Qed.

Lemma pushes_trans l k a b c : pushes l a b -> pushes k b c -> pushes (l ++ k) a c.
Proof.
  intros [R1 W1 B1 M1] [R2 W2 B2 M2].
  assert (Hs : regs b RSP = regs a RSP - 8 * Z.of_nat (length l)) by apply (R1 RSP). split.
  - intros r. rewrite R2, length_app. destruct (decide (r = RSP)); [lia|]. rewrite R1. destruct (decide (r = RSP)); congruence.
  - intros i v Hi. destruct (lt_dec i (length l)) as [H|H].
    + rewrite lookup_app_l in Hi by lia. rewrite <- (W1 i v Hi). apply ld64_ext. intros x Hx. apply B2. lia.
    + rewrite lookup_app_r in Hi by lia. rewrite <- (W2 _ v Hi). f_equal. lia.
  - intros x Hx. rewrite B2 by lia. apply B1, Hx.
  - eapply same_mode_trans; eassumption.
Qed.

Lemma run_pushes rs c :
  RSP ∉ rs -> words c -> 8 * Z.of_nat (length rs) <= regs c RSP ->
  exists c', run m callee (map PushR rs) c = Some c' /\ pushes (map (regs c) rs) c c'.
Proof.
  revert c. induction rs as [|r rs IH]; intros c Hn Hw Hl.
  - exists c. split; [reflexivity|]. split; cbn; [|intros i v H; destruct i; discriminate|reflexivity|apply same_mode_refl].
    intros r. destruct (decide (r = RSP)); [subst; lia|reflexivity].
  - apply not_elem_of_cons in Hn as [Hr Hn]. cbn [length] in Hl.
    pose proof (pushed_pushes (regs c r) c ltac:(lia) (Hw RSP) (Hw r)) as H1.
    assert (Hsp : regs (pushed (regs c r) c) RSP = regs c RSP - 8) by (rewrite (pushes_regs _ _ _ H1); reflexivity).
    destruct (IH (pushed (regs c r) c)) as (c' & Hrun & H2).
    + exact Hn.
    + intros q. rewrite (pushes_regs _ _ _ H1). cbn. pose proof (Hw RSP). destruct (decide (q = RSP)); [unfold in_u64 in *; lia|apply Hw].
    + lia.
    + exists c'. split; [exact Hrun|].
      assert (E : map (regs (pushed (regs c r) c)) rs = map (regs c) rs).
      { apply List.map_ext_in. intros q Hq. rewrite (pushes_regs _ _ _ H1). destruct (decide (q = RSP)) as [->|]; [|reflexivity].
        exfalso. apply Hn, list_elem_of_In, Hq. }
      rewrite E in H2. apply (pushes_trans [regs c r] _ _ _ _ H1 H2).
Qed.

Lemma run_pops rs c :
  RSP ∉ rs -> NoDup rs -> 0 <= regs c RSP -> regs c RSP + 8 * Z.of_nat (length rs) < 2 ^ 64 ->
  exists c', run m callee (map PopR rs) c = Some c' /\
    (forall i r, rs !! i = Some r -> regs c' r = ld64 (cpu_mem c) (regs c RSP + 8 * Z.of_nat i)) /\
    (forall r, r ∉ rs -> regs c' r = if decide (r = RSP) then regs c RSP + 8 * Z.of_nat (length rs) else regs c r) /\
    cpu_mem c' = cpu_mem c /\ same_mode c c'.
Proof.
  revert c. induction rs as [|r rs IH]; intros c Hn Hd H0 Hl.
  - exists c. split; [reflexivity|]. split; [intros [|]; discriminate|]. split; [|split; [reflexivity|apply same_mode_refl]].
    intros r _. destruct (decide (r = RSP)) as [->|]; [cbn; lia|reflexivity].
  - apply not_elem_of_cons in Hn as [Hr Hn]. apply list.NoDup_cons in Hd as [Hrs Hd]. cbn [length] in Hl.
    set (c1 := set_reg r (ld64 (cpu_mem c) (regs c RSP)) (set_reg RSP (regs c RSP +u 8) c)).
    assert (Hsp : regs c1 RSP = regs c RSP + 8).
    { unfold c1. cbn. rewrite upd_ne, upd_eq by congruence. apply u64_small. unfold in_u64. lia. }
    destruct (IH c1 Hn Hd ltac:(lia) ltac:(lia)) as (c' & Hrun & Hin & Hout & Hm & Hmode).
    exists c'. split; [exact Hrun|]. split; [|split; [|split; [exact Hm|exact Hmode]]].
    + intros [|i] q Hq; cbn in Hq.
      * injection Hq as <-. rewrite Hout by exact Hrs. destruct (decide (r = RSP)); [congruence|].
        unfold c1. cbn. rewrite upd_eq. f_equal. lia.
      * rewrite (Hin i q Hq), Hsp. unfold c1. cbn. f_equal. lia.
    + intros q Hq. apply not_elem_of_cons in Hq as [Hqr Hq]. rewrite Hout by exact Hq. cbn [length].
      destruct (decide (q = RSP)) as [->|Hne]; [lia|]. unfold c1. cbn. rewrite !upd_ne by congruence. reflexivity.
Qed.
End Instructions.

(** ** The stub *)

(** The frame in memory, as [struct xbks_syscall_frame] lays it out. *)
Definition frame_at (m : mem) (p : Z) : xbks_syscall_frame :=
  let w i := ld64 m (p + 8 * i) in
  SyscallFrame (w 0) (w 1) (w 2) (w 3) (w 4) (w 5) (w 6) (w 7) (w 8) (w 9) (w 10) (w 11) (w 12) (w 13) (w 14)
    (w 15) (w 16) (w 17).

(** The frame of a processor that has just executed [syscall]. *)
Definition frame_of (c : cpu) : xbks_syscall_frame :=
  let r := regs c in
  SyscallFrame (r R15) (r R14) (r R13) (r R12) (r R11) (r R10) (r R9) (r R8) (r RBP) (r RDI) (r RSI) (r RDX)
    (r RCX) (r RBX) (r RAX) (r R11) (r RCX) (r RSP).

(** What a frame and a result say about the user's registers. *)
Definition resumed_reg (ret : Z) (f : xbks_syscall_frame) (r : reg) : Z :=
  match r with
  | RAX => ret | RBX => rbx f | RCX => user_rip f | RDX => rdx f | RSI => rsi f | RDI => rdi f | RBP => rbp f
  | RSP => user_rsp f | R8 => r8 f | R9 => r9 f | R10 => r10 f | R11 => user_rflags f
  | R12 => r12 f | R13 => r13 f | R14 => r14 f | R15 => r15 f
  end.

(** Where the linker puts the stack and the saved pointer: the stack is aligned and the
    pointer is not in it. *)
Record stub_placed (saved top : Z) : Prop := {
  placed_aligned : top mod 16 = 0;
  placed_stack : 16384 <= top < 2 ^ 64;
  placed_saved : saved + 8 <= top - 16384 \/ top <= saved;
}.

(** A C function returns by the calling convention: it keeps the stack pointer and the
    registers of its caller, and leaves its result in [rax]. *)
Definition callee_saved (r : reg) : bool :=
  match r with RBX | RBP | RSP | R12 | R13 | R14 | R15 => true | _ => false end.

Record c_returns (ret : Z) (f : xbks_syscall_frame) (c c' : cpu) : Prop := {
  returns_rax : regs c' RAX = ret;
  returns_saved : forall r, callee_saved r = true -> regs c' r = regs c r;
  returns_frame : frame_at (cpu_mem c') (regs c RDI) = f;
}.

(** Called on the frame [g], at an aligned stack pointer inside the stack, [callee] answers
    [ret] and leaves the frame [f]. *)
Definition serves (callee : cpu -> option cpu) (top : Z) (g : xbks_syscall_frame) (ret : Z) (f : xbks_syscall_frame) : Prop :=
  forall c, frame_at (cpu_mem c) (regs c RDI) = g -> regs c RSP mod 16 = 0 -> top - 16384 <= regs c RSP < top ->
    regs c RDI = regs c RSP -> exists c', callee c = Some c' /\ c_returns ret f c c'.

Lemma saved_no_sp : RSP ∉ [RCX; R11] ++ saved_registers.
Proof. not_in. Qed.

(** The word of the frame at index [k] is the [16 - k]th pushed. *)
Ltac frame_word H :=
  match goal with |- ld64 _ (_ - 144 + 8 * ?k) = _ => apply (H (Z.to_nat (16 - k))); [reflexivity|lia] end.

Section Stub.
Context (m : msrs) (callee : cpu -> option cpu) (saved top : Z) (Hp : stub_placed saved top).

Lemma save_user_ok c :
  words c ->
  exists c', run m callee (save_user saved top) c = Some c' /\
    regs c' RSP = top - 144 /\ regs c' RDI = top - 144 /\ frame_at (cpu_mem c') (top - 144) = frame_of c.
Proof using Hp.
  intros Hw. destruct Hp as [Ha Hs Hsv]. 
  change (save_user saved top) with ([MovRM RSP saved; Lea top RSP; PushM saved] ++
    map PushR ([RCX; R11] ++ saved_registers) ++ [MovRR RSP RDI]).
  set (c0 := set_reg RSP top (set_mem (st64 (cpu_mem c) saved (regs c RSP)) c)).
  assert (Hsp0 : regs c0 RSP = top) by (unfold c0; cbn; apply upd_eq).
  assert (H0 : forall r, r <> RSP -> regs c0 r = regs c r) by (intros; unfold c0; cbn; rewrite upd_ne; auto).
  assert (Hld : ld64 (cpu_mem c0) saved = regs c RSP) by (apply ld64_st64, Hw).
  set (c1 := pushed (ld64 (cpu_mem c0) saved) c0).
  assert (E1 : run m callee [MovRM RSP saved; Lea top RSP; PushM saved] c = Some c1) by reflexivity.
  assert (P1 : pushes [regs c RSP] c0 c1) by (unfold c1; rewrite Hld; apply pushed_pushes; [rewrite Hsp0; lia|rewrite Hsp0; unfold in_u64; lia|apply Hw]).
  assert (Hsp1 : regs c1 RSP = top - 8) by (rewrite (pushes_regs _ _ _ P1), Hsp0; reflexivity).
  assert (W1 : words c1).
  { intros r. rewrite (pushes_regs _ _ _ P1), Hsp0. destruct (decide (r = RSP)); [cbn; unfold in_u64; lia|]. rewrite H0 by assumption. apply Hw. }
  destruct (run_pushes m callee ([RCX; R11] ++ saved_registers) c1) as (c2 & Hrun & P2).
  { apply saved_no_sp. }
  { exact W1. }
  { rewrite Hsp1. cbn. lia. }
  pose proof (pushes_trans _ _ _ _ _ P1 P2) as P.
  assert (Hsp2 : regs c2 RSP = top - 144) by (rewrite (pushes_regs _ _ _ P), Hsp0; reflexivity).
  assert (Hv : forall i r a, ([RCX; R11] ++ saved_registers) !! i = Some r -> a = top - 8 * (Z.of_nat i + 2) ->
    ld64 (cpu_mem c2) a = regs c r).
  { intros i r a Hi ->. assert (Hr : r <> RSP).
    { intros ->. apply saved_no_sp, list_elem_of_lookup. eauto. }
    rewrite <- (pushes_words _ _ _ P (S i) (regs c r)).
    - rewrite Hsp0. f_equal. lia.
    - cbn [lookup app]. change ((map (regs c1) ([RCX; R11] ++ saved_registers)) !! i = Some (regs c r)).
      rewrite list_lookup_fmap, Hi. apply (f_equal Some). rewrite (pushes_regs _ _ _ P1). destruct (decide (r = RSP)); [congruence|apply H0, Hr]. }
  exists (set_reg RDI (regs c2 RSP) c2). split; [|split; [|split]].
  - rewrite run_app, E1. cbn [mbind option_bind]. rewrite run_app, Hrun. reflexivity.
  - cbn. rewrite upd_ne by discriminate. exact Hsp2.
  - cbn. rewrite upd_eq. exact Hsp2.
  - unfold frame_at, frame_of. cbn [cpu_mem set_reg].
    f_equal; try frame_word Hv.
    rewrite <- (pushes_words _ _ _ P 0 (regs c RSP) eq_refl), Hsp0. f_equal. lia.
Qed.

(** The state the stub leaves to the user, from the result and the frame. *)
Record resumed (ret : Z) (f : xbks_syscall_frame) (c : cpu) : Prop := {
  resumed_regs : forall r, regs c r = resumed_reg ret f r;
  resumed_rip : rip c = user_rip f;
  resumed_rflags : rflags c = Z.lor (Z.land (user_rflags f) 0x3c7fd7) 2;
  resumed_cs : cs c = Z.lor (Z.shiftr (star m) 48 + 16) 3;
  resumed_ss : ss c = Z.lor (Z.shiftr (star m) 48 + 8) 3;
}.

Lemma restore_user_ok c f :
  regs c RSP = top - 144 -> in_u64 (regs c RAX) -> frame_at (cpu_mem c) (top - 144) = f -> canonical (user_rip f) = true ->
  exists c', run m callee restore_user c = Some c' /\ resumed (regs c RAX) f c'.
Proof using Hp.
  intros Hsp Hr Hf Hc. destruct Hp as [_ Hs _].
  set (m1 := st64 (cpu_mem c) (top - 144 + 112) (regs c RAX)). set (c1 := set_mem m1 c).
  assert (E1 : run m callee [MovRS RAX 112] c = Some c1).
  { cbn [run step mbind option_bind]. rewrite Hsp, (u64_small (top - 144 + 112)) by (unfold in_u64; lia). reflexivity. }
  destruct (run_pops m callee (rev saved_registers) c1) as (c2 & Hrun & Hin & Hout & Hm2 & Hmode).
  { not_in. }
  { apply (bool_decide_unpack _). vm_compute. exact I. }
  { change (regs c1 RSP) with (regs c RSP). lia. }
  { change (regs c1 RSP) with (regs c RSP). cbn [rev saved_registers app length]. lia. }
  assert (Hw : forall i, 0 <= i < 18 -> i <> 14 -> ld64 m1 (top - 144 + 8 * i) = ld64 (cpu_mem c) (top - 144 + 8 * i)).
  { intros i Hi Hn. apply ld64_st64_ne. lia. }
  assert (Hs2 : regs c2 RSP = top - 24).
  { rewrite Hout by not_in.
    change (regs c1 RSP) with (regs c RSP). rewrite decide_True by reflexivity.
    change (length (rev saved_registers)) with 15%nat. lia. }
  destruct (run_pops m callee [R11; RCX] c2) as (c3 & Hrun3 & Hin3 & Hout3 & Hm3 & Hmode3).
  { not_in. }
  { apply (bool_decide_unpack _). vm_compute. exact I. }
  { lia. }
  { cbn [length]. lia. }
  assert (Hs3 : regs c3 RSP = top - 8).
  { rewrite Hout3 by not_in. rewrite decide_True by reflexivity. cbn [length]. lia. }
  assert (Hrcx : regs c3 RCX = user_rip f).
  { rewrite (Hin3 1%nat RCX eq_refl), Hm2, Hs2, <- Hf. transitivity (ld64 m1 (top - 144 + 8 * 16)); [f_equal; lia|apply Hw; lia]. }
  assert (Hr11 : regs c3 R11 = user_rflags f).
  { rewrite (Hin3 0%nat R11 eq_refl), Hm2, Hs2, <- Hf. transitivity (ld64 m1 (top - 144 + 8 * 15)); [f_equal; lia|apply Hw; lia]. }
  assert (Hrsp : ld64 (cpu_mem c3) (regs c3 RSP) = user_rsp f).
  { rewrite Hm3, Hm2, Hs3, <- Hf. transitivity (ld64 m1 (top - 144 + 8 * 17)); [f_equal; lia|apply Hw; lia]. }
  change restore_user with ([MovRS RAX 112] ++ map PopR (rev saved_registers) ++ map PopR [R11; RCX] ++ [PopR RSP; Sysret]).
  rewrite run_app, E1. cbn [mbind option_bind]. rewrite run_app, Hrun. cbn [mbind option_bind].
  rewrite run_app, Hrun3. cbn [mbind option_bind run step]. unfold sysret. cbn [regs set_reg].
  rewrite (upd_ne _ RCX), (upd_ne _ RCX), Hrcx, Hc by discriminate. cbn [mbind option_bind].
  eexists. split; [reflexivity|]. split; cbn [regs rip rflags cs ss]; [|reflexivity| |reflexivity|reflexivity].
  - intros r. destruct (decide (r = RSP)) as [->|Hne]; [rewrite upd_eq; exact Hrsp|]. rewrite !upd_ne by exact Hne.
    assert (Hg : forall k r', rev saved_registers !! Z.to_nat k = Some r' -> 0 <= k -> r' ∉ [R11; RCX] ->
      regs c3 r' = ld64 m1 (top - 144 + 8 * k)).
    { intros k r' Hk H0 Hn. rewrite Hout3 by exact Hn. rewrite decide_False.
      - rewrite (Hin _ _ Hk). change (regs c1 RSP) with (regs c RSP). rewrite Hsp, Z2Nat.id by lia. reflexivity.
      - intros ->. apply list_elem_of_lookup_2 in Hk. cbn in Hk. repeat (apply elem_of_cons in Hk as [Hk|Hk]; [discriminate|]).
        apply elem_of_nil in Hk. exact Hk. }
    rewrite <- Hf. destruct r; cbn [resumed_reg frame_at rbx user_rip rdx rsi rdi rbp r8 r9 r10 user_rflags r12 r13 r14 r15];
      try congruence; try (rewrite <- Hf in Hrcx, Hr11; assumption).
    { rewrite (Hg 14 RAX eq_refl); [|lia|not_in].
      unfold m1. apply ld64_st64, Hr. }
    all: match goal with |- _ = ld64 _ (_ + 8 * ?k) => rewrite (Hg k _ eq_refl), Hw end; try lia; try reflexivity;
      not_in.
  - rewrite !upd_ne by discriminate. rewrite Hr11. reflexivity.
Qed.

(** The whole stub: what the callee is given and what the user gets back. *)
Lemma syscall_entry_ok c ret f :
  words c -> serves callee top (frame_of c) ret f -> in_u64 ret -> canonical (user_rip f) = true ->
  exists c', run m callee (xbks_x86_64_syscall_entry saved top) c = Some c' /\ resumed ret f c'.
Proof using Hp.
  intros Hw Hs Hr Hc. destruct (save_user_ok c Hw) as (c1 & Hrun & Hsp & Hdi & Hf). pose proof Hp as [Ha Ht _].
  destruct (Hs c1) as (c2 & Hcall & [Hrax Hkeep Hframe]).
  { rewrite Hdi. exact Hf. }
  { rewrite Hsp. replace (top - 144) with (top + (-9) * 16) by lia. rewrite Z_mod_plus_full. exact Ha. }
  { rewrite Hsp. lia. }
  { congruence. }
  rewrite Hdi in Hframe.
  destruct (restore_user_ok c2 f) as (c' & Hrun' & Hres).
  { rewrite (Hkeep RSP eq_refl). exact Hsp. }
  { rewrite Hrax. exact Hr. }
  { exact Hframe. }
  { exact Hc. }
  exists c'. split; [|rewrite <- Hrax; exact Hres].
  unfold xbks_x86_64_syscall_entry. rewrite run_app, Hrun. cbn [mbind option_bind]. rewrite run_app.
  cbn [run step]. rewrite Hcall. exact Hrun'.
Qed.
End Stub.

(** ** The model-specific registers *)

Lemma msr_after_app r v t u : msr_after r v (t ++ u) = msr_after r (msr_after r v t) u.
Proof. revert v. induction t as [|[] t IH]; intros v; cbn; auto. Qed.

(** Console output writes no model-specific register. *)
Lemma msr_after_output r v u : Forall is_output u -> msr_after r v u = v.
Proof. induction 1 as [|[] u H _ IH]; cbn; try exact IH; [reflexivity|destruct H]. Qed.

(** A register written and read in two halves. *)
Lemma halves v : in_u64 v -> Z.lor (Z.shiftl (u32 (Z.shiftr v 32)) 32) (u32 v) = v.
Proof.
  unfold in_u64. intros H. rewrite Z.shiftl_mul_pow2, Z.shiftr_div_pow2 by lia.
  rewrite (uwrap_small 32 (v / 2 ^ 32)) by (split; [apply Z.div_pos; lia|apply Z.div_lt_upper_bound; lia]).
  rewrite (lor_disjoint 32); [|lia|apply Z_mod_mult|apply uwrap_range; lia].
  unfold uwrap. pose proof (Z.div_mod v (2 ^ 32)). lia.
Qed.

Lemma halves_u64 a b : in_u64 (Z.lor (Z.shiftl (u32 a) 32) (u32 b)).
Proof.
  pose proof (uwrap_range 32 a ltac:(lia)). pose proof (uwrap_range 32 b ltac:(lia)).
  rewrite Z.shiftl_mul_pow2 by lia. apply (lor_range 64); lia.
Qed.

(** The enable bit, the entry point, the selectors and the mask, whatever [EFER] was. *)
Lemma syscall_init_msrs entry d d' :
  in_u64 entry -> xbks_syscall_init entry d = inl (tt, d') ->
  (exists efer, In (Rdmsr XBKS_MSR_EFER efer) (trace d') /\
    msr_after XBKS_MSR_EFER 0 (trace d') = Z.lor efer EFER_SYSCALL_ENABLE) /\
  msrs_after (trace d') = Msrs (0x18 * 2 ^ 48 + 0x08 * 2 ^ 32) entry 0x600.
Proof.
  intros He H. unfold xbks_syscall_init, xbks_rdmsr in H. unfold mbind, IO_bind in H.
  destruct (answers d) as [|v rest]; [discriminate|]. set (efer := Z.lor (Z.shiftl (u32 (Z.shiftr v 32)) 32) (u32 v)) in H.
  assert (Hefer : in_u64 (Z.lor efer EFER_SYSCALL_ENABLE)) by (apply (lor_range 64); [lia|apply halves_u64|unfold EFER_SYSCALL_ENABLE; lia]).
  unfold xbks_wrmsr in H. rewrite (halves _ Hefer), (halves _ He), !halves in H by (split; vm_compute; congruence).
  cbn [event answers trace tty_context] in H. apply adds_log_write in H as (u & -> & Hu). cbn [trace].
  rewrite <- !app_assoc. cbn [app]. split.
  - exists efer. split; [apply in_or_app; right; left; reflexivity|].
    rewrite msr_after_app. cbn [msr_after]. rewrite msr_after_output by exact Hu. reflexivity.
  - unfold msrs_after. rewrite !msr_after_app. cbn [msr_after]. repeat rewrite (msr_after_output _ _ u Hu). reflexivity.
Qed.

(** ** System calls *)

(** The frame the user's registers make when [syscall] is executed. *)
Definition user_frame (c : cpu) : xbks_syscall_frame :=
  let r := regs c in
  SyscallFrame (r R15) (r R14) (r R13) (r R12) (rflags c) (r R10) (r R9) (r R8) (r RBP) (r RDI) (r RSI) (r RDX)
    (rip c) (r RBX) (r RAX) (rflags c) (rip c) (r RSP).

Definition user_words (c : cpu) : Prop := words c /\ in_u64 (rip c) /\ in_u64 (rflags c).

Definition frame_words (f : xbks_syscall_frame) : Prop :=
  Forall in_u64 [r15 f; r14 f; r13 f; r12 f; r11 f; r10 f; r9 f; r8 f; rbp f; rdi f; rsi f; rdx f; rcx f; rbx f;
    rax f; user_rflags f; user_rip f; user_rsp f].

(** The compiled dispatcher in kernel state [k]. *)
Class Dispatches (callee : cpu -> option cpu) (top : Z) (k : kernel) : Prop :=
  dispatches : forall g ret f k', xbks_process_syscall_dispatch g k = inl ((ret, f), k') ->
    in_u64 ret -> frame_words f -> serves callee top g ret f.

Lemma trap_ok m entry saved top callee c ret f :
  m = Msrs (0x18 * 2 ^ 48 + 0x08 * 2 ^ 32) entry 0x600 ->
  stub_placed saved top -> user_words c -> serves callee top (user_frame c) ret f ->
  in_u64 ret -> canonical (user_rip f) = true ->
  exists c', kernel_trap m entry saved top callee c = Some c' /\
    resumed (Msrs (0x18 * 2 ^ 48 + 0x08 * 2 ^ 32) entry 0x600) ret f c'.
Proof.
  intros -> Hp (Hw & Hi & Hf) Hs Hr Hc. unfold kernel_trap. cbn [lstar]. rewrite Z.eqb_refl.
  apply syscall_entry_ok; [exact Hp| |exact Hs|exact Hr|exact Hc].
  intros r. unfold syscall_insn. cbn [regs]. unfold upd. destruct (decide (r = R11)); [exact Hf|].
  destruct (decide (r = RCX)); [exact Hi|apply Hw].
Qed.

Lemma set_reg_words r v c : user_words c -> in_u64 v -> user_words (set_reg r v c).
Proof.
  intros (Hw & Hi & Hf) Hv. split; [|split; assumption]. intros q. cbn. unfold upd. destruct (decide (q = r)); [exact Hv|apply Hw].
Qed.

(** The arguments go to these registers, the number to [rax]. *)
Definition argument_registers : list reg := [RDI; RSI; RDX; R10; R8; R9].

Fixpoint with_args (l : list (reg * Z)) (c : cpu) : cpu :=
  match l with [] => c | (r, v) :: rest => with_args rest (set_reg r v c) end.

Definition called (number : Z) (args : list Z) (c : cpu) : cpu :=
  with_args (combine argument_registers args) (set_reg RAX number c).

(** The function of the user library for as many arguments. *)
Definition syscall_function (trap : cpu -> option cpu) (number : Z) (args : list Z) : cpu -> option cpu :=
  match args with
  | [] => xbks_syscall0 trap number
  | [a] => xbks_syscall1 trap number a
  | [a; b] => xbks_syscall2 trap number a b
  | [a; b; c] => xbks_syscall3 trap number a b c
  | [a; b; c; d] => xbks_syscall4 trap number a b c d
  | [a; b; c; d; e] => xbks_syscall5 trap number a b c d e
  | [a; b; c; d; e; f] => xbks_syscall6 trap number a b c d e f
  | _ => fun _ => None
  end.

Definition frame_arguments (f : xbks_syscall_frame) : list Z := [rdi f; rsi f; rdx f; r10 f; r8 f; r9 f].

Lemma syscall_function_called trap number args c :
  (length args <= 6)%nat -> syscall_function trap number args c = trap (called number args c).
Proof. intros H. do 7 (destruct args as [|? args]; [reflexivity|]). cbn in H. lia. Qed.

Lemma called_words number args c : user_words c -> in_u64 number -> Forall in_u64 args -> user_words (called number args c).
Proof.
  intros Hc Hn Ha. unfold called. apply (set_reg_words RAX number c Hc) in Hn. revert Hn. generalize (set_reg RAX number c).
  generalize argument_registers. induction Ha as [|v args Hv Ha IH]; intros [|r rs] c' Hc'; try exact Hc'.
  apply IH, set_reg_words; assumption.
Qed.

Lemma called_frame number args c :
  (length args <= 6)%nat ->
  rax (user_frame (called number args c)) = number /\
  take (length args) (frame_arguments (user_frame (called number args c))) = args /\
  rip (called number args c) = rip c.
Proof. intros H. do 7 (destruct args as [|? args]; [repeat split|]). cbn in H. lia. Qed.

Lemma resumed_same ret c r : r ∉ [RAX; RCX; R11] -> resumed_reg ret (user_frame c) r = regs c r.
Proof. intros H. destruct r; try reflexivity; exfalso; apply H; repeat (left || right). Qed.

(** C13. A system call through the user library, with up to six arguments: the dispatcher
    gets a frame with the number and the arguments, runs on an aligned stack, and the
    user gets back exactly the registers of the frame it leaves, its result in [rax],
    in ring 3.  When the call leaves the frame alone, the user continues after the
    [syscall] with every register but [rax], [rcx] and [r11] as before, as the
    library tells the compiler. *)
Theorem syscall_crossing entry d d' saved top callee k k' u number args ret f :
  in_u64 entry -> xbks_syscall_init entry d = inl (tt, d') -> stub_placed saved top -> Dispatches callee top k ->
  user_words u -> in_u64 number -> Forall in_u64 args -> (length args <= 6)%nat ->
  let g := user_frame (called number args u) in
  xbks_process_syscall_dispatch g k = inl ((ret, f), k') -> in_u64 ret -> frame_words f -> canonical (user_rip f) = true ->
  rax g = number /\ take (length args) (frame_arguments g) = args /\
  exists c', syscall_function (kernel_trap (msrs_after (trace d')) entry saved top callee) number args u = Some c' /\
    (forall r, regs c' r = resumed_reg ret f r) /\ rip c' = user_rip f /\
    rflags c' = Z.lor (Z.land (user_rflags f) 0x3c7fd7) 2 /\ cs c' = Z.lor GDT_USER_CODE 3 /\ ss c' = Z.lor GDT_USER_DATA 3 /\
    (f = g -> rip c' = rip u /\ forall r, r ∉ [RAX; RCX; R11] -> regs c' r = regs (called number args u) r).
Proof.
  intros He Hd Hp Hk Hu Hn Ha Hl g Hg Hr Hf Hc. destruct (syscall_init_msrs entry d d' He Hd) as [_ Hm].
  destruct (called_frame number args u Hl) as (Hrax & Hargs & Hrip). split; [exact Hrax|]. split; [exact Hargs|].
  rewrite (syscall_function_called _ number args u Hl).
  destruct (trap_ok (msrs_after (trace d')) entry saved top callee (called number args u) ret f Hm Hp) as (c' & Ht & Hres).
  { apply called_words; assumption. }
  { apply (Hk g ret f k' Hg Hr Hf). }
  { exact Hr. }
  { exact Hc. }
  destruct Hres as [Q1 Q2 Q3 Q4 Q5]. exists c'. split; [exact Ht|].
  split; [exact Q1|]. split; [exact Q2|]. split; [exact Q3|]. split; [exact Q4|]. split; [exact Q5|].
  intros ->. split; [rewrite Q2; exact Hrip|]. intros r H. rewrite Q1. apply resumed_same, H.
Qed.

(** ** The dispatcher as a callee *)

Fixpoint store_words (m : mem) (p : Z) (l : list Z) : mem :=
  match l with [] => m | v :: l => store_words (st64 m p v) (p + 8) l end.

Lemma store_words_below m p l a : a + 8 <= p -> ld64 (store_words m p l) a = ld64 m a.
Proof. revert m p. induction l as [|v l IH]; intros m p H; cbn; [reflexivity|]. rewrite IH, ld64_st64_ne by lia. reflexivity. Qed.

Lemma store_words_at m p l i v :
  Forall in_u64 l -> l !! i = Some v -> ld64 (store_words m p l) (p + 8 * Z.of_nat i) = v.
Proof.
  intros Hl. revert m p i. induction Hl as [|w l Hw Hl IH]; intros m p i Hi; [discriminate|]. destruct i as [|i]; cbn in Hi |- *.
  - injection Hi as ->. rewrite Z.add_0_r, store_words_below by lia. apply ld64_st64, Hw.
  - rewrite <- (IH (st64 m p w) (p + 8) i Hi). f_equal. lia.
Qed.

Definition frame_list (f : xbks_syscall_frame) : list Z :=
  [r15 f; r14 f; r13 f; r12 f; r11 f; r10 f; r9 f; r8 f; rbp f; rdi f; rsi f; rdx f; rcx f; rbx f;
   rax f; user_rflags f; user_rip f; user_rsp f].

Lemma frame_stored m p f : frame_words f -> frame_at (store_words m p (frame_list f)) p = f.
Proof.
  intros Hf. destruct f. unfold frame_at.
  f_equal; match goal with |- ld64 _ (_ + 8 * ?k) = ?v => apply (store_words_at _ _ _ (Z.to_nat k) v Hf eq_refl) end.
Qed.

(** The dispatcher run on the frame in memory. *)
Definition model_callee (k : kernel) (c : cpu) : option cpu :=
  match xbks_process_syscall_dispatch (frame_at (cpu_mem c) (regs c RDI)) k with
  | inl ((ret, f), _) => Some (set_reg RAX ret (set_mem (store_words (cpu_mem c) (regs c RDI) (frame_list f)) c))
  | inr _ => None
  end.

#[export] Instance model_dispatches top k : Dispatches (model_callee k) top k.
Proof.
  intros g ret f k' Hg Hr Hf c Hc _ _ _. unfold model_callee. rewrite Hc, Hg. eexists. split; [reflexivity|]. split.
  - reflexivity.
  - intros [] H; try discriminate; reflexivity.
  - apply frame_stored, Hf.
Qed.

Definition demo_cpu : cpu := Cpu (fun _ => 4096) 4194304 518 43 35 35 35 (GdtPointer 47 0) ∅.
Definition demo_syscalls : kernel := Kernel (Mm 0 0 0 0 0 ∅) (RamdiskState 0 0 false) [fresh_process 7] 0 8 false [] [].
Definition demo_answers : devices := Devices (3328 :: replicate 200 32) [] false.

Lemma demo_words : user_words demo_cpu.
Proof. split; [intros r; unfold in_u64; cbn; lia|split; unfold in_u64; cbn; lia]. Qed.

Lemma syscall_crossing_witness :
  exists d' c', xbks_syscall_init 65536 demo_answers = inl (tt, d') /\
    xbks_syscall0 (kernel_trap (msrs_after (trace d')) 65536 1044480 1064960 (model_callee demo_syscalls))
      XBKS_SYS_GETPID demo_cpu = Some c' /\
    regs c' RAX = 7 /\ regs c' RBX = 4096 /\ rip c' = 4194304 /\ cs c' = 43.
Proof.
  assert (Hd : exists d', xbks_syscall_init 65536 demo_answers = inl (tt, d')).
  { destruct (xbks_syscall_init 65536 demo_answers) as [[[] d']|] eqn:E; [eauto|]. vm_compute in E. discriminate. }
  destruct Hd as [d' Hd]. exists d'.
  set (g := user_frame (called XBKS_SYS_GETPID [] demo_cpu)).
  destruct (syscall_crossing 65536 demo_answers d' 1044480 1064960 (model_callee demo_syscalls) demo_syscalls demo_syscalls
    demo_cpu XBKS_SYS_GETPID [] 7 g) as (_ & _ & c' & Hc & Hregs & Hrip & _ & Hcs & _ & Hsame).
  - unfold in_u64. lia.
  - exact Hd.
  - split; [reflexivity|lia|lia].
  - apply model_dispatches.
  - apply demo_words.
  - unfold in_u64, XBKS_SYS_GETPID. lia.
  - constructor.
  - cbn. lia.
  - reflexivity.
  - unfold in_u64. lia.
  - repeat (constructor; [split; vm_compute; congruence|]). constructor.
  - reflexivity.
  - exists c'. split; [exact Hd|]. split; [exact Hc|]. destruct (Hsame eq_refl) as [Hr Hs].
    split; [apply (Hregs RAX)|]. split; [rewrite Hs by not_in; reflexivity|]. split; [exact Hr|exact Hcs].
Defined.

(** ** Segments

    A descriptor of the table as the processor reads it. *)
Record segment := Segment { present : bool; user_data_or_code : bool; dpl : Z; executable : bool; writable : bool; long_mode : bool }.

Definition descriptor (d : Z) : segment :=
  Segment (Z.testbit d 47) (Z.testbit d 44) (Z.land (Z.shiftr d 45) 3) (Z.testbit d 43) (Z.testbit d 41) (Z.testbit d 53).

(** What a selector selects: nothing beyond the limit. *)
Definition selected (table : list Z) (limit selector : Z) : option segment :=
  let offset := Z.land selector (Z.lnot 7) in
  if offset + 7 <=? limit then descriptor <$> table !! Z.to_nat (offset / 8) else None.

Definition code_segment (ring : Z) (s : option segment) : Prop :=
  exists w, s = Some (Segment true true ring true w true).

Definition data_segment (ring : Z) (s : option segment) : Prop :=
  exists l, s = Some (Segment true true ring false true l).

Lemma ld16_st16 m a v : 0 <= v < 2 ^ 16 -> ld16 (st16 m a v) a = v.
Proof. intros H. unfold ld16, st16. rewrite ld_le_st_le. apply Z.mod_small. exact H. Qed.

(** The stack of [xbks_x86_64_gdt_load]: below what its caller has on it. *)
Definition call_stack (frame : Z) (c : cpu) : Prop := 24 <= regs c RSP <= frame /\ regs c RSP < 2 ^ 64.

Lemma low_word x : u16 (Z.lor (Z.land x (~u 0xffff)) 0x10) = 0x10.
Proof.
  unfold uwrap at 1. rewrite <- Z.land_ones by lia. bits i. rewrite Z.land_spec, ones_testbit by lia. destruct (Z.ltb_spec i 16).
  - rewrite (testbit_mult_low 16 (~u 0xffff) i) by (reflexivity || lia). rewrite !andb_false_r. apply andb_true_r.
  - rewrite (testbit_high 16 0x10 i) by lia. apply andb_false_r.
Qed.

(** The table and the data segments are loaded; only [rax] is used. *)
Lemma load_segments m callee rest c :
  exists v, run m callee (LgdtR RDI :: MovIW 0x10 RAX :: MovRSeg RAX DS :: MovRSeg RAX ES :: MovRSeg RAX SS :: rest) c =
    run m callee rest (Cpu (upd RAX v (regs c)) (rip c) (rflags c) (cs c) 0x10 0x10 0x10
      (GdtPointer (ld16 (cpu_mem c) (regs c RDI)) (ld64 (cpu_mem c) (regs c RDI + 2))) (cpu_mem c)).
Proof.
  pose proof (low_word (regs c RAX)) as Hw. set (v := Z.lor _ _) in *. exists v.
  transitivity (run m callee rest (Cpu (upd RAX v (regs c)) (rip c) (rflags c) (cs c) (u16 v) (u16 v) (u16 v)
    (GdtPointer (ld16 (cpu_mem c) (regs c RDI)) (ld64 (cpu_mem c) (regs c RDI + 2))) (cpu_mem c))); [reflexivity|].
  rewrite Hw. reflexivity.
Qed.

(** The far return goes to [label] in segment 8 with the stack as it was. *)
Lemma far_return m callee label rest c :
  in_u64 label -> 16 <= regs c RSP < 2 ^ 64 ->
  exists c', run m callee (PushI 0x08 :: Lea label RAX :: PushR RAX :: Lretq :: rest) c = run m callee rest c' /\
    rip c' = label /\ cs c' = 0x08 /\ ss c' = ss c /\ ds c' = ds c /\ es c' = es c /\ gdtr c' = gdtr c /\ regs c' RSP = regs c RSP /\
    forall a, regs c RSP <= a -> rd8 (cpu_mem c') a = rd8 (cpu_mem c) a.
Proof.
  intros Hl Hs. assert (Hw : in_u64 (regs c RSP)) by (unfold in_u64; lia).
  pose proof (pushed_pushes 0x08 c ltac:(lia) Hw ltac:(unfold in_u64; lia)) as P1. set (c1 := pushed 0x08 c) in *.
  set (c2 := set_reg RAX label c1). assert (S1 : regs c2 RSP = regs c RSP - 8) by apply (pushes_regs _ _ _ P1 RSP).
  pose proof (pushed_pushes label c2 ltac:(lia) ltac:(unfold in_u64; lia) Hl) as P2. set (c3 := pushed label c2) in *.
  assert (S3 : regs c3 RSP = regs c RSP - 16) by (rewrite (pushes_regs _ _ _ P2 RSP : _ = regs c2 RSP - 8), S1; lia).
  assert (L1 : ld64 (cpu_mem c3) (regs c RSP - 8) = 0x08).
  { transitivity (ld64 (cpu_mem c1) (regs c RSP - 8)); [|apply (pushes_words _ _ _ P1 0 0x08 eq_refl)].
    apply ld64_ext. intros b Hb. apply (pushes_below _ _ _ P2). lia. }
  assert (L2 : ld64 (cpu_mem c3) (regs c RSP - 16) = label).
  { rewrite <- (pushes_words _ _ _ P2 0 label eq_refl). f_equal. lia. }
  exists (set_reg RSP (regs c3 RSP +u 16) (Cpu (regs c3) (ld64 (cpu_mem c3) (regs c3 RSP)) (rflags c3)
    (u16 (ld64 (cpu_mem c3) (regs c3 RSP +u 8))) (ss c3) (ds c3) (es c3) (gdtr c3) (cpu_mem c3))). split; [reflexivity|].
  pose proof (pushes_mode _ _ _ P2) as M2. destruct M2 as (_ & _ & _ & M2a & M2b & M2c & M2d).
  unfold set_reg at 1 2 3 4 5 6 7 8. clearbody c3. cbn [rip cs ss ds es gdtr regs cpu_mem]. rewrite S3, upd_eq.
  rewrite (u64_small (regs c RSP - 16 + 8)), (u64_small (regs c RSP - 16 + 16)) by (unfold in_u64; lia).
  replace (regs c RSP - 16 + 8) with (regs c RSP - 8) by lia. rewrite L1, L2.
  split; [reflexivity|]. split; [reflexivity|]. split; [exact M2a|]. split; [exact M2b|]. split; [exact M2c|]. split; [exact M2d|]. split; [lia|].
  intros a Ha. rewrite (pushes_below _ _ _ P2) by lia. apply (pushes_below _ _ _ P1), Ha.
Qed.

Lemma gdt_loaded address frame label return_address c :
  in_u64 address -> in_u64 label -> in_u64 return_address -> call_stack frame c ->
  exists c', xbks_gdt_init address frame label return_address c = Some c' /\ gdtr c' = GdtPointer 47 address /\
    cs c' = GDT_KERNEL_CODE /\ ss c' = GDT_KERNEL_DATA /\ ds c' = GDT_KERNEL_DATA /\ es c' = GDT_KERNEL_DATA /\
    rip c' = return_address /\ regs c' RSP = regs c RSP.
Proof.
  intros Ha Hl Hr [Hs Hs64]. unfold xbks_gdt_init, xbks_x86_64_gdt_load. set (m := st64 _ _ _). set (c0 := set_reg RDI frame (set_mem m c)).
  assert (S0 : regs c0 RSP = regs c RSP) by reflexivity.
  pose proof (pushed_pushes return_address c0 ltac:(lia) ltac:(unfold in_u64; lia) Hr) as P. set (c1 := pushed return_address c0) in *.
  assert (S1 : regs c1 RSP = regs c RSP - 8) by (rewrite (pushes_regs _ _ _ P RSP : _ = regs c0 RSP - 8), S0; reflexivity).
  destruct (load_segments (Msrs 0 0 0) Some (PushI 0x08 :: Lea label RAX :: PushR RAX :: Lretq :: [Ret]) c1) as [v ->].
  rewrite (pushes_regs _ _ _ P RDI : _ = frame). set (c2 := Cpu _ _ _ _ _ _ _ _ _).
  destruct (far_return (Msrs 0 0 0) Some label [Ret] c2 Hl ltac:(change (regs c2 RSP) with (regs c1 RSP); lia))
    as (c3 & -> & _ & Hcs & Hss & Hds & Hes & Hg & Hsp & Hm).
  change (regs c2 RSP) with (regs c1 RSP) in Hsp, Hm. eexists. split; [reflexivity|].
  cbn [set_reg rip cs ss ds es gdtr regs]. rewrite Hcs, Hss, Hds, Hes, Hg, Hsp, S1, upd_eq. split; [|repeat (split; [reflexivity|])].
  - cbn [c2 gdtr]. f_equal.
    + transitivity (ld16 m frame); [apply ld_le_ext; intros b Hb; apply (pushes_below _ _ _ P); lia|].
      transitivity (ld16 (st16 (cpu_mem c) frame 47) frame); [apply ld_le_st_le_ne; lia|apply ld16_st16; lia].
    + transitivity (ld64 m (frame + 2)); [apply ld64_ext; intros b Hb; apply (pushes_below _ _ _ P); lia|apply ld64_st64, Ha].
  - split; [|rewrite u64_small by (unfold in_u64; lia); lia].
    transitivity (ld64 (cpu_mem c1) (regs c RSP - 8)); [apply ld64_ext; intros b Hb; apply Hm; lia|].
    exact (pushes_words _ _ _ P 0 return_address eq_refl).
Qed.

(** C22. Loading the descriptor table returns to its caller with the stack as it was; from
    then on the processor runs on the kernel's code and data segments, and
    [syscall] and [sysret] switch to segments that are present in the table it was given
    and of the right kind: 64-bit code and writable data, in ring 0 on the way in and in
    ring 3 on the way out.  [syscall] masks interrupts and the direction flag. *)
Theorem segments_correct address frame label return_address entry c d d' :
  in_u64 address -> in_u64 label -> in_u64 return_address -> in_u64 entry -> call_stack frame c ->
  xbks_syscall_init entry d = inl (tt, d') ->
  exists c', xbks_gdt_init address frame label return_address c = Some c' /\ base (gdtr c') = address /\
    rip c' = return_address /\ regs c' RSP = regs c RSP /\
    let sel := selected gdt (limit (gdtr c')) in
    code_segment 0 (sel (cs c')) /\ data_segment 0 (sel (ss c')) /\
    let m := msrs_after (trace d') in
    (forall u, let k := syscall_insn m u in
       rip k = entry /\ code_segment 0 (sel (cs k)) /\ data_segment 0 (sel (ss k)) /\
       Z.testbit (rflags k) 9 = false /\ Z.testbit (rflags k) 10 = false) /\
    (forall k u, sysret m k = Some u ->
       code_segment 3 (sel (cs u)) /\ data_segment 3 (sel (ss u)) /\ cs u mod 4 = 3 /\ ss u mod 4 = 3).
Proof.
  intros Ha Hl Hr He Hst Hd. destruct (syscall_init_msrs entry d d' He Hd) as [_ Hm]. rewrite Hm.
  destruct (gdt_loaded address frame label return_address c Ha Hl Hr Hst) as (c' & Hc & Hg & Hcs & Hss & _ & _ & Hrip & Hsp). exists c'.
  split; [exact Hc|]. rewrite Hg, Hcs, Hss. cbn [base limit]. split; [reflexivity|]. split; [exact Hrip|]. split; [exact Hsp|].
  split; [eexists; reflexivity|]. split; [eexists; reflexivity|]. split.
  - intros u. split; [reflexivity|]. split; [eexists; reflexivity|]. split; [eexists; reflexivity|].
    cbn [rflags syscall_insn fmask]. rewrite !Z.land_spec. split; apply andb_false_r.
  - intros k u Hk. unfold sysret in Hk. destruct (canonical (regs k RCX)); [|discriminate]. injection Hk as <-.
    split; [eexists; reflexivity|]. split; [eexists; reflexivity|]. split; reflexivity.
Qed.

Lemma segments_correct_witness :
  exists d' c', xbks_syscall_init 65536 demo_answers = inl (tt, d') /\
    xbks_gdt_init 8192 16384 1048576 1052672 demo_cpu = Some c' /\ base (gdtr c') = 8192 /\ rip (syscall_insn (msrs_after (trace d')) c') = 65536.
Proof.
  assert (Hd : exists d', xbks_syscall_init 65536 demo_answers = inl (tt, d')).
  { destruct (xbks_syscall_init 65536 demo_answers) as [[[] d']|] eqn:E; [eauto|]. vm_compute in E. discriminate. }
  destruct Hd as [d' Hd].
  destruct (segments_correct 8192 16384 1048576 1052672 65536 demo_cpu demo_answers d') as (c' & Hc & Hb & _ & _ & _ & _ & Hs & _).
  - unfold in_u64. lia.
  - unfold in_u64. lia.
  - unfold in_u64. lia.
  - unfold in_u64. lia.
  - split; cbn; lia.
  - exact Hd.
  - exists d', c'. split; [exact Hd|]. split; [exact Hc|]. split; [exact Hb|]. apply (Hs c').
Defined.

(** ** The first entry into user mode *)

Lemma run_xors m callee l c :
  exists c', run m callee (map XorR l) c = Some c' /\
    (forall r, regs c' r = if decide (r ∈ l) then 0 else regs c r) /\ cpu_mem c' = cpu_mem c /\ same_mode c c'.
Proof.
  revert c. induction l as [|q l IH]; intros c.
  - exists c. split; [reflexivity|]. split; [intros r; rewrite decide_False by apply not_elem_of_nil; reflexivity|]. split; [reflexivity|apply same_mode_refl].
  - destruct (IH (set_reg q 0 c)) as (c' & Hrun & Hr & Hm & Hmode). exists c'. split; [exact Hrun|]. split; [|split; [exact Hm|exact Hmode]].
    intros r. rewrite Hr. cbn. unfold upd. destruct (decide (r ∈ l)).
    + rewrite decide_True by (right; assumption). reflexivity.
    + destruct (decide (r = q)) as [->|Hne]; [rewrite decide_True by left; reflexivity|].
      rewrite decide_False; [reflexivity|]. intros [H|H]%elem_of_cons; auto.
Qed.

Lemma enter_user_ok m callee c :
  star m = 0x18 * 2 ^ 48 + 0x08 * 2 ^ 32 ->
  match run m callee xbks_x86_64_enter_user c with
  | Some u =>
      rip u = regs c RDI /\ canonical (rip u) = true /\ regs u RSP = regs c RSI /\ rflags u = 0x202 /\
      cs u = Z.lor GDT_USER_CODE 3 /\ ss u = Z.lor GDT_USER_DATA 3 /\ gdtr u = gdtr c /\ cpu_mem u = cpu_mem c /\
      forall r, regs u r = if decide (r = RSP) then regs c RSI else if decide (r = RCX) then regs c RDI
                           else if decide (r = R11) then 0x202 else 0
  | None => canonical (regs c RDI) = false
  end.
Proof.
  intros Hs. unfold xbks_x86_64_enter_user. rewrite run_app. cbn [run step mbind option_bind].
  set (c0 := set_reg RCX _ _). rewrite run_app.
  destruct (run_xors m callee [RAX; RBX; RDX; RSI; RDI; RBP; R8; R9; R10; R12; R13; R14; R15] c0) as (c1 & -> & Hr & Hm & Hmode).
  cbn [run step mbind option_bind]. unfold sysret.
  rewrite (Hr RCX : _ = regs c RDI), (Hr R11 : _ = 0x202).
  destruct (canonical (regs c RDI)) eqn:Hc; [|reflexivity]. cbn [mbind option_bind rip rflags cs ss gdtr regs cpu_mem]. rewrite Hs.
  split; [reflexivity|]. split; [exact Hc|]. split; [apply (Hr RSP)|]. split; [reflexivity|].
  split; [reflexivity|]. split; [reflexivity|]. split; [apply Hmode|]. split; [rewrite Hm; reflexivity|].
  intros r. rewrite Hr. destruct r; reflexivity.
Qed.

(** C33. A program starts in ring 3 at its entry point, on its stack, with interrupts on, and
    nothing of the kernel in its registers: all but [rcx] and [r11], which the
    processor's return needs, are 0.  An entry point that is not canonical faults
    in the kernel instead. *)
Theorem enter_user_clean m callee c :
  star m = 0x18 * 2 ^ 48 + 0x08 * 2 ^ 32 ->
  match run m callee xbks_x86_64_enter_user c with
  | Some u =>
      rip u = regs c RDI /\ canonical (rip u) = true /\ regs u RSP = regs c RSI /\ rflags u = 0x202 /\
      cs u = Z.lor GDT_USER_CODE 3 /\ ss u = Z.lor GDT_USER_DATA 3 /\ gdtr u = gdtr c /\ cpu_mem u = cpu_mem c /\
      forall r, regs u r = if decide (r = RSP) then regs c RSI else if decide (r = RCX) then regs c RDI
                           else if decide (r = R11) then 0x202 else 0
  | None => canonical (regs c RDI) = false
  end.
Proof. exact (enter_user_ok m callee c). Qed.

Lemma enter_user_clean_witness :
  exists u, run (Msrs (0x18 * 2 ^ 48 + 0x08 * 2 ^ 32) 0 0) Some xbks_x86_64_enter_user (set_reg RDI 4194304 (set_reg RSI 8192 demo_cpu)) = Some u /\
    rip u = 4194304 /\ regs u RSP = 8192 /\ regs u RBX = 0.
Proof.
  pose proof (enter_user_clean (Msrs (0x18 * 2 ^ 48 + 0x08 * 2 ^ 32) 0 0) Some (set_reg RDI 4194304 (set_reg RSI 8192 demo_cpu)) eq_refl) as H.
  destruct (run _ _ _ _) as [u|]; [|discriminate]. destruct H as (H1 & _ & H2 & _ & _ & _ & _ & _ & H3).
  exists u. split; [reflexivity|]. split; [exact H1|]. split; [exact H2|]. apply (H3 RBX).
Defined.
