(* ===== verification/Tty.v ===== *)
(** * Setting up the terminal (src/drivers/tty.c, [xbks_tty_init])

    The framebuffer the loader gave, the font of a module if there is one, and a
    terminal made of them by the emulator, which is third-party code: its two
    constructors are parameters that answer whether they made a terminal. *)

From Stdlib Require Import Ascii String.
From S2P Require Import Prelude CMem CStr Format Ramdisk Console Outcome Font FontRaster BootInfo.

(** The arguments of [flanterm_fb_init_alpha] and [flanterm_fb_init], without the null
    pointers for the allocator, the canvas and the colours. *)
Record flanterm_setup := FlantermSetup {
  ft_framebuffer : Z;
  ft_width : Z;
  ft_height : Z;
  ft_pitch : Z;
  ft_red_mask_size : Z;
  ft_red_mask_shift : Z;
  ft_green_mask_size : Z;
  ft_green_mask_shift : Z;
  ft_blue_mask_size : Z;
  ft_blue_mask_shift : Z;
  ft_font : option (list Z);
  ft_font_width : Z;
  ft_font_height : Z;
  ft_font_spacing : Z;
  ft_font_scale_x : Z;
  ft_font_scale_y : Z;
  ft_margin : Z;
  ft_rotation : Z;
}.

Definition set_tty_context (there : bool) : IO unit := fun d => inl (tt, Devices (answers d) (trace d) there).

Section Tty.
Context (FLANTERM_FB_ROTATE_0 : Z) (flanterm_fb_init_alpha flanterm_fb_init : flanterm_setup -> bool).

Definition alpha_setup (framebuffer : limine_framebuffer) (font : xbks_bitmap_font) : flanterm_setup :=
  FlantermSetup (fb_address framebuffer) (fb_width framebuffer) (fb_height framebuffer) (fb_pitch framebuffer)
    (fb_red_mask_size framebuffer) (fb_red_mask_shift framebuffer)
    (fb_green_mask_size framebuffer) (fb_green_mask_shift framebuffer)
    (fb_blue_mask_size framebuffer) (fb_blue_mask_shift framebuffer)
    (Some (font_alpha font)) (font_width font) (font_height font) 1 1 1 0 FLANTERM_FB_ROTATE_0.

Definition builtin_setup (framebuffer : limine_framebuffer) : flanterm_setup :=
  FlantermSetup (fb_address framebuffer) (fb_width framebuffer) (fb_height framebuffer) (fb_pitch framebuffer)
    (fb_red_mask_size framebuffer) (fb_red_mask_shift framebuffer)
    (fb_green_mask_size framebuffer) (fb_green_mask_shift framebuffer)
    (fb_blue_mask_size framebuffer) (fb_blue_mask_shift framebuffer)
    None 0 0 0 0 0 0 FLANTERM_FB_ROTATE_0.

(** [response->framebuffers[0]] when it is one the kernel can use. *)
Definition usable_framebuffer (response : option limine_framebuffer_response) : option limine_framebuffer :=
  match response with
  | Some (FramebufferResponse (Some (Some framebuffer :: _))) =>
      if (fb_address framebuffer =? 0) || negb (fb_bpp framebuffer =? 32) then None else Some framebuffer
  | _ => None
  end.

(** [m] is the memory the modules are in. *)
Definition xbks_tty_init (m : mem) (response : option limine_framebuffer_response)
    (modules : option (list (option limine_file))) : IO bool :=
  match usable_framebuffer response with
  | None => mret false
  | Some framebuffer =>
      font ← xbks_font_load_system_tty m modules false;
      match font with
      | Some f => set_tty_context (flanterm_fb_init_alpha (alpha_setup framebuffer f))
      | None => mret tt
      end;;
      there ← xbks_tty_is_available;
      (if negb there then set_tty_context (flanterm_fb_init (builtin_setup framebuffer)) else mret tt);;
      there ← xbks_tty_is_available;
      match font with
      | Some f =>
          if (there : bool)
          then xbks_log_printf XBKS_LOG_INFO (lit "TTY using TTF font module: %s") [VaStr (Some (font_source f))]
          else mret tt
      | None => mret tt
      end;;
      mret there
  end.
End Tty.
