(* ===== verification/Boot.v ===== *)
(** * From the boot loader to the first program (src/kernel/main.c, src/kernel/panic.c,
      src/arch/x86_64/arch.c, src/boot/limine_requests.c, and the starting routines of
      src/mm/mm.c, src/fs/ramdisk.c and src/kernel/process.c with their log lines)

    The whole machine: devices, kernel state and processor.  A boot computation changes
    it, or ends: a device is never ready, the kernel leaves its semantics, the processor
    faults or halts, or a program runs in user mode. *)

From Stdlib Require Import Ascii String.
From S2P Require Import Prelude CMem CStr Format Pmm Vmm Ramdisk Elf Keyboard Kernel Loader Syscalls Outcome Console Font FontRaster BootInfo Shell Entry Tty.

Record machine := Machine {
  m_devices : devices;
  m_kernel : kernel;
  m_cpu : cpu;
}.

(** [Endless] is a loop that never leaves, [Fault] an exception in the kernel. *)
Inductive ending :=
| DeviceStop (s : io_stop)
| KernelStop (s : stop)
| Endless
| Fault
| UserMode (m : machine).

Definition Boot (A : Type) : Type := machine -> (A * machine) + ending.

#[export] Instance Boot_ret : MRet Boot := fun A a m => inl (a, m).
#[export] Instance Boot_bind : MBind Boot := fun A B f c m =>
  match c m with inl (a, m') => f a m' | inr e => inr e end.

Definition on_devices {A} (io : IO A) : Boot A := fun m =>
  match io (m_devices m) with
  | inl (a, d) => inl (a, Machine d (m_kernel m) (m_cpu m))
  | inr s => inr (DeviceStop s)
  end.

Definition on_kernel {A} (c : K A) : Boot A := fun m =>
  match c (m_kernel m) with
  | inl (a, k) => inl (a, Machine (m_devices m) k (m_cpu m))
  | inr s => inr (KernelStop s)
  end.

Definition on_cpu (f : cpu -> option cpu) : Boot unit := fun m =>
  match f (m_cpu m) with
  | Some c => inl (tt, Machine (m_devices m) (m_kernel m) c)
  | None => inr Fault
  end.

Definition endless {A} : Boot A := fun _ => inr Endless.
Definition get_mm : Boot mm := fun m => inl (k_mm (m_kernel m), m).
Definition update_mm (f : mm -> mm) : Boot unit := on_kernel (on_mm (fun s => (tt, f s))).

Definition log (level : xbks_log_level) (message : string) : Boot unit := on_devices (xbks_log_write level (lit message)).

(** The types of memory-map entries, numbers of the boot protocol. *)
Record memmap_types := MemmapTypes {
  LIMINE_MEMMAP_USABLE : Z;
  LIMINE_MEMMAP_RESERVED : Z;
  LIMINE_MEMMAP_ACPI_RECLAIMABLE : Z;
  LIMINE_MEMMAP_ACPI_NVS : Z;
  LIMINE_MEMMAP_BAD_MEMORY : Z;
  LIMINE_MEMMAP_BOOTLOADER_RECLAIMABLE : Z;
  LIMINE_MEMMAP_EXECUTABLE_AND_MODULES : Z;
  LIMINE_MEMMAP_FRAMEBUFFER : Z;
  LIMINE_MEMMAP_RESERVED_MAPPED : Z;
}.

(** Where the linker put things: the descriptor table, the frame and return address of
    the call that loads it, the label of its far return, the entry of system calls. *)
Record layout := Layout {
  gdt_address : Z;
  gdt_frame : Z;
  gdt_label : Z;
  gdt_return : Z;
  xbks_x86_64_syscall_entry_address : Z;
}.

Section Kernel.
Context (types : memmap_types) (at_ : layout).
Context (FLANTERM_FB_ROTATE_0 : Z) (flanterm_fb_init_alpha flanterm_fb_init : flanterm_setup -> bool).

(** ** src/kernel/panic.c *)

Definition xbks_panic {A} (message : list Z) : Boot A :=
  on_devices (xbks_log_write XBKS_LOG_ERROR message;; xbks_cli;; xbks_hlt).

(** ** src/arch/x86_64/arch.c *)

Definition xbks_arch_early_init : Boot unit :=
  log XBKS_LOG_INFO "x86_64 early architecture init";;
  on_cpu (xbks_gdt_init (gdt_address at_) (gdt_frame at_) (gdt_label at_) (gdt_return at_));;
  log XBKS_LOG_INFO "x86_64 GDT installed";;
  log XBKS_LOG_WARN "IDT/PIC/APIC are interface stubs in this stage";;
  on_devices (xbks_syscall_init (xbks_x86_64_syscall_entry_address at_)).

Definition xbks_arch_late_init : Boot unit := log XBKS_LOG_INFO "x86_64 late architecture init".

(** ** src/mm/mm.c *)

Definition memmap_type_name (type : Z) : list Z :=
  if type =? LIMINE_MEMMAP_USABLE types then lit "usable"
  else if type =? LIMINE_MEMMAP_RESERVED types then lit "reserved"
  else if type =? LIMINE_MEMMAP_ACPI_RECLAIMABLE types then lit "acpi-reclaim"
  else if type =? LIMINE_MEMMAP_ACPI_NVS types then lit "acpi-nvs"
  else if type =? LIMINE_MEMMAP_BAD_MEMORY types then lit "bad"
  else if type =? LIMINE_MEMMAP_BOOTLOADER_RECLAIMABLE types then lit "bootloader"
  else if type =? LIMINE_MEMMAP_EXECUTABLE_AND_MODULES types then lit "kernel"
  else if type =? LIMINE_MEMMAP_FRAMEBUFFER types then lit "framebuffer"
  else if type =? LIMINE_MEMMAP_RESERVED_MAPPED types then lit "reserved-mapped"
  else lit "unknown".

Definition log_entry (i : Z) (e : memmap_entry) : Boot unit :=
  if i <? 8 then
    on_devices (xbks_log_printf XBKS_LOG_DEBUG (lit "mem[%llu] base=0x%llx length=0x%llx type=%s")
      [VaLong i; VaLong (e_base e); VaLong (e_length e); VaStr (Some (memmap_type_name (Pmm.e_type e)))])
  else mret tt.

(** The loop over the entries from index [i]. *)
Fixpoint add_entries_logged (i : Z) (entries : list memmap_entry) : Boot unit :=
  match entries with
  | [] => mret tt
  | e :: rest =>
      log_entry i e;;
      (if Pmm.e_type e =? LIMINE_MEMMAP_USABLE types then
         s ← get_mm;
         match add_usable_range s (e_base e) (e_length e) with
         | Some s => update_mm (fun _ => s)
         | None => endless
         end
       else mret tt);;
      add_entries_logged (i + 1) rest
  end.

Definition xbks_mm_init (boot_info : xbks_boot_info) : Boot unit :=
  update_mm (fun s => Mm (hhdm_offset_value s) (xbks_read_cr3 s & ~u 4095) (free_frames s) (free_frame_count s)
                        (cr3_register s) (ram s));;
  match bi_hhdm boot_info with
  | None => log XBKS_LOG_WARN "hhdm response unavailable"
  | Some offset =>
      update_mm (fun s => Mm offset (kernel_cr3_value s) (free_frames s) (free_frame_count s) (cr3_register s) (ram s));;
      on_devices (xbks_log_printf XBKS_LOG_INFO (lit "hhdm offset: 0x%llx") [VaLong offset]);;
      match bi_memmap boot_info with
      | None => log XBKS_LOG_WARN "memory map response unavailable"
      | Some entries =>
          on_devices (xbks_log_printf XBKS_LOG_INFO (lit "memory map entries: %llu") [VaLong (Z.of_nat (length entries))]);;
          add_entries_logged 0 entries;;
          s ← get_mm;
          on_devices (xbks_log_printf XBKS_LOG_INFO (lit "PMM initialized with %zu free frames") [VaLong (free_frame_count s)])
      end
  end.

(** ** src/fs/ramdisk.c *)

Definition mount (f : limine_file) (message : string) : Boot bool :=
  on_kernel (set_ramdisk (RamdiskState (m_address f) (m_size f) true));;
  on_devices (xbks_log_printf XBKS_LOG_INFO (lit message) [VaLong (m_size f)]);;
  mret true.

Definition xbks_ramdisk_init (modules : option (list (option limine_file))) : Boot bool :=
  on_kernel (set_ramdisk (RamdiskState 0 0 false));;
  match modules with
  | None => mret false
  | Some modules =>
      if (length modules =? 0)%nat then mret false
      else
        chosen ← on_kernel (in_object (init_loop modules));
        match chosen with
        | Some f => mount f "RAMDISK loaded: %llu bytes"
        | None =>
            if (length modules =? 1)%nat then
              match module_loaded (default None (head modules)) with
              | Some f => mount f "RAMDISK loaded from only module: %llu bytes"
              | None => mret false
              end
            else mret false
        end
  end.

(** ** src/kernel/process.c *)

(** [xbks_x86_64_enter_user] with its arguments in [rdi] and [rsi]; it does not come back. *)
Definition enter_user (entry stack : Z) : Boot unit := fun m =>
  match run (msrs_after (trace (m_devices m))) Some xbks_x86_64_enter_user
          (set_reg RSI stack (set_reg RDI entry (m_cpu m))) with
  | Some c => inr (UserMode (Machine (m_devices m) (m_kernel m) c))
  | None => inr Fault
  end.

Definition xbks_process_start_init (boot_info : xbks_boot_info) : Boot bool :=
  ok ← xbks_ramdisk_init (bi_modules boot_info);
  if negb ok then
    log XBKS_LOG_WARN "no RAMDISK module found; falling back to kernel shell";; mret false
  else
    slot ← on_kernel allocate_process;
    match slot with
    | None => log XBKS_LOG_ERROR "failed to allocate init process";; mret false
    | Some init =>
        p ← on_kernel (get_process init);
        '(loaded, p) ← on_kernel (load_program p (lit "/bin/xsh") [lit "xsh"] [lit "PATH=/bin:/sbin:/usr/bin"]);
        if negb loaded then
          log XBKS_LOG_ERROR "failed to load /bin/xsh as ring3 init";;
          on_kernel (put_process init zero_process);;
          mret false
        else
          on_kernel (put_process init p);;
          on_kernel (set_current init);;
          on_kernel keyboard_reset;;
          log XBKS_LOG_INFO "entering ring3 init process /bin/xsh";;
          update_mm (fun s => xbks_write_cr3 s (cr3 p));;
          enter_user (entry p) (stack p);;
          mret true
    end.

(** ** src/kernel/main.c *)

Definition xbks_kernel_main (boot_info : option xbks_boot_info) : Boot unit :=
  on_devices xbks_log_init;;
  match boot_info with
  | None => xbks_panic (lit "boot information is null")
  | Some b =>
      log XBKS_LOG_INFO "xbks kernel entered through Limine";;
      xbks_arch_early_init;;
      xbks_mm_init b;;
      s ← get_mm;
      on_devices (xbks_tty_init FLANTERM_FB_ROTATE_0 flanterm_fb_init_alpha flanterm_fb_init (ram s)
                    (bi_framebuffer b) (bi_modules b));;
      xbks_arch_late_init;;
      xbks_process_start_init b;;
      on_devices (xbks_shell_run b);;
      on_devices xbks_hlt
  end.

(** ** src/boot/limine_requests.c *)

Definition xbks_limine_entry (supported : bool) (r : limine_requests) : Boot unit :=
  if negb supported then on_devices (xbks_cli;; xbks_hlt)
  else xbks_kernel_main (Some (xbks_limine_boot_info r)).

Definition _start := xbks_limine_entry.
End Kernel.
