(* ===== verification/BootSpec.v ===== *)
(** * The start of the machine: specification

    [quiet]: what a driver routine does to the devices.  [leads]: what a boot computation
    leads to from a machine.  The starting routines with their log lines do to the kernel
    what the plain ones of [Pmm] and [Syscalls] do. *)

From Stdlib Require Import Ascii String.
From S2P Require Import Prelude CMem CStr Format FormatProps Pmm Vmm VmmSpec MmProps Ramdisk RamdiskProps Elf Keyboard Kernel Loader Syscalls ProcTable Outcome Console ConsoleProps Font FontRaster FontProps BootInfo Shell Feed ShellProps Entry EntryProps Tty Boot.

(** ** Routines that only talk *)

(** A routine that stays within its objects, takes as many answers as it reads, waits
    only when none is left, and writes no system register. *)
Definition quiet {A} (Q : A -> Prop) (io : IO A) : Prop := forall d,
  match io d with
  | inl (a, d') => Q a /\ budget d' = budget d /\ exists u, trace d' = trace d ++ u /\ Forall is_output u
  | inr (WAITING t) => inputs t = budget d
  | inr _ => False
  end.

Lemma quiet_says {A} (P : A -> list Z -> Prop) (Q : A -> Prop) (io : IO A) :
  says P io -> fed 0 io -> adds is_output io -> (forall a l, P a l -> Q a) -> quiet Q io.
Proof.
  intros H1 H2 H3 HPQ d. specialize (H1 d). specialize (H2 d). specialize (H3 d).
  destruct (io d) as [[a d']|[]]; try exact H2; try exact H1. destruct H1 as (l & Hl & _). cbn [fed_from] in H2.
  split; [exact (HPQ a l Hl)|]. split; [apply H2|]. exact (H3 a d' eq_refl).
Qed.

Lemma quiet_ret {A} (Q : A -> Prop) a : Q a -> quiet Q (mret a).
Proof. intros H d. split; [exact H|]. split; [reflexivity|]. exists []. split; [symmetry; apply app_nil_r|constructor]. Qed.

Lemma quiet_bind {A B} (P : A -> Prop) (Q : B -> Prop) (io : IO A) (f : A -> IO B) :
  quiet P io -> (forall a, P a -> quiet Q (f a)) -> quiet Q (io ≫= f).
Proof.
  intros H1 H2 d. specialize (H1 d). unfold mbind, IO_bind. destruct (io d) as [[a d1]|[]]; try exact H1.
  destruct H1 as (Ha & Hb & u & Hu & Pu). specialize (H2 a Ha d1). destruct (f a d1) as [[b d2]|[t| |t]]; try exact H2; [|congruence].
  destruct H2 as (Hq & Hb2 & v & Hv & Pv). split; [exact Hq|]. split; [congruence|]. exists (u ++ v).
  rewrite Hv, Hu, app_assoc. split; [reflexivity|]. apply Forall_app. auto.
Qed.

Lemma quiet_context Q b : Q tt -> quiet Q (set_tty_context b).
Proof. intros H d. split; [exact H|]. split; [reflexivity|]. exists []. split; [symmetry; apply app_nil_r|constructor]. Qed.

Lemma quiet_available : quiet (fun _ => True) xbks_tty_is_available.
Proof. intros d. split; [exact I|]. split; [reflexivity|]. exists []. split; [symmetry; apply app_nil_r|constructor]. Qed.

Lemma adds_log_printf level fmt args : adds is_output (xbks_log_printf level fmt args).
Proof.
  unfold xbks_log_printf. apply adds_bind; [apply adds_lift|]. intros [buffer n]. apply adds_log_write.
Qed.

Lemma quiet_log level s t : text s -> quiet (fun _ => True) (xbks_log_write level (s ++ 0 :: t)).
Proof.
  intros H. eapply quiet_says; [|apply fed_log_write|apply adds_log_write|auto].
  eapply (says_sends (fun _ _ => True)); [apply sends_log_write, H|exact I].
Qed.

(** ** Formatted lines *)

(** The pieces and arguments render to a text of at most [n] characters. *)
Definition renders (ps : list piece) (args : list va) (n : Z) : Prop :=
  exists out, render ps args = Some out /\ text out /\ Z.of_nat (length out) <= n.

Lemma renders_nil args : renders [] args 0.
Proof. exists []. split; [reflexivity|]. split; [constructor|cbn; lia]. Qed.

Lemma renders_chars s ps args n : forallb (fun c => (0 <? c) && (c <? 256)) s = true ->
  renders ps args n -> renders (map PChar s ++ ps) args (Z.of_nat (length s) + n).
Proof.
  intros Hs (out & Hr & Ht & Hl). exists (s ++ out). rewrite render_chars, Hr. split; [reflexivity|].
  split; [apply Forall_app; split; [apply text_check, Hs|exact Ht]|rewrite length_app; lia].
Qed.

Lemma renders_string s t ps args n : text s -> renders ps args n ->
  renders (PConv W32 (chr "s") :: ps) (VaStr (Some (s ++ 0 :: t)) :: args) (Z.of_nat (length s) + n).
Proof.
  intros Hs (out & Hr & Ht & Hl). exists (s ++ out). rewrite render_string, Hr by exact Hs. split; [reflexivity|].
  split; [apply Forall_app; split; assumption|rewrite length_app; lia].
Qed.

Lemma numeral_bound base v n : 2 <= base <= 16 -> in_u64 v -> (1 <= n)%nat -> 2 ^ 64 <= base ^ Z.of_nat n ->
  text (numeral base false v) /\ (length (numeral base false v) <= n)%nat.
Proof.
  intros Hb Hv Hn Hp. unfold in_u64 in Hv. split; [apply numeral_text; lia|].
  destruct (numeral_length base false n 64 v) as [H|H]; try lia. apply H.
Qed.

Lemma renders_number c base k v ps args n :
  c = chr "u" /\ base = 10 /\ k = 20%nat \/ c = chr "x" /\ base = 16 /\ k = 16%nat ->
  renders ps args n -> renders (PConv W64 c :: ps) (VaLong v :: args) (Z.of_nat k + n).
Proof.
  intros Hc (out & Hr & Ht & Hl). exists (numeral base false (u64 v) ++ out).
  destruct (numeral_bound base (u64 v) k) as [H1 H2].
  { destruct Hc as [(_ & -> & _)|(_ & -> & _)]; lia. }
  { unfold in_u64. apply uwrap_range. lia. }
  { destruct Hc as [(_ & _ & ->)|(_ & _ & ->)]; lia. }
  { destruct Hc as [(_ & -> & ->)|(_ & -> & ->)]; vm_compute; discriminate. }
  split; [|split; [apply Forall_app; split; assumption|rewrite length_app; lia]].
  transitivity (o' ← render ps args; Some (numeral base false (u64 v) ++ o')); [|rewrite Hr; reflexivity].
  destruct Hc as [(-> & -> & _)|(-> & -> & _)]; reflexivity.
Qed.

Lemma quiet_printf level fmt args ps n :
  forallb (fun c => (0 <? c) && (c <? 256)) (str fmt) = true -> pieces (str fmt) = Some ps -> renders ps args n -> n < 2 ^ 64 ->
  quiet (fun _ => True) (xbks_log_printf level (lit fmt) args).
Proof.
  intros Hf Hp (out & Hr & Ht & Hl) Hn.
  eapply quiet_says; [|apply fed_log_printf|apply adds_log_printf|auto].
  eapply (says_mono _ (fun _ _ => True)); [eapply (says_printf level fmt args ps out); try eassumption; lia|]. intros; exact I.
Qed.

(** A line with one number in it. *)
Lemma quiet_number level fmt pre c base k post v :
  c = chr "u" /\ base = 10 /\ k = 20%nat \/ c = chr "x" /\ base = 16 /\ k = 16%nat ->
  forallb (fun c => (0 <? c) && (c <? 256)) (str fmt) = true ->
  pieces (str fmt) = Some (map PChar pre ++ PConv W64 c :: map PChar post) ->
  forallb (fun c => (0 <? c) && (c <? 256)) pre && forallb (fun c => (0 <? c) && (c <? 256)) post = true ->
  Z.of_nat (length pre) + Z.of_nat (length post) < 1000 ->
  quiet (fun _ => True) (xbks_log_printf level (lit fmt) [VaLong v]).
Proof.
  intros Hc Hf Hp [H1 H2]%andb_prop Hl. eapply (quiet_printf _ _ _ _ (Z.of_nat (length pre) + (Z.of_nat k + (Z.of_nat (length post) + 0)))); [exact Hf|exact Hp| |].
  - apply renders_chars; [exact H1|]. apply (renders_number _ base k); [exact Hc|].
    rewrite <- (app_nil_r (map PChar post)). apply renders_chars; [exact H2|apply renders_nil].
  - destruct Hc as [(_ & _ & ->)|(_ & _ & ->)]; lia.
Qed.

(** ** The terminal *)

Lemma fed_outcome {A} (o : outcome A) : fed 0 (run_outcome o).
Proof. destruct o; [apply fed_ret|apply fed_ret|apply fed_stray]. Qed.

Lemma fed_warn message : fed 0 (warn message).
Proof. apply fed_bind; [apply fed_log_write|]. intros _. apply fed_ret. Qed.

Lemma fed_font m modules : fed 0 (xbks_font_load_system_tty m modules false).
Proof.
  unfold xbks_font_load_system_tty. apply fed_bind; [apply fed_lift|]. intros [f|]; [|apply fed_warn].
  apply fed_bind; [apply fed_outcome|]. intros [font|]; [|apply fed_warn].
  apply fed_bind; [apply fed_outcome|]. intros [metrics|]; [|apply fed_warn].
  apply fed_bind; [apply fed_outcome|]. intros [c|]; [|apply fed_ret].
  apply fed_bind; [apply fed_log_printf|]. intros _.
  apply fed_bind; [apply fed_if; [apply fed_log_printf|apply fed_ret]|]. intros _. apply fed_ret.
Qed.

Lemma adds_outcome {A} (o : outcome A) : adds is_output (run_outcome o).
Proof. destruct o; [apply adds_ret|apply adds_ret|]. intros d b d' H. discriminate. Qed.

Lemma adds_warn message : adds is_output (warn message).
Proof. apply adds_bind; [apply adds_log_write|]. intros _. apply adds_ret. Qed.

Lemma adds_font m modules : adds is_output (xbks_font_load_system_tty m modules false).
Proof.
  unfold xbks_font_load_system_tty. apply adds_bind; [apply adds_lift|]. intros [f|]; [|apply adds_warn].
  apply adds_bind; [apply adds_outcome|]. intros [font|]; [|apply adds_warn].
  apply adds_bind; [apply adds_outcome|]. intros [metrics|]; [|apply adds_warn].
  apply adds_bind; [apply adds_outcome|]. intros [c|]; [|apply adds_ret].
  apply adds_bind; [apply adds_log_printf|]. intros _.
  apply adds_bind; [apply adds_if; [apply adds_log_printf|apply adds_ret]|]. intros _. apply adds_ret.
Qed.

Section Terminal.
Context (string path : limine_file -> list Z) (m : mem) (modules : list (option limine_file)).
Context (Hstrings : forall f, In (Some f) modules -> module_strings f (string f) (path f)).
Context (Htall : forall f, List.find (font_module string path) (loaded modules) = Some f -> tall_enough (module_file m f)).

Context (Hlong : forall f, In (Some f) modules -> Z.of_nat (length (path f)) < 2 ^ 62).

Lemma loaded_in f : In f (loaded modules) -> In (Some f) modules.
Proof using.
  unfold loaded. intros H. apply list_elem_of_In, list_elem_of_omap in H as (x & Hx & Hf). apply list_elem_of_In in Hx.
  destruct x as [g|]; [|discriminate]. cbn in Hf. destruct (_ || _); [discriminate|]. injection Hf as <-. exact Hx.
Qed.

Lemma font_source_text font log :
  font_outcome (List.find (font_module string path) (loaded modules)) (Some font) log ->
  exists s t, font_source font = s ++ 0 :: t /\ text s /\ Z.of_nat (length s) < 2 ^ 62.
Proof using Hstrings Hlong.
  intros (f & count & chars & Hf & _ & _ & _ & _ & _ & -> & _). apply List.find_some in Hf as [Hf _]. apply loaded_in in Hf.
  destruct (Hstrings f Hf) as [_ [Ht Hp]]. destruct (m_path f) as [l|]; cbn [default from_option id].
  - destruct Hp as [t ->]. exists (path f), t. split; [reflexivity|]. split; [exact Ht|apply Hlong, Hf].
  - exists (str "system-font"), []. split; [reflexivity|]. split; [apply text_check; reflexivity|cbn; lia].
Qed.

Lemma quiet_font :
  quiet (fun font => exists log, font_outcome (List.find (font_module string path) (loaded modules)) font log)
    (xbks_font_load_system_tty m (Some modules) false).
Proof using Hstrings Htall.
  eapply quiet_says; [apply font_load_says; eassumption|apply fed_font|apply adds_font|]. intros a l H. exists l. exact H.
Qed.

Context (R : Z) (init_alpha init : flanterm_setup -> bool).

Lemma quiet_tty response :
  quiet (fun _ => True) (xbks_tty_init R init_alpha init m response (Some modules)).
Proof using Hstrings Htall Hlong.
  unfold xbks_tty_init. destruct (usable_framebuffer response) as [fb|]; [|apply quiet_ret; exact I].
  eapply quiet_bind; [apply quiet_font|]. intros font [log Hfont].
  eapply (quiet_bind (fun _ => True)); [destruct font; [apply quiet_context|apply quiet_ret]; exact I|]. intros _ _.
  eapply quiet_bind; [apply quiet_available|]. intros there _.
  eapply (quiet_bind (fun _ => True)); [destruct (negb there); [apply quiet_context|apply quiet_ret]; exact I|]. intros _ _.
  eapply quiet_bind; [apply quiet_available|]. intros there' _.
  eapply (quiet_bind (fun _ => True)); [|intros _ _; apply quiet_ret; exact I].
  destruct font as [font|]; [|apply quiet_ret; exact I]. destruct there'; [|apply quiet_ret; exact I].
  destruct (font_source_text font log Hfont) as (s & t & -> & Hs & Hl).
  eapply (quiet_printf _ _ _ (map PChar (str "TTY using TTF font module: ") ++ [PConv W32 (chr "s")])); [reflexivity|reflexivity| |].
  - apply renders_chars; [reflexivity|]. apply renders_string; [exact Hs|apply renders_nil].
  - cbn [length str]. lia.
Qed.
End Terminal.

(** ** Boot computations *)

Definition leads {A} (c : Boot A) (m : machine) (Q : A -> machine -> Prop) (E : ending -> Prop) : Prop :=
  match c m with inl (a, m') => Q a m' | inr e => E e end.

Lemma leads_ret {A} (a : A) m (Q : A -> machine -> Prop) E : Q a m -> leads (mret a) m Q E.
Proof. exact id. Qed.

Lemma leads_bind {A B} (c : Boot A) (f : A -> Boot B) m (P : A -> machine -> Prop) (Q : B -> machine -> Prop) E :
  leads c m P E -> (forall a m', P a m' -> leads (f a) m' Q E) -> leads (c ≫= f) m Q E.
Proof. unfold leads, mbind, Boot_bind. intros H1 H2. destruct (c m) as [[a m']|e]; [apply H2, H1|exact H1]. Qed.

Lemma leads_mono {A} (c : Boot A) m (P Q : A -> machine -> Prop) E :
  leads c m P E -> (forall a m', P a m' -> Q a m') -> leads c m Q E.
Proof. unfold leads. intros H1 H2. destruct (c m) as [[a m']|e]; [apply H2, H1|exact H1]. Qed.

(** From [m] to [m'] the devices have been talked to, and the kernel's state is [k]. *)
Record talked (m : machine) (k : kernel) (m' : machine) : Prop := {
  tk_kernel : m_kernel m' = k;
  tk_cpu : m_cpu m' = m_cpu m;
  tk_budget : budget (m_devices m') = budget (m_devices m);
  tk_msrs : msrs_after (trace (m_devices m')) = msrs_after (trace (m_devices m));
  tk_trace : trace (m_devices m) `prefix_of` trace (m_devices m');
}.

Lemma talked_refl m : talked m (m_kernel m) m.
Proof. split; reflexivity. Qed.

Lemma talked_trans m1 m2 m3 k2 k3 : talked m1 k2 m2 -> talked m2 k3 m3 -> talked m1 k3 m3.
Proof. intros [? ? ? ? ?] [? ? ? ? ?]. split; [congruence..|etransitivity; eassumption]. Qed.

(** Waiting for a device with all answers taken. *)
Definition waits_from (m : machine) (E : ending -> Prop) : Prop :=
  forall t, inputs t = budget (m_devices m) -> E (DeviceStop (WAITING t)).

Lemma waits_talked m k m' E : waits_from m E -> talked m k m' -> waits_from m' E.
Proof. intros H T t Ht. apply H. rewrite Ht. apply (tk_budget _ _ _ T). Qed.

Lemma leads_quiet {A} (P : A -> Prop) (io : IO A) m E :
  quiet P io -> waits_from m E -> leads (on_devices io) m (fun a m' => P a /\ talked m (m_kernel m) m') E.
Proof.
  intros H HE. specialize (H (m_devices m)). unfold leads, on_devices. destruct (io (m_devices m)) as [[a d]|[t| |t]].
  - destruct H as (Ha & Hb & u & Hu & Pu). split; [exact Ha|]. split; [reflexivity|reflexivity|exact Hb|..]; cbn [m_devices].
    { unfold msrs_after. rewrite Hu, !msr_after_app, !(msr_after_output _ _ u Pu). reflexivity. }
    exists u. exact Hu.
  - apply HE, H.
  - destruct H.
  - destruct H.
Qed.

Lemma leads_log level s m E :
  forallb (fun c => (0 <? c) && (c <? 256)) (str s) = true -> waits_from m E ->
  leads (log level s) m (fun _ m' => talked m (m_kernel m) m') E.
Proof.
  intros Hs HE. eapply leads_mono; [apply leads_quiet; [apply (quiet_log level (str s) []), text_check, Hs|exact HE]|].
  intros _ m' [_ H]. exact H.
Qed.

(** A step of the kernel alone. *)
Lemma leads_kernel {A} (c : K A) a k m (E : ending -> Prop) :
  c (m_kernel m) = inl (a, k) -> leads (on_kernel c) m (fun a' m' => a' = a /\ talked m k m') E.
Proof. intros H. unfold leads, on_kernel. rewrite H. split; [reflexivity|]. split; reflexivity. Qed.

(** A conversation, then the rest from a machine with the same kernel. *)
Lemma leads_then {A B} (P : A -> Prop) (io : IO A) (f : A -> Boot B) m (Q : B -> machine -> Prop) E :
  quiet P io -> waits_from m E ->
  (forall a m', P a -> talked m (m_kernel m) m' -> waits_from m' E -> leads (f a) m' Q E) ->
  leads (on_devices io ≫= f) m Q E.
Proof.
  intros H HE Hf. eapply leads_bind; [apply leads_quiet; [exact H|exact HE]|]. intros a m' [Ha T].
  apply Hf; [exact Ha|exact T|eapply waits_talked; eassumption].
Qed.

Lemma leads_after {A B} (c : K A) (f : A -> Boot B) a k m (Q : B -> machine -> Prop) E :
  c (m_kernel m) = inl (a, k) -> waits_from m E ->
  (forall m', talked m k m' -> waits_from m' E -> leads (f a) m' Q E) -> leads (on_kernel c ≫= f) m Q E.
Proof.
  intros H HE Hf. eapply leads_bind; [apply (leads_kernel c a k), H|]. intros a' m' [-> T].
  apply Hf; [exact T|eapply waits_talked; eassumption].
Qed.

Lemma leads_said {B} level s (f : unit -> Boot B) m (Q : B -> machine -> Prop) E :
  forallb (fun c => (0 <? c) && (c <? 256)) (str s) = true -> waits_from m E ->
  (forall m', talked m (m_kernel m) m' -> waits_from m' E -> leads (f tt) m' Q E) -> leads (log level s ≫= f) m Q E.
Proof.
  intros Hs HE Hf. eapply leads_then; [apply (quiet_log level (str s) []), text_check, Hs|exact HE|]. intros [] m' _. apply Hf.
Qed.

(** ** Memory *)

Section Memory.
Context (types : memmap_types).

Lemma type_name_text v : exists s, memmap_type_name types v = s ++ 0 :: [] /\ text s /\ Z.of_nat (length s) <= 20.
Proof.
  unfold memmap_type_name. repeat match goal with |- context [if ?b then _ else _] => destruct b end;
    (eexists; split; [reflexivity|]; split; [apply text_check; reflexivity|cbn; lia]).
Qed.

Lemma leads_log_entry i e m E :
  waits_from m E -> leads (log_entry types i e) m (fun _ m' => talked m (m_kernel m) m') E.
Proof.
  intros HE. unfold log_entry. destruct (i <? 8); [|apply leads_ret, talked_refl].
  destruct (type_name_text (Pmm.e_type e)) as (s & -> & Hs & Hl).
  eapply leads_mono; [apply leads_quiet; [|exact HE]|intros _ m' [_ T]; exact T].
  eapply (quiet_printf _ _ _ (map PChar (str "mem[") ++ PConv W64 (chr "u") :: map PChar (str "] base=0x") ++ PConv W64 (chr "x") ::
    map PChar (str " length=0x") ++ PConv W64 (chr "x") :: map PChar (str " type=") ++ [PConv W32 (chr "s")])); [reflexivity|reflexivity| |].
  - apply renders_chars; [reflexivity|]. apply (renders_number _ 10 20); [auto|]. apply renders_chars; [reflexivity|].
    apply (renders_number _ 16 16); [auto|]. apply renders_chars; [reflexivity|]. apply (renders_number _ 16 16); [auto|].
    apply renders_chars; [reflexivity|]. apply renders_string; [exact Hs|apply renders_nil].
  - cbn [length str]. lia.
Qed.

Lemma with_mm_twice k s s' : with_mm (with_mm k s) s' = with_mm k s'.
Proof. reflexivity. Qed.

Lemma leads_update f m E : leads (update_mm f) m (fun _ m' => talked m (with_mm (m_kernel m) (f (k_mm (m_kernel m)))) m') E.
Proof.
  eapply leads_mono; [apply (leads_kernel _ tt (with_mm (m_kernel m) (f (k_mm (m_kernel m)))));
    unfold update_mm; rewrite run_on_mm; reflexivity|]. intros _ m' [_ T]. exact T.
Qed.

Lemma leads_entries entries i m (E : ending -> Prop) :
  waits_from m E -> (add_entries (LIMINE_MEMMAP_USABLE types) entries (k_mm (m_kernel m)) = None -> E Endless) ->
  leads (add_entries_logged types i entries) m
    (fun _ m' => exists s, add_entries (LIMINE_MEMMAP_USABLE types) entries (k_mm (m_kernel m)) = Some s /\
       talked m (with_mm (m_kernel m) s) m') E.
Proof.
  revert i m. induction entries as [|e rest IH]; intros i m HE HN; cbn [add_entries_logged add_entries].
  { apply leads_ret. exists (k_mm (m_kernel m)). split; [reflexivity|]. destruct m as [d [] c]. split; reflexivity. }
  cbn [add_entries] in HN.
  eapply leads_bind; [apply leads_log_entry, HE|]. intros [] m1 T1. pose proof (waits_talked _ _ _ _ HE T1) as HE1.
  eapply leads_bind with (P := fun _ m2 => exists s, (if Pmm.e_type e =? LIMINE_MEMMAP_USABLE types
      then add_usable_range (k_mm (m_kernel m)) (e_base e) (e_length e) else Some (k_mm (m_kernel m))) = Some s /\
      talked m (with_mm (m_kernel m) s) m2).
  - destruct (_ =? _).
    + unfold get_mm. apply (leads_bind _ _ _ (fun s m2 => s = k_mm (m_kernel m) /\ m2 = m1)).
      { unfold leads. rewrite (tk_kernel _ _ _ T1). split; reflexivity. }
      intros s m2 [-> ->]. destruct (add_usable_range _ _ _) as [s|]; [|apply HN; reflexivity].
      eapply leads_mono; [apply leads_update|]. intros [] m2 T2. exists s. split; [reflexivity|].
      rewrite (tk_kernel _ _ _ T1) in T2. eapply talked_trans; eassumption.
    + apply leads_ret. exists (k_mm (m_kernel m)). split; [reflexivity|]. destruct m as [d [] c]. exact T1.
  - intros [] m2 (s & Hs & T2). rewrite Hs in HN |- *. cbn [mbind option_bind] in HN |- *.
    assert (Ek : k_mm (m_kernel m2) = s) by (rewrite (tk_kernel _ _ _ T2); reflexivity).
    eapply leads_mono; [apply IH; [exact (waits_talked _ _ _ _ HE T2)|rewrite Ek; exact HN]|].
    intros [] m3 (s' & Hs' & T3). rewrite Ek in Hs'. exists s'. split; [exact Hs'|].
    rewrite (tk_kernel _ _ _ T2), with_mm_twice in T3. eapply talked_trans; eassumption.
Qed.

(** [xbks_mm_init] with its log lines does to the kernel what it does without. *)
Lemma leads_mm_init b m (E : ending -> Prop) :
  waits_from m E ->
  (Pmm.xbks_mm_init (LIMINE_MEMMAP_USABLE types) (bi_hhdm b) (bi_memmap b) (k_mm (m_kernel m)) = None -> E Endless) ->
  leads (xbks_mm_init types b) m
    (fun _ m' => exists s, Pmm.xbks_mm_init (LIMINE_MEMMAP_USABLE types) (bi_hhdm b) (bi_memmap b) (k_mm (m_kernel m)) = Some s /\
       talked m (with_mm (m_kernel m) s) m') E.
Proof.
  intros HE HN. unfold xbks_mm_init. unfold Pmm.xbks_mm_init in HN |- *.
  eapply leads_bind; [apply leads_update|]. intros [] m1 T1. pose proof (waits_talked _ _ _ _ HE T1) as HE1.
  set (s1 := Mm (hhdm_offset_value _) _ _ _ _ _) in *. change (with_mm _ _) with (with_mm (m_kernel m) s1) in T1.
  destruct (bi_hhdm b) as [offset|].
  2: { eapply leads_mono; [apply leads_log; [reflexivity|exact HE1]|]. intros [] m2 T2. exists s1. split; [reflexivity|].
       rewrite (tk_kernel _ _ _ T1) in T2. eapply talked_trans; eassumption. }
  eapply leads_bind; [apply leads_update|]. intros [] m2 T2. rewrite (tk_kernel _ _ _ T1) in T2. cbn [with_mm k_mm] in T2.
  set (s2 := Mm offset _ _ _ _ _) in *. pose proof (talked_trans _ _ _ _ _ T1 T2) as T12. change (with_mm _ _) with (with_mm (m_kernel m) s2) in T12.
  eapply leads_then; [|exact (waits_talked _ _ _ _ HE T12)|].
  { apply (quiet_number _ _ (str "hhdm offset: 0x") (chr "x") 16 16 []); [auto|reflexivity..]. }
  intros [] m3 _ T3 HE3. pose proof (talked_trans _ _ _ _ _ T12 T3) as T13. rewrite (tk_kernel _ _ _ T12) in T13.
  destruct (bi_memmap b) as [entries|].
  2: { eapply leads_mono; [apply leads_log; [reflexivity|exact HE3]|]. intros [] m4 T4. exists s2. split; [reflexivity|].
       rewrite (tk_kernel _ _ _ T13) in T4. eapply talked_trans; eassumption. }
  eapply leads_then; [|exact HE3|].
  { apply (quiet_number _ _ (str "memory map entries: ") (chr "u") 10 20 []); [auto|reflexivity..]. }
  intros [] m4 _ T4 HE4. pose proof (talked_trans _ _ _ _ _ T13 T4) as T14. rewrite (tk_kernel _ _ _ T13) in T14.
  assert (Ek : k_mm (m_kernel m4) = s2) by (rewrite (tk_kernel _ _ _ T14); reflexivity).
  eapply leads_bind; [apply leads_entries; [exact HE4|rewrite Ek; exact HN]|]. intros [] m5 (s & Hs & T5). rewrite Ek in Hs.
  rewrite (tk_kernel _ _ _ T14), with_mm_twice in T5. pose proof (talked_trans _ _ _ _ _ T14 T5) as T15.
  apply (leads_bind _ _ _ (fun _ m6 => m6 = m5)); [reflexivity|]. intros sf m6 ->.
  eapply leads_mono; [apply leads_quiet; [|exact (waits_talked _ _ _ _ HE T15)]|].
  { apply (quiet_number _ _ (str "PMM initialized with ") (chr "u") 10 20 (str " free frames")); [auto|reflexivity..]. }
  intros [] m6 [_ T6]. exists s. split; [exact Hs|]. rewrite (tk_kernel _ _ _ T15) in T6. eapply talked_trans; eassumption.
Qed.
End Memory.

(** ** The processor *)

Lemma adds_any {A} P (io : IO A) : adds P io -> adds (fun _ => True) io.
Proof. intros H d a d' E. destruct (H d a d' E) as (u & Hu & _). exists u. split; [exact Hu|]. apply Forall_true. trivial. Qed.

Lemma adds_syscall_init entry : adds (fun _ => True) (xbks_syscall_init entry).
Proof.
  unfold xbks_syscall_init, xbks_wrmsr. apply adds_bind.
  - intros d a d' E. unfold xbks_rdmsr in E. destruct (answers d) as [|v l]; [discriminate|]. injection E as _ <-.
    eexists. split; [reflexivity|]. constructor; [exact I|constructor].
  - intros efer. do 4 (apply adds_bind; [apply adds_event; exact I|intros _]). eapply adds_any, adds_log_write.
Qed.

Lemma syscall_init_ok entry d :
  in_u64 entry ->
  match xbks_syscall_init entry d with
  | inl (_, d') => budget d' = budget d /\ trace d `prefix_of` trace d' /\ msrs_after (trace d') = Msrs (0x18 * 2 ^ 48 + 0x08 * 2 ^ 32) entry 0x600
  | inr (WAITING t) => inputs t = budget d
  | inr _ => False
  end.
Proof.
  intros He. assert (Hf : fed 0 (xbks_syscall_init entry)).
  { unfold xbks_syscall_init, xbks_wrmsr. apply fed_bind.
    - intros d0. unfold xbks_rdmsr, fed_from, budget. destruct (answers d0) as [|v l]; [cbn; lia|]. cbn [answers trace length].
      rewrite inputs_snoc. cbn [is_input]. lia.
    - intros efer. do 4 (apply fed_bind; [apply fed_event; reflexivity|intros _]). apply fed_log_write. }
  specialize (Hf d). pose proof (fun d' => syscall_init_msrs entry d d' He) as Hm.
  assert (Hq : match xbks_syscall_init entry d with inr STRAY | inr (HALTED _) => False | _ => True end).
  { unfold xbks_syscall_init, mbind, IO_bind. destruct (xbks_rdmsr XBKS_MSR_EFER d) as [[efer d1]|[]] eqn:Er; try exact I.
    2, 3: unfold xbks_rdmsr in Er; destruct (answers d); discriminate.
    unfold xbks_wrmsr. cbn [event]. match goal with |- context [xbks_log_write ?a ?b ?d] => pose proof (quiet_log a (str "x86_64 syscall MSRs configured") [] ltac:(apply text_check; reflexivity) d) as Q end.
    change (lit _) with (str "x86_64 syscall MSRs configured" ++ [0]). destruct (xbks_log_write _ _ _) as [[a d2]|[]]; exact I || exact Q. }
  destruct (xbks_syscall_init entry d) as [[[] d']|[]] eqn:Es; try exact Hq; [|exact Hf].
  split; [apply Hf|]. split; [|exact (proj2 (Hm d' eq_refl))].
  destruct (adds_syscall_init entry d tt d' Es) as (u & Hu & _). exists u. exact Hu.
Qed.

(** The state of the processor after the start: the machine the rest of the boot runs on. *)
Record armed (at_ : layout) (m m' : machine) : Prop := {
  am_kernel : m_kernel m' = m_kernel m;
  am_budget : budget (m_devices m') = budget (m_devices m);
  am_cpu : xbks_gdt_init (gdt_address at_) (gdt_frame at_) (gdt_label at_) (gdt_return at_) (m_cpu m) = Some (m_cpu m');
  am_trace : trace (m_devices m) `prefix_of` trace (m_devices m');
  am_msrs : msrs_after (trace (m_devices m')) = Msrs (0x18 * 2 ^ 48 + 0x08 * 2 ^ 32) (xbks_x86_64_syscall_entry_address at_) 0x600;
}.

Record layout_ok (at_ : layout) (c : cpu) : Prop := {
  lo_words : in_u64 (gdt_address at_) /\ in_u64 (gdt_label at_) /\ in_u64 (gdt_return at_) /\
             in_u64 (xbks_x86_64_syscall_entry_address at_);
  lo_stack : call_stack (gdt_frame at_) c;
}.

Lemma leads_early_init at_ m E :
  layout_ok at_ (m_cpu m) -> waits_from m E -> leads (xbks_arch_early_init at_) m (fun _ m' => armed at_ m m') E.
Proof.
  intros [(Ha & Hl & Hr & He) Hs] HE. unfold xbks_arch_early_init.
  eapply leads_said; [reflexivity|exact HE|]. intros m1 T1 HE1.
  destruct (gdt_loaded _ _ _ _ _ Ha Hl Hr Hs) as (c & Hc & _). rewrite <- (tk_cpu _ _ _ T1) in Hc.
  apply (leads_bind _ _ _ (fun _ m2 => m2 = Machine (m_devices m1) (m_kernel m1) c)); [unfold leads, on_cpu; rewrite Hc; reflexivity|].
  intros [] m2 ->. rewrite (tk_cpu _ _ _ T1) in Hc. set (m2 := Machine _ _ c).
  eapply leads_said; [reflexivity|exact HE1|]. intros m3 T3 HE3. eapply leads_said; [reflexivity|exact HE3|]. intros m4 T4 HE4.
  pose proof (syscall_init_ok _ (m_devices m4) He) as Hi. unfold leads, on_devices.
  destruct (xbks_syscall_init _ _) as [[[] d]|[]]; [destruct Hi as (Hb & Htr & Hms)|exact (HE4 _ Hi)|destruct Hi|destruct Hi].
  pose proof (talked_trans _ _ _ _ _ T3 T4) as T. rewrite (tk_kernel _ _ _ T3) in T. split; cbn [m_kernel m_devices m_cpu].
  - rewrite (tk_kernel _ _ _ T). exact (tk_kernel _ _ _ T1).
  - rewrite Hb, (tk_budget _ _ _ T). exact (tk_budget _ _ _ T1).
  - rewrite (tk_cpu _ _ _ T). exact Hc.
  - etransitivity; [exact (tk_trace _ _ _ T1)|]. etransitivity; [exact (tk_trace _ _ _ T)|exact Htr].
  - exact Hms.
Qed.

(** ** The file system *)

Definition with_ramdisk (k : kernel) (r : ramdisk_state) : kernel :=
  Kernel (k_mm k) r (processes k) (current_process k) (next_pid k) (k_shift k) (k_polls k) (k_console k).

Lemma leads_mount f message pre m E :
  pieces (str message) = Some (map PChar pre ++ PConv W64 (chr "u") :: map PChar (str " bytes")) ->
  forallb (fun c => (0 <? c) && (c <? 256)) (str message) = true ->
  forallb (fun c => (0 <? c) && (c <? 256)) pre = true -> Z.of_nat (length pre) < 100 -> waits_from m E ->
  leads (mount f message) m
    (fun ok m' => ok = true /\ talked m (with_ramdisk (m_kernel m) (RamdiskState (m_address f) (m_size f) true)) m') E.
Proof.
  intros Hp Hm Hpre Hl HE. unfold mount. eapply leads_after; [reflexivity|exact HE|]. intros m1 T1 HE1.
  eapply leads_then; [apply (quiet_number _ message pre (chr "u") 10 20 (str " bytes")); [auto|exact Hm|exact Hp|rewrite Hpre; reflexivity|cbn [length str]; lia]|exact HE1|].
  intros [] m2 _ T2 _. apply leads_ret. split; [reflexivity|]. rewrite (tk_kernel _ _ _ T1) in T2. eapply talked_trans; eassumption.
Qed.

Lemma with_ramdisk_twice k r r' : with_ramdisk (with_ramdisk k r) r' = with_ramdisk k r'.
Proof. reflexivity. Qed.

Lemma leads_ramdisk modules m (E : ending -> Prop) :
  waits_from m E -> (Ramdisk.xbks_ramdisk_init modules = None -> E (KernelStop OutOfObject)) ->
  leads (xbks_ramdisk_init modules) m
    (fun ok m' => exists rd, Ramdisk.xbks_ramdisk_init modules = Some (ok, rd) /\ talked m (with_ramdisk (m_kernel m) rd) m') E.
Proof.
  intros HE HN. unfold xbks_ramdisk_init. unfold Ramdisk.xbks_ramdisk_init in HN |- *.
  eapply leads_after; [reflexivity|exact HE|]. intros m1 T1 HE1. change (Kernel _ _ _ _ _ _ _ _) with (with_ramdisk (m_kernel m) (RamdiskState 0 0 false)) in T1.
  assert (Hfalse : leads (mret false) m1 (fun ok m' => exists rd, Some (false, RamdiskState 0 0 false) = Some (ok, rd) /\
    talked m (with_ramdisk (m_kernel m) rd) m') E) by (apply leads_ret; eexists; split; [reflexivity|exact T1]).
  destruct modules as [modules|]; [|exact Hfalse]. destruct (length modules =? 0)%nat; [exact Hfalse|].
  assert (Hmount : forall f message pre, pieces (str message) = Some (map PChar pre ++ PConv W64 (chr "u") :: map PChar (str " bytes")) ->
    forallb (fun c => (0 <? c) && (c <? 256)) (str message) = true ->
    forallb (fun c => (0 <? c) && (c <? 256)) pre = true -> Z.of_nat (length pre) < 100 ->
    forall m2, talked m (with_ramdisk (m_kernel m) (RamdiskState 0 0 false)) m2 ->
    leads (mount f message) m2 (fun ok m' => exists rd, Some (true, RamdiskState (m_address f) (m_size f) true) = Some (ok, rd) /\
      talked m (with_ramdisk (m_kernel m) rd) m') E).
  { intros f message pre H1 H2 H3 H4 m2 T2. eapply leads_mono; [eapply leads_mount; [exact H1|exact H2|exact H3|exact H4|exact (waits_talked _ _ _ _ HE T2)]|].
    intros ok m3 [-> T3]. eexists. split; [reflexivity|]. rewrite (tk_kernel _ _ _ T2), with_ramdisk_twice in T3. eapply talked_trans; eassumption. }
  destruct (init_loop modules) as [chosen|]; [|apply HN; reflexivity]. cbn [mbind option_bind].
  eapply leads_after; [reflexivity|exact HE1|]. intros m2 T2 HE2.
  assert (T12 : talked m (with_ramdisk (m_kernel m) (RamdiskState 0 0 false)) m2) by (rewrite (tk_kernel _ _ _ T1) in T2; eapply talked_trans; eassumption).
  destruct chosen as [f|]; [apply (Hmount f _ (str "RAMDISK loaded: ")); [reflexivity..|exact T12]|].
  assert (Hfalse2 : leads (mret false) m2 (fun ok m' => exists rd, Some (false, RamdiskState 0 0 false) = Some (ok, rd) /\
    talked m (with_ramdisk (m_kernel m) rd) m') E) by (apply leads_ret; eexists; split; [reflexivity|exact T12]).
  destruct (length modules =? 1)%nat; [|exact Hfalse2]. destruct (module_loaded _) as [f|]; [|exact Hfalse2].
  apply (Hmount f _ (str "RAMDISK loaded from only module: ")); [reflexivity..|exact T12].
Qed.

(** ** The first process *)

(** From [m], the logged start [c] follows the plain one, whose outcome is [r]. *)
Definition follows (m0 : machine) (c : Boot bool) (m : machine) (r : (option (Z * Z) * kernel) + stop) (E : ending -> Prop) : Prop :=
  talked m0 (m_kernel m) m -> waits_from m E ->
  (forall s, r = inr s -> E (KernelStop s)) ->
  (forall entry stack k m', r = inl (Some (entry, stack), k) -> talked m0 k m' -> waits_from m' E ->
     leads (enter_user entry stack) m' (fun _ _ => False) E) ->
  leads c m (fun ok m' => ok = false /\ exists k, r = inl (None, k) /\ talked m0 k m') E.

Lemma follows_kernel {A} m0 (c : K A) (f : A -> Boot bool) (g : A -> K (option (Z * Z))) m E :
  (forall a m', c (m_kernel m) = inl (a, m_kernel m') -> follows m0 (f a) m' (g a (m_kernel m')) E) ->
  follows m0 (on_kernel c ≫= f) m ((c ≫= g) (m_kernel m)) E.
Proof.
  intros H T HE HS HU. rewrite run_bind in HS, HU |- *. destruct (c (m_kernel m)) as [[a k]|s] eqn:Ec.
  - eapply leads_after; [exact Ec|exact HE|]. intros m' T' HE'.
    pose proof (tk_kernel _ _ _ T') as Ek. rewrite <- Ek in HS, HU, Ec, T' |- *. exact (H a m' ltac:(rewrite Ek; reflexivity) (talked_trans _ _ _ _ _ T T') HE' HS HU).
  - unfold leads, mbind, Boot_bind, on_kernel. rewrite Ec. apply HS. reflexivity.
Qed.

Lemma follows_log m0 level s (f : unit -> Boot bool) m (g : K (option (Z * Z))) E :
  forallb (fun c => (0 <? c) && (c <? 256)) (str s) = true ->
  (forall m', follows m0 (f tt) m' (g (m_kernel m')) E) ->
  follows m0 (log level s ≫= f) m (g (m_kernel m)) E.
Proof.
  intros Hs H T HE HS HU. eapply leads_said; [exact Hs|exact HE|]. intros m' T' HE'.
  pose proof (tk_kernel _ _ _ T') as Ek. rewrite <- Ek in HS, HU, T' |- *. exact (H m' (talked_trans _ _ _ _ _ T T') HE' HS HU).
Qed.

Lemma follows_false m0 m E : follows m0 (mret false) m ((mret None : K (option (Z * Z))) (m_kernel m)) E.
Proof. intros T HE HS HU. apply leads_ret. split; [reflexivity|]. exists (m_kernel m). split; [reflexivity|exact T]. Qed.

Lemma follows_enter m0 entry stack m E :
  follows m0 (enter_user entry stack;; mret true) m ((mret (Some (entry, stack)) : K (option (Z * Z))) (m_kernel m)) E.
Proof.
  intros T HE HS HU. eapply leads_bind; [eapply HU; [reflexivity|exact T|exact HE]|]. intros [] m' [].
Qed.

(** [xbks_process_start_init] with its log lines does to the kernel what it does without,
    and enters user mode where that answers the entry point and the stack. *)
Lemma leads_start_init b m (E : ending -> Prop) :
  waits_from m E ->
  (forall s, Syscalls.xbks_process_start_init (bi_modules b) (m_kernel m) = inr s -> E (KernelStop s)) ->
  (forall entry stack k m', Syscalls.xbks_process_start_init (bi_modules b) (m_kernel m) = inl (Some (entry, stack), k) ->
     talked m k m' -> waits_from m' E -> leads (enter_user entry stack) m' (fun _ _ => False) E) ->
  leads (xbks_process_start_init b) m
    (fun ok m' => ok = false /\ exists k, Syscalls.xbks_process_start_init (bi_modules b) (m_kernel m) = inl (None, k) /\ talked m k m') E.
Proof.
  intros HE HS HU. unfold xbks_process_start_init. unfold Syscalls.xbks_process_start_init in HS, HU |- *.
  eapply leads_bind; [apply leads_ramdisk; [exact HE|intros H; apply HS; rewrite H; reflexivity]|].
  intros ok m1 (rd & Hrd & T1). pose proof (waits_talked _ _ _ _ HE T1) as HE1. rewrite Hrd in HS, HU |- *. clear Hrd.
  rewrite run_bind in HS, HU |- *. cbn [in_object] in HS, HU |- *. rewrite run_ret, run_bind in HS, HU |- *. cbn [set_ramdisk] in HS, HU |- *.
  change (Kernel (k_mm (m_kernel m)) rd _ _ _ _ _ _) with (with_ramdisk (m_kernel m) rd) in HS, HU |- *.
  pose proof (tk_kernel _ _ _ T1) as Ek. rewrite <- Ek in HS, HU, T1 |- *.
  assert (F : forall c (g : K (option (Z * Z))), follows m c m1 (g (m_kernel m1)) E ->
    (forall s, g (m_kernel m1) = inr s -> E (KernelStop s)) ->
    (forall entry stack k m', g (m_kernel m1) = inl (Some (entry, stack), k) -> talked m k m' -> waits_from m' E ->
       leads (enter_user entry stack) m' (fun _ _ => False) E) ->
    leads c m1 (fun ok m' => ok = false /\ exists k, g (m_kernel m1) = inl (None, k) /\ talked m k m') E).
  { intros c g H H1 H2. exact (H T1 HE1 H1 H2). }
  apply F; [|exact HS|exact HU]. clear F HS HU. destruct (negb ok).
  { apply follows_log; [reflexivity|]. intros m2. apply follows_false. }
  apply follows_kernel. intros [init|] m2 _; [|apply follows_log; [reflexivity|]; intros m3; apply follows_false].
  apply follows_kernel. intros p m3 _. apply follows_kernel. intros [loaded q] m4 _. destruct (negb loaded).
  { apply follows_log; [reflexivity|]. intros m5. apply follows_kernel. intros [] m6 _. apply follows_false. }
  apply follows_kernel. intros [] m5 _. apply follows_kernel. intros [] m6 _. apply follows_kernel. intros [] m7 _.
  apply follows_log; [reflexivity|]. intros m8. apply follows_kernel. intros [] m9 _. apply follows_enter.
Qed.
