(* ===== verification/BootProps.v ===== *)
(** * The start of the machine: the properties

    From the boot loader's hand-over to the first instruction of [/bin/xsh]: the memory
    map, the ramdisk, the first process, the descriptor table and the registers. *)

From Stdlib Require Import Ascii String.
From S2P Require Import Prelude CMem CStr Format FormatProps Pmm Vmm VmmSpec MmProps Ramdisk RamdiskArchive RamdiskProps Elf ElfProps Keyboard Kernel Loader Syscalls ProcTable UserMem FileProps LoaderSpec StackSpec ProgramSpec Lifecycle LifecycleProps LoaderProps Outcome Console ConsoleProps Font FontRaster FontProps BootInfo Shell Feed ShellProps Entry EntryProps Tty Boot BootSpec.

Definition init_path : list Z := lit "/bin/xsh".
Definition init_argv : list (list Z) := [str "xsh"].
Definition init_envp : list (list Z) := [str "PATH=/bin:/sbin:/usr/bin"].
Definition init_sp : Z := entry_sp init_argv init_envp.

(** ** The first process *)

(** A kernel that runs the program [file] of the memory [m] in its first process. *)
Record first_process (m : mem) (file : xbks_ramdisk_file) (k : kernel) : Prop := {
  first_slot : exists root l, space (k_mm k) [root] l /\ cr3_register (k_mm k) = root /\
    processes k !! 0%nat = Some (set_image root (e_entry m (f_data file)) init_sp 8388608 (fresh_process 1)) /\
    program_image m (f_data file) (segments m (f_data file)) init_argv init_envp (k_mm k) root init_sp;
  first_current : current_process k = 0%nat;
  first_reachable : reachable k;
}.

Lemma first_unused_boot : first_unused (replicate MAX_PROCESSES zero_process) 0 = Some 0%nat.
Proof. reflexivity. Qed.

Lemma run_set_ramdisk r k : set_ramdisk r k = inl (tt, with_ramdisk k r).
Proof. reflexivity. Qed.

Lemma start_init_ok modules rd k f l file :
  booted k -> Ramdisk.xbks_ramdisk_init modules = Some (true, rd) ->
  space (k_mm k) [] (f :: l) -> frame_ok (hhdm_offset_value (k_mm k)) (kernel_cr3_value (k_mm k)) ->
  kernel_cr3_value (k_mm k) <> f ->
  find_file init_path (with_ramdisk k rd) = inl (Some file, with_ramdisk k rd) -> f_executable file = true ->
  program_ok (ram (k_mm k)) file ->
  (forall i g, 0 <= i < f_size file -> g ∈ f :: l -> ~ in_page (hhdm_offset_value (k_mm k)) g (f_data file + i)) ->
  Forall (fun ph => seg_hi ph <= STACK_LOW) (segments (ram (k_mm k)) (f_data file)) ->
  4 * seg_bytes (segments (ram (k_mm k)) (f_data file)) + 262144 <= 4096 * Z.of_nat (length l) ->
  exists k', Syscalls.xbks_process_start_init modules k = inl (Some (e_entry (ram (k_mm k)) (f_data file), init_sp), k') /\
    first_process (ram (k_mm k)) file k'.
Proof.
  intros Hboot Hrd Hsp Hroot Hrf Hfind Hexec Hpg Hfile Hbelow Hframes. pose proof Hboot as [Hps Hpid].
  assert (Hstart : exists k', Syscalls.xbks_process_start_init modules k = inl (Some (e_entry (ram (k_mm k)) (f_data file), init_sp), k') /\
    (exists root l', space (k_mm k') [root] l' /\ cr3_register (k_mm k') = root /\
      processes k' !! 0%nat = Some (set_image root (e_entry (ram (k_mm k)) (f_data file)) init_sp 8388608 (fresh_process 1)) /\
      program_image (ram (k_mm k)) (f_data file) (segments (ram (k_mm k)) (f_data file)) init_argv init_envp (k_mm k') root init_sp) /\
    current_process k' = 0%nat).
  2: { destruct Hstart as (k' & E & H1 & H2). exists k'. split; [exact E|]. split; [exact H1|exact H2|]. exact (reach_start _ _ _ _ Hboot E). }
  unfold Syscalls.xbks_process_start_init. rewrite run_bind, Hrd. cbn [in_object]. rewrite run_ret, run_bind, run_set_ramdisk. cbn [negb].
  rewrite run_bind. unfold allocate_process. rewrite run_bind. cbn [get_kernel]. change (processes (with_ramdisk k rd)) with (processes k).
  rewrite Hps, first_unused_boot, run_bind, run_put_process, run_bind. cbn [bump_pid]. rewrite run_ret.
  rewrite run_bind, run_get_process. cbn [with_processes processes next_pid current_process with_ramdisk k_mm k_ramdisk k_shift k_polls k_console].
  rewrite Hpid, Hps. cbn [lookup list_lookup insert list_insert replicate MAX_PROCESSES].
  rewrite run_bind. set (p := fresh_process 1). match goal with |- context [load_program p _ _ _ ?k0] => set (k1 := k0) end.
  assert (Hfind1 : find_file init_path k1 = inl (Some file, k1)) by (exact (find_file_same _ (with_ramdisk k rd) k1 _ eq_refl eq_refl Hfind)).
  destruct (program_loaded k1 [] l f p init_path file init_argv init_envp [lit "xsh"] [lit "PATH=/bin:/sbin:/usr/bin"])
    as (s' & l' & E & Hsp' & _ & Him & _); try assumption.
  { repeat constructor; try lia. exists []. reflexivity. }
  { repeat constructor; try lia. exists []. reflexivity. }
  { vm_compute. discriminate. }
  unfold init_path in E. rewrite E. cbn [negb]. rewrite run_bind, run_put_process, run_bind. cbn [set_current].
  rewrite run_bind. cbn [keyboard_reset]. rewrite run_bind, run_on_mm. cbn [fst snd]. rewrite run_ret. eexists. split; [reflexivity|].
  split; [|reflexivity]. exists f, l'. cbn [with_mm k_mm processes with_processes].
  split; [apply space_write_cr3, Hsp'|]. split; [reflexivity|]. split; [reflexivity|apply (program_image_ext _ _ _ _ s'); [exact Hpg|vm_compute; discriminate|intros va _; apply user_byte_cr3|exact Him]].
Qed.

Lemma seg_bytes_pos size segs : Forall (fun ph => phdr_range ph /\ user_segment size ph) segs -> 0 <= seg_bytes segs.
Proof.
  induction 1 as [|ph segs [H1 H2] _ IH]; cbn [seg_bytes]; [lia|]. destruct (seg_lo_hi size ph H1 H2) as (_ & ? & ? & _).
  destruct H1 as (_ & _ & _ & ?). lia.
Qed.

(** The image of a program is the same for two memories that agree on its file. *)
Lemma program_image_same m file s argv envp s' r sp :
  program_ok m file -> file_same m file s ->
  program_image (ram s) (f_data file) (segments (ram s) (f_data file)) argv envp s' r sp ->
  program_image m (f_data file) (segments m (f_data file)) argv envp s' r sp.
Proof.
  intros Hpg Hs. destruct (program_same m file s Hpg Hs) as (_ & -> & _). intros [H1 H2 H3]. split; [|exact H2|exact H3].
  intros ph a Hph Ha. rewrite (H1 ph a Hph Ha). destruct (Z.ltb_spec a (p_vaddr ph + p_filesz ph)) as [Hlt|]; [|reflexivity].
  f_equal. pose proof (segments_range m file Hpg) as Hr. rewrite List.Forall_forall in Hr.
  destruct (Hr ph (proj1 (list_elem_of_In _ _) Hph)) as [(Ho & _ & Hf & _) (_ & Hsz & _)]. rewrite <- Z.add_assoc. apply Hs. lia.
Qed.

(** ** The file in the archive *)

Lemma found_inside path k f :
  rd_available (k_ramdisk k) = true -> 0 <= rd_size (k_ramdisk k) < 2 ^ 62 -> text path ->
  find_file (path ++ [0]) k = inl (Some f, k) -> f_directory f = false ->
  rd_data (k_ramdisk k) <= f_data f /\ f_data f + f_size f <= rd_data (k_ramdisk k) + rd_size (k_ramdisk k) /\ 0 <= f_size f.
Proof.
  intros Ha Hsz Ht E Hdir. destruct (find_file_ok k path [] Ha Hsz Ht) as (o & E' & Ho). rewrite E in E'. injection E' as <-.
  destruct Ho as [(e & _ & _ & (_ & _ & Hlen & _) & _ & Hd & Hs & _)|[_ Hi]].
  - unfold ramdisk_image in Hlen. rewrite length_bytes_at in Hlen. lia.
  - destruct Hi as (_ & _ & _ & Hi & _). congruence.
Qed.

Lemma init_module string path modules rd :
  (forall f, In (Some f) modules -> module_strings f (string f) (path f)) ->
  Ramdisk.xbks_ramdisk_init (Some modules) = Some (true, rd) ->
  exists f, In (Some f) modules /\ rd = RamdiskState (m_address f) (m_size f) true.
Proof.
  intros Hs. rewrite (ramdisk_init_correct string path modules Hs). intros [= H].
  destruct (List.find _ _) as [f|] eqn:Ef.
  - injection H as <-. exists f. split; [|reflexivity]. apply List.find_some in Ef as [Ef _]. apply loaded_in, Ef.
  - destruct modules as [|m [|m' rest]]; [discriminate| |discriminate]. destruct (module_loaded m) as [f|] eqn:El; [|discriminate].
    injection H as <-. exists f. split; [left|reflexivity]. unfold module_loaded in El. destruct m as [g|]; [|discriminate].
    cbn in El. destruct (_ || _); congruence.
Qed.

(** ** The hand-over *)

Section Handover.
Context (types : memmap_types) (at_ : layout).
Context (FLANTERM_FB_ROTATE_0 : Z) (flanterm_fb_init_alpha flanterm_fb_init : flanterm_setup -> bool).
Context (string path : limine_file -> list Z).

Definition free_page (entries : list memmap_entry) (g : Z) : Prop := in_usable (LIMINE_MEMMAP_USABLE types) entries g.

(** What the boot loader promises: a memory map whose usable ranges do not overlap and
    hold neither the modules nor the page tables in use, modules with their strings and
    a font that is not a miniature, and a kernel that has not run yet. *)
Record handed_over (b : xbks_boot_info) (offset : Z) (entries : list memmap_entry) (modules : list (option limine_file))
    (m : machine) : Prop := {
  ho_info : bi_hhdm b = Some offset /\ bi_memmap b = Some entries /\ bi_modules b = Some modules;
  ho_entries : memmap_ok (LIMINE_MEMMAP_USABLE types) offset entries;
  ho_strings : forall f, In (Some f) modules -> module_strings f (string f) (path f);
  ho_sizes : forall f, In (Some f) modules -> Z.of_nat (length (path f)) < 2 ^ 62 /\ 0 <= m_size f < 2 ^ 62;
  ho_apart : forall f i g, In (Some f) modules -> 0 <= i < m_size f -> free_page entries g -> ~ in_page offset g (m_address f + i);
  ho_font : forall f, List.find (font_module string path) (loaded modules) = Some f ->
    tall_enough (module_file (ram (k_mm (m_kernel m))) f);
  ho_tables : let cr3 := cr3_register (k_mm (m_kernel m)) in
    in_u64 cr3 /\ frame_ok offset (cr3 - cr3 mod 4096) /\ ~ free_page entries (cr3 - cr3 mod 4096);
  ho_cold : booted (m_kernel m) /\ free_frames (k_mm (m_kernel m)) = 0 /\ free_frame_count (k_mm (m_kernel m)) = 0;
  ho_layout : layout_ok at_ (m_cpu m);
}.

(** The archive among the modules holds [/bin/xsh]: an executable that fits the user half
    below the stack and, with its page tables, the free memory. *)
Record init_program (entries : list memmap_entry) (modules : list (option limine_file)) (k : kernel) (rd : ramdisk_state)
    (file : xbks_ramdisk_file) (pages : list Z) : Prop := {
  ip_mounted : Ramdisk.xbks_ramdisk_init (Some modules) = Some (true, rd);
  ip_found : find_file init_path (with_ramdisk k rd) = inl (Some file, with_ramdisk k rd);
  ip_program : f_executable file = true /\ program_ok (ram (k_mm k)) file /\ canonical (e_entry (ram (k_mm k)) (f_data file)) = true;
  ip_below : Forall (fun ph => seg_hi ph <= STACK_LOW) (segments (ram (k_mm k)) (f_data file));
  ip_pages : NoDup pages /\ (forall g, g ∈ pages -> free_page entries g) /\
    4 * seg_bytes (segments (ram (k_mm k)) (f_data file)) + 262144 + 4096 <= 4096 * Z.of_nat (length pages);
}.

(** The memory manager once the free pages are collected: [l] lists them, and nothing else
    of the memory has changed. *)
Record collected (offset : Z) (entries : list memmap_entry) (m : machine) (s : mm) (l : list Z) : Prop := {
  co_pool : pool s l;
  co_offset : hhdm_offset_value s = offset;
  co_root : kernel_cr3_value s = let cr3 := cr3_register (k_mm (m_kernel m)) in cr3 - cr3 mod 4096;
  co_free : forall g, g ∈ l <-> free_page entries g;
  co_same : forall a, (forall g, free_page entries g -> ~ in_page offset g a) -> rd8 (ram s) a = rd8 (ram (k_mm (m_kernel m))) a;
}.

Section Boot.
Context (b : xbks_boot_info) (offset : Z) (entries : list memmap_entry) (modules : list (option limine_file)) (m : machine).
Context (rd : ramdisk_state) (file : xbks_ramdisk_file) (pages : list Z).
Context (H : handed_over b offset entries modules m) (P : init_program entries modules (m_kernel m) rd file pages).
Let mem0 := ram (k_mm (m_kernel m)).

Context (s : mm) (l : list Z) (HC : collected offset entries m s l).

Lemma module_same f i : In (Some f) modules -> 0 <= i < m_size f -> rd8 (ram s) (m_address f + i) = rd8 mem0 (m_address f + i).
Proof using H HC. intros Hf Hi. apply (co_same _ _ _ _ _ HC). intros g Hg. exact (ho_apart _ _ _ _ _ H f i g Hf Hi Hg). Qed.

Lemma module_file_same f : In (Some f) modules -> module_file (ram s) f = module_file mem0 f.
Proof using H HC.
  intros Hf. apply bytes_at_ext. intros a Ha. destruct (ho_sizes _ _ _ _ _ H f Hf) as [_ Hs].
  replace a with (m_address f + (a - m_address f)) by lia. apply module_same; [exact Hf|lia].
Qed.

Lemma program_inside i : 0 <= i < f_size file ->
  (forall g, free_page entries g -> ~ in_page offset g (f_data file + i)) /\ rd8 (ram s) (f_data file + i) = rd8 mem0 (f_data file + i).
Proof using H P HC.
  destruct P as [Hrd Hfound (_ & Hpg & _) _ _]. pose proof (pg_regular _ _ Hpg) as (_ & Hdir & _).
  destruct (init_module string path modules rd (ho_strings _ _ _ _ _ H) Hrd) as (f & Hf & Erd).
  destruct (ho_sizes _ _ _ _ _ H f Hf) as [_ Hs].
  destruct (found_inside (str "/bin/xsh") (with_ramdisk (m_kernel m) rd) file) as (H1 & H2 & H3);
    [rewrite Erd; reflexivity|rewrite Erd; exact Hs|apply text_check; reflexivity|exact Hfound|exact Hdir|].
  rewrite Erd in H1, H2. cbn [with_ramdisk k_ramdisk rd_data rd_size] in H1, H2. intros Hi.
  replace (f_data file + i) with (m_address f + (f_data file - m_address f + i)) by lia. split.
  - intros g Hg. apply (ho_apart _ _ _ _ _ H f); [exact Hf|lia|exact Hg].
  - apply module_same; [exact Hf|lia].
Qed.

Lemma start_after : exists k',
  Syscalls.xbks_process_start_init (Some modules) (with_mm (m_kernel m) s) = inl (Some (e_entry mem0 (f_data file), init_sp), k') /\
  first_process mem0 file k'.
Proof using H P HC.
  pose proof HC as [Hpool Hoff Hroot Hl _]. pose proof P as [Hrd Hfound (Hexec & Hpg & _) Hbelow (Hnd & Hin & Hframes)]. fold mem0 in Hpg, Hbelow, Hframes.
  destruct (ho_tables _ _ _ _ _ H) as (_ & Hrok & Hrfree).
  assert (Hsame : file_same mem0 file s) by (intros j Hj; apply program_inside, Hj).
  destruct (program_same mem0 file s Hpg Hsame) as (Hpg1 & Eseg & Eent).
  assert (Hlen : (length pages <= length l)%nat).
  { apply List.NoDup_incl_length; [apply NoDup_ListNoDup, Hnd|]. intros g Hg. apply list_elem_of_In, Hl, Hin, list_elem_of_In, Hg. }
  assert (Hne : exists f l', l = f :: l').
  { destruct l as [|f l']; [|eauto]. cbn in Hlen. pose proof (seg_bytes_pos _ _ (segments_range mem0 file Hpg)). lia. }
  destruct Hne as (f & l' & El). rewrite El in Hpool, Hlen. setoid_rewrite El in Hl.
  destruct (start_init_ok (Some modules) rd (with_mm (m_kernel m) s) f l' file) as (k' & E & [(root & lk & H1 & H2 & H3 & H4) Hc Hr]).
  - exact (proj1 (ho_cold _ _ _ _ _ H)).
  - exact Hrd.
  - split; [exact Hpool|intros r p g Hx; inversion Hx|intros r r' p p' g Hx; inversion Hx].
  - cbn [with_mm k_mm]. rewrite Hoff, Hroot. exact Hrok.
  - cbn [with_mm k_mm]. rewrite Hroot. intros E. apply Hrfree. cbn zeta in E. rewrite E. apply Hl. left.
  - refine (find_file_same _ (with_ramdisk (m_kernel m) rd) (with_ramdisk (with_mm (m_kernel m) s) rd) _ _ eq_refl Hfound).
    destruct (init_module string path modules rd (ho_strings _ _ _ _ _ H) Hrd) as (f0 & Hf0 & ->).
    exact (module_file_same f0 Hf0).
  - exact Hexec.
  - exact Hpg1.
  - cbn [with_mm k_mm]. rewrite Hoff. intros i g Hi Hg. exact (proj1 (program_inside i Hi) g (proj1 (Hl g) Hg)).
  - cbn [with_mm k_mm]. rewrite Eseg. exact Hbelow.
  - cbn [with_mm k_mm]. rewrite Eseg. cbn [length] in Hlen. lia.
  - cbn [with_mm k_mm] in *. rewrite Eent in E, H3. exists k'. split; [exact E|]. split; [|exact Hc|exact Hr].
    exists root, lk. split; [exact H1|]. split; [exact H2|]. split; [exact H3|exact (program_image_same _ _ _ _ _ _ _ _ Hpg Hsame H4)].
Qed.
End Boot.

(** *** Without a program *)

(** No archive, or none with an executable [/bin/xsh]. *)
Definition no_program (modules : list (option limine_file)) (k : kernel) : Prop :=
  exists ok rd, Ramdisk.xbks_ramdisk_init (Some modules) = Some (ok, rd) /\
    (ok = true -> exists o, find_file init_path (with_ramdisk k rd) = inl (o, with_ramdisk k rd) /\
       forall f, o = Some f -> f_executable f = false \/ f_directory f = true).

Lemma start_refused modules k ok rd :
  booted k -> Ramdisk.xbks_ramdisk_init modules = Some (ok, rd) ->
  (ok = true -> exists o, find_file init_path (with_ramdisk k rd) = inl (o, with_ramdisk k rd) /\
     forall f, o = Some f -> f_executable f = false \/ f_directory f = true) ->
  exists k', Syscalls.xbks_process_start_init modules k = inl (None, k').
Proof using.
  intros [Hps Hpid] Hrd Hf. unfold Syscalls.xbks_process_start_init. rewrite run_bind, Hrd. cbn [in_object]. rewrite run_ret, run_bind, run_set_ramdisk.
  destruct ok; cbn [negb]; [|eexists; rewrite run_ret; reflexivity]. destruct (Hf eq_refl) as (o & Eo & Ho).
  rewrite run_bind. unfold allocate_process. rewrite run_bind. cbn [get_kernel]. change (processes (with_ramdisk k rd)) with (processes k).
  rewrite Hps, first_unused_boot, run_bind, run_put_process, run_bind. cbn [bump_pid]. rewrite run_ret.
  rewrite run_bind, run_get_process. cbn [with_processes processes next_pid current_process with_ramdisk k_mm k_ramdisk k_shift k_polls k_console].
  rewrite Hpid, Hps. cbn [lookup list_lookup insert list_insert replicate MAX_PROCESSES]. rewrite run_bind.
  match goal with |- context [load_program ?p ?a ?c ?d ?k0] => set (k1 := k0); set (p0 := p) end.
  assert (El : load_program p0 (lit "/bin/xsh") [lit "xsh"] [lit "PATH=/bin:/sbin:/usr/bin"] k1 = inl ((false, p0), k1)).
  { pose proof (find_file_same _ (with_ramdisk k rd) k1 _ eq_refl eq_refl Eo) as E1. unfold find_file in E1. rewrite run_bind in E1. cbn [get_kernel] in E1.
    unfold load_program. rewrite run_bind. cbn [get_kernel]. rewrite run_bind. unfold ramdisk_image, init_path in E1. rewrite E1.
    destruct o as [f|]; [|reflexivity]. destruct (Ho f eq_refl) as [->| ->]; cbn [negb orb]; [reflexivity|rewrite orb_true_r; reflexivity]. }
  rewrite El. cbn [negb]. rewrite run_bind, run_put_process, run_ret. eexists. reflexivity.
Qed.

(** *** User mode *)

(** A machine about to execute the first instruction of the program, in ring 3, with
    nothing of the kernel in its registers and the way back into the kernel in place. *)
Record runs_init (mem0 : mem) (file : xbks_ramdisk_file) (u : machine) : Prop := {
  ri_kernel : first_process mem0 file (m_kernel u);
  ri_mode : rip (m_cpu u) = e_entry mem0 (f_data file) /\ rflags (m_cpu u) = 0x202 /\
    cs (m_cpu u) = Z.lor GDT_USER_CODE 3 /\ ss (m_cpu u) = Z.lor GDT_USER_DATA 3;
  ri_regs : forall r, regs (m_cpu u) r = if decide (r = RSP) then init_sp else if decide (r = RCX) then e_entry mem0 (f_data file)
                                         else if decide (r = R11) then 0x202 else 0;
  ri_tables : gdtr (m_cpu u) = GdtPointer 47 (gdt_address at_) /\
    msrs_after (trace (m_devices u)) = Msrs (0x18 * 2 ^ 48 + 0x08 * 2 ^ 32) (xbks_x86_64_syscall_entry_address at_) 0x600;
}.

(** How the start ends: waiting for a device with all answers taken, or in the program. *)
Definition ends_well (mem0 : mem) (file : xbks_ramdisk_file) (m : machine) (e : ending) : Prop :=
  match e with
  | DeviceStop (WAITING t) => inputs t = budget (m_devices m)
  | UserMode u => runs_init mem0 file u
  | _ => False
  end.

Lemma leads_enter_user mem0 file m0 m stack entry :
  gdtr (m_cpu m) = GdtPointer 47 (gdt_address at_) ->
  msrs_after (trace (m_devices m)) = Msrs (0x18 * 2 ^ 48 + 0x08 * 2 ^ 32) (xbks_x86_64_syscall_entry_address at_) 0x600 ->
  first_process mem0 file (m_kernel m) -> entry = e_entry mem0 (f_data file) -> stack = init_sp -> canonical entry = true ->
  leads (enter_user entry stack) m (fun _ _ => False) (ends_well mem0 file m0).
Proof.
  intros Hg Hms Hk -> -> Hc. unfold leads, enter_user. rewrite Hms.
  pose proof (enter_user_ok (Msrs (0x18 * 2 ^ 48 + 0x08 * 2 ^ 32) (xbks_x86_64_syscall_entry_address at_) 0x600) Some
    (set_reg RSI init_sp (set_reg RDI (e_entry mem0 (f_data file)) (m_cpu m))) eq_refl) as U.
  assert (E1 : regs (set_reg RSI init_sp (set_reg RDI (e_entry mem0 (f_data file)) (m_cpu m))) RDI = e_entry mem0 (f_data file)) by reflexivity.
  assert (E2 : regs (set_reg RSI init_sp (set_reg RDI (e_entry mem0 (f_data file)) (m_cpu m))) RSI = init_sp) by reflexivity.
  assert (E3 : gdtr (set_reg RSI init_sp (set_reg RDI (e_entry mem0 (f_data file)) (m_cpu m))) = GdtPointer 47 (gdt_address at_)) by exact Hg.
  rewrite E1, E2, E3 in U. clear E1 E2 E3. destruct (run _ _ _ _) as [c|]; [|congruence].
  destruct U as (U1 & _ & _ & U3 & U4 & U5 & U6 & _ & U8). split; cbn [m_cpu m_kernel m_devices]; [exact Hk| |exact U8|split; [exact U6|exact Hms]].
  split; [exact U1|]. split; [exact U3|]. split; [exact U4|exact U5].
Qed.
End Handover.

Lemma quiet_event e : is_output e -> is_input e = false -> quiet (fun _ => True) (event e).
Proof.
  intros Ho Hi d. split; [exact I|]. cbn [answers trace event]. split; [unfold budget; cbn [answers trace]; rewrite inputs_snoc, Hi; lia|].
  exists [e]. split; [reflexivity|]. repeat constructor. exact Ho.
Qed.

Lemma quiet_log_init : quiet (fun _ => True) xbks_log_init.
Proof.
  unfold xbks_log_init, xbks_serial_init, xbks_outb. apply (quiet_bind (fun _ => True)); [|intros _ _; apply quiet_ret; exact I].
  do 7 (apply (quiet_bind (fun _ => True)); [apply quiet_event; [exact I|reflexivity]|intros _ _]). apply quiet_ret. exact I.
Qed.

(** ** The kernel's main routine *)

Section Main.
Context (types : memmap_types) (at_ : layout).
Context (FLANTERM_FB_ROTATE_0 : Z) (flanterm_fb_init_alpha flanterm_fb_init : flanterm_setup -> bool).
Context (string path : limine_file -> list Z).
Let kernel_main := xbks_kernel_main types at_ FLANTERM_FB_ROTATE_0 flanterm_fb_init_alpha flanterm_fb_init.
Context (b : xbks_boot_info) (offset : Z) (entries : list memmap_entry) (modules : list (option limine_file)) (m : machine).
Context (H : handed_over types at_ string path b offset entries modules m).

(** The machine when the first process is to start. *)
Record prepared (s : mm) (m' : machine) : Prop := {
  pr_kernel : m_kernel m' = with_mm (m_kernel m) s;
  pr_budget : budget (m_devices m') = budget (m_devices m);
  pr_gdtr : gdtr (m_cpu m') = GdtPointer 47 (gdt_address at_);
  pr_msrs : msrs_after (trace (m_devices m')) = Msrs (0x18 * 2 ^ 48 + 0x08 * 2 ^ 32) (xbks_x86_64_syscall_entry_address at_) 0x600;
  pr_trace : trace (m_devices m) `prefix_of` trace (m_devices m');
}.

Lemma armed_gdtr m1 m2 : m_cpu m1 = m_cpu m -> armed at_ m1 m2 -> gdtr (m_cpu m2) = GdtPointer 47 (gdt_address at_).
Proof using H.
  intros Ec A. destruct (ho_layout _ _ _ _ _ _ _ _ _ H) as [(W1 & W2 & W3 & _) Hst]. rewrite <- Ec in Hst.
  destruct (gdt_loaded _ _ _ _ (m_cpu m1) W1 W2 W3 Hst) as (c & Hc & Hg & _). rewrite (am_cpu _ _ _ A) in Hc. injection Hc as <-. exact Hg.
Qed.

Lemma leads_prepared Q (E : ending -> Prop) :
  waits_from m E ->
  (forall s l m', collected types offset entries m s l -> prepared s m' -> waits_from m' E ->
     leads (xbks_process_start_init b;; on_devices (xbks_shell_run b);; on_devices xbks_hlt) m' Q E) ->
  leads (kernel_main (Some b)) m Q E.
Proof using H.
  intros HE HK. destruct (ho_info _ _ _ _ _ _ _ _ _ H) as (Ehhdm & Emap & Emod). destruct (ho_cold _ _ _ _ _ _ _ _ _ H) as (_ & Hff & Hfc).
  destruct (mm_init_pool (LIMINE_MEMMAP_USABLE types) offset entries (k_mm (m_kernel m)) Hff Hfc
    (proj1 (ho_tables _ _ _ _ _ _ _ _ _ H)) (ho_entries _ _ _ _ _ _ _ _ _ H)) as (s & l & Es & Hpool & Hoff & Hroot & Hl & Hm).
  pose proof (Build_collected types offset entries m s l Hpool Hoff Hroot Hl Hm) as HC.
  unfold kernel_main, xbks_kernel_main. eapply leads_then; [exact quiet_log_init|exact HE|]. intros [] m1 _ T1 HE1.
  eapply leads_said; [reflexivity|exact HE1|]. intros m2 T2 HE2. pose proof (talked_trans _ _ _ _ _ T1 T2) as T12.
  rewrite (tk_kernel _ _ _ T1) in T12.
  eapply leads_bind; [apply leads_early_init; [rewrite (tk_cpu _ _ _ T12); exact (ho_layout _ _ _ _ _ _ _ _ _ H)|exact HE2]|].
  intros [] m3 A. assert (HE3 : waits_from m3 E) by (intros t Ht; apply HE2; rewrite Ht; exact (am_budget _ _ _ A)).
  assert (K3 : m_kernel m3 = m_kernel m) by (rewrite (am_kernel _ _ _ A); exact (tk_kernel _ _ _ T12)).
  eapply leads_bind; [apply leads_mm_init; [exact HE3|rewrite Ehhdm, Emap, K3; intros E0; congruence]|].
  intros [] m4 (s' & Es' & T4). rewrite Ehhdm, Emap, K3, Es in Es'. injection Es' as <-. rewrite K3 in T4.
  apply (leads_bind _ _ _ (fun a m' => a = s /\ m' = m4)); [unfold leads, get_mm; rewrite (tk_kernel _ _ _ T4); split; reflexivity|].
  intros s' m' [-> ->]. rewrite Emod. eapply leads_then; [apply (quiet_tty string path)|exact (waits_talked _ _ _ _ HE3 T4)|].
  { exact (ho_strings _ _ _ _ _ _ _ _ _ H). }
  { intros f Hf. rewrite (module_file_same types at_ string path b offset entries modules m H s l HC).
    - exact (ho_font _ _ _ _ _ _ _ _ _ H f Hf).
    - apply List.find_some in Hf as [Hf _]. apply loaded_in, Hf. }
  { intros f Hf. exact (proj1 (ho_sizes _ _ _ _ _ _ _ _ _ H f Hf)). }
  intros ready m5 _ T5 HE5. rewrite (tk_kernel _ _ _ T4) in T5. eapply leads_said; [reflexivity|exact HE5|].
  intros m6 T6 HE6. pose proof (talked_trans _ _ _ _ _ (talked_trans _ _ _ _ _ T4 T5) T6) as T. rewrite (tk_kernel _ _ _ T5) in T.
  apply (HK s l m6 HC); [|exact HE6]. split.
  - exact (tk_kernel _ _ _ T).
  - rewrite (tk_budget _ _ _ T), (am_budget _ _ _ A). exact (tk_budget _ _ _ T12).
  - rewrite (tk_cpu _ _ _ T). exact (armed_gdtr m2 m3 (tk_cpu _ _ _ T12) A).
  - rewrite (tk_msrs _ _ _ T). exact (am_msrs _ _ _ A).
  - etransitivity; [exact (tk_trace _ _ _ T12)|]. etransitivity; [exact (am_trace _ _ _ A)|exact (tk_trace _ _ _ T)].
Qed.

Lemma kernel_main_starts rd file pages :
  init_program types entries modules (m_kernel m) rd file pages ->
  leads (kernel_main (Some b)) m (fun _ _ => False) (ends_well at_ (ram (k_mm (m_kernel m))) file m).
Proof using H.
  intros P. apply leads_prepared; [intros t Ht; exact Ht|]. intros s l m6 HC HP HE. pose proof (pr_kernel _ _ HP) as K6.
  destruct (start_after types at_ string path b offset entries modules m rd file pages H P s l HC) as (k' & Ek' & Hk').
  destruct (ho_info _ _ _ _ _ _ _ _ _ H) as (_ & _ & Emod).
  eapply leads_bind; [apply leads_start_init; [exact HE|..]|].
  - rewrite Emod, K6, Ek'. discriminate.
  - rewrite Emod, K6, Ek'. intros entry stack k m7 [= <- <- <-] T HE7.
    apply leads_enter_user; [rewrite (tk_cpu _ _ _ T); exact (pr_gdtr _ _ HP)|rewrite (tk_msrs _ _ _ T); exact (pr_msrs _ _ HP)| |reflexivity|reflexivity|].
    + rewrite (tk_kernel _ _ _ T). exact Hk'.
    + exact (proj2 (proj2 (ip_program _ _ _ _ _ _ _ P))).
  - rewrite Emod, K6, Ek'. intros ok m7 (_ & k & E & _). discriminate.
Qed.

(** From the devices of [m], after all the set-up of the processor, the machine has come to
    [xbks_shell_run], and [s] is how the shell stops. *)
Definition shell_stops (s : io_stop) : Prop := exists d,
  trace (m_devices m) `prefix_of` trace d /\ budget d = budget (m_devices m) /\
  msrs_after (trace d) = Msrs (0x18 * 2 ^ 48 + 0x08 * 2 ^ 32) (xbks_x86_64_syscall_entry_address at_) 0x600 /\
  xbks_shell_run b d = inr s /\
  match s with WAITING t => inputs t = budget (m_devices m) | HALTED t => reset_requested t | STRAY => False end.

(** The boot is cut short by a device, or ends in the shell, which never comes back. *)
Definition ends_in_shell (e : ending) : Prop :=
  match e with
  | DeviceStop s => shell_stops s \/ exists t, s = WAITING t /\ inputs t = budget (m_devices m)
  | _ => False
  end.

Lemma kernel_main_falls_back name version cmdline :
  boot_text b name version cmdline -> no_program modules (m_kernel m) ->
  Z.of_nat (length (default [] (bi_memmap b))) < 2 ^ 64 ->
  leads (kernel_main (Some b)) m (fun _ _ => False) ends_in_shell.
Proof using H.
  intros Hb (ok & rd & Hrd & Hf) Hmap. apply leads_prepared; [intros t Ht; right; exists t; split; [reflexivity|exact Ht]|]. intros s l m6 HC HP HE. pose proof (pr_kernel _ _ HP) as K6.
  destruct (ho_info _ _ _ _ _ _ _ _ _ H) as (_ & _ & Emod).
  destruct (start_refused (Some modules) (with_mm (m_kernel m) s) ok rd (proj1 (ho_cold _ _ _ _ _ _ _ _ _ H)) Hrd) as (k' & Ek').
  { intros Hok. destruct (Hf Hok) as (o & Eo & Ho). exists o. split; [|exact Ho].
    refine (find_file_same _ (with_ramdisk (m_kernel m) rd) (with_ramdisk (with_mm (m_kernel m) s) rd) _ _ eq_refl Eo). rewrite Hok in Hrd.
    destruct (init_module string path modules rd (ho_strings _ _ _ _ _ _ _ _ _ H) Hrd) as (f0 & Hf0 & ->).
    exact (module_file_same types at_ string path b offset entries modules m H s l HC f0 Hf0). }
  eapply leads_bind; [apply leads_start_init; [exact HE|rewrite Emod, K6, Ek'; discriminate|rewrite Emod, K6, Ek'; discriminate]|].
  rewrite Emod, K6, Ek'. intros _ m7 (_ & k & _ & T).
  apply (leads_bind _ _ _ (fun _ _ => False)); [|intros _ _ []].
  pose proof (shell_run_runs b name version cmdline Hb Hmap (m_devices m7)) as R. pose proof (fed_shell_run b (m_devices m7)) as F.
  assert (HB : budget (m_devices m7) = budget (m_devices m)) by (rewrite (tk_budget _ _ _ T); exact (pr_budget _ _ HP)).
  assert (HS : forall s, xbks_shell_run b (m_devices m7) = inr s ->
    match s with WAITING t => inputs t = budget (m_devices m) | HALTED t => reset_requested t | STRAY => False end -> shell_stops s).
  { intros s0 Es Hs0. exists (m_devices m7). split; [etransitivity; [exact (pr_trace _ _ HP)|exact (tk_trace _ _ _ T)]|]. split; [exact HB|].
    split; [rewrite (tk_msrs _ _ _ T); exact (pr_msrs _ _ HP)|]. split; [exact Es|exact Hs0]. }
  unfold leads, on_devices. destruct (xbks_shell_run b (m_devices m7)) as [[a d]|s0] eqn:Es; [destruct R|]. left. apply HS; [reflexivity|].
  destruct s0; [rewrite <- HB; exact F|destruct R|exact R].
Qed.
End Main.

(** ** A small machine *)

(** [s] occurs in [l]. *)
Fixpoint contains (s l : list Z) : bool :=
  bool_decide (take (length s) l = s) || match l with [] => false | _ :: t => contains s t end.

Definition demo_types : memmap_types := MemmapTypes 0 1 2 3 4 5 6 7 8.
Definition demo_layout : layout := Layout 8192 16384 1048576 1052672 65536.
Definition demo_entries : list memmap_entry := [MemmapEntry 4096 409600 0; MemmapEntry 16777216 4096 6].
Definition demo_module : limine_file := LimineFile demo_ramdisk_address (Z.of_nat (length demo_ramdisk)) None (Some (lit "ramdisk")).

Definition demo_info (modules : list (option limine_file)) : xbks_boot_info :=
  BootInfo None None None (Some demo_hhdm) (Some demo_entries) None None (Some modules).

Definition demo_machine : machine :=
  Machine (Devices (3328 :: replicate 4000 32) [] false)
    (Kernel (Mm 0 0 0 0 1048576 (store_bytes ∅ demo_ramdisk_address demo_ramdisk)) (RamdiskState 0 0 false)
      (replicate MAX_PROCESSES zero_process) 0 1 false [] []) demo_cpu.

#[local] Notation demo_main modules := (xbks_kernel_main demo_types demo_layout 0 (fun _ => false) (fun _ => false) (Some (demo_info modules)) demo_machine).

Lemma demo_free_low g : free_page demo_types demo_entries g -> g <= 409600.
Proof.
  intros (e & He & Hu & Hg). apply elem_of_cons in He as [->|He].
  - apply demo_frames_low, elem_of_rev, Hg.
  - apply list_elem_of_singleton in He as ->. discriminate Hu.
Qed.

Lemma demo_handed modules : modules = [] \/ modules = [Some demo_module] ->
  handed_over demo_types demo_layout demo_string demo_path (demo_info modules) demo_hhdm demo_entries modules demo_machine.
Proof.
  intros Hmod. assert (Hin : forall f, In (Some f) modules -> f = demo_module).
  { intros f. destruct Hmod as [->| ->]; [intros []|]. intros [Hf|[]]. congruence. }
  split.
  - repeat split.
  - split; [intros _; vm_compute; intuition discriminate|]. split; [|split; [intros Hu; discriminate Hu|split; [intros Hu; discriminate Hu|exact I]]].
    intros _ e' He' Hu. apply list_elem_of_singleton in He' as ->. discriminate Hu.
  - intros f Hf. rewrite (Hin f Hf). split; split.
    + apply text_check. reflexivity.
    + exists []. reflexivity.
    + constructor.
    + reflexivity.
  - intros f Hf. rewrite (Hin f Hf). vm_compute. intuition discriminate.
  - intros f i g Hf Hi Hg. rewrite (Hin f Hf) in *. pose proof (demo_free_low g Hg). unfold in_page, demo_module, demo_ramdisk_address. cbn [m_address]. lia.
  - intros f E. destruct Hmod as [->| ->]; vm_compute in E; discriminate E.
  - cbn zeta. split; [|split].
    + vm_compute. intuition discriminate.
    + vm_compute. intuition discriminate.
    + intros Hg. apply demo_free_low in Hg. vm_compute in Hg. apply Hg. reflexivity.
  - repeat split.
  - split; [|split; cbn; lia]. cbn. unfold in_u64. lia.
Qed.

Definition demo_rd : ramdisk_state := RamdiskState demo_ramdisk_address (Z.of_nat (length demo_ramdisk)) true.

Lemma demo_file_same : file_same (ram (k_mm demo_mounted)) demo_program (k_mm (m_kernel demo_machine)).
Proof.
  assert (E : bytes_at (ram (k_mm (m_kernel demo_machine))) (f_data demo_program) 128 = bytes_at (ram (k_mm demo_mounted)) (f_data demo_program) 128)
    by (vm_compute; reflexivity).
  intros j Hj. rewrite (proj1 (proj2 demo_program_fields)) in Hj. apply (f_equal (fun l => l !! Z.to_nat j)) in E.
  rewrite !lookup_bytes_at in E by lia. rewrite Z2Nat.id in E by lia. congruence.
Qed.

Lemma demo_init : init_program demo_types demo_entries [Some demo_module] (m_kernel demo_machine) demo_rd demo_program (usable_pages 4096 409600).
Proof.
  destruct (program_same _ _ _ demo_program_ok demo_file_same) as (Hpg & Eseg & Eent). destruct demo_program_fields as (Hd & _ & Hx & _).
  rewrite Hd, demo_program_segments in Eseg. split.
  - vm_compute. reflexivity.
  - apply (find_file_same init_path demo_mounted); [vm_compute; reflexivity|vm_compute; reflexivity|exact demo_program_found].
  - split; [exact Hx|]. split; [exact Hpg|]. rewrite Eent, Hd. vm_compute. reflexivity.
  - rewrite Hd, Eseg. constructor; [vm_compute; discriminate|constructor].
  - rewrite Hd, Eseg. split; [apply (bool_decide_unpack _); vm_compute; exact I|]. split; [|vm_compute; discriminate].
    intros g Hg. exists (MemmapEntry 4096 409600 0). split; [left|]. split; [reflexivity|exact Hg].
Qed.

(** ** The properties *)

(** C1. From the boot loader's hand-over, [xbks_kernel_main] runs until the program
    [/bin/xsh] of the ramdisk executes its first instruction: in ring 3, at the entry point of
    its file, on its stack, no other register carrying anything of the kernel; the
    process table holds it as the one running process, in an address space, the one in CR3, with
    exactly its segments, its arguments and its environment; the descriptor table and
    the registers of [syscall] lead back into the kernel.  The routine never returns, and
    ends earlier only if a device leaves it waiting after every answer is taken. *)
Theorem boot_starts_init types at_ rotate alpha init string path b offset entries modules rd file pages m :
  handed_over types at_ string path b offset entries modules m ->
  init_program types entries modules (m_kernel m) rd file pages ->
  match xbks_kernel_main types at_ rotate alpha init (Some b) m with
  | inr (UserMode u) => runs_init at_ (ram (k_mm (m_kernel m))) file u
  | inr (DeviceStop (WAITING t)) => inputs t = budget (m_devices m)
  | _ => False
  end.
Proof.
  intros H P. pose proof (kernel_main_starts types at_ rotate alpha init string path b offset entries modules m H rd file pages P) as L.
  unfold leads in L. destruct (xbks_kernel_main _ _ _ _ _ _ m) as [[]|[[]| | | |u]]; exact L.
Qed.

(** With four thousand answers the small machine is in the program. *)
Lemma boot_starts_init_witness :
  exists u, demo_main [Some demo_module] = inr (UserMode u) /\ rip (m_cpu u) = 4194304 /\ current_process (m_kernel u) = 0%nat /\
    regs (m_cpu u) RSP = init_sp /\ regs (m_cpu u) RBX = 0.
Proof.
  pose proof (boot_starts_init demo_types demo_layout 0 (fun _ => false) (fun _ => false) demo_string demo_path (demo_info [Some demo_module])
    demo_hhdm demo_entries [Some demo_module] demo_rd demo_program (usable_pages 4096 409600) demo_machine
    (demo_handed _ (or_intror eq_refl)) demo_init) as B.
  assert (C : match demo_main [Some demo_module] with inr (UserMode u) => rip (m_cpu u) =? 4194304 | _ => false end = true) by (vm_compute; reflexivity).
  destruct (xbks_kernel_main _ _ _ _ _ _ _) as [|[| | | |u]]; try discriminate C. apply Z.eqb_eq in C. exists u.
  destruct B as [[_ Hc _] _ Hr _]. split; [reflexivity|]. split; [exact C|]. split; [exact Hc|]. split; [exact (Hr RSP)|exact (Hr RBX)].
Defined.

(** C12. Without an archive, or without an executable [/bin/xsh] in it, [xbks_kernel_main] ends
    in the kernel's shell for good.  When the devices answer long enough, the boot, with
    the processor set up, reaches [xbks_shell_run], and the run of the kernel is from there
    on the run of the shell, which never returns: it waits for a key with all answers
    taken, or has just told the keyboard controller to reset the machine.  Otherwise the
    boot is still waiting for a device that has no answer left.  It never faults, halts,
    panics, loops without a device, enters user mode or leaves an object. *)
Theorem boot_without_program types at_ rotate alpha init string path b offset entries modules name version cmdline m :
  handed_over types at_ string path b offset entries modules m -> boot_text b name version cmdline ->
  no_program modules (m_kernel m) -> Z.of_nat (length (default [] (bi_memmap b))) < 2 ^ 64 ->
  match xbks_kernel_main types at_ rotate alpha init (Some b) m with
  | inr (DeviceStop s) => shell_stops at_ b m s \/ exists t, s = WAITING t /\ inputs t = budget (m_devices m)
  | _ => False
  end.
Proof.
  intros H Hb Hn Hl.
  pose proof (kernel_main_falls_back types at_ rotate alpha init string path b offset entries modules m H name version cmdline Hb Hn Hl) as L.
  unfold leads in L. destruct (xbks_kernel_main _ _ _ _ _ _ m) as [[]|[]]; exact L.
Qed.

(** With enough answers the run gets to the prompt. *)
Lemma boot_without_program_witness :
  exists t, demo_main [] = inr (DeviceStop (WAITING t)) /\ inputs t = 4001%nat /\ contains (str "xbks early shell") (port_bytes 0xe9 t) = true.
Proof.
  pose proof (boot_without_program demo_types demo_layout 0 (fun _ => false) (fun _ => false) demo_string demo_path (demo_info [])
    demo_hhdm demo_entries [] (str "(unknown)") (str "(unknown)") [] demo_machine (demo_handed _ (or_introl eq_refl))) as B.
  assert (C : match demo_main [] with inr (DeviceStop (WAITING t)) => contains (str "xbks early shell") (port_bytes 0xe9 t) | _ => false end = true)
    by (vm_compute; reflexivity).
  destruct (xbks_kernel_main _ _ _ _ _ _ _) as [|[[t| |]| | | |]]; try discriminate C. exists t. split; [reflexivity|]. split; [|exact C].
  destruct B as [(d & _ & _ & _ & _ & Ht)|(t' & [= <-] & Ht)]; [..|exact Ht|exact Ht].
  - split; cbn; [repeat split; try (apply text_check; reflexivity)|lia|auto|reflexivity].
  - exists false, (RamdiskState 0 0 false). split; [reflexivity|discriminate].
  - cbn. lia.
Defined.
