(* ===== verification/Userland.v ===== *)
(** * Programs inside the kernel (src/kernel/userland.c, src/include/xbks/user_api.h)

    The shell and its commands as functions the kernel calls, in arenas of its own memory,
    with a table of entry points for what they may ask: console, keyboard, the archive,
    and running one command at a time.  Nothing in the kernel calls
    [xbks_userland_start] now that programs run in processes. *)

From Stdlib Require Import Ascii String.
From S2P Require Import Prelude CMem CStr Format Pmm Vmm Ramdisk Elf Keyboard Kernel Loader Syscalls Outcome Console BootInfo Shell Boot.

Definition XBKS_EACCES : Z := 13.
Definition XBKS_EBUSY : Z := 16.
Definition XBKS_USER_DIRENT_FILE : Z := 1.
Definition XBKS_USER_DIRENT_DIR : Z := 2.

(** [struct xbks_user_dirent]: the name, then the size, the type and the permission. *)
Definition USER_DIRENT_NAME : Z := 128.

(** The functions of [struct xbks_user_api] with their arguments.  Buffers are addresses; a
    path or a vector is the object pointed to, [None] for the null pointer. *)
Inductive api_call :=
| ApiRead (fd buffer count : Z)
| ApiWrite (fd buffer count : Z)
| ApiExec (path : option (list Z)) (argc : Z) (argv envp : option (list (list Z)))
| ApiExists (path : option (list Z))
| ApiFileSize (path : option (list Z))
| ApiReadFile (path : option (list Z)) (offset buffer count : Z)
| ApiReadDir (path : option (list Z)) (index out : Z).

(** A run of a program that returns: it computes on memory, asks the kernel and goes on with the
    answer, and returns a status. *)
Inductive program :=
| Return (status : Z)
| Work (f : mem -> mem) (rest : mem -> program)
| Call (c : api_call) (rest : Z -> program).

(** The machine with the static [command_running]. *)
Record userland := Userland {
  u_machine : machine;
  command_running : bool;
}.

Definition U (A : Type) : Type := userland -> (A * userland) + ending.

#[export] Instance U_ret : MRet U := fun A a u => inl (a, u).
#[export] Instance U_bind : MBind U := fun A B f c u =>
  match c u with inl (a, u') => f a u' | inr e => inr e end.

Definition on_machine {A} (c : Boot A) : U A := fun u =>
  match c (u_machine u) with
  | inl (a, m) => inl (a, Userland m (command_running u))
  | inr e => inr e
  end.

Definition set_command_running (b : bool) : U unit := fun u => inl (tt, Userland (u_machine u) b).
Definition get_command_running : U bool := fun u => inl (command_running u, u).

Definition get_ram : U mem := on_machine (s ← get_mm; mret (ram s)).
Definition put_ram (m : mem) : U unit := on_machine (update_mm (fun s => set_ram s m)).
Definition find (path : list Z) : U (option xbks_ramdisk_file) := on_machine (on_kernel (find_file path)).

(** [xbks_keyboard_read_char_blocking] with its static [shift_pressed]. *)
Definition set_shift (b : bool) : K unit := fun k =>
  inl (tt, Kernel (k_mm k) (k_ramdisk k) (processes k) (current_process k) (next_pid k) b (k_polls k) (k_console k)).

Definition read_char : U Z := on_machine (
  k ← on_kernel get_kernel;
  '(ch, shift) ← on_devices (read_char_blocking (k_shift k));
  on_kernel (set_shift shift);;
  mret ch).

Definition negative_errno (error : Z) : Z := - error.

Definition user_buffer_is_valid (buffer count : Z) : bool :=
  if count =? 0 then true else negb (buffer =? 0).

(** [n] rounds of the loop, from [out]. *)
Fixpoint read_loop (n : nat) (out : Z) : U unit :=
  match n with
  | O => mret tt
  | S n' =>
      ch ← read_char;
      m ← get_ram;
      put_ram (wr8 m out ch);;
      read_loop n' (out + 1)
  end.

Definition user_api_read (fd buffer count : Z) : U Z :=
  if negb (fd =? 0) then mret (negative_errno XBKS_EBADF)
  else if negb (user_buffer_is_valid buffer count) then mret (negative_errno XBKS_EFAULT)
  else read_loop (Z.to_nat count) buffer;; mret (s64 count).

Definition user_api_write (fd buffer count : Z) : U Z :=
  if negb (fd =? 1) && negb (fd =? 2) then mret (negative_errno XBKS_EBADF)
  else if negb (user_buffer_is_valid buffer count) then mret (negative_errno XBKS_EFAULT)
  else
    m ← get_ram;
    on_machine (on_devices (Console.xbks_console_write (bytes_at m buffer (Z.to_nat count))));;
    mret (s64 count).

Definition user_api_exists (path : option (list Z)) : U Z :=
  match path with
  | None => mret (negative_errno XBKS_EFAULT)
  | Some path => found ← find path; mret (match found with Some _ => 1 | None => 0 end)
  end.

Definition user_api_file_size (path : option (list Z)) : U Z :=
  match path with
  | None => mret (negative_errno XBKS_EFAULT)
  | Some path =>
      found ← find path;
      match found with
      | None => mret (negative_errno XBKS_ENOENT)
      | Some file => if f_directory file then mret (negative_errno XBKS_EISDIR) else mret (s64 (f_size file))
      end
  end.

Definition user_api_read_file (path : option (list Z)) (offset buffer count : Z) : U Z :=
  match path with
  | None => mret (negative_errno XBKS_EFAULT)
  | Some path =>
      if negb (user_buffer_is_valid buffer count) then mret (negative_errno XBKS_EFAULT)
      else
        found ← find path;
        match found with
        | None => mret (negative_errno XBKS_ENOENT)
        | Some file =>
            if f_directory file then mret (negative_errno XBKS_EISDIR)
            else if f_size file <=? offset then mret 0
            else
              let available := f_size file -u offset in
              let available := if count <? available then count else available in
              m ← get_ram;
              put_ram (memcpy m buffer (f_data file + offset) available);;
              mret (s64 available)
        end
  end.

(** The loop at [cursor]; [base] is the result so far. *)
Fixpoint basename_loop (cursor base : list Z) : option (list Z) :=
  match cursor with
  | [] => None
  | c :: t => if c =? 0 then Some base else basename_loop t (if c =? chr "/" then t else base)
  end.

Definition basename (path : list Z) : option (list Z) := basename_loop path path.

(** [n] more characters fit before the terminator. *)
Fixpoint copy_limited_loop (n : nat) (dest : Z) (src : list Z) (m : mem) : option mem :=
  match n with
  | O => Some (wr8 m dest 0)
  | S n' =>
      match src with
      | [] => None
      | c :: t => if c =? 0 then Some (wr8 m dest 0) else copy_limited_loop n' (dest + 1) t (wr8 m dest c)
      end
  end.

Definition copy_string_limited (dest capacity : Z) (src : list Z) (m : mem) : option mem :=
  if capacity =? 0 then Some m else copy_limited_loop (Z.to_nat (capacity - 1)) dest src m.

Definition in_bounds {A} (o : option A) : U A := on_machine (on_kernel (in_object o)).

Definition user_api_read_dir (path : option (list Z)) (index out : Z) : U Z :=
  match path with
  | None => mret (negative_errno XBKS_EFAULT)
  | Some path =>
      if out =? 0 then mret (negative_errno XBKS_EFAULT)
      else
        found ← on_machine (on_kernel (read_directory path index));
        match found with
        | None => mret (negative_errno XBKS_ENOENT)
        | Some file =>
            base ← in_bounds (basename (f_path file));
            m ← get_ram;
            m ← in_bounds (copy_string_limited out USER_DIRENT_NAME base m);
            put_ram (st32 (st32 (st64 m (out + 128) (f_size file))
                             (out + 136) (if f_directory file then XBKS_USER_DIRENT_DIR else XBKS_USER_DIRENT_FILE))
                       (out + 140) (if f_executable file then 1 else 0));;
            mret 0
        end
  end.

Section Programs.
Context (xsh_exec_base xsh_exec_end cmd_exec_base cmd_exec_end : Z).

(** What the code at an entry point does, in the memory it finds, with its arguments. *)
Context (behaviour : mem -> Z -> Z -> option (list (list Z)) -> option (list (list Z)) -> program).

(** The run of a program, its calls answered by [api]. *)
Fixpoint run_program (api : api_call -> U Z) (p : program) : U Z :=
  match p with
  | Return status => mret (s32 status)
  | Work f rest => m ← get_ram; put_ram (f m);; run_program api (rest (f m))
  | Call c rest => v ← api c; run_program api (rest v)
  end.

(** The call of the entry point, with the interface [api]. *)
Definition call_entry (api : api_call -> U Z) (entry argc : Z) (argv envp : option (list (list Z))) : U Z :=
  m ← get_ram; run_program api (behaviour m entry argc argv envp).

(** [xbks_elf_load_image] on the memory of the machine. *)
Definition load_image (file : xbks_ramdisk_file) (arena_base arena_size : Z) : U (option xbks_elf_image) :=
  m ← get_ram;
  let '(image, m) := xbks_elf_load_image m (Some file) arena_base arena_size false in
  put_ram m;;
  mret image.

Definition run_loaded_image (api : api_call -> U Z) (file : xbks_ramdisk_file) (arena_base arena_size argc : Z)
    (argv envp : option (list (list Z))) : U Z :=
  if f_directory file then mret (negative_errno XBKS_EISDIR)
  else if negb (f_executable file) then mret (negative_errno XBKS_EACCES)
  else
    image ← load_image file arena_base arena_size;
    match image with
    | None => mret (negative_errno XBKS_ENOEXEC)
    | Some image => call_entry api (image_entry image) argc argv envp
    end.

Definition user_api_exec (api : api_call -> U Z) (path : option (list Z)) (argc : Z) (argv envp : option (list (list Z))) : U Z :=
  match path, argv with
  | None, _ | _, None => mret (negative_errno XBKS_EFAULT)
  | Some path, Some _ =>
      if argc <? 0 then mret (negative_errno XBKS_EFAULT)
      else
        running ← get_command_running;
        if (running : bool) then mret (negative_errno XBKS_EBUSY)
        else
          found ← find path;
          match found with
          | None => mret (negative_errno XBKS_ENOENT)
          | Some file =>
              set_command_running true;;
              status ← run_loaded_image api file cmd_exec_base (cmd_exec_end - cmd_exec_base) argc argv envp;
              set_command_running false;;
              mret status
          end
  end.

(** The table of functions.  A program [depth] calls of [exec] down would find [beyond]. *)
Fixpoint early_user_api (beyond : api_call -> U Z) (depth : nat) (c : api_call) : U Z :=
  match c with
  | ApiRead fd buffer count => user_api_read fd buffer count
  | ApiWrite fd buffer count => user_api_write fd buffer count
  | ApiExec path argc argv envp =>
      user_api_exec (match depth with O => beyond | S d => early_user_api beyond d end) path argc argv envp
  | ApiExists path => user_api_exists path
  | ApiFileSize path => user_api_file_size path
  | ApiReadFile path offset buffer count => user_api_read_file path offset buffer count
  | ApiReadDir path index out => user_api_read_dir path index out
  end.

Definition xbks_userland_start (api : api_call -> U Z) (boot_info : option xbks_boot_info) : U bool :=
  match boot_info with
  | None => mret false
  | Some b =>
      ok ← on_machine (xbks_ramdisk_init (bi_modules b));
      if negb ok then
        on_machine (log XBKS_LOG_WARN "no RAMDISK module found; falling back to kernel shell");; mret false
      else
        found ← find (lit "/bin/xsh");
        match found with
        | None => on_machine (log XBKS_LOG_WARN "RAMDISK has no /bin/xsh; falling back to kernel shell");; mret false
        | Some xsh_file =>
            image ← load_image xsh_file xsh_exec_base (xsh_exec_end - xsh_exec_base);
            match image with
            | None => on_machine (log XBKS_LOG_ERROR "failed to load /bin/xsh as ELF64");; mret false
            | Some image =>
                on_machine (on_kernel keyboard_reset);;
                on_machine (log XBKS_LOG_INFO "starting XiaobaiOS user shell /bin/xsh");;
                status ← call_entry api (image_entry image) 1 (Some [lit "xsh"]) (Some [lit "PATH=/bin:/sbin:/usr/bin"]);
                on_machine (on_devices (xbks_log_printf XBKS_LOG_INFO (lit "/bin/xsh returned status %d") [VaInt status]));;
                mret true
            end
        end
  end.
End Programs.
