(* ===== verification/UserlandProps.v ===== *)
(** * Programs inside the kernel: the properties

    What the table of functions gives a program: the bytes of the files of the archive, the
    entries of its directories, and one command at a time. *)

From Stdlib Require Import Ascii String.
From S2P Require Import Prelude CMem CStr Format Pmm Vmm Ramdisk RamdiskSpec RamdiskArchive RamdiskListing RamdiskProps Elf ElfProps Keyboard Kernel Loader Syscalls ProcTable UserMem FileProps DirProps Lifecycle LifecycleProps LoaderProps Outcome Console BootInfo Shell Boot BootSpec BootProps Userland.

(** ** Running *)

Definition u_ram (u : userland) : mem := ram (k_mm (m_kernel (u_machine u))).
Definition with_ram (u : userland) (m : mem) : userland :=
  let k := m_kernel (u_machine u) in
  Userland (Machine (m_devices (u_machine u)) (with_mm k (set_ram (k_mm k) m)) (m_cpu (u_machine u))) (command_running u).
Definition with_flag (u : userland) (b : bool) : userland := Userland (u_machine u) b.

Lemma run_u_bind {A B} (c : U A) (f : A -> U B) u :
  (c ≫= f) u = match c u with inl (a, u') => f a u' | inr e => inr e end.
Proof. reflexivity. Qed.

Lemma run_get_ram u : get_ram u = inl (u_ram u, u).
Proof. destruct u as [[] ?]. reflexivity. Qed.

Lemma run_put_ram m u : put_ram m u = inl (tt, with_ram u m).
Proof. unfold put_ram, on_machine, update_mm, on_kernel. rewrite run_on_mm. reflexivity. Qed.

Lemma run_in_bounds {A} (a : A) u : in_bounds (Some a) u = inl (a, u).
Proof. destruct u as [[] ?]. reflexivity. Qed.

Lemma on_kernel_same {A} (c : K A) a u :
  c (m_kernel (u_machine u)) = inl (a, m_kernel (u_machine u)) -> on_machine (on_kernel c) u = inl (a, u).
Proof. intros H. unfold on_machine, on_kernel. rewrite H. destruct u as [[] ?]. reflexivity. Qed.

(** ** Commands do not nest *)

(** Computations that leave the flag alone. *)
Definition keeps_flag {A} (c : U A) : Prop := forall u a u', c u = inl (a, u') -> command_running u' = command_running u.

Lemma flag_ret {A} (a : A) : keeps_flag (mret a).
Proof. intros u b u' [= _ <-]. reflexivity. Qed.

Lemma flag_bind {A B} (c : U A) (f : A -> U B) : keeps_flag c -> (forall a, keeps_flag (f a)) -> keeps_flag (c ≫= f).
Proof.
  intros H1 H2 u b u' H. rewrite run_u_bind in H. destruct (c u) as [[a u1]|] eqn:E; [|discriminate].
  rewrite (H2 a u1 b u' H). exact (H1 u a u1 E).
Qed.

Lemma keeps_on_machine {A} (c : Boot A) : keeps_flag (on_machine c).
Proof. intros u a u' H. unfold on_machine in H. destruct (c (u_machine u)) as [[b m]|]; [|discriminate]. injection H as _ <-. reflexivity. Qed.

Lemma keeps_get_flag : keeps_flag get_command_running.
Proof. intros u a u' [= _ <-]. reflexivity. Qed.

Ltac keeps_flag := repeat first
  [ apply flag_ret | apply keeps_on_machine | apply keeps_get_flag | assumption
  | apply flag_bind; [|intros ?] | progress case_match ].

Lemma keeps_read_loop n out : keeps_flag (read_loop n out).
Proof. revert out. induction n as [|n IH]; intros out; cbn [read_loop]; [apply flag_ret|]. unfold read_char, get_ram, put_ram. keeps_flag. apply IH. Qed.

Lemma keeps_load_image file base size : keeps_flag (load_image file base size).
Proof.
  apply flag_bind; [apply keeps_on_machine|]. intros m. destruct (xbks_elf_load_image m (Some file) base size false) as [image m'].
  apply flag_bind; [apply keeps_on_machine|]. intros _. apply flag_ret.
Qed.

Section Nesting.
Context (cmd_exec_base cmd_exec_end : Z)
  (behaviour : mem -> Z -> Z -> option (list (list Z)) -> option (list (list Z)) -> program).
Let api := early_user_api cmd_exec_base cmd_exec_end behaviour.

Lemma keeps_run_program call p : (forall c, keeps_flag (call c)) -> keeps_flag (run_program call p).
Proof.
  intros H. induction p as [s|f rest IH|c rest IH]; cbn [run_program]; [apply flag_ret| |].
  - apply flag_bind; [apply keeps_on_machine|]. intros m. apply flag_bind; [apply keeps_on_machine|]. intros _. apply IH.
  - apply flag_bind; [apply H|]. intros v. apply IH.
Qed.

(** An exec leaves the flag as it was whatever the command does with it. *)
Lemma keeps_exec call path argc argv envp : keeps_flag (user_api_exec cmd_exec_base cmd_exec_end behaviour call path argc argv envp).
Proof.
  intros u v u' H. unfold user_api_exec in H. destruct path as [path|]; [|injection H as _ <-; reflexivity].
  destruct argv as [argv|]; [|injection H as _ <-; reflexivity]. destruct (argc <? 0); [injection H as _ <-; reflexivity|].
  rewrite run_u_bind in H. cbn [get_command_running] in H. destruct (command_running u) eqn:Ef; [injection H as _ <-; exact Ef|].
  rewrite run_u_bind in H. destruct (find path u) as [[found u1]|] eqn:E1; [|discriminate].
  apply keeps_on_machine in E1. destruct found as [file|]; [|injection H as _ <-; congruence].
  rewrite run_u_bind in H. cbn [set_command_running] in H. rewrite run_u_bind in H.
  destruct (run_loaded_image _ _ _ _ _ _ _ _ _) as [[status u2]|]; [|discriminate]. injection H as _ <-. reflexivity.
Qed.

Lemma keeps_api beyond d c : keeps_flag (api beyond d c).
Proof.
  unfold api. destruct d; cbn [early_user_api]; destruct c; try apply keeps_exec;
    unfold user_api_read, user_api_write, user_api_exists, user_api_file_size, user_api_read_file, user_api_read_dir, find, in_bounds, get_ram, put_ram;
    keeps_flag; apply keeps_read_loop.
Qed.

(** While a command runs, a call of exec is answered at once. *)
Lemma exec_busy call path argc argv envp u :
  command_running u = true ->
  user_api_exec cmd_exec_base cmd_exec_end behaviour call path argc argv envp u =
    inl (if bool_decide (path = None) || bool_decide (argv = None) || (argc <? 0) then - XBKS_EFAULT else - XBKS_EBUSY, u).
Proof.
  intros Hf. unfold user_api_exec. destruct path, argv; cbn [bool_decide orb]; try reflexivity.
  destruct (argc <? 0); [reflexivity|]. rewrite run_u_bind. cbn [get_command_running]. rewrite Hf. reflexivity.
Qed.

Lemma api_busy beyond beyond' d d' c u : command_running u = true -> api beyond d c u = api beyond' d' c u.
Proof.
  intros Hf. unfold api. destruct d, d'; cbn [early_user_api]; destruct c; try reflexivity; rewrite !exec_busy by exact Hf; reflexivity.
Qed.

Lemma program_busy beyond beyond' d d' p u :
  command_running u = true -> run_program (api beyond d) p u = run_program (api beyond' d') p u.
Proof.
  revert u. induction p as [s|f rest IH|c rest IH]; intros u Hf; cbn [run_program]; [reflexivity| |].
  - rewrite !run_u_bind, run_get_ram, !run_u_bind, run_put_ram. apply IH, Hf.
  - rewrite !run_u_bind, (api_busy beyond beyond' d d' c u Hf). destruct (api beyond' d' c u) as [[v u1]|] eqn:E; [|reflexivity].
    apply IH. rewrite (keeps_api _ _ _ _ _ _ E). exact Hf.
Qed.

Lemma loaded_busy beyond beyond' d d' file base size argc argv envp u :
  command_running u = true ->
  run_loaded_image behaviour (api beyond d) file base size argc argv envp u =
  run_loaded_image behaviour (api beyond' d') file base size argc argv envp u.
Proof.
  intros Hf. unfold run_loaded_image. destruct (f_directory file); [reflexivity|]. destruct (negb _); [reflexivity|].
  rewrite !run_u_bind. destruct (load_image file base size u) as [[image u1]|] eqn:E; [|reflexivity].
  assert (Hf1 : command_running u1 = true).
  { rewrite <- Hf. exact (keeps_load_image _ _ _ _ _ _ E). }
  destruct image as [image|]; [|reflexivity]. unfold call_entry. rewrite !run_u_bind, run_get_ram. apply program_busy, Hf1.
Qed.

Lemma api_once beyond beyond' d d' c u : api beyond (S d) c u = api beyond' (S d') c u.
Proof.
  unfold api. cbn [early_user_api]. destruct c; try reflexivity. unfold user_api_exec.
  destruct path as [path|]; [|reflexivity]. destruct argv as [argv|]; [|reflexivity]. destruct (argc <? 0); [reflexivity|].
  rewrite !run_u_bind. cbn [get_command_running]. destruct (command_running u); [reflexivity|].
  rewrite !run_u_bind. destruct (find path u) as [[found u1]|]; [|reflexivity]. destruct found as [file|]; [|reflexivity].
  rewrite !run_u_bind. cbn [set_command_running]. rewrite !run_u_bind.
  fold (api beyond d) (api beyond' d'). rewrite (loaded_busy beyond beyond' d d') by reflexivity. reflexivity.
Qed.
End Nesting.

(** ** Files *)

Lemma take_bytes_at m a n k : take k (bytes_at m a n) = bytes_at m a (k `min` n).
Proof.
  revert a k. induction n as [|n IH]; intros a [|k]; cbn; try reflexivity. f_equal. apply IH.
Qed.

Lemma drop_bytes_at m a n k : drop k (bytes_at m a n) = bytes_at m (a + Z.of_nat k) (n - k).
Proof.
  revert a k. induction n as [|n IH]; intros a [|k]; cbn [drop bytes_at]; try reflexivity.
  - rewrite Z.add_0_r. reflexivity.
  - rewrite IH. f_equal. lia.
Qed.

(** The archive of the machine is mounted. *)
Definition archive_at (u : userland) : list Z := ramdisk_image (m_kernel (u_machine u)).
Definition mounted (u : userland) : Prop :=
  let r := k_ramdisk (m_kernel (u_machine u)) in rd_available r = true /\ 0 <= rd_size r < 2 ^ 62.

Definition archive_base (u : userland) : Z := rd_data (k_ramdisk (m_kernel (u_machine u))).

Lemma length_archive u : mounted u -> Z.of_nat (length (archive_at u)) = rd_size (k_ramdisk (m_kernel (u_machine u))).
Proof. intros [_ H]. unfold archive_at, ramdisk_image. rewrite length_bytes_at. lia. Qed.

Lemma find_ok_u u s t : mounted u -> text s ->
  exists o, find (s ++ 0 :: t) u = inl (o, u) /\ lookup_spec (archive_base u) (archive_at u) (norm s) o.
Proof.
  intros [Ha Hs] Ht. destruct (find_file_ok (m_kernel (u_machine u)) s t Ha Hs Ht) as (o & E & Ho). exists o. split; [|exact Ho].
  apply on_kernel_same, E.
Qed.

(** A regular file that was found is an entry of the archive, and its bytes are the entry's. *)
Lemma found_entry u q f :
  mounted u -> lookup_spec (archive_base u) (archive_at u) q (Some f) -> f_directory f = false ->
  exists e, q <> [] /\ first_match q (archive (archive_at u)) = Some e /\ f_size f = Z.of_nat (length (te_body e)) /\
    archive_base u <= f_data f /\ f_data f + f_size f <= archive_base u + Z.of_nat (length (archive_at u)) /\
    f_executable f = is_exec (te_header e) /\
    forall o n, bytes_at (u_ram u) (f_data f + Z.of_nat o) (n `min` (length (te_body e) - o)) = take n (drop o (te_body e)).
Proof.
  intros Hm [(e & Hq & He & (_ & _ & Hlen & Hbody) & _ & Hd & Hs & _ & Hx)|[_ Hi]] Hdir.
  2: { destruct Hi as (_ & _ & _ & Hi & _). congruence. }
  exists e. split; [exact Hq|]. split; [exact He|]. split; [exact Hs|]. split; [lia|]. split; [lia|]. split; [exact Hx|]. intros o n.
  assert (Eb : te_body e = bytes_at (u_ram u) (f_data f) (length (te_body e))).
  { rewrite Hbody at 1. unfold archive_at, ramdisk_image. rewrite drop_bytes_at, take_bytes_at, Hd.
    fold (u_ram u) (archive_base u). f_equal.
    unfold archive_at, ramdisk_image in Hlen. rewrite length_bytes_at in Hlen. lia. }
  rewrite Eb at 2. rewrite drop_bytes_at, take_bytes_at. reflexivity.
Qed.

Lemma missing_entry rd img q : lookup_spec rd img q None -> first_match q (archive img) = None.
Proof.
  intros [_ H]. unfold first_match. destruct (List.find _ _) as [e|] eqn:E; [|reflexivity]. apply List.find_some in E as [Hin Hn].
  unfold names in Hn. apply bool_decide_eq_true in Hn. destruct (H e Hin) as [H1 _]. destruct (H1 Hn).
Qed.

Lemma with_ram_same u : with_ram u (u_ram u) = u.
Proof. destruct u as [[d [[] ] c] b]. reflexivity. Qed.

Lemma api_read_file_ok u s t offset buffer count :
  mounted u -> text s -> 0 <= offset -> 0 <= count < 2 ^ 62 -> buffer <> 0 ->
  buffer + count <= archive_base u \/ archive_base u + Z.of_nat (length (archive_at u)) <= buffer ->
  exists o, lookup_spec (archive_base u) (archive_at u) (norm s) o /\
    match o with
    | None => user_api_read_file (Some (s ++ 0 :: t)) offset buffer count u = inl (- XBKS_ENOENT, u)
    | Some f =>
        if f_directory f then user_api_read_file (Some (s ++ 0 :: t)) offset buffer count u = inl (- XBKS_EISDIR, u)
        else exists e, first_match (norm s) (archive (archive_at u)) = Some e /\
          let slice := take (Z.to_nat count) (drop (Z.to_nat offset) (te_body e)) in
          user_api_read_file (Some (s ++ 0 :: t)) offset buffer count u =
            inl (Z.of_nat (length slice), with_ram u (store_bytes (u_ram u) buffer slice))
    end.
Proof.
  intros Hm Ht Ho Hc Hb Hapart. destruct (find_ok_u u s t Hm Ht) as (o & E & Hl). exists o. split; [exact Hl|].
  assert (Hv : user_buffer_is_valid buffer count = true).
  { unfold user_buffer_is_valid. destruct (count =? 0); [reflexivity|]. destruct (Z.eqb_spec buffer 0); [contradiction|reflexivity]. }
  unfold user_api_read_file. rewrite Hv. cbn [negb]. rewrite run_u_bind, E. destruct o as [f|]; [|reflexivity].
  destruct (f_directory f) eqn:Hd; [reflexivity|]. destruct (found_entry u _ f Hm Hl Hd) as (e & _ & He & Hs & H1 & H2 & _ & Hbytes).
  exists e. split; [exact He|]. pose proof (length_archive u Hm). destruct Hm as [_ Hsz].
  set (slice := take (Z.to_nat count) (drop (Z.to_nat offset) (te_body e))).
  assert (Hsl : length slice = (Z.to_nat count `min` (length (te_body e) - Z.to_nat offset))%nat) by (unfold slice; rewrite length_take, length_drop; reflexivity).
  destruct (Z.leb_spec (f_size f) offset) as [Hle|Hlt].
  - assert (slice = []) as -> by (apply length_zero_iff_nil; lia). cbn [store_bytes length]. rewrite with_ram_same. reflexivity.
  - rewrite (uwrap_small 64 (f_size f - offset)) by lia.
    set (available := if count <? f_size f - offset then count else f_size f - offset).
    assert (Ha : available = Z.of_nat (length slice)) by (rewrite Hsl; unfold available; destruct (Z.ltb_spec count (f_size f - offset)); lia).
    assert (Hn : Z.of_nat (length slice) <= count /\ Z.of_nat (length slice) <= f_size f - offset) by (rewrite Hsl; lia).
    rewrite run_u_bind, run_get_ram, run_u_bind, run_put_ram, Ha, (swrap_small 64) by lia.
    rewrite memcpy_store by lia. do 3 f_equal.
    specialize (Hbytes (Z.to_nat offset) (Z.to_nat count)). rewrite <- Hsl, Z2Nat.id in Hbytes by exact Ho. rewrite Hbytes. reflexivity.
Qed.

(** ** Directories *)

(** The two copies of the search for the last component are the same. *)
Lemma basename_base_name path : basename path = base_name path path.
Proof. reflexivity. Qed.

Lemma copy_limited_ok n dest c r m : text c ->
  copy_limited_loop n dest (c ++ 0 :: r) m = Some (store_bytes m dest (take n c ++ [0])).
Proof.
  revert dest c m. induction n as [|n IH]; intros dest c m Ht; [reflexivity|].
  destruct c as [|x c]; [reflexivity|]. apply text_cons in Ht as [Hx Ht]. cbn [app copy_limited_loop take store_bytes].
  destruct (Z.eqb_spec x 0); [lia|]. apply IH, Ht.
Qed.

(** The [struct xbks_user_dirent] at [out]. *)
Record dirent_at (m : mem) (out : Z) (name : list Z) (size type executable : Z) : Prop := {
  da_name : bytes_at m out (S (length name)) = name ++ [0];
  da_size : ld64 m (out + 128) = size;
  da_type : ld32 m (out + 136) = type;
  da_executable : ld32 m (out + 140) = executable;
}.

Lemma dirent_written m out name size type executable :
  text name -> (length name <= 127)%nat -> in_u64 size -> 0 <= type < 2 ^ 32 -> 0 <= executable < 2 ^ 32 ->
  let m' := st32 (st32 (st64 (store_bytes m out (name ++ [0])) (out + 128) size) (out + 136) type) (out + 140) executable in
  dirent_at m' out name size type executable /\ forall a, ~ out <= a < out + 144 -> rd8 m' a = rd8 m a.
Proof.
  intros Ht Hl Hsz Hty Hx m'. assert (Hlen : length (name ++ [0]) = S (length name)) by (rewrite length_app; cbn; lia).
  assert (Hout : forall a, ~ out + 128 <= a < out + 144 -> rd8 m' a = rd8 (store_bytes m out (name ++ [0])) a).
  { intros a Ha. unfold m', st32, st64. rewrite !rd8_st_le_out by lia. reflexivity. }
  split; [split|].
  - rewrite (bytes_at_ext m' (store_bytes m out (name ++ [0]))) by (intros a Ha; apply Hout; lia).
    rewrite <- Hlen. apply bytes_at_store_bytes. apply Forall_app. split; [|repeat constructor; lia].
    eapply List.Forall_impl; [|exact Ht]. intros x Hx'. cbn in Hx'. lia.
  - unfold m', ld64, st32. rewrite !ld_le_st_le_ne by lia. apply ld64_st64, Hsz.
  - unfold m', ld32, st32. rewrite ld_le_st_le_ne by lia. rewrite ld_le_st_le. apply Z.mod_small. exact Hty.
  - unfold m', ld32, st32. rewrite ld_le_st_le. apply Z.mod_small. exact Hx.
  - intros a Ha. rewrite Hout by lia. apply rd8_store_bytes_out. rewrite Hlen. lia.
Qed.

Lemma read_dir_api u s t index out :
  mounted u -> text s -> 0 <= index < 2 ^ 64 -> out <> 0 ->
  match listing (norm s) (archive (archive_at u)) !! Z.to_nat index with
  | None => user_api_read_dir (Some (s ++ 0 :: t)) index out u = inl (- XBKS_ENOENT, u)
  | Some (c, nested, e) =>
      exists m', user_api_read_dir (Some (s ++ 0 :: t)) index out u = inl (0, with_ram u m') /\
        dirent_at m' out (take 127 (shown_name (norm s) c)) (if (nested : bool) then 0 else Z.of_nat (length (te_body e)))
          (if nested || is_dir (te_header e) then XBKS_USER_DIRENT_DIR else XBKS_USER_DIRENT_FILE)
          (if negb (nested || is_dir (te_header e)) && is_exec (te_header e) then 1 else 0) /\
        forall a, ~ out <= a < out + 144 -> rd8 m' a = rd8 (u_ram u) a
  end.
Proof.
  intros Hm Ht Hi Hout. pose proof (length_archive u Hm) as Hlen. destruct Hm as [Ha Hs].
  assert (Hb : bytes (archive_at u)) by apply bytes_at_bytes.
  destruct (read_dir_ok (archive_base u) (archive_at u) s t (Z.to_nat index) Hb ltac:(lia) Ht ltac:(lia)) as (r & E & Hr).
  rewrite Z2Nat.id in E by lia.
  assert (Eu : on_machine (on_kernel (read_directory (s ++ 0 :: t) index)) u = inl (r, u)).
  { apply on_kernel_same. unfold read_directory. rewrite run_bind. cbn [get_kernel]. fold (archive_at u) (archive_base u). rewrite Ha, E. reflexivity. }
  unfold user_api_read_dir. destruct (Z.eqb_spec out 0); [contradiction|]. rewrite run_u_bind, Eu.
  destruct (listing _ _ !! _) as [[[c nested] e]|] eqn:Ex; [|rewrite Hr; reflexivity]. destruct Hr as (f & -> & Hf).
  destruct (shown_child _ _ _ _ Hf) as (w & Ed & Hd & _). cbn [child_name fst] in Ed, Hd. set (d := shown_name (norm s) c) in *.
  destruct Hf as (_ & _ & Hsize & Hdir & Hexec). apply list_elem_of_lookup_2, listing_from_sound in Ex as [He _]. cbn [snd] in He.
  rewrite run_u_bind, basename_base_name, Ed, run_in_bounds, run_u_bind, run_get_ram, run_u_bind.
  unfold copy_string_limited. cbn [Z.eqb USER_DIRENT_NAME]. change (Z.to_nat (128 - 1)) with 127%nat.
  rewrite copy_limited_ok by exact Hd. rewrite run_in_bounds, run_u_bind, run_put_ram.
  assert (Hsmall : Z.of_nat (length (te_body e)) < 2 ^ 62).
  { apply list_elem_of_In in He. destruct (archive_entry_ok (archive_at u) Hb e He) as (_ & _ & Hin & _). lia. }
  destruct (dirent_written (u_ram u) out (take 127 d) (f_size f) (if f_directory f then XBKS_USER_DIRENT_DIR else XBKS_USER_DIRENT_FILE)
    (if f_executable f then 1 else 0)) as [D1 D2].
  - apply Forall_take, Hd.
  - rewrite length_take. lia.
  - rewrite Hsize. unfold in_u64. destruct nested; lia.
  - destruct (f_directory f); vm_compute; intuition discriminate.
  - destruct (f_executable f); lia.
  - eexists. split; [reflexivity|]. split; [|exact D2].
    rewrite Hexec, Hdir, Hsize in D1. rewrite Hexec, Hdir, Hsize. exact D1.
Qed.

(** ** Commands *)

Section Commands.
Context (cmd_exec_base cmd_exec_end : Z)
  (behaviour : mem -> Z -> Z -> option (list (list Z)) -> option (list (list Z)) -> program).
Let size := cmd_exec_end - cmd_exec_base.

(** The arena of commands is memory of the kernel, apart from the archive. *)
Definition arena_apart (u : userland) : Prop :=
  0 < cmd_exec_base /\ 0 < size /\ cmd_exec_end < 2 ^ 64 /\
  (archive_base u + Z.of_nat (length (archive_at u)) <= cmd_exec_base \/ cmd_exec_end <= archive_base u).

Lemma arena_placed u q f :
  mounted u -> arena_apart u -> lookup_spec (archive_base u) (archive_at u) q (Some f) -> f_directory f = false ->
  placed f cmd_exec_base size.
Proof using.
  intros Hm (H1 & H2 & H3 & H4) Hl Hd. destruct (found_entry u q f Hm Hl Hd) as (e & _ & _ & Hs & H5 & H6 & _).
  pose proof (length_archive u Hm). destruct Hm as [_ Hm]. unfold placed, size in *. lia.
Qed.

(** The run of a command in the memory [m']: the flag is set meanwhile. *)
Definition run_command_in (call : api_call -> U Z) (m' : mem) (entry argc : Z) (argv envp : option (list (list Z))) (u : userland)
  : (Z * userland) + ending :=
  match run_program call (behaviour m' entry argc argv envp) (with_flag (with_ram u m') true) with
  | inl (status, u') => inl (status, with_flag u' false)
  | inr e => inr e
  end.

Definition command_entry (u : userland) (f : xbks_ramdisk_file) : Z :=
  cmd_exec_base + (e_entry (u_ram u) (f_data f) - low (segments (u_ram u) (f_data f))).

(** What exec does with the file it found. *)
Definition exec_outcome (call : api_call -> U Z) (argc : Z) (argv envp : option (list (list Z))) (u : userland)
    (o : option xbks_ramdisk_file) (r : (Z * userland) + ending) : Prop :=
  match o with
  | None => r = inl (- XBKS_ENOENT, u)
  | Some f =>
      if f_directory f then r = inl (- XBKS_EISDIR, u)
      else if negb (f_executable f) then r = inl (- XBKS_EACCES, u)
      else (~ well_formed (u_ram u) f size -> r = inl (- XBKS_ENOEXEC, u)) /\
        (well_formed (u_ram u) f size ->
           exists m', loaded_image (u_ram u) m' f cmd_exec_base size /\
             r = run_command_in call m' (command_entry u f) argc argv envp u)
  end.

Lemma with_flag_same u : with_flag u (command_running u) = u.
Proof using. destruct u. reflexivity. Qed.

Lemma run_load_image f base n u :
  load_image f base n u = inl (fst (xbks_elf_load_image (u_ram u) (Some f) base n false),
    with_ram u (snd (xbks_elf_load_image (u_ram u) (Some f) base n false))).
Proof using.
  unfold load_image. rewrite run_u_bind, run_get_ram. destruct (xbks_elf_load_image _ _ _ _ _) as [image m].
  rewrite run_u_bind, run_put_ram. reflexivity.
Qed.

Lemma run_loaded f u argc argv envp call :
  placed f cmd_exec_base size -> f_directory f = false -> f_executable f = true ->
  (~ well_formed (u_ram u) f size -> run_loaded_image behaviour call f cmd_exec_base size argc argv envp u = inl (- XBKS_ENOEXEC, u)) /\
  (well_formed (u_ram u) f size -> exists m', loaded_image (u_ram u) m' f cmd_exec_base size /\
     run_loaded_image behaviour call f cmd_exec_base size argc argv envp u =
       run_program call (behaviour m' (command_entry u f) argc argv envp) (with_ram u m')).
Proof using.
  intros Hp Hd Hx. unfold run_loaded_image. rewrite Hd, Hx. cbn [negb]. rewrite run_u_bind, run_load_image. split.
  - intros Hn. rewrite (load_refuses _ _ _ _ Hp Hn). cbn [fst snd]. rewrite with_ram_same. reflexivity.
  - intros Hw. destruct (load_accepts _ _ _ _ Hp Hw) as (m' & -> & Hl). exists m'. split; [exact Hl|].
    cbn [fst snd]. unfold call_entry. cbn [image_entry]. rewrite run_u_bind, run_get_ram. reflexivity.
Qed.

Lemma exec_ok call s t argc argv envp u :
  mounted u -> arena_apart u -> text s -> 0 <= argc -> command_running u = false ->
  exists o, lookup_spec (archive_base u) (archive_at u) (norm s) o /\
    exec_outcome call argc (Some argv) envp u o
      (user_api_exec cmd_exec_base cmd_exec_end behaviour call (Some (s ++ 0 :: t)) argc (Some argv) envp u).
Proof using.
  intros Hm Ha Ht Hc Hf. destruct (find_ok_u u s t Hm Ht) as (o & E & Hl). exists o. split; [exact Hl|].
  unfold user_api_exec. destruct (Z.ltb_spec argc 0); [lia|]. rewrite run_u_bind. cbn [get_command_running]. rewrite Hf.
  rewrite run_u_bind, E. destruct o as [f|]; [|reflexivity]. cbn [exec_outcome].
  rewrite run_u_bind. cbn [set_command_running]. rewrite run_u_bind. fold size. change (Userland (u_machine u) true) with (with_flag u true).
  assert (Hback : Userland (u_machine u) false = u) by (rewrite <- Hf; apply with_flag_same).
  destruct (f_directory f) eqn:Hd; [unfold run_loaded_image; rewrite Hd; exact (f_equal (fun v => inl (_, v)) Hback)|].
  destruct (f_executable f) eqn:Hx; cbn [negb]; [|unfold run_loaded_image; rewrite Hd, Hx; exact (f_equal (fun v => inl (_, v)) Hback)].
  destruct (run_loaded f (with_flag u true) argc (Some argv) envp call (arena_placed u _ f Hm Ha Hl Hd) Hd Hx) as [R1 R2].
  change (u_ram (with_flag u true)) with (u_ram u) in R1, R2. change (command_entry (with_flag u true) f) with (command_entry u f) in R2. split.
  - intros Hn. rewrite (R1 Hn). exact (f_equal (fun v => inl (_, v)) Hback).
  - intros Hw. destruct (R2 Hw) as (m' & Hl' & ->). exists m'. split; [exact Hl'|]. unfold run_command_in.
    change (with_flag (with_ram u m') true) with (with_ram (with_flag u true) m').
    destruct (run_program _ _ _) as [[status u']|]; reflexivity.
Qed.
End Commands.

(** ** The properties *)

(** C31. [user_api_read_file] gives the program exactly the bytes of the file from the offset
    on, at most the number asked for, and writes nothing else: the slice of the
    body of the first entry of the archive with that path, or no byte past the end.  A
    path that is not there, and a directory, are refused with nothing changed. *)
Theorem api_read_file_correct u s t offset buffer count :
  mounted u -> text s -> 0 <= offset -> 0 <= count < 2 ^ 62 -> buffer <> 0 ->
  buffer + count <= archive_base u \/ archive_base u + Z.of_nat (length (archive_at u)) <= buffer ->
  exists o, lookup_spec (archive_base u) (archive_at u) (norm s) o /\
    match o with
    | None => user_api_read_file (Some (s ++ 0 :: t)) offset buffer count u = inl (- XBKS_ENOENT, u)
    | Some f =>
        if f_directory f then user_api_read_file (Some (s ++ 0 :: t)) offset buffer count u = inl (- XBKS_EISDIR, u)
        else exists e, first_match (norm s) (archive (archive_at u)) = Some e /\
          let slice := take (Z.to_nat count) (drop (Z.to_nat offset) (te_body e)) in
          user_api_read_file (Some (s ++ 0 :: t)) offset buffer count u =
            inl (Z.of_nat (length slice), with_ram u (store_bytes (u_ram u) buffer slice))
    end.
Proof. apply api_read_file_ok. Qed.

(** The small machine with its archive mounted. *)
Definition demo_user : userland :=
  Userland (Machine (m_devices demo_machine) (with_ramdisk (m_kernel demo_machine) demo_rd) (m_cpu demo_machine)) false.

Lemma demo_user_mounted : mounted demo_user.
Proof. split; [reflexivity|vm_compute; intuition discriminate]. Qed.

Lemma demo_user_archive : archive_base demo_user = demo_ramdisk_address /\ archive_at demo_user = demo_ramdisk.
Proof. split; vm_compute; reflexivity. Qed.

(** The first four bytes of the program. *)
Lemma api_read_file_correct_witness :
  exists e, first_match (str "bin/xsh") (archive (archive_at demo_user)) = Some e /\
    user_api_read_file (Some (str "/bin/xsh" ++ [0])) 0 4096 4 demo_user =
      inl (4, with_ram demo_user (store_bytes (u_ram demo_user) 4096 [127; 69; 76; 70])).
Proof.
  destruct demo_user_archive as [Eb Ea].
  destruct (api_read_file_correct demo_user (str "/bin/xsh") [] 0 4096 4 demo_user_mounted) as (o & Hl & Ho).
  - apply text_check. reflexivity.
  - lia.
  - lia.
  - lia.
  - left. rewrite Eb. vm_compute. discriminate.
  - assert (N : norm (str "/bin/xsh") = str "bin/xsh") by (vm_compute; reflexivity). rewrite N in Hl, Ho.
    assert (F : option_map te_body (first_match (str "bin/xsh") (archive (archive_at demo_user))) = Some demo_xsh) by (rewrite Ea; vm_compute; reflexivity).
    assert (D : option_map (fun e => is_dir (te_header e)) (first_match (str "bin/xsh") (archive (archive_at demo_user))) = Some false) by (rewrite Ea; vm_compute; reflexivity).
    destruct (first_match (str "bin/xsh") (archive (archive_at demo_user))) as [e|] eqn:Ef; [|discriminate F]. exists e. split; [reflexivity|].
    try rewrite Ef in F, D. cbn [option_map] in F, D. injection F as F. injection D as D. destruct o as [f|].
    + destruct Hl as [(e' & _ & He' & _ & _ & _ & _ & Hd & _)|[[Hq|[Hq _]] _]]; [|discriminate Hq|rewrite Ef in Hq; discriminate Hq].
      rewrite Ef in He'. injection He' as <-. rewrite Hd, D in Ho. destruct Ho as (e' & He' & Hr). injection He' as <-.
      assert (S : take (Z.to_nat 4) (drop (Z.to_nat 0) demo_xsh) = [127; 69; 76; 70]) by (vm_compute; reflexivity).
      rewrite F, S in Hr. exact Hr.
    + exfalso. rewrite (missing_entry _ _ _ Hl) in Ef. discriminate Ef.
Defined.

(** C32. [user_api_read_dir] describes the child of the directory with the given index of its
    listing: the name (up to 127 characters of the last component of its path), the size, the type and the
    permission of the archive entry, laid out as the program reads them, in the
    144 bytes at [out] and nowhere else.  Past the listing's end it answers ENOENT and
    writes nothing. *)
Theorem api_read_dir_correct u s t index out :
  mounted u -> text s -> 0 <= index < 2 ^ 64 -> out <> 0 ->
  match listing (norm s) (archive (archive_at u)) !! Z.to_nat index with
  | None => user_api_read_dir (Some (s ++ 0 :: t)) index out u = inl (- XBKS_ENOENT, u)
  | Some (c, nested, e) =>
      exists m', user_api_read_dir (Some (s ++ 0 :: t)) index out u = inl (0, with_ram u m') /\
        dirent_at m' out (take 127 (shown_name (norm s) c)) (if (nested : bool) then 0 else Z.of_nat (length (te_body e)))
          (if nested || is_dir (te_header e) then XBKS_USER_DIRENT_DIR else XBKS_USER_DIRENT_FILE)
          (if negb (nested || is_dir (te_header e)) && is_exec (te_header e) then 1 else 0) /\
        forall a, ~ out <= a < out + 144 -> rd8 m' a = rd8 (u_ram u) a
  end.
Proof. apply read_dir_api. Qed.

(** The root holds the directory [bin], which no entry of its own makes. *)
Lemma api_read_dir_correct_witness :
  exists m', user_api_read_dir (Some (lit "/")) 0 8192 demo_user = inl (0, with_ram demo_user m') /\
    bytes_at m' 8192 4 = str "bin" ++ [0] /\ ld32 m' (8192 + 136) = XBKS_USER_DIRENT_DIR.
Proof.
  pose proof (api_read_dir_correct demo_user (str "/") [] 0 8192 demo_user_mounted ltac:(apply text_check; reflexivity) ltac:(lia) ltac:(lia)) as H.
  change (norm (str "/")) with (@nil Z) in H. rewrite (proj2 demo_user_archive) in H.
  assert (L : option_map (fun x => (fst x)) (listing [] (archive demo_ramdisk) !! 0%nat) = Some (str "bin", true)) by (vm_compute; reflexivity).
  change (Z.to_nat 0) with 0%nat in H. destruct (listing [] (archive demo_ramdisk) !! 0%nat) as [[[c nested] e]|]; [|discriminate L].
  injection L as -> ->. destruct H as (m' & H1 & [D1 _ D3 _] & _). exists m'. split; [exact H1|].
  split; [exact D1|exact D3].
Defined.

Lemma exec_faults cmd_exec_base cmd_exec_end behaviour call path argc argv envp u :
  path = None \/ argv = None \/ argc < 0 ->
  user_api_exec cmd_exec_base cmd_exec_end behaviour call path argc argv envp u = inl (- XBKS_EFAULT, u).
Proof.
  intros H. unfold user_api_exec. destruct path as [p|], argv as [a|]; try reflexivity; cbn [bool_decide].
  destruct H as [H|[H|H]]; [discriminate|discriminate|]. apply Z.ltb_lt in H. rewrite H. reflexivity.
Qed.

(** C21. [user_api_exec] runs an executable of the archive as a command: it places it in the
    arena, calls its entry point with the arguments and answers its status, the
    flag being set during the run and cleared after it.  A file that is not
    there, a directory, a file without the permission and one that is not a well-formed
    image that fits are refused, each with its error and with nothing changed; so is, with
    EFAULT, a call with a null pointer or a negative count, whatever is running. *)
Theorem exec_runs_command cmd_exec_base cmd_exec_end behaviour call s t argc argv envp u :
  mounted u -> arena_apart cmd_exec_base cmd_exec_end u -> text s -> 0 <= argc -> command_running u = false ->
  (forall path argc' argv' envp' u', path = None \/ argv' = None \/ argc' < 0 ->
     user_api_exec cmd_exec_base cmd_exec_end behaviour call path argc' argv' envp' u' = inl (- XBKS_EFAULT, u')) /\
  exists o, lookup_spec (archive_base u) (archive_at u) (norm s) o /\
    exec_outcome cmd_exec_base cmd_exec_end behaviour call argc (Some argv) envp u o
      (user_api_exec cmd_exec_base cmd_exec_end behaviour call (Some (s ++ 0 :: t)) argc (Some argv) envp u).
Proof. intros. split; [apply exec_faults|apply exec_ok; assumption]. Qed.

(** A command that tries to run a command: it gets EBUSY and returns it. *)
Definition nested_command (m : mem) (entry argc : Z) (argv envp : option (list (list Z))) : program :=
  Call (ApiExec (Some (lit "/bin/xsh")) 0 (Some []) None) (fun v => Return v).

Lemma exec_runs_command_witness :
  let r := user_api_exec 8192 12288 nested_command (early_user_api 8192 12288 nested_command (fun _ => mret 0) 0)
             (Some (lit "/bin/xsh")) 0 (Some []) None demo_user in
  (exists u', r = inl (- XBKS_EBUSY, u') /\ command_running u' = false) /\
  exists o, lookup_spec (archive_base demo_user) (archive_at demo_user) (str "bin/xsh") o /\
    exec_outcome 8192 12288 nested_command (early_user_api 8192 12288 nested_command (fun _ => mret 0) 0) 0 (Some []) None demo_user o r.
Proof.
  intros r. split.
  - assert (C : match r with inl (v, u') => (v =? -16) && negb (command_running u') | _ => false end = true) by (vm_compute; reflexivity).
    destruct r as [[v u']|]; [|discriminate C]. apply andb_prop in C as [C1 C2]. apply Z.eqb_eq in C1 as ->. exists u'.
    split; [reflexivity|]. destruct (command_running u'); [discriminate C2|reflexivity].
  - refine (proj2 (exec_runs_command 8192 12288 nested_command (early_user_api 8192 12288 nested_command (fun _ => mret 0) 0)
      (str "/bin/xsh") [] 0 [] None demo_user demo_user_mounted _ _ _ _)).
    + unfold arena_apart. destruct demo_user_archive as [-> ->]. vm_compute. intuition discriminate.
    + apply text_check. reflexivity.
    + lia.
    + reflexivity.
Defined.

(** C20. One command at a time: whatever programs do, one level of [exec] is all there is
    (the functions deeper in the table are never called), every call leaves the flag as
    it found it, and while a command runs [exec] answers EBUSY, or EFAULT for null
    pointers or a negative count, and touches nothing. *)
Theorem exec_one_level cmd_exec_base cmd_exec_end behaviour beyond beyond' d d' c u :
  let api := early_user_api cmd_exec_base cmd_exec_end behaviour in
  api beyond (S d) c u = api beyond' (S d') c u /\
  (forall v u', api beyond d c u = inl (v, u') -> command_running u' = command_running u) /\
  (command_running u = true -> forall path argc argv envp, c = ApiExec path argc argv envp ->
     api beyond d c u =
       inl (if bool_decide (path = None) || bool_decide (argv = None) || (argc <? 0) then - XBKS_EFAULT else - XBKS_EBUSY, u)).
Proof.
  intros api. split; [apply api_once|]. split; [apply keeps_api|]. intros Hf path argc argv envp ->.
  unfold api. destruct d; cbn [early_user_api]; apply exec_busy, Hf.
Qed.

Lemma exec_one_level_witness :
  early_user_api 8192 12288 nested_command (fun _ => mret 0) 0 (ApiExec (Some (lit "/bin/xsh")) 0 (Some []) None) (with_flag demo_user true) =
    inl (- XBKS_EBUSY, with_flag demo_user true).
Proof.
  destruct (exec_one_level 8192 12288 nested_command (fun _ => mret 0) (fun _ => mret 0) 0 0
    (ApiExec (Some (lit "/bin/xsh")) 0 (Some []) None) (with_flag demo_user true)) as (_ & _ & H).
  exact (H eq_refl _ _ _ _ eq_refl).
Defined.
