(* ===== verification/ExecProps.v ===== *)
(** * Replacing the program of a process

    [syscall_execve] of src/kernel/process.c: the strings of the caller, the new address space,
    the end of the old one. *)

From Stdlib Require Import Ascii String.
From S2P Require Import Prelude CMem CStr Pmm Vmm VmmSpec VmmDestroy MmProps Ramdisk RamdiskSpec RamdiskArchive Elf ElfProps Keyboard Kernel Loader Syscalls ProcTable UserMem FileProps LoaderSpec StackSpec ProgramSpec Lifecycle LifecycleProps LoaderProps.

(** ** A vector of strings in user memory *)

(** The vector at [a]: pointers to the strings [l], then a null pointer. *)
Record user_vector (k : kernel) (r a : Z) (l : list (list Z)) : Prop := {
  uv_range : USER_IMAGE_MIN <= a /\ a + 8 * (Z.of_nat (length l) + 1) <= XBKS_USER_TOP;
  uv_strings : forall i s, l !! i = Some s -> exists p,
    user_holds k r (a + 8 * Z.of_nat i) (le_bytes 8 p) /\ in_u64 p /\
    USER_IMAGE_MIN <= p /\ p + Z.of_nat (length s) < XBKS_USER_TOP /\ (length s <= 255)%nat /\ text s /\ user_holds k r p (s ++ [0]);
  uv_end : user_holds k r (a + 8 * Z.of_nat (length l)) (le_bytes 8 0);
}.

Lemma user_load_le_ok k roots l r n va v :
  running k roots l r -> 0 <= v < 256 ^ Z.of_nat n -> 0 <= va -> va + Z.of_nat n <= 2 ^ 47 ->
  user_holds k r va (le_bytes n v) -> user_load_le n va k = inl (v, k).
Proof.
  intros Hk. revert va v. induction n as [|n IH]; intros va v Hv H0 Ht Hh; cbn [user_load_le].
  - rewrite run_ret. do 2 f_equal. cbn in Hv. lia.
  - cbn [le_bytes] in Hh. apply user_holds_cons in Hh as [Hb Hh].
    replace (Z.of_nat (S n)) with (Z.succ (Z.of_nat n)) in Hv by lia. rewrite Z.pow_succ_r in Hv by lia.
    rewrite run_bind, (user_load_ok k roots l r va (v mod 256) Hk); [|unfold user_va; lia|exact Hb].
    assert (Hd : 0 <= v / 256 < 256 ^ Z.of_nat n) by (split; [apply Z.div_pos; lia|apply Z.div_lt_upper_bound; lia]).
    rewrite run_bind, (IH (va + 1) (v / 256) Hd); [|lia|lia|exact Hh]. rewrite run_ret. pose proof (Z.div_mod v 256). do 2 f_equal. lia.
Qed.

Section Vector.
Context (k : kernel) (roots l : list Z) (r a : Z) (strings : list (list Z)) (Hk : running k roots l r) (Hv : user_vector k r a strings).

Lemma vector_word i : (i <= length strings)%nat ->
  (a +u 8 * Z.of_nat i) = a + 8 * Z.of_nat i /\ user_range_is_valid (a + 8 * Z.of_nat i) 8 = true /\
  0 <= a + 8 * Z.of_nat i /\ a + 8 * Z.of_nat i + Z.of_nat 8 <= 2 ^ 47.
Proof using Hv.
  intros Hi. destruct (uv_range _ _ _ _ Hv) as [H1 H2]. unfold USER_IMAGE_MIN, XBKS_USER_TOP in *.
  rewrite uwrap_small by lia. split; [reflexivity|]. split; [|lia].
  apply user_range_iff; [unfold in_u64; lia|unfold in_u64; lia|]. right. unfold USER_IMAGE_MIN, XBKS_USER_TOP. lia.
Qed.

Lemma copy_array_ok n i acc :
  (i <= length strings)%nat -> (length strings - i < n)%nat ->
  exists bufs, copy_array_loop n a (Z.of_nat i) acc k = inl (Some (rev acc ++ bufs), k) /\ Forall2 holds_text bufs (drop i strings).
Proof using Hk Hv.
  revert i acc. induction n as [|n IH]; intros i acc Hi Hn; [lia|]. cbn [copy_array_loop].
  destruct (vector_word i Hi) as (-> & -> & H0 & H47). cbn [negb]. rewrite run_bind.
  destruct (decide (i = length strings)) as [->|Hne].
  - rewrite (user_load_le_ok k roots l r 8 _ 0 Hk) by first [exact (uv_end _ _ _ _ Hv)|lia]. cbn [Z.eqb]. rewrite run_ret.
    exists []. rewrite app_nil_r. split; [reflexivity|]. rewrite drop_ge by lia. constructor.
  - destruct (lookup_lt_is_Some_2 strings i) as [s Hs]; [lia|].
    destruct (uv_strings _ _ _ _ Hv i s Hs) as (p & Hp & Hpu & H1 & H2 & H3 & H4 & H5). unfold USER_IMAGE_MIN, in_u64 in *.
    rewrite (user_load_le_ok k roots l r 8 _ p Hk) by first [exact Hp|lia]. destruct (Z.eqb_spec p 0); [lia|].
    rewrite run_bind. destruct (copy_user_string_ok k roots l r p s Hk) as (d & Ed & (_ & _ & w & Hd)); try assumption.
    rewrite Ed. destruct (IH (S i) (d :: acc)) as (bufs & E & HF); [lia|lia|]. rewrite Nat2Z.inj_succ in E. unfold Z.succ in E. rewrite E.
    exists (d :: bufs). split; [cbn [rev]; rewrite <- app_assoc; reflexivity|]. rewrite (drop_S _ _ _ Hs).
    constructor; [split; [exact H4|exists w; exact Hd]|exact HF].
Qed.

Lemma copy_vector_ok max :
  a <> 0 -> Z.of_nat (length strings) < max ->
  exists bufs, copy_user_string_array max a k = inl (Some bufs, k) /\ Forall2 holds_text bufs strings.
Proof using Hk Hv.
  intros Ha Hm. unfold copy_user_string_array. destruct (Z.eqb_spec a 0); [contradiction|].
  destruct (copy_array_ok (Z.to_nat max) 0 []) as (bufs & E & HF); [lia|lia|]. exists bufs. split; [exact E|exact HF].
Qed.
End Vector.

(** A vector argument of execve: null for no strings, or a vector with room for its end. *)
Definition user_strings (k : kernel) (r a max : Z) (l : list (list Z)) : Prop :=
  (a = 0 /\ l = []) \/ (a <> 0 /\ Z.of_nat (length l) < max /\ user_vector k r a l).

Lemma copy_strings_ok k roots l r a max strings :
  running k roots l r -> user_strings k r a max strings ->
  exists bufs, copy_user_string_array max a k = inl (Some bufs, k) /\ Forall2 holds_text bufs strings.
Proof.
  intros Hk [[-> ->]|(Ha & Hm & Hv)]; [|exact (copy_vector_ok k roots l r a strings Hk Hv max Ha Hm)].
  exists []. split; [reflexivity|constructor].
Qed.

(** ** The file *)

(** Two lookups of one path differ in the unused end of the path buffer alone. *)
Definition same_file (f g : xbks_ramdisk_file) : Prop :=
  f_data f = f_data g /\ f_size f = f_size g /\ f_directory f = f_directory g /\ f_executable f = f_executable g.

Lemma lookup_same rd img q f g : lookup_spec rd img q (Some f) -> lookup_spec rd img q (Some g) -> same_file f g.
Proof.
  intros [(e & Hq & He & _ & (_ & F1 & F2 & F3 & F4))|[Hq (_ & F1 & F2 & F3 & F4)]]
    [(e' & Hq' & He' & _ & (_ & G1 & G2 & G3 & G4))|[Hq' (_ & G1 & G2 & G3 & G4)]]; try (repeat split; congruence).
  - destruct Hq' as [|[? _]]; congruence.
  - destruct Hq as [|[? _]]; congruence.
Qed.

Lemma found_again k path file d :
  rd_available (k_ramdisk k) = true -> 0 <= rd_size (k_ramdisk k) < 2 ^ 62 -> buf_holds d path ->
  find_file (path ++ [0]) k = inl (Some file, k) -> exists g, find_file d k = inl (Some g, k) /\ same_file file g.
Proof.
  intros Ha Hsz (_ & Ht & t & ->) E. destruct (find_file_ok k path [] Ha Hsz Ht) as (o & E1 & H1). rewrite E in E1. injection E1 as <-.
  destruct (find_file_ok k path t Ha Hsz Ht) as (o & E2 & H2). destruct o as [g|].
  - exists g. split; [exact E2|]. exact (lookup_same _ _ _ _ _ H1 H2).
  - exfalso. destruct H2 as [Hq Hn]. destruct H1 as [(e & _ & He & _)|[[?|[_ (e & He & Hp)]] _]]; [|contradiction|].
    + apply find_some in He as [He Hb]. apply (proj1 (Hn e He)). exact (bool_decide_eq_true_1 _ Hb).
    + exact (proj2 (Hn e He) Hp).
Qed.

Lemma same_file_program m f g : same_file f g -> program_ok m f -> program_ok m g.
Proof.
  intros (E1 & E2 & E3 & _) [H1 H2 H3 H4 H5]. rewrite E1 in *. rewrite E2, E3 in *. constructor; assumption.
Qed.

(** ** The whole call *)

Lemma upath_root : upath [].
Proof. split; [cbn; lia|]. split; [constructor|exact I]. Qed.

Section Exec.
Context (k : kernel) (roots l : list Z) (r f : Z) (p : process) (file : xbks_ramdisk_file).
Context (frame : xbks_syscall_frame) (path : list Z) (argv envp : list (list Z)).
Let m := ram (k_mm k).
Context (Hk : running k roots (f :: l) r) (Hp : processes k !! current_process k = Some p) (Hpr : cr3 p = r).
Context (Hpath : USER_IMAGE_MIN <= rdi frame /\ rdi frame + Z.of_nat (length path) < XBKS_USER_TOP /\
  (length path <= 255)%nat /\ text path /\ user_holds k r (rdi frame) (path ++ [0])).
Context (Hargv : user_strings k r (rsi frame) (MAX_ARGS - 1) argv) (Henvp : user_strings k r (rdx frame) (MAX_ENV - 1) envp).
Context (Hroot : frame_ok (hhdm_offset_value (k_mm k)) (kernel_cr3_value (k_mm k))) (Hrf : kernel_cr3_value (k_mm k) <> f).
Context (Hav : rd_available (k_ramdisk k) = true) (Hrd : 0 <= rd_size (k_ramdisk k) < 2 ^ 62).
Context (Hfind : find_file (path ++ [0]) k = inl (Some file, k)) (Hexec : f_executable file = true) (Hpg : program_ok m file).
Context (Hfile : forall i g, 0 <= i < f_size file -> g ∈ f :: l -> ~ in_page (hhdm_offset_value (k_mm k)) g (f_data file + i)).
Context (Hbelow : Forall (fun ph => seg_hi ph <= STACK_LOW) (segments m (f_data file))).
Context (Hframes : 4 * seg_bytes (segments m (f_data file)) + 262144 <= 4096 * Z.of_nat (length l)).
Context (Hfit : STACK_LOW <= entry_sp argv envp).

(** The process under its new program. *)
Definition replaced : process := set_image f (e_entry m (f_data file)) (entry_sp argv envp) 8388608 p.

(** The new program is in place and the old address space still there. *)
Lemma exec_loaded :
  exists s1 l1, syscall_execve frame k =
      inl ((0, set_frame_user (e_entry m (f_data file)) (entry_sp argv envp) frame),
           with_mm (with_processes k (<[current_process k := replaced]> (processes k)))
             (xbks_vmm_destroy_user_space (xbks_write_cr3 s1 f) r XBKS_USER_TOP)) /\
    space s1 (f :: roots) l1 /\
    program_image m (f_data file) (segments m (f_data file)) argv envp s1 f (entry_sp argv envp) /\
    (forall r' a, r' ∈ roots -> user_va a -> user_byte s1 r' a = user_byte (k_mm k) r' a) /\
    (forall g, g ∈ f :: l -> g ∈ l1 \/ exists q, upath q /\ node s1 f q = Some g) /\
    (forall q g, upath q -> node (k_mm k) r q = Some g -> node s1 r q = Some g).
Proof using All.
  destruct Hpath as (P1 & P2 & P3 & P4 & P5). pose proof Hk as (Hsp & Hr & Hc).
  destruct (copy_user_string_ok k roots (f :: l) r (rdi frame) path Hk P1 P2 P3 P4 P5) as (d & Ed & Hd).
  destruct (copy_strings_ok k roots (f :: l) r _ _ _ Hk Hargv) as (bargv & Ea & Ha).
  destruct (copy_strings_ok k roots (f :: l) r _ _ _ Hk Henvp) as (benvp & Ee & He).
  destruct (found_again k path file d Hav Hrd Hd Hfind) as (g & Eg & Sg). pose proof Sg as (D1 & D2 & D3 & D4).
  pose proof (same_file_program m file g Sg Hpg) as Hpg'.
  destruct (program_loaded k roots l f (set_image 0 (entry p) (stack p) (brk p) p) d g argv envp bargv benvp)
    as (s1 & l1 & E & Hsp1 & _ & Him & Hoth & _ & _ & _ & Hused & Hkeep); rewrite <- ?D1, <- ?D2, <- ?D4; try assumption.
  rewrite <- D1 in E, Him. exists s1, l1. split; [|split; [exact Hsp1|split; [exact Him|split; [exact Hoth|split]]]].
  2: { intros x Hx. apply elem_of_cons in Hx as [->|Hx]; [right; exists []; split; [exact upath_root|reflexivity]|exact (Hused x Hx)]. }
  2: { intros q x Hq Hx. exact (Hkeep r q x Hr Hq Hx). }
  unfold syscall_execve. rewrite run_bind, Ed. cbn [negb]. rewrite run_bind, Ea, run_bind, Ee, run_bind, run_this_process, Hp, run_bind, E.
  cbn [negb]. rewrite run_bind, run_update_this. cbn [with_mm processes current_process]. rewrite Hp, run_bind, run_on_mm. cbn [fst snd].
  rewrite run_bind, run_on_mm, run_ret, Hpr. reflexivity.
Qed.

Lemma exec_replaces :
  exists k' l', syscall_execve frame k = inl ((0, set_frame_user (e_entry m (f_data file)) (entry_sp argv envp) frame), k') /\
    processes k' = <[current_process k := replaced]> (processes k) /\ running k' (f :: filter (fun x => x <> r) roots) l' f /\
    program_image m (f_data file) (segments m (f_data file)) argv envp (k_mm k') f (entry_sp argv envp) /\
    (forall q g, upath q -> node (k_mm k) r q = Some g -> g ∈ l') /\
    (forall g, g ∈ f :: l -> g ∈ l' \/ exists q, upath q /\ node (k_mm k') f q = Some g) /\
    (forall r' a, r' ∈ roots -> r' <> r -> user_va a -> user_byte (k_mm k') r' a = user_byte (k_mm k) r' a).
Proof using All.
  destruct exec_loaded as (s1 & l1 & E & Hsp1 & Him & Hoth & Hused & Hkeep). pose proof Hk as (Hsp & Hr & Hc).
  destruct (space_root _ _ _ _ Hsp Hr) as [_ Hfr]. assert (Hne : f <> r) by (intros ->; apply Hfr; left).
  pose proof (space_write_cr3 s1 _ _ f Hsp1) as Hsp2. assert (Hr2 : r ∈ f :: roots) by (right; exact Hr).
  destruct (destroy_ok _ _ _ r Hsp2 Hr2 XBKS_USER_TOP ltac:(apply Z.le_refl)) as [l' D].
  eexists _, l'. split; [exact E|]. cbn [with_mm with_processes processes k_mm]. split; [reflexivity|].
  split; [split; [|split; [left|apply (ds_config _ _ _ _ _ _ D)]]|].
  { pose proof (ds_space _ _ _ _ _ _ D) as H. rewrite filter_cons_True in H by exact Hne. exact H. }
  split; [|split; [|split]].
  - apply (program_image_ext _ _ _ _ s1); [exact Hpg|exact Hfit| |exact Him]. intros va Hva.
    destruct (destroyed_user _ _ _ r Hsp2 Hr2 _ _ f va D ltac:(left) Hne Hva) as [_ ->]. apply user_byte_cr3.
  - intros q g Hq Hg. apply (ds_free _ _ _ _ _ _ D). right. exists q. split; [exact Hq|]. rewrite node_write_cr3. exact (Hkeep q g Hq Hg).
  - intros g Hg. destruct (Hused g Hg) as [Hl|(q & Hq & Hn)]; [left; apply (ds_free _ _ _ _ _ _ D); left; exact Hl|].
    right. exists q. split; [exact Hq|]. rewrite (ds_other _ _ _ _ _ _ D f q ltac:(left) Hne Hq), node_write_cr3. exact Hn.
  - intros r' a Hr' Hne' Ha. destruct (destroyed_user _ _ _ r Hsp2 Hr2 _ _ r' a D ltac:(right; exact Hr') Hne' Ha) as [_ ->].
    rewrite user_byte_cr3. exact (Hoth r' a Hr' Ha).
Qed.
End Exec.

(** C6. [syscall_execve] replaces the program of the calling process and nothing else: the
    strings are read from the old address space, the file under the path is loaded into a
    new one, and the caller returns to the entry point of the file on the new stack.  In
    the process table only the image of the caller changes; its id, parent and open
    descriptors stay.  The processor runs in the new address space, which holds exactly
    the program with its arguments.  The old address space is given back whole: each of its
    pages and tables, the root included, is free again; and no frame is lost, since what
    was free before is free or part of the new space.  Every other space keeps its bytes. *)
Theorem execve_correct k roots l r f p file frame path argv envp :
  let m := ram (k_mm k) in
  let segs := segments m (f_data file) in
  let sp := entry_sp argv envp in
  running k roots (f :: l) r -> processes k !! current_process k = Some p -> cr3 p = r ->
  USER_IMAGE_MIN <= rdi frame /\ rdi frame + Z.of_nat (length path) < XBKS_USER_TOP /\
    (length path <= 255)%nat /\ text path /\ user_holds k r (rdi frame) (path ++ [0]) ->
  user_strings k r (rsi frame) (MAX_ARGS - 1) argv -> user_strings k r (rdx frame) (MAX_ENV - 1) envp ->
  frame_ok (hhdm_offset_value (k_mm k)) (kernel_cr3_value (k_mm k)) -> kernel_cr3_value (k_mm k) <> f ->
  rd_available (k_ramdisk k) = true -> 0 <= rd_size (k_ramdisk k) < 2 ^ 62 ->
  find_file (path ++ [0]) k = inl (Some file, k) -> f_executable file = true -> program_ok m file ->
  (forall i g, 0 <= i < f_size file -> g ∈ f :: l -> ~ in_page (hhdm_offset_value (k_mm k)) g (f_data file + i)) ->
  Forall (fun ph => seg_hi ph <= STACK_LOW) segs ->
  4 * seg_bytes segs + 262144 <= 4096 * Z.of_nat (length l) -> STACK_LOW <= sp ->
  exists k' l', syscall_execve frame k = inl ((0, set_frame_user (e_entry m (f_data file)) sp frame), k') /\
    processes k' = <[current_process k := set_image f (e_entry m (f_data file)) sp 8388608 p]> (processes k) /\
    running k' (f :: filter (fun x => x <> r) roots) l' f /\
    program_image m (f_data file) segs argv envp (k_mm k') f sp /\
    (forall q g, upath q -> node (k_mm k) r q = Some g -> g ∈ l') /\
    (forall g, g ∈ f :: l -> g ∈ l' \/ exists q, upath q /\ node (k_mm k') f q = Some g) /\
    (forall r' a, r' ∈ roots -> r' <> r -> user_va a -> user_byte (k_mm k') r' a = user_byte (k_mm k) r' a).
Proof. intros m segs sp. intros. apply (exec_replaces k roots l r f p file frame path argv envp); assumption. Qed.

(** *** The first program starts itself again *)

Definition demo_args : list (list Z) := [str "/bin/xsh"].

(** The demonstration machine with two hundred frames. *)
Definition demo_wide : kernel :=
  let s := default demo_boot (add_usable_range demo_boot 4096 819200) in
  Kernel (set_ram s (store_bytes (ram s) demo_ramdisk_address demo_ramdisk))
    (RamdiskState demo_ramdisk_address (Z.of_nat (length demo_ramdisk)) true)
    (replicate MAX_PROCESSES zero_process) 0 1 false [] [].

Lemma demo_wide_low g : g ∈ rev (usable_pages 4096 819200) -> g <= 819200.
Proof.
  intros Hg. assert (H : forallb (fun g => g <=? 819200) (rev (usable_pages 4096 819200)) = true) by (vm_compute; reflexivity).
  rewrite forallb_forall in H. apply Z.leb_le, H, list_elem_of_In, Hg.
Qed.

Lemma demo_wide_space :
  space (k_mm demo_wide) [] (rev (usable_pages 4096 819200)) /\
  hhdm_offset_value (k_mm demo_wide) = demo_hhdm /\ kernel_cr3_value (k_mm demo_wide) = 1048576.
Proof.
  destruct (add_usable_range_pool demo_boot [] 4096 819200 demo_boot_pool) as (s0 & E & Hp & Hc & _).
  { vm_compute. intuition discriminate. }
  { intros f _ H. inversion H. }
  unfold demo_wide. rewrite E. cbn [default k_mm]. rewrite app_nil_r in Hp.
  split; [|split; [exact (proj1 Hc)|exact (proj1 (proj2 Hc))]].
  split; [|intros r p f H; inversion H|intros r r' p p' f H; inversion H].
  apply pool_set_ram; [exact Hp|]. intros g a Hg Ha. apply rd8_store_bytes_out. left.
  pose proof (demo_wide_low g Hg).
  unfold in_page, demo_ramdisk_address in *. unfold id in Ha. rewrite (proj1 Hc) in Ha. change (hhdm_offset_value demo_boot) with demo_hhdm in Ha. lia.
Qed.

(** Both machines hold the same archive. *)
Lemma demo_ramdisk_bytes : bytes demo_ramdisk.
Proof. apply bytes_check. vm_compute. reflexivity. Qed.

Lemma stored_bytes_same m m' start l a : bytes l -> start <= a < start + Z.of_nat (length l) ->
  rd8 (store_bytes m start l) a = rd8 (store_bytes m' start l) a.
Proof.
  intros Hl Ha. pose proof (eq_trans (bytes_at_store_bytes m start l Hl) (eq_sym (bytes_at_store_bytes m' start l Hl))) as H.
  apply (f_equal (fun bs => bs !! Z.to_nat (a - start))) in H. cbv beta in H. rewrite !lookup_bytes_at in H by lia.
  rewrite Z2Nat.id in H by lia. replace (start + (a - start)) with a in H by lia. congruence.
Qed.

Lemma demo_archive_same a :
  demo_ramdisk_address <= a < demo_ramdisk_address + Z.of_nat (length demo_ramdisk) ->
  rd8 (ram (k_mm demo_wide)) a = rd8 (ram (k_mm demo_mounted)) a.
Proof. unfold demo_wide, demo_mounted. cbn [k_mm ram set_ram]. apply stored_bytes_same, demo_ramdisk_bytes. Qed.

Lemma demo_ramdisk_length : Z.of_nat (length demo_ramdisk) = 2048.
Proof. vm_compute. reflexivity. Qed.

Lemma demo_wide_found : find_file (lit "/bin/xsh") demo_wide = inl (Some demo_program, demo_wide).
Proof.
  assert (Hr : k_ramdisk demo_wide = k_ramdisk demo_mounted) by (unfold demo_wide, demo_mounted; cbn [k_ramdisk]; reflexivity).
  apply (find_file_same _ demo_mounted demo_wide _); [|exact Hr|exact demo_program_found]. unfold ramdisk_image. rewrite <- Hr.
  apply bytes_at_ext. intros a Ha. apply demo_archive_same. unfold demo_wide in Ha. cbn [k_ramdisk rd_data rd_size] in Ha. lia.
Qed.

(** Its program, in any memory with that archive. *)
Lemma demo_program_in s :
  (forall a, demo_ramdisk_address <= a -> rd8 (ram s) a = rd8 (ram (k_mm demo_wide)) a) ->
  program_ok (ram s) demo_program /\ segments (ram s) (f_data demo_program) = [Phdr 1 120 4194304 8 8] /\
  e_entry (ram s) (f_data demo_program) = 4194304.
Proof.
  intros H. destruct demo_program_fields as (Hd & Hs & _).
  assert (Hsame : file_same (ram (k_mm demo_mounted)) demo_program s).
  { intros j Hj. rewrite Hs in Hj. rewrite Hd. pose proof demo_ramdisk_length. rewrite H by lia. apply demo_archive_same. lia. }
  destruct (program_same _ _ _ demo_program_ok Hsame) as (H1 & -> & ->). split; [exact H1|]. rewrite Hd. split; [exact demo_program_segments|].
  vm_compute. reflexivity.
Qed.

(** The machine running [/bin/xsh] with itself as its argument. *)
Definition demo_running (s : mm) : kernel :=
  with_mm (with_processes demo_wide
    (<[0%nat := set_image 819200 4194304 (entry_sp demo_args []) 8388608 zero_process]> (processes demo_wide)))
    (xbks_write_cr3 s 819200).

Lemma demo_running_ok :
  exists s f l, space s [819200] (f :: l) /\ same_config (k_mm demo_wide) s /\ abi_stack s 819200 (entry_sp demo_args []) demo_args [] /\
    (forall a, demo_ramdisk_address <= a -> rd8 (ram s) a = rd8 (ram (k_mm demo_wide)) a) /\
    (forall g, g ∈ f :: l -> g <= 819200) /\ 70 <= Z.of_nat (length l).
Proof.
  destruct demo_wide_space as (Hsp & Hh & Hk). destruct demo_program_fields as (Hd & Hs & Hx & _).
  assert (Ef : rev (usable_pages 4096 819200) = 819200 :: tail (rev (usable_pages 4096 819200))) by (vm_compute; reflexivity).
  destruct (demo_program_in (k_mm demo_wide) ltac:(reflexivity)) as (Hpg & Es & _).
  destruct (program_loaded demo_wide [] (tail (rev (usable_pages 4096 819200))) 819200 zero_process (lit "/bin/xsh") demo_program
    demo_args [] [lit "/bin/xsh"] []) as (s & l & _ & Hsp' & Hc & Him & _ & Hclear & Hsub & Hlen & _).
  - rewrite <- Ef. exact Hsp.
  - rewrite Hh, Hk. vm_compute. intuition discriminate.
  - rewrite Hk. discriminate.
  - exact demo_wide_found.
  - exact Hx.
  - exact Hpg.
  - intros i g Hi Hg. rewrite <- Ef in Hg. rewrite Hh, Hd. rewrite Hs in Hi.
    pose proof (demo_wide_low g Hg). unfold in_page, demo_ramdisk_address. lia.
  - rewrite Es. constructor; [vm_compute; discriminate|constructor].
  - rewrite Es. vm_compute. discriminate.
  - repeat constructor; try lia. exists []. reflexivity.
  - constructor.
  - vm_compute. discriminate.
  - rewrite Es in Hlen. change (seg_bytes [Phdr 1 120 4194304 8 8]) with 4096 in Hlen.
    assert (Hn : length (tail (rev (usable_pages 4096 819200))) = 199%nat) by (vm_compute; reflexivity). rewrite Hn in Hlen.
    destruct l as [|f l']; [cbn in Hlen; lia|]. exists s, f, l'. split; [exact Hsp'|]. split; [exact Hc|].
    split; [exact (im_stack _ _ _ _ _ _ _ _ Him)|]. split; [|split].
    + intros a Ha. apply Hclear. intros g Hg. rewrite <- Ef in Hg. pose proof (demo_wide_low g Hg). rewrite Hh. unfold in_page, demo_ramdisk_address in *. lia.
    + intros g Hg. apply demo_wide_low. rewrite Ef. right. apply Hsub, Hg.
    + cbn [length] in Hlen. lia.
Qed.

Definition demo_exec_frame (path : Z) : xbks_syscall_frame :=
  SyscallFrame 0 0 0 0 0 0 0 0 0 path (entry_sp demo_args [] + 8) 0 0 0 XBKS_SYS_EXECVE 0 0 0.

Lemma demo_holds s x t : reads s 819200 x t -> user_holds (demo_running s) 819200 x t.
Proof. intros H i b Hi. unfold demo_running. cbn [with_mm k_mm]. rewrite user_byte_cr3. exact (H i b Hi). Qed.

(** Its own arguments as path and vector. *)
Lemma demo_path s a :
  reads s 819200 a (str "/bin/xsh" ++ [0]) -> entry_sp demo_args [] <= a -> a + 8 < XBKS_USER_STACK_TOP ->
  USER_IMAGE_MIN <= a /\ a + Z.of_nat (length (str "/bin/xsh")) < XBKS_USER_TOP /\
  (length (str "/bin/xsh") <= 255)%nat /\ text (str "/bin/xsh") /\ user_holds (demo_running s) 819200 a (str "/bin/xsh" ++ [0]).
Proof.
  intros R H1 H2. assert (Hsp : entry_sp demo_args [] = 140737488347088) by (vm_compute; reflexivity). rewrite Hsp in *.
  unfold XBKS_USER_STACK_TOP, USER_IMAGE_MIN, XBKS_USER_TOP in *. change (length (str "/bin/xsh")) with 8%nat. do 3 (split; [lia|]).
  split; [apply text_check; reflexivity|exact (demo_holds _ _ _ R)].
Qed.

Lemma demo_vector s a :
  reads s 819200 (entry_sp demo_args [] + 8) (le_bytes 8 a) -> reads s 819200 (entry_sp demo_args [] + 16) (le_bytes 8 0) ->
  reads s 819200 a (str "/bin/xsh" ++ [0]) -> entry_sp demo_args [] <= a -> a + 8 < XBKS_USER_STACK_TOP ->
  user_strings (demo_running s) 819200 (entry_sp demo_args [] + 8) (MAX_ARGS - 1) demo_args.
Proof.
  intros W1 W2 R H1 H2. pose proof (demo_path s a R H1 H2) as (P1 & P2 & P3 & P4 & P5). assert (Hsp : entry_sp demo_args [] = 140737488347088) by (vm_compute; reflexivity). rewrite Hsp in *.
  unfold XBKS_USER_STACK_TOP in H2. right. split; [lia|]. split; [vm_compute; reflexivity|]. split.
  - vm_compute. intuition discriminate.
  - intros [|i] t Hi; [|discriminate]. injection Hi as <-. exists a. rewrite Z.mul_0_r, Z.add_0_r. split; [exact (demo_holds _ _ _ W1)|].
    split; [unfold in_u64, XBKS_USER_TOP in *; cbn [length str] in P2; lia|]. repeat (split; [assumption|]). exact P5.
  - exact (demo_holds _ _ _ W2).
Qed.

Lemma execve_correct_witness :
  exists k l a k', running k [819200] l 819200 /\
    syscall_execve (demo_exec_frame a) k =
      inl ((0, set_frame_user 4194304 140737488347088 (demo_exec_frame a)), k') /\
    exists f l', running k' [f] l' f /\ f <> 819200 /\ 819200 ∈ l'.
Proof.
  destruct demo_running_ok as (s & f & l & Hsp & Hc & Habi & Hsame & Hlow & Hlen). destruct demo_wide_space as (_ & Hh & Hkv).
  destruct demo_program_fields as (Hd & Hs & Hx & Hdir).
  destruct Habi as (_ & A2 & A3 & _ & _). destruct (A2 0%nat (str "/bin/xsh") eq_refl) as (a & W & R & H1 & H2).
  change (Z.of_nat (length (str "/bin/xsh"))) with 8 in H2.
  assert (Hk : running (demo_running s) [819200] (f :: l) 819200) by (split; [apply space_write_cr3, Hsp|split; [left|reflexivity]]).
  pose proof (demo_vector s a W A3 R H1 H2) as Hv. assert (H409 : f <> 819200) by (intros ->; apply (space_root _ _ _ 819200 Hsp); left).
  destruct (demo_program_in s Hsame) as (Hpg & Eseg & Eent).
  exists (demo_running s), (f :: l), a.
  destruct (execve_correct (demo_running s) [819200] l 819200 f
    (set_image 819200 4194304 (entry_sp demo_args []) 8388608 zero_process) demo_program (demo_exec_frame a) (str "/bin/xsh") demo_args [])
    as (k' & l' & E & _ & Hk' & _ & Hl' & _).
  - exact Hk.
  - reflexivity.
  - reflexivity.
  - exact (demo_path s a R H1 H2).
  - exact Hv.
  - left. split; reflexivity.
  - change (frame_ok (hhdm_offset_value s) (kernel_cr3_value s)). rewrite (proj1 Hc), (proj1 (proj2 Hc)), Hh, Hkv. vm_compute. intuition discriminate.
  - change (kernel_cr3_value s <> f). rewrite (proj1 (proj2 Hc)), Hkv. pose proof (Hlow f ltac:(left)). lia.
  - reflexivity.
  - vm_compute. intuition discriminate.
  - refine (find_file_same _ demo_wide (demo_running s) _ _ eq_refl demo_wide_found).
    apply bytes_at_ext. intros x Hx'. apply Hsame. apply Hx'.
  - exact Hx.
  - exact Hpg.
  - intros i g Hi Hg. change (k_mm (demo_running s)) with (xbks_write_cr3 s 819200). cbn [xbks_write_cr3 hhdm_offset_value].
    rewrite (proj1 Hc), Hh, Hd. rewrite Hs in Hi. pose proof (Hlow g Hg). unfold in_page, demo_ramdisk_address, demo_hhdm. lia.
  - change (ram (k_mm (demo_running s))) with (ram s). rewrite Eseg. constructor; [vm_compute; discriminate|constructor].
  - change (ram (k_mm (demo_running s))) with (ram s). rewrite Eseg.
    change (seg_bytes [Phdr 1 120 4194304 8 8]) with 4096. lia.
  - vm_compute. discriminate.
  - exists k'. split; [exact Hk|]. change (ram (k_mm (demo_running s))) with (ram s) in E. rewrite Eent in E.
    split; [exact E|]. exists f, l'. split; [|split; [exact H409|exact (Hl' [] 819200 upath_root eq_refl)]]. exact Hk'.
Defined.
