(* ===== verification/Triples.v ===== *)
(** * A Hoare logic for the system calls

    Triples over the monad [K] of src/kernel/process.c, and the handlers that only touch
    descriptors, the devices and the memory of the running process, proved for every
    invariant that such steps keep ([UserInvariant], [HandlerInvariant]). *)

From Stdlib Require Import Ascii String.
From S2P Require Import Prelude CMem CStr Pmm Vmm VmmSpec Ramdisk RamdiskSpec RamdiskArchive RamdiskListing RamdiskImage RamdiskProps Elf Keyboard Kernel Loader Syscalls ProcTable Lifecycle UserMem FileProps StackSpec DirProps.

(** ** Triples

    From a state with [J] the computation ends in one with [J], with an answer that [Q]
    accepts; or it stops, but not outside an object. *)
Definition safe {A} (J : kernel -> Prop) (c : K A) (Q : A -> Prop) : Prop := forall k, J k ->
  match c k with
  | inl (a, k') => J k' /\ Q a
  | inr s => s <> OutOfObject
  end.

Definition any {A} : A -> Prop := fun _ => True.

Lemma safe_ret {A} J (a : A) (Q : A -> Prop) : Q a -> safe J (mret a) Q.
Proof. intros H k Hk. split; assumption. Qed.

Lemma safe_bind {A B} J (c : K A) (f : A -> K B) (P : A -> Prop) Q :
  safe J c P -> (forall a, P a -> safe J (f a) Q) -> safe J (c ≫= f) Q.
Proof.
  intros Hc Hf k Hk. rewrite run_bind. specialize (Hc k Hk). destruct (c k) as [[a k1]|s]; [|exact Hc].
  destruct Hc as [H1 H2]. exact (Hf a H2 k1 H1).
Qed.

Lemma safe_stopped {A} J s (Q : A -> Prop) : s <> OutOfObject -> safe J (stopped s) Q.
Proof. intros H k _. exact H. Qed.

Lemma safe_in_object {A} J (o : option A) a : o = Some a -> safe J (in_object o) (eq a).
Proof. intros ->. apply safe_ret. reflexivity. Qed.

(** A computation that reads the state and keeps it. *)
Lemma safe_read {A} (J : kernel -> Prop) (c : K A) Q : (forall k, J k -> exists a, c k = inl (a, k) /\ Q a) -> safe J c Q.
Proof. intros H k Hk. destruct (H k Hk) as (a & -> & Ha). split; assumption. Qed.

Lemma safe_get_kernel (J : kernel -> Prop) : safe J get_kernel J.
Proof. intros k Hk. split; exact Hk. Qed.

Create HintDb safe.

(** One step of a sequence, by a triple of the database. *)
Ltac safe_next := eapply safe_bind; [solve [eauto 3 with safe]|]; cbv beta.
Ltac safe_done := apply safe_ret; exact I.

(** A string with its end; in a buffer of at most 256 bytes. *)
Definition ended (d : list Z) : Prop := exists s t, d = s ++ 0 :: t /\ text s.
Definition terminated (d : list Z) : Prop := (length d <= 256)%nat /\ ended d.

(** ** The archive *)

(** A place of the archive that machine arithmetic can handle. *)
Definition archive_placed (k : kernel) : Prop := 0 <= rd_size (k_ramdisk k) < 2 ^ 62.

Lemma placed_length k : archive_placed k -> Z.of_nat (length (ramdisk_image k)) < 2 ^ 62.
Proof. intros H. unfold archive_placed in H. unfold ramdisk_image. rewrite length_bytes_at. lia. Qed.

(** ** The process table *)

(** An open directory has a path with its end. *)
Definition fd_ok (f : process_fd) : Prop :=
  fd_kind f = FD_DIR -> terminated (f_path (fd_file f)) /\ 0 <= fd_offset f < 2 ^ 64.

Record process_ok (p : process) : Prop := {
  po_fds : length (fds p) = MAX_FDS;
  po_open : Forall fd_ok (fds p);
  po_vfork : forall i, vfork_parent p = Some i -> (i < MAX_PROCESSES)%nat;
}.

(** What the handlers rely on. *)
Record sound (k : kernel) : Prop := {
  so_size : length (processes k) = MAX_PROCESSES;
  so_current : (current_process k < MAX_PROCESSES)%nat;
  so_processes : Forall process_ok (processes k);
  so_archive : archive_placed k;
}.

(** A predicate on the process table and the place of the archive. *)
Definition table_predicate (J : kernel -> Prop) : Prop := forall k k',
  processes k' = processes k -> current_process k' = current_process k -> k_ramdisk k' = k_ramdisk k -> J k -> J k'.

Lemma sound_table : table_predicate sound.
Proof.
  intros k k' Hp Hc Hr [H1 H2 H3 H4]. split; [congruence..|]. unfold archive_placed in *. rewrite Hr. exact H4.
Qed.

Lemma closed_fd_ok : fd_ok zero_fd.
Proof. intros H. discriminate. Qed.

Lemma zero_process_ok : process_ok zero_process.
Proof.
  split; [reflexivity| |discriminate]. apply Forall_replicate, closed_fd_ok.
Qed.

Lemma fresh_process_ok n : process_ok (fresh_process n).
Proof.
  split; [reflexivity| |discriminate]. apply Forall_app. split; [|apply Forall_replicate, closed_fd_ok].
  do 3 (constructor; [intros H; discriminate|]). constructor.
Qed.

Lemma process_ok_same p q : fds q = fds p -> vfork_parent q = vfork_parent p -> process_ok p -> process_ok q.
Proof. intros H1 H2 [P1 P2 P3]. split; [rewrite H1; exact P1|rewrite H1; exact P2|rewrite H2; exact P3]. Qed.

Lemma sound_insert k i p : sound k -> process_ok p -> sound (with_processes k (<[i := p]> (processes k))).
Proof.
  intros [H1 H2 H3 H4] Hp. split; [|exact H2| |exact H4]; cbn [with_processes processes].
  - rewrite length_insert. exact H1.
  - apply Forall_insert; [exact H3|exact Hp].
Qed.

Lemma this_process_ok k : sound k -> exists p, processes k !! current_process k = Some p /\ process_ok p.
Proof.
  intros Hk. destruct (lookup_lt_is_Some_2 (processes k) (current_process k)) as [p Hp]; [rewrite (so_size _ Hk); apply Hk|].
  exists p. split; [exact Hp|]. exact (Forall_lookup_1 _ _ _ _ (so_processes _ Hk) Hp).
Qed.

Lemma fd_in_range_iff fd : in_u64 fd -> fd_in_range fd = true -> 0 <= fd < 16.
Proof. unfold fd_in_range, in_u64. change (Z.of_nat MAX_FDS) with 16. intros H Hr. apply Z.ltb_lt in Hr. lia. Qed.


(** ** The interface

    What a handler needs of an invariant: it knows the table to be sound, it survives the
    devices, stores into user memory and new descriptors of the running process. *)

Class UserInvariant (J : kernel -> Prop) : Prop := {
  inv_sound k : J k -> sound k;
  inv_devices k k' : k_mm k' = k_mm k -> k_ramdisk k' = k_ramdisk k -> processes k' = processes k ->
    current_process k' = current_process k -> J k -> J k';
  inv_store va v : user_va va -> safe J (user_store va v) any;
}.

Class HandlerInvariant (J : kernel -> Prop) : Prop := {
  inv_user :: UserInvariant J;
  inv_fds k p l : J k -> processes k !! current_process k = Some p -> process_ok (set_fds l p) ->
    J (with_processes k (<[current_process k := set_fds l p]> (processes k)));
}.

Lemma user_store_runs va v k a k' : user_store va v k = inl (a, k') -> exists s, k' = with_mm k s.
Proof.
  unfold user_store. rewrite run_bind. cbn [get_kernel]. destruct (mmu _ _) as [x|]; [|discriminate]. intros [= _ <-]. eexists. reflexivity.
Qed.

#[export] Instance sound_invariant : HandlerInvariant sound.
Proof.
  split; [split|].
  - trivial.
  - intros k k' _ Hr Hp Hc. apply sound_table; assumption.
  - intros va v _ k Hk. unfold user_store. rewrite run_bind. cbn [get_kernel]. destruct (mmu _ _); [|discriminate].
    split; [|exact I]. revert Hk. apply sound_table; reflexivity.
  - intros k p l Hk _ Hp. exact (sound_insert k _ _ Hk Hp).
Qed.

(** ** User memory *)

(** The [n] addresses from [va] are in the user half. *)
Definition user_area (va n : Z) : Prop := forall i, 0 <= i < n -> user_va (va + i).

Lemma user_area_valid va n : in_u64 va -> in_u64 n -> user_range_is_valid va n = true -> user_area va n.
Proof.
  intros Ha Hn H i Hi. apply user_range_iff in H; [|exact Ha|exact Hn]. unfold USER_IMAGE_MIN, XBKS_USER_TOP, user_va in *. lia.
Qed.

Lemma user_area_part va n a m : user_area va n -> va <= a -> a + m <= va + n -> user_area a m.
Proof. intros H H1 H2 i Hi. replace (a + i) with (va + (a - va + i)) by lia. apply H. lia. Qed.

Lemma user_area_first va n : user_area va n -> 0 < n -> user_va va.
Proof. intros H Hn. rewrite <- (Z.add_0_r va). apply H. lia. Qed.

Section Memory.
Context (J : kernel -> Prop) `{HJ : !UserInvariant J}.

Lemma safe_user_load va : safe J (user_load va) (fun b => 0 <= b < 256).
Proof using. intros k Hk. unfold user_load. rewrite run_bind. cbn [get_kernel]. destruct (mmu _ _); [|discriminate]. split; [exact Hk|apply rd8_range]. Qed.

Lemma safe_load_le n va : safe J (user_load_le n va) any.
Proof using.
  revert va. induction n as [|n IH]; intros va; cbn [user_load_le]; [safe_done|].
  eapply safe_bind; [apply safe_user_load|]. intros b _. eapply safe_bind; [apply IH|]. intros; safe_done.
Qed.

Lemma safe_load_bytes n va : safe J (user_load_bytes n va) any.
Proof using.
  revert va. induction n as [|n IH]; intros va; cbn [user_load_bytes]; [safe_done|].
  eapply safe_bind; [apply safe_user_load|]. intros b _. eapply safe_bind; [apply IH|]. intros; safe_done.
Qed.

(** A store at the start of an area, and the rest of it. *)
Lemma safe_store_then {B} va n v (c : K B) Q : user_area va n -> 0 < n -> (user_area (va + 1) (n - 1) -> safe J c Q) ->
  safe J (_ ← user_store va v; c) Q.
Proof using HJ.
  intros Ha Hn Hc. eapply safe_bind; [apply inv_store, (user_area_first _ _ Ha Hn)|]. intros _ _. apply Hc, (user_area_part _ _ _ _ Ha); lia.
Qed.

Lemma safe_store_le n va v : user_area va (Z.of_nat n) -> safe J (user_store_le n va v) any.
Proof using HJ.
  revert va v. induction n as [|n IH]; intros va v Ha; cbn [user_store_le]; [safe_done|].
  apply (safe_store_then _ _ _ _ _ Ha); [lia|]. intros H. apply IH. replace (Z.of_nat n) with (Z.of_nat (S n) - 1) by lia. exact H.
Qed.

Lemma safe_store_bytes va l : user_area va (Z.of_nat (length l)) -> safe J (user_store_bytes va l) any.
Proof using HJ.
  revert va. induction l as [|b l IH]; intros va Ha; cbn [user_store_bytes]; [safe_done|].
  apply (safe_store_then _ _ _ _ _ Ha); [cbn [length]; lia|]. intros H. apply IH.
  replace (Z.of_nat (length l)) with (Z.of_nat (length (b :: l)) - 1) by (cbn [length]; lia). exact H.
Qed.

Lemma safe_copy_out n va src : user_area va (Z.of_nat n) -> safe J (user_copy_out n va src) any.
Proof using HJ.
  revert va src. induction n as [|n IH]; intros va src Ha; cbn [user_copy_out]; [safe_done|].
  eapply safe_bind; [apply safe_get_kernel|]. intros k _. apply (safe_store_then _ _ _ _ _ Ha); [lia|]. intros H. apply IH.
  replace (Z.of_nat n) with (Z.of_nat (S n) - 1) by lia. exact H.
Qed.

Lemma safe_read_key : safe J read_key any.
Proof using HJ.
  intros k Hk. unfold read_key. destruct (xbks_keyboard_read_char_blocking _ _) as [[[ch sh] rest]|]; [|discriminate].
  split; [|exact I]. revert Hk. apply inv_devices; reflexivity.
Qed.

Lemma safe_read_stdin n va : user_area va (Z.of_nat n) -> safe J (read_stdin n va) any.
Proof using HJ.
  revert va. induction n as [|n IH]; intros va Ha; cbn [read_stdin]; [safe_done|].
  eapply safe_bind; [apply safe_read_key|]. intros c _. apply (safe_store_then _ _ _ _ _ Ha); [lia|]. intros H. apply IH.
  replace (Z.of_nat n) with (Z.of_nat (S n) - 1) by lia. exact H.
Qed.

Lemma safe_copy_kernel_loop n va name rest : text name -> user_area va (Z.of_nat n + 1) -> safe J (copy_kernel_loop n va (name ++ 0 :: rest)) any.
Proof using HJ.
  revert n va. induction name as [|c name IH]; intros [|n] va Ht Ha; cbn [app copy_kernel_loop];
    try (apply inv_store, (user_area_first _ _ Ha); lia).
  apply text_cons in Ht as [Hc Ht]. destruct (c =? 0); [apply inv_store, (user_area_first _ _ Ha); lia|].
  apply (safe_store_then _ _ _ _ _ Ha); [lia|]. intros H. apply IH; [exact Ht|].
  replace (Z.of_nat n + 1) with (Z.of_nat (S n) + 1 - 1) by lia. exact H.
Qed.

Lemma safe_copy_kernel_string va capacity d : ended d -> 0 <= capacity -> user_area va capacity -> safe J (copy_kernel_string va capacity d) any.
Proof using HJ.
  intros (s & t & -> & Ht) H0 Ha. unfold copy_kernel_string. destruct (Z.eqb_spec capacity 0); [safe_done|].
  apply safe_copy_kernel_loop; [exact Ht|]. replace (Z.of_nat (Z.to_nat (capacity - 1)) + 1) with capacity by lia. exact Ha.
Qed.

Lemma safe_copy_user_loop source s rest :
  text s -> (length s + length rest = 256)%nat ->
  safe J (copy_user_loop (length rest) source (Z.of_nat (length s)) (s ++ rest) 256) (fun '(ok, d) => ok = true -> terminated d).
Proof using.
  revert s. induction rest as [|x rest IH]; intros s Hs Hl; cbn [length copy_user_loop].
  - eapply safe_bind; [apply safe_in_object, buf_set_ok; change (256 -u 1) with 255; rewrite length_app; lia|].
    intros d _. apply safe_ret. discriminate.
  - destruct (negb _); [apply safe_ret; discriminate|]. eapply safe_bind; [apply safe_user_load|]. intros c Hc.
    cbv beta in Hc. eapply safe_bind; [apply safe_in_object, buf_set_app|]. intros d <-. destruct (Z.eqb_spec c 0) as [->|Hne].
    + apply safe_ret. intros _. cbn [length] in Hl. split; [rewrite length_app; cbn [length]; lia|]. exists s, rest. split; [reflexivity|exact Hs].
    + specialize (IH (s ++ [c])). rewrite length_app, <- app_assoc in IH. cbn [length app] in IH, Hl.
      replace (Z.of_nat (length s) + 1) with (Z.of_nat (length s + 1)) by lia. apply IH; [|lia].
      apply Forall_app. split; [exact Hs|]. constructor; [lia|constructor].
Qed.

Lemma safe_copy_user_string a : safe J (copy_user_string (uninit 256) MAX_STRING a) (fun '(ok, d) => ok = true -> terminated d).
Proof using.
  unfold copy_user_string. destruct (_ || _); [apply safe_ret; discriminate|].
  exact (safe_copy_user_loop a [] (uninit 256) ltac:(constructor) eq_refl).
Qed.

Lemma safe_copy_array n a count acc : Forall terminated acc ->
  safe J (copy_array_loop n a count acc) (fun o => forall l, o = Some l -> Forall terminated l).
Proof using.
  revert count acc. induction n as [|n IH]; intros count acc Hacc; cbn [copy_array_loop]; [apply safe_ret; discriminate|].
  destruct (negb _); [apply safe_ret; discriminate|]. eapply safe_bind; [apply safe_load_le|]. intros v _.
  destruct (v =? 0); [apply safe_ret; intros l [= <-]; apply Forall_rev, Hacc|].
  eapply safe_bind; [apply safe_copy_user_string|]. intros [[|] d] Hd; [|apply safe_ret; discriminate].
  apply IH. constructor; [exact (Hd eq_refl)|exact Hacc].
Qed.

Lemma safe_copy_vector max a : safe J (copy_user_string_array max a) (fun o => forall l, o = Some l -> Forall terminated l).
Proof using.
  unfold copy_user_string_array. destruct (a =? 0); [apply safe_ret; intros l [= <-]; constructor|]. apply safe_copy_array. constructor.
Qed.
End Memory.


#[export] Hint Resolve safe_get_kernel safe_user_load safe_load_le safe_load_bytes safe_copy_user_string safe_copy_vector : safe.

(** ** Files and descriptors *)

Lemma buf_holds_terminated d q : buf_holds d q -> terminated d.
Proof. intros (Hl & Ht & t & ->). split; [rewrite Hl; reflexivity|]. exists q, t. split; [reflexivity|exact Ht]. Qed.

Lemma lookup_terminated rd img q f : lookup_spec rd img q (Some f) -> terminated (f_path f).
Proof. intros [(e & _ & _ & _ & (H & _))|[_ (H & _)]]; exact (buf_holds_terminated _ _ H). Qed.

Section Files.
Context (J : kernel -> Prop) `{HJ : !UserInvariant J}.

Lemma found_terminated k path : archive_placed k -> terminated path ->
  exists o, xbks_ramdisk_find (rd_data (k_ramdisk k)) (ramdisk_image k) (rd_available (k_ramdisk k)) (Some path) false = Some o /\
    forall f, o = Some f -> terminated (f_path f).
Proof using.
  intros Hk (_ & s & t & -> & Ht). destruct (rd_available (k_ramdisk k)); [|exists None; split; [reflexivity|discriminate]].
  destruct (find_ok (rd_data (k_ramdisk k)) (ramdisk_image k) (bytes_at_bytes _ _ _) (placed_length k Hk) s t Ht) as (o & E & Ho).
  exists o. split; [exact E|]. intros f ->. exact (lookup_terminated _ _ _ _ Ho).
Qed.

Lemma safe_find_file path : terminated path -> safe J (find_file path) (fun o => forall f, o = Some f -> terminated (f_path f)).
Proof using HJ.
  intros Hp. apply safe_read. intros k Hk. destruct (found_terminated k path (so_archive k (inv_sound k Hk)) Hp) as (o & E & Ho).
  exists o. split; [|exact Ho]. unfold find_file. rewrite run_bind. cbn [get_kernel]. rewrite E. reflexivity.
Qed.

(** A child of a directory comes with a name of at most 255 characters. *)
Definition named_child (f : xbks_ramdisk_file) : Prop := terminated (f_path f) /\
  exists q c r, base_name (f_path f) (f_path f) = Some (shown_name q c ++ 0 :: r) /\ text (shown_name q c).

Lemma safe_read_directory path index : terminated path -> 0 <= index < 2 ^ 64 ->
  safe J (read_directory path index) (fun o => forall f, o = Some f -> named_child f).
Proof using HJ.
  intros (_ & s & t & -> & Ht) Hi. apply safe_read. intros k Hk. unfold read_directory. rewrite run_bind. cbn [get_kernel].
  destruct (rd_available (k_ramdisk k)); [|exists None; split; [reflexivity|discriminate]].
  destruct (read_dir_ok (rd_data (k_ramdisk k)) (ramdisk_image k) s t (Z.to_nat index) (bytes_at_bytes _ _ _) (placed_length k (so_archive k (inv_sound k Hk))) Ht ltac:(lia))
    as (o & E & Ho). rewrite Z2Nat.id in E by lia. rewrite E. exists o. split; [reflexivity|]. intros f ->.
  destruct (listing _ _ !! _) as [x|]; [|discriminate Ho]. destruct Ho as (g & [= <-] & Hg).
  destruct (shown_child _ _ _ _ Hg) as (r & Eb & Htx & _). split; [|exists (norm s), (child_name x), r; split; assumption].
  destruct x as [[c nested] e]. exact (buf_holds_terminated _ _ (proj1 Hg)).
Qed.

Lemma safe_this_process : safe J this_process process_ok.
Proof using HJ.
  apply safe_read. intros k Hk. destruct (this_process_ok k (inv_sound k Hk)) as (p & Hp & Ho). rewrite run_this_process, Hp. exists p. split; [reflexivity|exact Ho].
Qed.

Lemma safe_this_fd fd : 0 <= fd < 16 -> safe J (this_fd fd) fd_ok.
Proof using HJ.
  intros Hfd. apply safe_read. intros k Hk. destruct (this_process_ok k (inv_sound k Hk)) as (p & Hp & [P1 P2 _]). rewrite (run_this_fd fd k p Hp).
  destruct (lookup_lt_is_Some_2 (fds p) (Z.to_nat fd)) as [f Hf]; [rewrite P1; unfold MAX_FDS; lia|]. rewrite Hf.
  exists f. split; [reflexivity|exact (Forall_lookup_1 _ _ _ _ P2 Hf)].
Qed.

Lemma process_ok_fd p fd f : process_ok p -> fd_ok f -> process_ok (set_fds (<[fd := f]> (fds p)) p).
Proof using.
  intros [P1 P2 P3] Hf. split; [cbn [set_fds fds]; rewrite length_insert; exact P1|apply Forall_insert; assumption|exact P3].
Qed.

End Files.

Lemma safe_put_fd J `{!HandlerInvariant J} fd f : fd_ok f -> safe J (put_fd fd f) any.
Proof.
  intros Hf k Hk. destruct (this_process_ok k (inv_sound k Hk)) as (p & Hp & Ho). rewrite (run_put_fd fd f k p Hp). split; [|exact I].
  exact (inv_fds k p _ Hk Hp (process_ok_fd p _ f Ho Hf)).
Qed.
#[export] Hint Resolve safe_this_process safe_this_fd safe_put_fd closed_fd_ok inv_user : safe.

(** A string constant. *)
Lemma literal_terminated s : forallb (fun c => (0 <? c) && (c <? 256)) (str s) && (length (lit s) <=? 256)%nat = true -> terminated (lit s).
Proof.
  intros H. apply andb_prop in H as [H Hl]. split; [apply Nat.leb_le, Hl|]. exists (str s), []. split; [reflexivity|apply text_check, H].
Qed.

(** ** The handlers *)

Section Handlers.
Context (J : kernel -> Prop) `{HJ : !HandlerInvariant J}.

Lemma safe_syscall_read fd buffer count : in_u64 fd -> in_u64 buffer -> in_u64 count -> safe J (syscall_read fd buffer count) any.
Proof using HJ.
  intros Hfd Hb Hc. unfold syscall_read. destruct (user_range_is_valid buffer count) eqn:Hv; cbn [negb]; [|safe_done].
  pose proof (user_area_valid _ _ Hb Hc Hv) as Ha. destruct (fd_in_range fd) eqn:Er; cbn [negb]; [|safe_done].
  pose proof (fd_in_range_iff fd Hfd Er) as H16. safe_next. intros f _. unfold in_u64 in Hc.
  case_bool_decide; [safe_done|]. case_bool_decide.
  { eapply safe_bind; [apply (safe_read_stdin J); rewrite Z2Nat.id by lia; exact Ha|]. intros; safe_done. }
  case_bool_decide as Hfile; cbn [negb]; [|safe_done]. destruct (Z.leb_spec (f_size (fd_file f)) (fd_offset f)); [safe_done|]. cbv zeta.
  eapply safe_bind; [apply (safe_copy_out J); eapply user_area_part; [exact Ha|lia|]|].
  - pose proof (uwrap_range 64 (f_size (fd_file f) - fd_offset f)). destruct (Z.ltb_spec count (f_size (fd_file f) -u fd_offset f)); lia.
  - intros _ _. eapply safe_bind; [apply (safe_put_fd J); intros Hd; cbn in Hd; congruence|]. intros; safe_done.
Qed.

Lemma safe_syscall_write fd buffer count : safe J (syscall_write fd buffer count) any.
Proof using HJ.
  unfold syscall_write. destruct (_ && _); [safe_done|]. destruct (negb _); [safe_done|]. safe_next. intros l _.
  apply (safe_bind _ _ _ any); [|intros; safe_done]. intros k Hk. split; [|exact I]. revert Hk. apply inv_devices; reflexivity.
Qed.

Lemma safe_syscall_open a : safe J (syscall_open a) any.
Proof using HJ.
  unfold syscall_open. safe_next. intros p _. destruct (allocate_fd p) as [fd|]; [|safe_done].
  safe_next. intros [[|] path] Hpath; cbn [negb]; [|safe_done].
  eapply safe_bind; [exact (safe_find_file J path (Hpath eq_refl))|]. intros [file|] Hfile; [|safe_done].
  eapply safe_bind; [apply (safe_put_fd J); intros _; cbn [fd_file fd_offset]; split; [exact (Hfile file eq_refl)|lia]|]. intros; safe_done.
Qed.

Lemma safe_syscall_close fd : in_u64 fd -> safe J (syscall_close fd) any.
Proof using HJ.
  intros Hfd. unfold syscall_close. destruct (fd_in_range fd) eqn:Er; cbn [negb orb]; [|safe_done]. destruct (fd <=? 2); [safe_done|].
  pose proof (fd_in_range_iff fd Hfd Er) as H16. safe_next. intros f _. case_bool_decide; [safe_done|]. safe_next. intros; safe_done.
Qed.

Lemma safe_syscall_lseek fd offset whence : in_u64 fd -> safe J (syscall_lseek fd offset whence) any.
Proof using HJ.
  intros Hfd. unfold syscall_lseek. destruct (fd_in_range fd) eqn:Er; cbn [negb]; [|safe_done].
  pose proof (fd_in_range_iff fd Hfd Er) as H16. safe_next. intros f _. case_bool_decide as Hf; cbn [negb]; [|safe_done].
  match goal with |- context [match ?o with Some _ => _ | None => _ end] => destruct o end; [|safe_done].
  eapply safe_bind; [apply (safe_put_fd J); intros Hd; cbn in Hd; congruence|]. intros; safe_done.
Qed.

Lemma safe_syscall_access a : safe J (syscall_access a) any.
Proof using HJ.
  unfold syscall_access. safe_next. intros [[|] path] Hpath; cbn [negb]; [|safe_done].
  eapply safe_bind; [exact (safe_find_file J path (Hpath eq_refl))|]. intros; safe_done.
Qed.

Lemma safe_syscall_getcwd buffer size : in_u64 buffer -> safe J (syscall_getcwd buffer size) any.
Proof using HJ.
  intros Hb. unfold syscall_getcwd. destruct (_ <? _); [safe_done|]. destruct (user_range_is_valid buffer 2) eqn:Hv; cbn [negb]; [|safe_done].
  eapply safe_bind; [apply (safe_store_bytes J); exact (user_area_valid buffer 2 Hb ltac:(unfold in_u64; lia) Hv)|]. intros; safe_done.
Qed.

Lemma safe_syscall_uname buffer : in_u64 buffer -> safe J (syscall_uname buffer) any.
Proof using HJ.
  intros Hb. unfold syscall_uname. destruct (user_range_is_valid buffer 390) eqn:Hv; cbn [negb]; [|safe_done].
  pose proof (user_area_valid buffer 390 Hb ltac:(unfold in_u64; lia) Hv) as Ha.
  repeat (eapply safe_bind; [apply (safe_copy_kernel_string J); [apply literal_terminated; reflexivity|lia|apply (user_area_part _ _ _ _ Ha); lia]|intros _ _]).
  safe_done.
Qed.

(** *** Directories *)

(** The descriptor stays an open directory during the loop. *)
Definition directory_open (fd : Z) (k : kernel) : Prop := J k /\
  exists p f, processes k !! current_process k = Some p /\ fds p !! Z.to_nat fd = Some f /\ fd_kind f = FD_DIR.

#[local] Instance directory_invariant fd : UserInvariant (directory_open fd).
Proof using HJ.
  split.
  - intros k [Hk _]. exact (inv_sound k Hk).
  - intros k k' Hm Hr Hp Hc [Hk (p & f & H1 & H2)]. split; [exact (inv_devices k k' Hm Hr Hp Hc Hk)|]. exists p, f. rewrite Hp, Hc. split; assumption.
  - intros va v Hva k [Hk Hd]. pose proof (inv_store va v Hva k Hk) as H. destruct (user_store va v k) as [[a k']|st] eqn:E; [|exact H].
    apply user_store_runs in E as [s ->]. split; [|exact I]. split; [apply H|exact Hd].
Qed.

Lemma safe_directory_fd fd : safe (directory_open fd) (this_fd fd) (fun f => fd_kind f = FD_DIR /\ fd_ok f).
Proof using HJ.
  apply safe_read. intros k [Hk (p & f & Hp & Hf & Hd)]. rewrite (run_this_fd fd k p Hp), Hf. exists f. split; [reflexivity|]. split; [exact Hd|].
  destruct (this_process_ok k (inv_sound k Hk)) as (p' & Hp' & [_ P2 _]). rewrite Hp in Hp'. injection Hp' as <-. exact (Forall_lookup_1 _ _ _ _ P2 Hf).
Qed.

Lemma safe_directory_put fd f : fd_kind f = FD_DIR -> fd_ok f -> safe (directory_open fd) (put_fd fd f) any.
Proof using HJ.
  intros Hd Hf k [Hk (p & g & Hp & Hg & _)]. pose proof (safe_put_fd J fd f Hf k Hk) as H. rewrite (run_put_fd fd f k p Hp) in H |- *.
  destruct H as [H _]. split; [|exact I]. split; [exact H|].
  exists (set_fds (<[Z.to_nat fd := f]> (fds p)) p), f. cbn [with_fd with_processes processes current_process].
  split; [apply list_lookup_insert_eq, (lookup_lt_Some _ _ _ Hp)|]. split; [apply list_lookup_insert_eq, (lookup_lt_Some _ _ _ Hg)|exact Hd].
Qed.

Lemma safe_store_dirent fd address offset reclen child name capacity :
  ended name -> 0 <= capacity -> user_area address (19 + capacity) ->
  safe (directory_open fd) (store_dirent address offset reclen child name capacity) any.
Proof using HJ.
  intros Hn Hc Ha. unfold store_dirent.
  do 3 (eapply safe_bind; [apply safe_store_le; [exact _|apply (user_area_part _ _ _ _ Ha); lia]|]; intros _ _).
  eapply safe_bind; [apply inv_store, (Ha 18); lia|]. intros _ _.
  apply safe_copy_kernel_string; [exact _|exact Hn|exact Hc|apply (user_area_part _ _ _ _ Ha); lia].
Qed.

(** Every record takes 32 bytes or more, so the rounds are enough. *)
Lemma safe_getdents_loop n fd buffer count written :
  user_area buffer count -> 0 <= written <= count -> count < 2 ^ 48 -> count - written < 24 * Z.of_nat n ->
  safe (directory_open fd) (getdents_loop n fd buffer count written) any.
Proof using HJ.
  intros Ha. revert written. induction n as [|n IH]; intros written Hw Hc Hn; [lia|]. cbn [getdents_loop].
  eapply safe_bind; [apply safe_directory_fd|]. intros f [Hd Hf]. destruct (Hf Hd) as [Hpath Hoff].
  eapply safe_bind; [exact (safe_read_directory (directory_open fd) _ _ Hpath Hoff)|]. intros [child|] Hchild; [|safe_done].
  destruct (Hchild child eq_refl) as (_ & q & c & r & Eb & Ht). pose proof (shown_name_length q c) as Hl.
  destruct (dirent_length_bounds q c Hl) as (Hlen & Hfits & Hal).
  eapply safe_bind; [apply safe_in_object, Eb|]. intros _ <-.
  eapply safe_bind; [apply safe_in_object; rewrite strlen_cstr, cstr_app by exact Ht; reflexivity|]. intros _ <-. cbv zeta. rewrite Hal.
  rewrite (uwrap_small 64 (written + _)) by lia. destruct (Z.ltb_spec count (written + dirent_length (shown_name q c))); [safe_done|].
  eapply safe_bind; [apply safe_store_dirent; [exists (shown_name q c), r; split; [reflexivity|exact Ht]|lia|apply (user_area_part _ _ _ _ Ha); lia]|]. intros _ _.
  eapply safe_bind; [apply safe_directory_put; [exact Hd|intros _; split; [exact Hpath|apply uwrap_range; lia]]|]. intros _ _. apply IH; lia.
Qed.

Lemma safe_syscall_getdents64 fd buffer count : in_u64 fd -> in_u64 buffer -> in_u64 count ->
  safe J (syscall_getdents64 fd buffer count) any.
Proof using HJ.
  intros Hfd Hb Hc. unfold syscall_getdents64. destruct (fd_in_range fd) eqn:Er; cbn [negb]; [|safe_done].
  pose proof (fd_in_range_iff fd Hfd Er) as H16. intros k Hk. destruct (this_process_ok k (inv_sound k Hk)) as (p & Hp & [P1 P2 P3]).
  rewrite run_bind, (run_this_fd fd k p Hp). destruct (lookup_lt_is_Some_2 (fds p) (Z.to_nat fd)) as [f Hf]; [rewrite P1; unfold MAX_FDS; lia|].
  rewrite Hf. case_bool_decide as Hd; cbn [negb]; [|split; [exact Hk|exact I]].
  destruct (user_range_is_valid buffer count) eqn:Hv; cbn [negb]; [|split; [exact Hk|exact I]].
  pose proof (user_area_valid _ _ Hb Hc Hv) as Ha.
  apply user_range_iff in Hv; [|exact Hb|exact Hc]. unfold USER_IMAGE_MIN, XBKS_USER_TOP in Hv. unfold in_u64 in Hc.
  pose proof (Z.div_mod count 24). pose proof (Z.mod_pos_bound count 24). pose proof (Z.div_pos count 24).
  pose proof (safe_getdents_loop (S (Z.to_nat (count / 24))) fd buffer count 0 Ha ltac:(lia) ltac:(lia) ltac:(lia) k) as H2.
  assert (Hopen : directory_open fd k) by (split; [exact Hk|]; exists p, f; repeat split; assumption). specialize (H2 Hopen).
  destruct (getdents_loop _ _ _ _ _ k) as [[a k']|s]; [|exact H2]. destruct H2 as [[H2 _] _]. split; [exact H2|exact I].
Qed.

Lemma safe_with_frame frame c : safe J c any -> safe J (with_frame frame c) any.
Proof using. intros H. unfold with_frame. eapply safe_bind; [exact H|]. intros; safe_done. Qed.
End Handlers.

#[export] Hint Resolve safe_syscall_read safe_syscall_write safe_syscall_open safe_syscall_close safe_syscall_lseek safe_syscall_access
  safe_syscall_getcwd safe_syscall_uname safe_syscall_getdents64 : safe.
#[export] Hint Extern 1 (HandlerInvariant _) => exact _ : safe.

(** The registers that carry arguments. *)
Definition argument_words (frame : xbks_syscall_frame) : Prop := in_u64 (rdi frame) /\ in_u64 (rsi frame) /\ in_u64 (rdx frame).
