(* ===== verification/Confine.v ===== *)
(** * Changes confined to some address spaces

    What the memory operations of the system calls have in common: a change of the
    memory manager's state that keeps the address spaces well formed, takes no frame that
    was not free or part of a space, and leaves every space outside a given list, and all
    memory outside the free frames and the spaces, as it was. *)

From S2P Require Import Prelude CMem Pmm Vmm VmmSpec VmmClone VmmDestroy SpaceProps Elf Kernel Loader Syscalls UserMem FileProps LoaderSpec.

(** ** Occupied memory *)

(** The frame [f] is free, or a table or page of one of the spaces. *)
Definition occupied (s : mm) (roots l : list Z) (f : Z) : Prop :=
  f ∈ l \/ exists r q, r ∈ roots /\ upath q /\ node s r q = Some f.

(** The address [a] lies in no occupied frame. *)
Definition apart (s : mm) (roots l : list Z) (a : Z) : Prop :=
  forall f, occupied s roots l f -> ~ in_page (hhdm_offset_value s) f a.

Lemma apart_free s roots l a f : apart s roots l a -> f ∈ l -> ~ in_page (hhdm_offset_value s) f a.
Proof. intros H Hf. apply H. left. exact Hf. Qed.

Lemma apart_off s roots l r a : r ∈ roots -> apart s roots l a -> off_space s r a.
Proof. intros Hr H q f Hq Hf. apply H. right. exists r, q. auto. Qed.

Lemma apart_outside s roots l r a : r ∈ roots -> apart s roots l a -> outside s r l a.
Proof. intros Hr H. split; [intros f; apply (apart_free s roots l a f H)|exact (apart_off s roots l r a Hr H)]. Qed.

(** ** Confined changes *)

Record confined (mine roots roots' l l' : list Z) (s s' : mm) : Prop := {
  cf_space : space s' roots' l';
  cf_hhdm : hhdm_offset_value s' = hhdm_offset_value s;
  cf_kernel : kernel_cr3_value s' = kernel_cr3_value s;
  cf_occupied f : occupied s' roots' l' f -> occupied s roots l f;
  cf_user r va : r ∈ roots -> r ∈ roots' -> r ∉ mine -> user_va va -> user_byte s' r va = user_byte s r va;
  cf_mem a : apart s roots l a -> rd8 (ram s') a = rd8 (ram s) a;
}.

Lemma confined_refl mine roots l s : space s roots l -> confined mine roots roots l l s s.
Proof. intros H. split; auto. Qed.

Lemma confined_apart mine roots roots' l l' s s' a : confined mine roots roots' l l' s s' -> apart s roots l a -> apart s' roots' l' a.
Proof. intros H Ha f Hf. rewrite (cf_hhdm _ _ _ _ _ _ _ H). apply Ha, (cf_occupied _ _ _ _ _ _ _ H), Hf. Qed.

Lemma confined_trans mine roots0 roots1 roots2 l0 l1 l2 s0 s1 s2 :
  (forall r, r ∈ roots0 -> r ∈ roots2 -> r ∉ mine -> r ∈ roots1) ->
  confined mine roots0 roots1 l0 l1 s0 s1 -> confined mine roots1 roots2 l1 l2 s1 s2 -> confined mine roots0 roots2 l0 l2 s0 s2.
Proof.
  intros Hin H1 H2. split.
  - apply H2.
  - rewrite (cf_hhdm _ _ _ _ _ _ _ H2). apply H1.
  - rewrite (cf_kernel _ _ _ _ _ _ _ H2). apply H1.
  - intros f Hf. apply H1, H2, Hf.
  - intros r va H0 Hr Hm Hva. pose proof (Hin r H0 Hr Hm) as Hr1. rewrite (cf_user _ _ _ _ _ _ _ H2), (cf_user _ _ _ _ _ _ _ H1) by assumption. reflexivity.
  - intros a Ha. rewrite (cf_mem _ _ _ _ _ _ _ H2); [apply H1, Ha|exact (confined_apart _ _ _ _ _ _ _ _ H1 Ha)].
Qed.

Lemma confined_mono mine mine' roots roots' l l' s s' :
  (forall r, r ∈ roots -> r ∈ roots' -> r ∈ mine -> r ∈ mine') -> confined mine roots roots' l l' s s' -> confined mine' roots roots' l l' s s'.
Proof. intros Hm H. split; try apply H. intros r va Hr Hr' Hn. apply H; [exact Hr|exact Hr'|auto]. Qed.

(** Spaces nobody looks at any more are dropped. *)
Lemma confined_ext mine roots roots' roots1 roots1' l l' s s' :
  (forall r, r ∈ roots <-> r ∈ roots1) -> (forall r, r ∈ roots' <-> r ∈ roots1') ->
  confined mine roots roots' l l' s s' -> confined mine roots1 roots1' l l' s s'.
Proof.
  intros E E' H.
  assert (Ho : forall t ra rb k f, (forall r, r ∈ ra <-> r ∈ rb) -> occupied t ra k f -> occupied t rb k f).
  { intros t ra rb k f Hab [Hf|(r & q & Hr & Hq)]; [left; exact Hf|right; exists r, q; rewrite <- Hab; auto]. }
  split; try apply H.
  - apply (space_sub _ roots'); [apply H|]. intros r. apply E'.
  - intros f Hf. apply (Ho _ roots roots1 _ _ E), H, (Ho _ roots1' roots'); [intros r; symmetry; apply E'|exact Hf].
  - intros r va Hr Hr'. apply H; [apply E, Hr|apply E', Hr'].
  - intros a Ha. apply H. intros f Hf. exact (Ha f (Ho _ _ _ _ _ E Hf)).
Qed.

(** ** The operations *)

Lemma confined_stored roots l r va bs s s' : r ∈ roots -> stored roots l r va bs s s' -> confined [r] roots roots l l s s'.
Proof.
  intros Hr H. split.
  - apply H.
  - apply (sd_config _ _ _ _ _ _ _ H).
  - apply (sd_config _ _ _ _ _ _ _ H).
  - intros f [Hf|(r' & q & Hr' & Hq & Hf)]; [left; exact Hf|]. rewrite (sd_nodes _ _ _ _ _ _ _ H) in Hf by assumption. right. exists r', q. auto.
  - intros r' a Hr' _ Hne Ha. rewrite (sd_user _ _ _ _ _ _ _ H) by assumption. apply not_elem_of_cons in Hne as [Hne _].
    rewrite bool_decide_eq_false_2 by exact Hne. reflexivity.
  - intros a Ha. apply (sd_kernel _ _ _ _ _ _ _ H), (apart_off _ roots l); assumption.
Qed.

Lemma confined_refilled roots l l' r v s s' : r ∈ roots -> refilled roots l l' r v s s' -> confined [r] roots roots l l' s s'.
Proof.
  intros Hr H. split.
  - apply H.
  - apply (rf_config _ _ _ _ _ _ _ _ H).
  - apply (rf_config _ _ _ _ _ _ _ _ H).
  - intros f [Hf|(r' & q & Hr' & Hq & Hf)]; [left; apply H, Hf|].
    destruct (rf_new _ _ _ _ _ _ _ _ H r' q f Hr' Hq Hf) as [Hn|[_ Hn]]; [right; exists r', q; auto|left; exact Hn].
  - intros r' a Hr' _ Hne Ha. apply not_elem_of_cons in Hne as [Hne _]. apply H; assumption.
  - intros a Ha. apply H, (apart_outside _ roots l); assumption.
Qed.

Lemma confined_cr3 mine roots l s c : space s roots l -> confined mine roots roots l l s (xbks_write_cr3 s c).
Proof.
  intros Hsp. split.
  - apply space_write_cr3, Hsp.
  - reflexivity.
  - reflexivity.
  - intros f [Hf|(r & q & Hr & Hq & Hf)]; [left; exact Hf|]. rewrite node_write_cr3 in Hf. right. exists r, q. auto.
  - intros r va _ _ _ _. apply user_byte_cr3.
  - reflexivity.
Qed.

(** The root of a new space comes from the free frames. *)
Lemma confined_created mine s roots l f :
  space s roots (f :: l) -> frame_ok (hhdm_offset_value s) (kernel_cr3_value s) -> kernel_cr3_value s <> f ->
  exists s', xbks_create_kernel_mapped_pml4 s = (f, s') /\ confined mine roots (f :: roots) (f :: l) l s s' /\ same_config s s' /\
    (forall i q, upath (i :: q) -> node s' f (i :: q) = None) /\ f <> 0 /\ f ∉ roots.
Proof.
  intros Hsp Hk Hkf. destruct (create_pml4_spec s roots l f Hsp Hk Hkf) as (s' & E & Hsp' & Hc & Hm & Hempty & Hn & _).
  exists s'. split; [exact E|]. assert (Hfo : frame_ok (hhdm_offset_value s') f) by (eapply space_root; [exact Hsp'|left]).
  split; [|split; [exact Hc|split; [exact Hempty|split]]].
  2: { destruct Hfo as (_ & ? & _). lia. }
  2: { intros Hin. apply (space_root _ _ _ _ Hsp Hin). left. }
  split.
  - exact Hsp'.
  - apply Hc.
  - apply Hc.
  - intros g [Hg|(r & q & Hr & Hq & Hg)]; [left; right; exact Hg|]. apply elem_of_cons in Hr as [->|Hr].
    + destruct q as [|i q]; [injection Hg as <-; left; left|]. rewrite Hempty in Hg by exact Hq. discriminate.
    + rewrite Hn in Hg by assumption. right. exists r, q. auto.
  - intros r va Hr _ _ Hva. eapply created_user; [exact Hsp|exact Hsp'|left|exact Hc|exact Hm|exact Hn|exact Hr|exact Hva].
  - intros a Ha. apply Hm, (apart_free _ _ _ _ _ Ha). left.
Qed.

(** A copy, whole or broken off, is made of free frames. *)
Lemma confined_kept s0 roots l0 dst s l :
  space s0 roots l0 -> dst ∈ roots -> kept s0 roots l0 dst s l -> ledger l0 dst s l -> confined [dst] roots roots l0 l s0 s.
Proof.
  intros Hsp Hd K L. split.
  - apply K.
  - apply (kp_config _ _ _ _ _ _ K).
  - apply (kp_config _ _ _ _ _ _ K).
  - intros f [Hf|(r & q & Hr & Hq & Hf)]; [left; apply L; left; exact Hf|]. destruct (decide (r = dst)) as [->|Hne].
    + destruct q as [|i q]; [right; exists dst, []; auto|]. left. apply L. right. exists (i :: q). auto.
    + rewrite (kp_other _ _ _ _ _ _ K) in Hf by assumption. right. exists r, q. auto.
  - intros r va Hr _ Hne Hva. apply not_elem_of_cons in Hne as [Hne _]. pose proof (upath_path va Hva) as Hu.
    eapply user_byte_agree; [exact Hsp|apply K|exact Hr|exact Hva|apply (kp_config _ _ _ _ _ _ K)|apply (kp_other _ _ _ _ _ _ K); assumption|].
    intros x a Hx Ha. apply (kp_mem _ _ _ _ _ _ K). eapply (source_page_untouched s0 roots l0 dst Hsp Hd r); eassumption.
  - intros a Ha. apply (kp_mem _ _ _ _ _ _ K). split.
    + intros f. apply (apart_free _ _ _ _ f Ha).
    + intros q x Hq _ Hx. exact (apart_off _ _ _ _ _ Hd Ha q x Hq Hx).
Qed.

(** A clone into an empty root, whether it succeeds or not. *)
Lemma confined_clone s roots l src dst :
  space s roots l -> src ∈ roots -> dst ∈ roots -> src <> dst -> (forall i q, upath (i :: q) -> node s dst (i :: q) = None) ->
  exists b s' l', xbks_vmm_clone_user_space s src dst XBKS_USER_TOP = (b, s') /\ confined [dst] roots roots l l' s s' /\ same_config s s'.
Proof.
  intros Hsp Hs Hd Hne Hempty. pose proof (clone_ok s roots l src dst Hsp Hs Hd Hne XBKS_USER_TOP ltac:(apply Z.le_refl) Hempty) as C.
  destruct (xbks_vmm_clone_user_space s src dst XBKS_USER_TOP) as [b s'].
  assert (CK : exists l', kept s roots l dst s' l' /\ ledger l dst s' l').
  { destruct b; destruct C as [l' C]; exists l'; [split; [exact (cl_kept _ _ _ _ _ _ _ _ C)|exact (cl_ledger _ _ _ _ _ _ _ _ C)]|].
    destruct C as (K & L & _). split; assumption. }
  destruct CK as (l' & K & L). exists b, s', l'. split; [reflexivity|]. split; [exact (confined_kept _ _ _ _ _ _ Hsp Hd K L)|apply K].
Qed.

Lemma confined_destroyed s0 roots l0 r s l :
  space s0 roots l0 -> r ∈ roots -> destroyed s0 roots l0 r s l -> confined [] roots (filter (fun x => x <> r) roots) l0 l s0 s.
Proof.
  intros Hsp Hr D. assert (Hsub : forall x, x ∈ filter (fun x => x <> r) roots -> x ∈ roots /\ x <> r) by (intros x Hx; apply list_elem_of_filter in Hx; tauto).
  split.
  - apply D.
  - apply (ds_config _ _ _ _ _ _ D).
  - apply (ds_config _ _ _ _ _ _ D).
  - intros f [Hf|(r' & q & Hr' & Hq & Hf)].
    + apply (ds_free _ _ _ _ _ _ D) in Hf as [Hf|(q & Hq & Hf)]; [left; exact Hf|right; exists r, q; auto].
    + apply Hsub in Hr' as [Hr' Hne]. rewrite (ds_other _ _ _ _ _ _ D) in Hf by assumption. right. exists r', q. auto.
  - intros r' va _ Hr' _ Hva. apply Hsub in Hr' as [Hr' Hne]. apply (destroyed_user s0 roots l0 r Hsp Hr s l r' va D Hr' Hne Hva).
  - intros a Ha. apply (ds_mem _ _ _ _ _ _ D). exact (apart_off _ _ _ _ _ Hr Ha).
Qed.

Lemma confined_destroy s roots l r :
  space s roots l -> r ∈ roots ->
  exists l', confined [] roots (filter (fun x => x <> r) roots) l l' s (xbks_vmm_destroy_user_space s r XBKS_USER_TOP) /\
    same_config s (xbks_vmm_destroy_user_space s r XBKS_USER_TOP).
Proof.
  intros Hsp Hr. destruct (destroy_ok s roots l r Hsp Hr XBKS_USER_TOP ltac:(apply Z.le_refl)) as [l' D]. exists l'.
  split; [exact (confined_destroyed s roots l r _ l' Hsp Hr D)|apply D].
Qed.
