(* ===== verification/LoadConfined.v ===== *)
(** * Loading any file touches the new address space only

    LoaderSpec and ProgramSpec say what loading builds from a well-formed file.  Here the
    file is arbitrary, apart from program headers whose sums do not wrap, and loading may
    stop anywhere: whatever happens, the other address spaces keep their bytes and no
    frame is taken that was not free. *)

From Stdlib Require Import Ascii String.
From S2P Require Import Prelude CMem CStr Pmm Vmm VmmSpec Ramdisk RamdiskSpec RamdiskArchive RamdiskImage RamdiskProps Elf ElfProps Keyboard Kernel Loader Syscalls ProcTable UserMem FileProps LoaderSpec ProgramSpec StackSpec SpaceProps Triples Confine.

(** ** Changes of one space *)

Definition reshapes (roots : list Z) (r : Z) (l : list Z) (s s' : mm) : Prop :=
  same_config s s' /\ exists l', confined [r] roots roots l l' s s'.

Lemma reshapes_refl roots r l s : space s roots l -> reshapes roots r l s s.
Proof. intros H. split; [apply same_config_refl|]. exists l. apply confined_refl, H. Qed.

Lemma reshapes_then roots r l s s1 s2 :
  reshapes roots r l s s1 -> (forall l1, confined [r] roots roots l l1 s s1 -> reshapes roots r l1 s1 s2) -> reshapes roots r l s s2.
Proof.
  intros [C1 [l1 H1]] H. destruct (H l1 H1) as [C2 [l2 H2]]. split; [exact (same_config_trans _ _ _ C1 C2)|].
  exists l2. refine (confined_trans _ _ _ _ _ _ _ _ _ _ _ H1 H2). auto.
Qed.

Lemma reshapes_chain roots r l l1 s s1 s2 :
  reshapes roots r l s s1 -> confined [r] roots roots l l1 s s1 -> reshapes roots r l1 s1 s2 -> reshapes roots r l s s2.
Proof.
  intros [C1 _] H1 [C2 [l2 H2]]. split; [exact (same_config_trans _ _ _ C1 C2)|].
  exists l2. refine (confined_trans _ _ _ _ _ _ _ _ _ _ _ H1 H2). auto.
Qed.

Lemma reshapes_refilled roots r l l' v s s' : r ∈ roots -> refilled roots l l' r v s s' -> reshapes roots r l s s'.
Proof. intros Hr H. split; [apply H|]. exists l'. exact (confined_refilled _ _ _ _ _ _ _ Hr H). Qed.

Lemma reshapes_stored roots r l va bs s s' : r ∈ roots -> stored roots l r va bs s s' -> reshapes roots r l s s'.
Proof. intros Hr H. split; [apply H|]. exists l. exact (confined_stored _ _ _ _ _ _ _ Hr H). Qed.

Section Space.
Context (roots : list Z) (r : Z) (Hr : r ∈ roots).

Lemma map_range_reshapes s l base size flags :
  space s roots l -> 0 <= base -> 0 <= size -> base + size < 2 ^ 47 -> 0 <= flags < 4096 ->
  reshapes roots r l s (snd (map_user_range s r base size flags)).
Proof using Hr.
  intros Hsp H0 H1 H2 Hf. pose proof (map_user_range_spec s roots l r base size flags Hsp Hr H0 H1 H2 Hf) as M. cbn zeta in M.
  destruct (map_user_range s r base size flags) as [[|] s']; cbn [snd].
  - destruct M as (_ & l' & _ & M). exact (reshapes_refilled _ _ _ _ _ _ _ Hr M).
  - destruct M as (mid & l' & _ & M & _). exact (reshapes_refilled _ _ _ _ _ _ _ Hr M).
Qed.

Lemma write_reshapes s l va src size :
  space s roots l -> 0 <= va -> 0 <= size -> va + size <= 2 ^ 47 -> source_ok s r src (Z.to_nat size) ->
  reshapes roots r l s (snd (write_process_memory s r va src size)).
Proof using Hr.
  intros Hsp H0 H1 H2 Hs.
  destruct (write_process_memory_spec s roots l r va src (Z.to_nat size) Hsp Hr H0 ltac:(lia) Hs) as (b & s' & k & E & _ & H & _).
  rewrite Z2Nat.id in E by lia. rewrite E. exact (reshapes_stored _ _ _ _ _ _ _ Hr H).
Qed.

(** *** Segments *)

(** The sums of a program header do not wrap. *)
Definition sums_fit (ph : elf64_phdr) : Prop := p_vaddr ph + p_memsz ph < 2 ^ 64 /\ p_offset ph + p_filesz ph < 2 ^ 64.

Definition file_far (s : mm) (l : list Z) (file : xbks_ramdisk_file) : Prop :=
  forall i, 0 <= i < f_size file -> apart s roots l (f_data file + i).

Lemma load_segment_reshapes s l file ph :
  space s roots l -> phdr_range ph -> sums_fit ph -> file_far s l file ->
  reshapes roots r l s (snd (load_segment s r file ph)).
Proof using Hr.
  intros Hsp (Hpo & Hv & Hf & Hm) [F1 F2] Hfar. unfold load_segment. destruct (negb _); [apply reshapes_refl, Hsp|].
  destruct (segment_refused (f_size file) ph) eqn:E; [apply reshapes_refl, Hsp|].
  unfold segment_refused in E. apply orb_false_iff in E as [E E4]. apply orb_false_iff in E as [E E3]. apply orb_false_iff in E as [E1 E2].
  rewrite uwrap_small in E2, E4 by lia. unfold USER_IMAGE_MIN, XBKS_USER_TOP in *.
  pose proof (map_range_reshapes s l (p_vaddr ph) (p_memsz ph) XBKS_PAGE_WRITABLE Hsp ltac:(lia) ltac:(lia) ltac:(lia) ltac:(unfold XBKS_PAGE_WRITABLE; lia)) as M.
  destruct (map_user_range s r (p_vaddr ph) (p_memsz ph) XBKS_PAGE_WRITABLE) as [[|] s1]; cbn [snd] in M |- *; [|exact M].
  apply (reshapes_then _ _ _ _ _ _ M). intros l1 H1. apply write_reshapes; [apply H1|lia..|].
  intros i Hi. rewrite <- Z.add_assoc. apply (apart_off _ roots l1); [exact Hr|].
  apply (confined_apart _ _ _ _ _ _ _ _ H1), Hfar. lia.
Qed.

Lemma file_far_confined M l l' s s' file : confined M roots roots l l' s s' -> file_far s l file -> file_far s' l' file.
Proof using. intros H Hf i Hi. exact (confined_apart _ _ _ _ _ _ _ _ H (Hf i Hi)). Qed.

Lemma file_same_confined M m l l' s s' file :
  confined M roots roots l l' s s' -> file_far s l file -> file_same m file s -> file_same m file s'.
Proof using. intros H Hf Hs i Hi. rewrite (cf_mem _ _ _ _ _ _ _ H); [apply Hs, Hi|apply Hf, Hi]. Qed.

Section Segments.
Context (m : mem) (file : xbks_ramdisk_file).
Let table := f_data file + e_phoff m (f_data file).
Context (Hhead : sizeof_ehdr <= f_size file).
Context (Htable : e_phoff m (f_data file) + e_phnum m (f_data file) * sizeof_phdr <= f_size file).
Context (Hfit : forall i, 0 <= i < e_phnum m (f_data file) -> sums_fit (phdr_at m table i)).

Lemma load_segments_reshapes n s l i :
  space s roots l -> file_far s l file -> file_same m file s -> 0 <= i ->
  reshapes roots r l s (snd (load_segments n s r file (f_data file) table i)).
Proof using Hr Hhead Htable Hfit.
  revert s l i. induction n as [|n IH]; intros s l i Hsp Hfar Hsame Hi; cbn [load_segments]; [apply reshapes_refl, Hsp|].
  rewrite (phnum_same m file Hhead s Hsame). destruct (Z.ltb_spec i (e_phnum m (f_data file))) as [Hlt|]; [|apply reshapes_refl, Hsp].
  pose proof (header_same m file Htable s i Hsame ltac:(lia)) as Eh. fold table in Eh. rewrite Eh.
  pose proof (load_segment_reshapes s l file (phdr_at m table i) Hsp (phdr_at_range _ _ _) (Hfit i ltac:(lia)) Hfar) as M.
  destruct (load_segment s r file (phdr_at m table i)) as [[|] s1]; cbn [snd] in M |- *; [|exact M].
  apply (reshapes_then _ _ _ _ _ _ M). intros l1 H1. apply IH; [apply H1|..|lia].
  - exact (file_far_confined _ _ _ _ _ _ H1 Hfar).
  - exact (file_same_confined _ _ _ _ _ _ _ H1 Hfar Hsame).
Qed.
End Segments.

(** The headers of a file that [validate_elf] accepts. *)
Definition headers_fit (m : mem) (file : xbks_ramdisk_file) : Prop :=
  validate_elf m file <> None -> forall i, 0 <= i < e_phnum m (f_data file) ->
  sums_fit (phdr_at m (f_data file + e_phoff m (f_data file)) i).

(** What [validate_elf] has checked of the headers. *)
Lemma validate_table m file h :
  0 <= f_size file < 2 ^ 62 -> validate_elf m file = Some h ->
  h = f_data file /\ f_directory file = false /\ sizeof_ehdr <= f_size file /\
  e_phoff m h + e_phnum m h * sizeof_phdr <= f_size file.
Proof using.
  intros Hsz. unfold validate_elf. destruct (f_directory file); [discriminate|]. cbn [orb]. destruct (f_data file =? 0); [discriminate|].
  destruct (Z.ltb_spec (f_size file) sizeof_ehdr); [discriminate|]. cbn [orb].
  match goal with |- (if ?b then _ else _) = _ -> _ => destruct b eqn:E end; [discriminate|]. intros [= <-].
  apply orb_false_iff in E as [E E2]. apply orb_false_iff in E as [_ E1].
  pose proof (ld_le_range 2 m (f_data file + 56)) as Hn. fold (ld16 m (f_data file + 56)) in Hn. fold (e_phnum m (f_data file)) in Hn.
  pose proof (ld64_range m (f_data file + 32)) as Ho. fold (e_phoff m (f_data file)) in Ho. unfold in_u64 in Ho.
  unfold sizeof_phdr in *. rewrite (uwrap_small 64 (_ * 56)) in E2 by lia. rewrite uwrap_small in E2 by lia.
  repeat (split; [reflexivity || assumption|]). lia.
Qed.

Lemma load_elf_reshapes s l p file :
  space s roots l -> cr3 p = r -> 0 <= f_size file < 2 ^ 62 -> file_far s l file -> headers_fit (ram s) file ->
  let '(b, s', q) := load_elf_into_process s p file in reshapes roots r l s s' /\ cr3 q = r.
Proof using Hr.
  intros Hsp Hp Hsz Hfar Hfit. unfold load_elf_into_process. destruct (validate_elf (ram s) file) as [h|] eqn:Ev.
  2: { split; [apply reshapes_refl, Hsp|exact Hp]. }
  destruct (validate_table _ _ _ Hsz Ev) as (-> & _ & Hhead & Htab).
  pose proof (load_segments_reshapes (ram s) file Hhead Htab (Hfit ltac:(congruence)) (Z.to_nat 65536) s l 0 Hsp Hfar ltac:(intros j _; reflexivity) ltac:(lia)) as M.
  rewrite Hp. destruct (load_segments _ _ _ _ _ _ _) as [[|] s1]; cbn [snd] in M; (split; [exact M|]); [reflexivity|exact Hp].
Qed.

(** *** The stack *)

Lemma push_bytes_reshapes s l stack data :
  space s roots l -> in_u64 stack -> Z.of_nat (length data) < 2 ^ 64 -> Forall (fun b => 0 <= b < 256) data ->
  let '(b, s', st) := push_bytes s r stack data in reshapes roots r l s s' /\ in_u64 st.
Proof using Hr.
  intros Hsp Hst Hlen Hb. unfold push_bytes. pose proof (uwrap_range 64 (stack - Z.of_nat (length data)) ltac:(lia)) as Hu.
  fold (stack -u Z.of_nat (length data)) in Hu. set (st := stack -u Z.of_nat (length data)) in *. cbv zeta.
  destruct (_ && _) eqn:E; [split; [apply reshapes_refl, Hsp|exact Hu]|].
  assert (M : reshapes roots r l s (snd (write_process_memory s r st (FromBytes data) (Z.of_nat (length data))))).
  { destruct data as [|b data].
    - cbn. apply reshapes_refl, Hsp.
    - assert (Hv : user_range_is_valid st (Z.of_nat (length (b :: data))) = true).
      { destruct (user_range_is_valid st (Z.of_nat (length (b :: data)))); [reflexivity|]. cbn [length] in E.
        rewrite (proj2 (Z.eqb_neq (Z.of_nat (S (length data))) 0)) in E by lia. discriminate. }
      apply user_range_iff in Hv; [|exact Hu|unfold in_u64; lia]. unfold USER_IMAGE_MIN, XBKS_USER_TOP in Hv. cbn [length] in Hv |- *.
      apply write_reshapes; [exact Hsp|lia|lia|lia|]. split; [cbn [length]; lia|exact Hb]. }
  destruct (write_process_memory _ _ _ _ _) as [b s1]. split; [exact M|exact Hu].
Qed.

(** What a routine of the stack builder leaves: a change of this space, here or on the way out. *)
Definition pushed (l : list Z) (s : mm) (res : option (mm * Z * list Z) + mm) : Prop :=
  match res with
  | inl (Some (s', st, _)) => reshapes roots r l s s' /\ in_u64 st
  | inl None => False
  | inr s' => reshapes roots r l s s'
  end.

Lemma push_strings_reshapes strings s l stack addresses :
  space s roots l -> in_u64 stack -> Forall terminated strings ->
  pushed l s (push_strings s r stack strings addresses).
Proof using Hr.
  intros Hsp Hst H. revert s l stack addresses Hsp Hst. induction H as [|d ds (Hd & t & u & -> & Ht) _ IH]; intros s l stack addresses Hsp Hst;
    cbn [push_strings]; [split; [apply reshapes_refl, Hsp|exact Hst]|].
  rewrite strlen_text by exact Ht. rewrite Nat2Z.id. rewrite length_app in Hd. cbn [length] in Hd.
  replace (take (S (length t)) (t ++ 0 :: u)) with (t ++ [0]).
  2: { change (0 :: u) with ([0] ++ u). rewrite app_assoc, take_app_length'; [reflexivity|rewrite length_app; cbn; lia]. }
  pose proof (push_bytes_reshapes s l stack (t ++ [0]) Hsp Hst) as M. specialize (M ltac:(rewrite length_app; cbn [length]; lia)).
  specialize (M ltac:(apply Forall_app; split; [exact (text_bytes t Ht)|repeat constructor; lia])).
  destruct (push_bytes _ _ _ _) as [[[|] s1] st1]; destruct M as [M Hst1]; [|exact M]. pose proof M as [_ [l1 H1]].
  specialize (IH s1 l1 st1 (st1 :: addresses) (cf_space _ _ _ _ _ _ _ H1) Hst1).
  destruct (push_strings s1 r st1 ds _) as [[[[s2 st2] a2]|]|s2]; cbn [pushed] in IH |- *; [destruct IH as [IH Hu]; split; [|exact Hu]|exact IH|];
    exact (reshapes_chain _ _ _ _ _ _ _ M H1 IH).
Qed.

Lemma push_words_reshapes words s l stack :
  space s roots l -> in_u64 stack -> let '(b, s', st) := push_words s r stack words in reshapes roots r l s s' /\ in_u64 st.
Proof using Hr.
  revert s l stack. induction words as [|w words IH]; intros s l stack Hsp Hst; cbn [push_words]; [split; [apply reshapes_refl, Hsp|exact Hst]|].
  unfold push_u64. pose proof (push_bytes_reshapes s l stack (le_bytes 8 w) Hsp Hst ltac:(cbn [length le_bytes]; lia) (le_bytes_range 8 w)) as M.
  destruct (push_bytes _ _ _ _) as [[[|] s1] st1]; [|exact M]. destruct M as [M Hst1]. pose proof M as [_ [l1 H1]].
  specialize (IH s1 l1 st1 (cf_space _ _ _ _ _ _ _ H1) Hst1). destruct (push_words s1 r st1 words) as [[b s2] st2].
  destruct IH as [IH Hu]. split; [exact (reshapes_chain _ _ _ _ _ _ _ M H1 IH)|exact Hu].
Qed.

Lemma build_stack_reshapes s l p argv envp :
  space s roots l -> cr3 p = r -> Forall terminated argv -> Forall terminated envp ->
  match build_user_stack s p argv envp with
  | inl (Some (s', q)) => reshapes roots r l s s' /\ cr3 q = r
  | inl None => False
  | inr s' => reshapes roots r l s s'
  end.
Proof using Hr.
  intros Hsp Hp Ha He. unfold build_user_stack. rewrite Hp.
  pose proof (map_range_reshapes s l (XBKS_USER_STACK_TOP - XBKS_USER_STACK_SIZE) XBKS_USER_STACK_SIZE XBKS_PAGE_WRITABLE Hsp) as M1.
  specialize (M1 ltac:(apply Z.leb_le; reflexivity) ltac:(apply Z.leb_le; reflexivity) ltac:(reflexivity) ltac:(unfold XBKS_PAGE_WRITABLE; lia)).
  destruct (map_user_range s r _ _ _) as [[|] s1]; cbn [snd] in M1; [|exact M1]. pose proof M1 as [_ [l1 H1]].
  pose proof (push_strings_reshapes (rev envp) s1 l1 XBKS_USER_STACK_TOP [] (cf_space _ _ _ _ _ _ _ H1) ltac:(unfold in_u64, XBKS_USER_STACK_TOP; lia) (Forall_rev He)) as M2.
  destruct (push_strings s1 r _ (rev envp) []) as [[[[s2 st2] a2]|]|s2]; cbn [pushed] in M2; [destruct M2 as [M2 U2]|contradiction|exact (reshapes_chain _ _ _ _ _ _ _ M1 H1 M2)].
  pose proof (reshapes_chain _ _ _ _ _ _ _ M1 H1 M2) as R2. pose proof R2 as [_ [l2 H2]].
  pose proof (push_strings_reshapes (rev argv) s2 l2 st2 [] (cf_space _ _ _ _ _ _ _ H2) U2 (Forall_rev Ha)) as M3.
  destruct (push_strings s2 r st2 (rev argv) []) as [[[[s3 st3] a3]|]|s3]; cbn [pushed] in M3; [destruct M3 as [M3 U3]|contradiction|exact (reshapes_chain _ _ _ _ _ _ _ R2 H2 M3)].
  pose proof (reshapes_chain _ _ _ _ _ _ _ R2 H2 M3) as R3. pose proof R3 as [_ [l3 H3]]. cbv zeta.
  match goal with |- context [push_words s3 r ?st ?ws] => pose proof (push_words_reshapes ws s3 l3 st (cf_space _ _ _ _ _ _ _ H3)) as M4;
    specialize (M4 ltac:(apply land_range_r; [lia|vm_compute; split; [discriminate|reflexivity]])); destruct (push_words s3 r st ws) as [[[|] s4] st4] end;
    destruct M4 as [M4 _]; pose proof (reshapes_chain _ _ _ _ _ _ _ R3 H3 M4) as R4; [split; [exact R4|reflexivity]|exact R4].
Qed.
End Space.

(** ** The process

    Loading gives the process a new image and keeps the rest; the break is the old one or
    the initial one. *)
Definition new_image (p q : process) : Prop :=
  exists c e st b, q = set_image c e st b p /\ (b = brk p \/ b = 8388608).

Lemma new_image_refl p : new_image p p.
Proof. exists (cr3 p), (entry p), (stack p), (brk p). destruct p. split; [reflexivity|left; reflexivity]. Qed.

Lemma new_image_set p q c e st b : new_image p q -> b = brk q \/ b = 8388608 -> new_image p (set_image c e st b q).
Proof.
  intros (? & ? & ? & b0 & -> & Hb0) Hb. exists c, e, st, b. split; [reflexivity|]. cbn [set_image brk] in Hb. destruct Hb as [->|]; [exact Hb0|auto].
Qed.

Lemma load_elf_image s p q file b s' p' : new_image p q -> load_elf_into_process s q file = (b, s', p') -> new_image p p'.
Proof.
  intros Hq. unfold load_elf_into_process. destruct (validate_elf _ _); [|intros [= _ _ <-]; exact Hq].
  destruct (load_segments _ _ _ _ _ _ _) as [[|] s1]; intros [= _ _ <-]; [apply new_image_set; [exact Hq|right; reflexivity]|exact Hq].
Qed.

Lemma build_stack_image s p q argv envp s' p' : new_image p q -> build_user_stack s q argv envp = inl (Some (s', p')) -> new_image p p'.
Proof.
  intros Hq. unfold build_user_stack. destruct (map_user_range _ _ _ _ _) as [[|] s1]; [|discriminate].
  destruct (push_strings _ _ _ (rev envp) _) as [[[[s2 st2] a2]|]|]; try discriminate.
  destruct (push_strings _ _ _ (rev argv) _) as [[[[s3 st3] a3]|]|]; try discriminate.
  destruct (push_words _ _ _ _) as [[[|] s4] st4]; [|discriminate]. intros [= _ <-]. apply new_image_set; [exact Hq|left; reflexivity].
Qed.
(** ** Whole programs *)

(** The kernel's page-table root and the archive are in no frame that may be given out. *)
Record protected (s : mm) (roots l : list Z) (rd : ramdisk_state) : Prop := {
  pt_root : frame_ok (hhdm_offset_value s) (kernel_cr3_value s);
  pt_reserved : ~ occupied s roots l (kernel_cr3_value s);
  pt_archive i : 0 <= i < rd_size rd -> apart s roots l (rd_data rd + i);
}.

Lemma protected_confined mine roots roots' l l' s s' rd :
  confined mine roots roots' l l' s s' -> protected s roots l rd -> protected s' roots' l' rd.
Proof.
  intros H [P1 P2 P3]. split.
  - rewrite (cf_hhdm _ _ _ _ _ _ _ H), (cf_kernel _ _ _ _ _ _ _ H). exact P1.
  - rewrite (cf_kernel _ _ _ _ _ _ _ H). intros Ho. exact (P2 (cf_occupied _ _ _ _ _ _ _ H _ Ho)).
  - intros i Hi. exact (confined_apart _ _ _ _ _ _ _ _ H (P3 i Hi)).
Qed.

(** The archive's bytes stay. *)
Lemma archive_kept mine roots roots' l l' s s' rd i :
  confined mine roots roots' l l' s s' -> protected s roots l rd -> 0 <= i < rd_size rd -> rd8 (ram s') (rd_data rd + i) = rd8 (ram s) (rd_data rd + i).
Proof. intros H Hp Hi. apply (cf_mem _ _ _ _ _ _ _ H), (pt_archive _ _ _ _ Hp), Hi. Qed.

(** A lookup in the archive of [k]. *)
Definition found (k : kernel) (f : xbks_ramdisk_file) : Prop := exists path, terminated path /\
  xbks_ramdisk_find (rd_data (k_ramdisk k)) (ramdisk_image k) (rd_available (k_ramdisk k)) (Some path) false = Some (Some f).

Lemma found_place k f : archive_placed k -> found k f -> f_directory f = false ->
  rd_data (k_ramdisk k) <= f_data f /\ f_data f + f_size f <= rd_data (k_ramdisk k) + rd_size (k_ramdisk k) /\ 0 <= f_size f.
Proof.
  intros Hk (path & (_ & s & t & -> & Ht) & E) Hdir. destruct (rd_available (k_ramdisk k)); [|discriminate].
  destruct (find_ok (rd_data (k_ramdisk k)) (ramdisk_image k) (bytes_at_bytes _ _ _) (placed_length k Hk) s t Ht) as (o & E' & Ho).
  rewrite E in E'. injection E' as <-. unfold archive_placed in Hk.
  destruct Ho as [(e & _ & _ & (_ & _ & Hlen & _) & _ & Hd & Hs & _)|[_ Hi]].
  - unfold ramdisk_image in Hlen. rewrite length_bytes_at in Hlen. lia.
  - destruct Hi as (_ & _ & _ & Hi & _). congruence.
Qed.

(** No program of the archive has a header whose sums wrap. *)
Definition tame (k : kernel) : Prop := forall f, found k f -> headers_fit (ram (k_mm k)) f.

Lemma headers_fit_same m m' file :
  0 <= f_size file < 2 ^ 62 -> (forall i, 0 <= i < f_size file -> rd8 m' (f_data file + i) = rd8 m (f_data file + i)) ->
  headers_fit m file -> headers_fit m' file.
Proof.
  intros Hsz Hm H Hv i Hi. destruct (validate_elf m' file) as [h|] eqn:Ev; [|congruence].
  destruct (validate_table _ _ _ Hsz Ev) as (-> & _ & Hhead & Htab). unfold sizeof_ehdr in Hhead.
  assert (Hld : forall n a, f_data file <= a -> a + Z.of_nat n <= f_data file + f_size file -> ld_le n m' a = ld_le n m a).
  { intros n a H1 H2. apply ld_le_ext. intros b Hb. replace b with (f_data file + (b - f_data file)) by lia. apply Hm. lia. }
  assert (Eo : e_phoff m' (f_data file) = e_phoff m (f_data file)) by (apply (Hld 8%nat); lia).
  assert (En : e_phnum m' (f_data file) = e_phnum m (f_data file)) by (apply (Hld 2%nat); lia).
  assert (Ev' : validate_elf m file = validate_elf m' file).
  { unfold validate_elf, e_ident. destruct (f_directory file); [reflexivity|]. destruct (f_data file =? 0); [reflexivity|].
    destruct (f_size file <? sizeof_ehdr); [reflexivity|]. cbn [orb]. rewrite <- Eo, <- En, !Hm by lia.
    replace (e_machine m (f_data file)) with (e_machine m' (f_data file)) by (apply (Hld 2%nat); lia).
    replace (e_phentsize m (f_data file)) with (e_phentsize m' (f_data file)) by (apply (Hld 2%nat); lia). reflexivity. }
  rewrite En in Hi. pose proof (H ltac:(congruence) i Hi) as Hfit. rewrite Eo.
  replace (phdr_at m' _ i) with (phdr_at m (f_data file + e_phoff m (f_data file)) i); [exact Hfit|].
  pose proof (ld64_range m (f_data file + 32)) as Ho. fold (e_phoff m (f_data file)) in Ho. unfold in_u64 in Ho.
  rewrite Eo, En in Htab. unfold phdr_at, ld32, ld64, sizeof_phdr in *. symmetry. f_equal; (apply Hld; lia).
Qed.

Lemma image_confined mine roots roots' l l' k k' :
  confined mine roots roots' l l' (k_mm k) (k_mm k') -> protected (k_mm k) roots l (k_ramdisk k) -> k_ramdisk k' = k_ramdisk k ->
  ramdisk_image k' = ramdisk_image k.
Proof.
  intros H Hp Hr. unfold ramdisk_image. rewrite Hr. apply bytes_at_ext. intros b Hb.
  replace b with (rd_data (k_ramdisk k) + (b - rd_data (k_ramdisk k))) by lia. apply (archive_kept _ _ _ _ _ _ _ _ _ H Hp). lia.
Qed.

Lemma tame_confined mine roots roots' l l' k k' :
  archive_placed k -> confined mine roots roots' l l' (k_mm k) (k_mm k') -> protected (k_mm k) roots l (k_ramdisk k) ->
  k_ramdisk k' = k_ramdisk k -> tame k -> tame k'.
Proof.
  intros Ha H Hp Hr Ht f Hf. assert (Hf' : found k f).
  { destruct Hf as (path & Hpath & E). exists path. split; [exact Hpath|]. rewrite Hr, (image_confined _ _ _ _ _ _ _ H Hp Hr) in E. exact E. }
  destruct (f_directory f) eqn:Ed.
  { intros Hv. unfold validate_elf in Hv. rewrite Ed in Hv. contradiction. }
  destruct (found_place k f Ha Hf' Ed) as (F1 & F2 & F3). unfold archive_placed in Ha.
  apply (headers_fit_same (ram (k_mm k))); [lia| |exact (Ht f Hf')]. intros i Hi.
  replace (f_data f + i) with (rd_data (k_ramdisk k) + (f_data f + i - rd_data (k_ramdisk k))) by lia.
  apply (archive_kept _ _ _ _ _ _ _ _ _ H Hp). lia.
Qed.

(** Giving a half-built space back. *)
Lemma space_undone f roots l l1 s0 s1 s2 :
  confined [] roots (f :: roots) l l1 s0 s1 -> f ∉ roots -> reshapes (f :: roots) f l1 s1 s2 ->
  cr3_register (xbks_vmm_destroy_user_space s2 f XBKS_USER_TOP) = cr3_register s1 /\
  exists l', confined [] roots roots l l' s0 (xbks_vmm_destroy_user_space s2 f XBKS_USER_TOP).
Proof.
  intros H1 Hf [C2 [l2 H2]]. destruct (confined_destroy s2 (f :: roots) l2 f (cf_space _ _ _ _ _ _ _ H2) ltac:(left)) as (l3 & H3 & C3).
  split; [rewrite (proj2 (proj2 C3)); exact (proj2 (proj2 C2))|]. exists l3.
  assert (H23 : confined [f] (f :: roots) (filter (fun x => x <> f) (f :: roots)) l1 l3 s1 (xbks_vmm_destroy_user_space s2 f XBKS_USER_TOP)).
  { refine (confined_trans _ _ _ _ _ _ _ _ _ _ _ H2 (confined_mono _ _ _ _ _ _ _ _ _ H3)); [auto|]. intros r _ _ Hr. inversion Hr. }
  assert (H03 : confined [f] roots (filter (fun x => x <> f) (f :: roots)) l l3 s0 (xbks_vmm_destroy_user_space s2 f XBKS_USER_TOP)).
  { refine (confined_trans _ _ _ _ _ _ _ _ _ _ _ (confined_mono _ _ _ _ _ _ _ _ _ H1) H23); [|intros r _ _ Hr; inversion Hr].
    intros r Hr _ _. right. exact Hr. }
  apply (confined_mono [f]); [intros r Hr _ Hin; apply list_elem_of_singleton in Hin as ->; contradiction|].
  refine (confined_ext _ _ _ _ _ _ _ _ _ _ _ H03); [reflexivity|]. intros r. rewrite list_elem_of_filter, elem_of_cons. split; [tauto|].
  intros Hr. split; [intros ->; contradiction|right; exact Hr].
Qed.

Section Load.
Context (k : kernel) (roots l : list Z) (Hsp : space (k_mm k) roots l) (Hprot : protected (k_mm k) roots l (k_ramdisk k)).
Context (Hplaced : archive_placed k) (Htame : tame k).

(** What an attempt to load a program does to the memory manager's state: at most a new
    space, the one of the returned process. *)
Definition load_result (p : process) (b : bool) (q : process) (s : mm) : Prop :=
  new_image p q /\ cr3_register s = cr3_register (k_mm k) /\ exists l',
    if b then (cr3 q ∉ roots) /\ confined [] roots (cr3 q :: roots) l l' (k_mm k) s else confined [] roots roots l l' (k_mm k) s.

Lemma load_kept p q : new_image p q -> load_result p false q (k_mm k).
Proof using Hsp. intros Hq. split; [exact Hq|]. split; [reflexivity|]. exists l. apply confined_refl, Hsp. Qed.

Lemma load_undone f l1 s1 s2 p q :
  confined [] roots (f :: roots) l l1 (k_mm k) s1 -> f ∉ roots -> cr3_register s1 = cr3_register (k_mm k) -> new_image p q ->
  reshapes (f :: roots) f l1 s1 s2 -> load_result p false q (xbks_vmm_destroy_user_space s2 f XBKS_USER_TOP).
Proof using.
  intros H1 Hf C1 Hq R. destruct (space_undone f roots l l1 (k_mm k) s1 s2 H1 Hf R) as [C3 H3].
  split; [exact Hq|]. split; [rewrite C3; exact C1|exact H3].
Qed.

Lemma load_program_confined p path argv envp :
  terminated path -> Forall terminated argv -> Forall terminated envp ->
  exists b q s, load_program p path argv envp k = inl ((b, q), with_mm k s) /\ load_result p b q s.
Proof using Hsp Hprot Hplaced Htame.
  intros Hpath Ha He. unfold load_program. rewrite run_bind. cbn [get_kernel]. fold (ramdisk_image k).
  assert (Hk : k = with_mm k (k_mm k)) by (destruct k; reflexivity).
  destruct Hpath as (Hlen & s & t & -> & Ht). rewrite run_bind.
  assert (E : exists o, xbks_ramdisk_find (rd_data (k_ramdisk k)) (ramdisk_image k) (rd_available (k_ramdisk k)) (Some (s ++ 0 :: t)) false = Some o).
  { destruct (rd_available (k_ramdisk k)); [|eauto].
    destruct (find_ok (rd_data (k_ramdisk k)) (ramdisk_image k) (bytes_at_bytes _ _ _) (placed_length k Hplaced) s t Ht) as (o & E & _). eauto. }
  destruct E as [o E]. rewrite E. cbn [in_object]. rewrite run_ret. pose proof (new_image_refl p) as Hr.
  destruct o as [file|]; [|exists false, p, (k_mm k); rewrite <- Hk; split; [reflexivity|exact (load_kept p p Hr)]].
  assert (Hfound : found k file) by (exists (s ++ 0 :: t); split; [split; [exact Hlen|exists s, t; auto]|exact E]).
  destruct (negb (f_executable file)) eqn:Ex; cbn [orb]; [exists false, p, (k_mm k); rewrite <- Hk; split; [reflexivity|exact (load_kept p p Hr)]|].
  destruct (f_directory file) eqn:Ed; [exists false, p, (k_mm k); rewrite <- Hk; split; [reflexivity|exact (load_kept p p Hr)]|].
  destruct (found_place k file Hplaced Hfound Ed) as (F1 & F2 & F3). unfold archive_placed in Hplaced.
  rewrite run_bind, run_on_mm.
  assert (Hl : l = [] \/ exists f l0, l = f :: l0) by (destruct l; eauto).
  pose proof Hsp as Hsp0. destruct Hl as [El|(f & l0 & El)]; rewrite El in Hsp0.
  { unfold xbks_create_kernel_mapped_pml4. rewrite (fp_empty _ (sp_pool _ _ _ Hsp0)). cbn [Z.eqb fst snd]. rewrite run_ret.
    exists false, (set_image 0 (entry p) (stack p) (brk p) p), (k_mm k). split; [reflexivity|].
    apply load_kept, new_image_set; [exact Hr|left; reflexivity]. }
  destruct (confined_created [] (k_mm k) roots l0 f Hsp0 (pt_root _ _ _ _ Hprot)) as (s1 & E1 & H1 & C1 & _ & Hf0 & Hf).
  { intros Hx. apply (pt_reserved _ _ _ _ Hprot). rewrite Hx, El. left. left. }
  rewrite <- El in H1.
  rewrite E1. cbn [fst snd]. destruct (Z.eqb_spec f 0); [contradiction|]. rewrite run_bind. cbn [get_kernel with_mm k_mm].
  pose proof (new_image_set p p f (entry p) (stack p) (brk p) Hr (or_introl eq_refl)) as Hq. set (p1 := set_image f (entry p) (stack p) (brk p) p) in *.
  assert (Hfar : file_far (f :: roots) s1 l0 file).
  { intros i Hi. apply (confined_apart _ _ _ _ _ _ _ _ H1).
    replace (f_data file + i) with (rd_data (k_ramdisk k) + (f_data file + i - rd_data (k_ramdisk k))) by lia. apply (pt_archive _ _ _ _ Hprot). lia. }
  assert (Hfit : headers_fit (ram s1) file).
  { apply (headers_fit_same (ram (k_mm k))); [lia| |exact (Htame file Hfound)]. intros i Hi.
    replace (f_data file + i) with (rd_data (k_ramdisk k) + (f_data file + i - rd_data (k_ramdisk k))) by lia.
    apply (archive_kept _ _ _ _ _ _ _ _ _ H1 Hprot). lia. }
  pose proof (load_elf_reshapes (f :: roots) f ltac:(left) s1 l0 p1 file (cf_space _ _ _ _ _ _ _ H1) eq_refl ltac:(lia) Hfar Hfit) as M.
  destruct (load_elf_into_process s1 p1 file) as [[b2 s2] p2] eqn:E2. destruct M as [M2 Hp2]. pose proof (load_elf_image _ _ _ _ _ _ _ Hq E2) as Hq2.
  assert (Hundo : forall q s', new_image p q -> reshapes (f :: roots) f l0 s1 s' ->
    exists b q' s'', (_ ← put_mm (xbks_vmm_destroy_user_space s' f XBKS_USER_TOP); mret (false, set_image 0 (entry q) (stack q) (brk q) q)) (with_mm k s1) =
      inl ((b, q'), with_mm k s'') /\ load_result p b q' s'').
  { intros q s' Hi R. exists false, (set_image 0 (entry q) (stack q) (brk q) q), (xbks_vmm_destroy_user_space s' f XBKS_USER_TOP).
    split; [reflexivity|].
    exact (load_undone f l0 s1 s' p _ H1 Hf (proj2 (proj2 C1)) (new_image_set _ _ _ _ _ _ Hi (or_introl eq_refl)) R). }
  destruct b2; [|exact (Hundo p2 s2 Hq2 M2)]. pose proof M2 as [_ [l2 H2]].
  pose proof (build_stack_reshapes (f :: roots) f ltac:(left) s2 l2 p2 argv envp (cf_space _ _ _ _ _ _ _ H2) Hp2 Ha He) as M3.
  destruct (build_user_stack s2 p2 argv envp) as [[[s3 p3]|]|s3] eqn:E3; [|contradiction|].
  2: { exact (Hundo p2 s3 Hq2 (reshapes_chain _ _ _ _ _ _ _ M2 H2 M3)). }
  destruct M3 as [M3 Hp3]. destruct (reshapes_chain _ _ _ _ _ _ _ M2 H2 M3) as [C3 [l3 H3]].
  exists true, p3, s3. split; [reflexivity|]. split; [exact (build_stack_image _ _ _ _ _ _ _ Hq2 E3)|].
  split; [rewrite (proj2 (proj2 C3)); apply C1|]. exists l3. rewrite Hp3. split; [exact Hf|].
  apply (confined_mono [f]); [intros r Hr' _ Hin; apply list_elem_of_singleton in Hin as ->; contradiction|].
  refine (confined_trans _ _ _ _ _ _ _ _ _ _ _ (confined_mono _ _ _ _ _ _ _ _ _ H1) H3); [|intros r _ _ Hin; inversion Hin].
  intros r Hin _ _. right. exact Hin.
Qed.
End Load.
