(* ===== verification/Safety.v ===== *)
(** * No system call leaves the objects of the kernel

    The handlers that change the process table or load a program, the dispatcher and a
    kernel at work, on top of the triples of Triples.v: whatever the arguments of a call,
    the contents of user memory and the archive, the kernel indexes no table out of range
    and reads past the end of no string. *)

From Stdlib Require Import Ascii String.
From S2P Require Import Prelude CMem CStr Pmm Vmm Ramdisk RamdiskSpec RamdiskArchive RamdiskListing RamdiskImage RamdiskProps Elf Keyboard Kernel Loader Syscalls ProcTable Lifecycle LifecycleProps UserMem FileProps StackSpec DirProps Triples Confine LoadConfined.

(** ** The memory manager *)

Lemma safe_put_mm s : safe sound (put_mm s) any.
Proof. intros k Hk. split; [|exact I]. revert Hk. apply sound_table; reflexivity. Qed.

Lemma safe_on_mm {A} (f : mm -> A * mm) : safe sound (on_mm f) any.
Proof. intros k Hk. rewrite run_on_mm. split; [|exact I]. revert Hk. apply sound_table; reflexivity. Qed.

#[export] Hint Resolve safe_put_mm safe_on_mm : safe.

(** ** Loading a program *)

Lemma push_strings_reads s cr3 stack strings addresses :
  Forall terminated strings -> push_strings s cr3 stack strings addresses <> inl None.
Proof.
  intros H. revert s stack addresses. induction H as [|d l (_ & x & t & -> & Ht) _ IH]; intros s stack addresses; cbn [push_strings]; [discriminate|].
  rewrite strlen_cstr, cstr_app by exact Ht. cbn [fmap option_fmap option_map]. destruct (push_bytes _ _ _ _) as [[[|] s1] st1]; [apply IH|discriminate].
Qed.

Lemma build_stack_reads s p argv envp : Forall terminated argv -> Forall terminated envp -> build_user_stack s p argv envp <> inl None.
Proof.
  intros Ha He. unfold build_user_stack. destruct (map_user_range _ _ _ _ _) as [[|] s1]; [|discriminate].
  pose proof (push_strings_reads s1 (cr3 p) XBKS_USER_STACK_TOP (rev envp) [] (Forall_rev He)) as H1.
  destruct (push_strings _ _ _ (rev envp) _) as [[[[s2 st2] a2]|]|s2]; [|congruence|discriminate].
  pose proof (push_strings_reads s2 (cr3 p) st2 (rev argv) [] (Forall_rev Ha)) as H2.
  destruct (push_strings _ _ _ (rev argv) _) as [[[[s3 st3] a3]|]|s3]; [|congruence|discriminate].
  destruct (push_words _ _ _ _) as [[[|] s4] st4]; discriminate.
Qed.

Lemma safe_load_program p path argv envp : terminated path -> Forall terminated argv -> Forall terminated envp ->
  safe sound (load_program p path argv envp) (fun '(_, q) => new_image p q).
Proof.
  intros Hp Ha He. unfold load_program. apply (safe_bind _ get_kernel _ archive_placed); [intros k Hk; split; [exact Hk|exact (so_archive k Hk)]|].
  intros k Hk. fold (ramdisk_image k). destruct (found_terminated k path Hk Hp) as (o & E & _).
  eapply safe_bind; [apply safe_in_object, E|]. intros _ <-. pose proof (new_image_refl p) as Hr.
  destruct o as [file|]; [|apply safe_ret, Hr]. destruct (_ || _); [apply safe_ret, Hr|].
  eapply safe_bind; [apply safe_on_mm|]. intros pml4 _. pose proof (new_image_set p p pml4 (entry p) (stack p) (brk p) Hr (or_introl eq_refl)) as H1.
  destruct (pml4 =? 0); [apply safe_ret, H1|].
  apply (safe_bind _ get_kernel _ any); [intros k' Hk'; split; [exact Hk'|exact I]|]. intros k' _.
  destruct (load_elf_into_process _ _ _) as [[[|] s1] p1] eqn:E1; pose proof (load_elf_image _ _ _ _ _ _ _ H1 E1) as H2.
  - pose proof (build_stack_reads s1 p1 argv envp Ha He) as Hb. destruct (build_user_stack _ _ _ _) as [[[s2 p2]|]|s2] eqn:E2; [|congruence|].
    + eapply safe_bind; [apply safe_put_mm|]. intros _ _. apply safe_ret, (build_stack_image _ _ _ _ _ _ _ H2 E2).
    + eapply safe_bind; [apply safe_put_mm|]. intros _ _. apply safe_ret, new_image_set; [exact H2|left; reflexivity].
  - eapply safe_bind; [apply safe_put_mm|]. intros _ _. apply safe_ret, new_image_set; [exact H2|left; reflexivity].
Qed.

(** ** The process table *)

Lemma safe_get_process i : (i < MAX_PROCESSES)%nat -> safe sound (get_process i) process_ok.
Proof.
  intros Hi. apply safe_read. intros k Hk. rewrite run_get_process. destruct (lookup_lt_is_Some_2 (processes k) i) as [p Hp]; [rewrite (so_size _ Hk); exact Hi|].
  rewrite Hp. exists p. split; [reflexivity|]. exact (Forall_lookup_1 _ _ _ _ (so_processes _ Hk) Hp).
Qed.

Lemma safe_put_process i p : process_ok p -> safe sound (put_process i p) any.
Proof. intros Hp k Hk. rewrite run_put_process. split; [exact (sound_insert k i p Hk Hp)|exact I]. Qed.

Lemma safe_update_this f : (forall p, process_ok p -> process_ok (f p)) -> safe sound (update_this f) any.
Proof.
  intros Hf k Hk. rewrite run_update_this. destruct (this_process_ok k Hk) as (p & -> & Hp). split; [|exact I].
  exact (sound_insert k _ _ Hk (Hf p Hp)).
Qed.

Lemma safe_set_current i : (i < MAX_PROCESSES)%nat -> safe sound (set_current i) any.
Proof. intros Hi k [H1 H2 H3 H4]. split; [|exact I]. split; [exact H1|exact Hi|exact H3|exact H4]. Qed.

Lemma safe_allocate : safe sound allocate_process (fun o => forall i, o = Some i -> (i < MAX_PROCESSES)%nat).
Proof.
  unfold allocate_process. apply (safe_bind _ get_kernel _ sound); [intros k Hk; split; exact Hk|]. intros k Hk.
  pose proof (first_unused_spec (processes k) 0) as Hs. destruct (first_unused (processes k) 0) as [i|]; [|apply safe_ret; discriminate].
  eapply safe_bind; [apply safe_put_process, fresh_process_ok|]. intros _ _.
  apply (safe_bind _ bump_pid _ any); [intros k' Hk'; split; [|exact I]; revert Hk'; apply sound_table; reflexivity|]. intros _ _.
  apply safe_ret. intros j [= <-]. destruct Hs as (_ & p & Hp & _). rewrite Nat.sub_0_r in Hp. rewrite <- (so_size _ Hk). exact (lookup_lt_Some _ _ _ Hp).
Qed.

#[export] Hint Resolve zero_process_ok fresh_process_ok safe_get_process safe_put_process safe_set_current safe_allocate : safe.

(** ** The handlers *)

Lemma safe_syscall_brk request : safe sound (syscall_brk request) any.
Proof.
  unfold syscall_brk. safe_next. intros p _. destruct (_ =? 0); [safe_done|]. destruct (_ || _); [safe_done|].
  safe_next. intros [|] _; [|safe_done].
  eapply safe_bind; [apply safe_update_this; intros q; apply process_ok_same; reflexivity|]. intros; safe_done.
Qed.

Lemma safe_syscall_execve frame : safe sound (syscall_execve frame) any.
Proof.
  unfold syscall_execve. safe_next. intros [[|] path] Hpath; cbn [negb]; [|safe_done].
  safe_next. intros [argv|] Hargv; [|safe_done].
  safe_next. intros [envp|] Henvp; [|safe_done].
  safe_next. intros p _.
  eapply safe_bind; [exact (safe_load_program _ path argv envp (Hpath eq_refl) (Hargv argv eq_refl) (Henvp envp eq_refl))|].
  intros [[|] next] _; cbn [negb]; [|safe_done].
  eapply safe_bind; [apply safe_update_this; intros q; apply process_ok_same; reflexivity|]. intros _ _.
  safe_next. intros _ _. safe_next. intros; safe_done.
Qed.

Lemma safe_syscall_vfork frame : safe sound (syscall_vfork frame) any.
Proof.
  unfold syscall_vfork. safe_next. intros [child|] Hchild; [|safe_done]. specialize (Hchild child eq_refl).
  apply (safe_bind _ get_kernel _ sound); [intros k Hk; split; exact Hk|]. intros k Hk.
  safe_next. intros p [P1 P2 P3]. safe_next. intros q _.
  safe_next. intros pml4 _.
  apply (safe_bind _ _ _ any); [destruct (pml4 =? 0); [safe_done|apply safe_on_mm]|]. intros [|] _; cbn [negb].
  - eapply safe_bind; [apply safe_put_process; split; [exact P1|exact P2|intros i [= <-]; apply Hk]|]. intros _ _.
    eapply safe_bind; [apply safe_update_this; intros u; apply process_ok_same; reflexivity|]. intros _ _.
    safe_next. intros _ _. safe_next. intros; safe_done.
  - apply (safe_bind _ _ _ any); [destruct (negb _); [apply safe_on_mm|safe_done]|]. intros _ _.
    safe_next. intros; safe_done.
Qed.

(** The four bytes of the status, once checked. *)
Lemma status_area a : in_u64 a -> true && negb (user_range_is_valid a 4) = false -> user_area a (Z.of_nat 4).
Proof.
  intros Ha Hv. apply user_area_valid; [exact Ha|unfold in_u64; lia|]. apply negb_false_iff in Hv. exact Hv.
Qed.

Lemma safe_syscall_wait4 wanted status : in_u64 status -> safe sound (syscall_wait4 wanted status) any.
Proof.
  intros Hs. unfold syscall_wait4. apply (safe_bind _ get_kernel _ sound); [intros k Hk; split; exact Hk|]. intros k Hk.
  pose proof (first_zombie_spec (current_process k) wanted (processes k) 0) as Hz. destruct (first_zombie _ _ _ _) as [i|]; [|safe_done].
  assert (Hi : (i < MAX_PROCESSES)%nat).
  { destruct Hz as (_ & p & Hp & _). rewrite Nat.sub_0_r in Hp. rewrite <- (so_size _ Hk). exact (lookup_lt_Some _ _ _ Hp). }
  safe_next. intros child _. destruct (_ && _) eqn:Ev; [safe_done|].
  apply (safe_bind _ _ _ any); [destruct (negb _); [apply safe_store_le; [exact _|exact (status_area status Hs Ev)]|safe_done]|]. intros _ _.
  safe_next. intros _ _. safe_next. intros; safe_done.
Qed.

Lemma safe_syscall_exit frame status : safe sound (syscall_exit frame status) any.
Proof.
  unfold syscall_exit. eapply safe_bind; [apply safe_update_this; intros u; apply process_ok_same; reflexivity|]. intros _ _.
  safe_next. intros p [_ _ P3]. destruct (vfork_parent p) as [i|]; [|apply safe_stopped; discriminate].
  specialize (P3 i eq_refl). safe_next. intros q Hq.
  eapply safe_bind; [apply safe_put_process; revert Hq; apply process_ok_same; reflexivity|]. intros _ _.
  safe_next. intros _ _. safe_next. intros; safe_done.
Qed.

(** ** The dispatcher *)

Lemma safe_dispatch frame : argument_words frame -> safe sound (xbks_process_syscall_dispatch frame) any.
Proof.
  intros (H1 & H2 & H3). unfold xbks_process_syscall_dispatch.
  repeat match goal with |- safe _ (if ?b then _ else _) _ => destruct b end;
    first [ apply safe_syscall_execve | apply safe_syscall_exit
          | apply safe_with_frame; first
            [ apply safe_ret; exact I | apply safe_syscall_brk | apply safe_syscall_vfork | apply safe_syscall_wait4, H2
            | solve [eauto 3 with safe] | safe_next; intros; safe_done ] ].
Qed.

(** ** A kernel at work *)

Lemma start_sound modules es k k' :
  booted k -> current_process k = 0%nat -> (forall rd, xbks_ramdisk_init modules = Some (true, rd) -> 0 <= rd_size rd < 2 ^ 62) ->
  xbks_process_start_init modules k = inl (Some es, k') -> sound k'.
Proof.
  intros [Hps _] Hcur Hrd. unfold xbks_process_start_init. rewrite run_bind.
  destruct (xbks_ramdisk_init modules) as [[[|] rd]|]; cbn [in_object]; [rewrite run_ret|rewrite run_ret; discriminate|discriminate].
  rewrite run_bind. cbn [set_ramdisk negb]. match goal with |- ?c ?k0 = _ -> _ => set (k1 := k0); set (rest := c) end.
  assert (H1 : sound k1).
  { split; cbn.
    - rewrite Hps. reflexivity.
    - rewrite Hcur. unfold MAX_PROCESSES. lia.
    - rewrite Hps. apply Forall_replicate, zero_process_ok.
    - exact (Hrd rd eq_refl). }
  assert (H : safe sound rest any).
  { unfold rest. safe_next. intros [i|] Hi; [|safe_done]. specialize (Hi i eq_refl).
    safe_next. intros p Hp.
    eapply safe_bind; [apply safe_load_program; [apply literal_terminated; reflexivity|..]|].
    1, 2: constructor; [apply literal_terminated; reflexivity|constructor].
    intros [b q] (c & e & st & br & -> & _). pose proof (process_ok_same p (set_image c e st br p) eq_refl eq_refl Hp) as Hq. destruct b; cbn [negb]; [|eapply safe_bind; [apply safe_put_process, zero_process_ok|intros; safe_done]].
    eapply safe_bind; [exact (safe_put_process i _ Hq)|]. intros _ _. safe_next. intros _ _.
    apply (safe_bind _ _ _ any); [intros k0 Hk0; split; [|exact I]; revert Hk0; apply sound_table; reflexivity|]. intros _ _.
    safe_next. intros; safe_done. }
  intros E. specialize (H k1 H1). rewrite E in H. apply H.
Qed.

(** The states of a kernel that has started the first process from an archive of less than
    2^62 bytes: between two system calls the programs and the devices may change memory
    and the input as they like. *)
Inductive serving : kernel -> Prop :=
| serving_start modules es k k' :
    booted k -> current_process k = 0%nat -> (forall rd, xbks_ramdisk_init modules = Some (true, rd) -> 0 <= rd_size rd < 2 ^ 62) ->
    xbks_process_start_init modules k = inl (Some es, k') -> serving k'
| serving_call frame a k k' :
    serving k -> argument_words frame -> xbks_process_syscall_dispatch frame k = inl (a, k') -> serving k'
| serving_user k k' :
    serving k -> processes k' = processes k -> current_process k' = current_process k -> k_ramdisk k' = k_ramdisk k -> serving k'.

Lemma serving_sound k : serving k -> sound k.
Proof.
  induction 1 as [modules es k k' Hb Hc Hr E|frame a k k' _ IH Hw E|k k' _ IH Hp Hc Hr].
  - exact (start_sound modules es k k' Hb Hc Hr E).
  - pose proof (safe_dispatch frame Hw k IH) as H. rewrite E in H. apply H.
  - exact (sound_table k k' Hp Hc Hr IH).
Qed.

(** C3. No system call makes the kernel leave its tables and buffers.  After any history of
    calls and of changes to memory by the programs, for any number and any arguments,
    with any contents of user memory, of the page tables and of the archive, the
    dispatcher indexes neither the process table nor a descriptor table out of range,
    writes no string buffer outside its bounds and reads none past its end; and it always
    ends: it returns, or stops at a page fault of the processor, for want of input, or at
    the halt after the last process. *)
Theorem syscalls_stay_inside k frame :
  serving k -> argument_words frame -> xbks_process_syscall_dispatch frame k <> inr OutOfObject.
Proof.
  intros Hk Hw E. pose proof (safe_dispatch frame Hw k (serving_sound k Hk)) as H. rewrite E in H. apply H. reflexivity.
Qed.

(** A listing with an unmapped buffer, by the first process of the demonstration machine. *)
Definition hostile_frame : xbks_syscall_frame :=
  SyscallFrame 0 0 0 0 0 0 0 0 0 (2 ^ 64 - 1) (2 ^ 64 - 1) (2 ^ 64 - 1) 0 0 XBKS_SYS_GETDENTS64 0 0 0.

Lemma syscalls_stay_inside_witness :
  exists k, serving k /\ xbks_process_syscall_dispatch hostile_frame k <> inr OutOfObject.
Proof.
  destruct demo_started as [k E]. exists k.
  assert (Hk : serving k).
  { apply (serving_start demo_modules (4194304, 140737488347064) demo_kernel k); [split; reflexivity|reflexivity| |exact E].
    intros rd Hrd. assert (H : match xbks_ramdisk_init demo_modules with Some (_, rd) => (0 <=? rd_size rd) && (rd_size rd <? 2 ^ 62) | None => false end = true)
      by (vm_compute; reflexivity). rewrite Hrd in H. apply andb_prop in H as [H1 H2]. lia. }
  split; [exact Hk|]. apply (syscalls_stay_inside k hostile_frame Hk). unfold argument_words, in_u64. cbn. lia.
Defined.
