(* ===== verification/Isolation.v ===== *)
(** * No process can touch the memory of a blocked one

    The processes of the table have address spaces of their own ([isolated]), and every
    step of the system keeps it so: the system calls, what user code does to its memory and
    what the devices do.  So the memory of a process that is blocked is the same when it
    runs again, whatever the others did meanwhile. *)

From Stdlib Require Import Ascii String.
From S2P Require Import Prelude CMem CStr Pmm Vmm VmmSpec VmmClone VmmDestroy MmProps SpaceProps Ramdisk RamdiskSpec RamdiskArchive RamdiskListing RamdiskImage RamdiskProps Elf Keyboard Kernel Loader Syscalls ProcTable Lifecycle LifecycleProps UserMem LoaderSpec FileProps DirProps Triples Confine LoadConfined Safety LoaderProps ExecProps.

(** ** The address spaces of a table *)

(** A slot in use; the space of a zombie is still there. *)
Definition live (p : process) : Prop := state p <> PROCESS_UNUSED.

#[export] Instance live_dec p : Decision (live p) := _.

Definition spaces (ps : list process) : list Z := cr3 <$> filter live ps.

Lemma elem_spaces r ps : r ∈ spaces ps <-> exists i p, ps !! i = Some p /\ live p /\ cr3 p = r.
Proof.
  unfold spaces. rewrite list_elem_of_fmap. split.
  - intros (p & -> & Hp). apply list_elem_of_filter in Hp as [Hl Hp]. apply list_elem_of_lookup in Hp as [i Hi]. eauto.
  - intros (i & p & Hi & Hl & <-). exists p. split; [reflexivity|]. apply list_elem_of_filter. split; [exact Hl|].
    apply list_elem_of_lookup. eauto.
Qed.

Definition own_space (ps : list process) : Prop := forall i j p q,
  ps !! i = Some p -> ps !! j = Some q -> live p -> live q -> cr3 p = cr3 q -> i = j.

(** Two tables that agree on what the spaces depend on. *)
Definition same_spaces (p q : process) : Prop := (live p <-> live q) /\ cr3 p = cr3 q /\ brk p = brk q.

Lemma same_spaces_refl ps : Forall2 same_spaces ps ps.
Proof. apply Forall_Forall2_diag, Forall_true. intros p. split; [reflexivity|]. split; reflexivity. Qed.

Lemma spaces_same ps ps' : Forall2 same_spaces ps ps' -> spaces ps' = spaces ps.
Proof.
  unfold spaces. induction 1 as [|p q ps ps' (Hs & Hc & _) _ IH]; [reflexivity|]. rewrite !filter_cons.
  destruct (decide (live p)) as [Hp|Hp], (decide (live q)) as [Hq|Hq]; try tauto. cbn. rewrite IH, Hc. reflexivity.
Qed.

Lemma own_same ps ps' : Forall2 same_spaces ps ps' -> own_space ps -> own_space ps'.
Proof.
  intros H Hown i j p q Hp Hq Lp Lq Ec. destruct (Forall2_lookup_r _ _ _ _ _ H Hp) as (p0 & Hp0 & Sp & Cp & _).
  destruct (Forall2_lookup_r _ _ _ _ _ H Hq) as (q0 & Hq0 & Sq & Cq & _).
  apply (Hown i j p0 q0 Hp0 Hq0); [tauto|tauto|congruence].
Qed.

(** A slot gets a record with the same space. *)
Lemma same_spaces_insert ps ps' i q p : Forall2 same_spaces ps ps' -> ps !! i = Some p -> same_spaces p q -> Forall2 same_spaces ps (<[i := q]> ps').
Proof. intros H Hi Hs. rewrite <- (list_insert_id ps i p Hi). apply Forall2_insert; assumption. Qed.

Lemma same_spaces_live p q : live p -> live q -> cr3 p = cr3 q -> brk p = brk q -> same_spaces p q.
Proof. intros Lp Lq Hc Hb. split; [split; auto|]. auto. Qed.

(** ** The invariant *)

Record isolated (k : kernel) (l : list Z) : Prop := {
  is_sound : sound k;
  is_space : space (k_mm k) (spaces (processes k)) l;
  is_own : own_space (processes k);
  is_this : exists p, processes k !! current_process k = Some p /\ live p /\ cr3_register (k_mm k) = cr3 p;
  is_brk i p : processes k !! i = Some p -> 0 <= brk p;
  is_protected : protected (k_mm k) (spaces (processes k)) l (k_ramdisk k);
  is_tame : tame k;
}.

Lemma current_space k l : isolated k l -> cr3_register (k_mm k) ∈ spaces (processes k).
Proof. intros H. destruct (is_this k l H) as (p & Hp & Hl & ->). apply elem_spaces. eauto. Qed.

(** The record of a blocked process and its memory are as before; it may have been made to
    run again. *)
Definition spared (k k' : kernel) : Prop := forall i p,
  processes k !! i = Some p -> state p = PROCESS_BLOCKED -> i <> current_process k ->
  (processes k' !! i = Some p \/ i = current_process k' /\ processes k' !! i = Some (set_state PROCESS_RUNNING p)) /\
  forall va, user_va va -> user_byte (k_mm k') (cr3 p) va = user_byte (k_mm k) (cr3 p) va.

(** What is left to show of a step. *)
Record advances (k k' : kernel) (l l' : list Z) : Prop := {
  ad_mm : confined [cr3_register (k_mm k)] (spaces (processes k)) (spaces (processes k')) l l' (k_mm k) (k_mm k');
  ad_ramdisk : k_ramdisk k' = k_ramdisk k;
  ad_own : own_space (processes k');
  ad_this : exists p, processes k' !! current_process k' = Some p /\ live p /\ cr3_register (k_mm k') = cr3 p;
  ad_brk i p : processes k' !! i = Some p -> 0 <= brk p;
  ad_blocked i p : processes k !! i = Some p -> state p = PROCESS_BLOCKED -> i <> current_process k ->
    processes k' !! i = Some p \/ i = current_process k' /\ processes k' !! i = Some (set_state PROCESS_RUNNING p);
}.

Lemma advances_isolated k k' l l' : isolated k l -> sound k' -> advances k k' l l' -> isolated k' l' /\ spared k k'.
Proof.
  intros H Hs A. pose proof (ad_mm _ _ _ _ A) as M. split.
  - split; [exact Hs|apply M|apply A|apply A|apply A|rewrite (ad_ramdisk _ _ _ _ A); exact (protected_confined _ _ _ _ _ _ _ _ M (is_protected _ _ H))|].
    exact (tame_confined _ _ _ _ _ _ _ (so_archive _ (is_sound _ _ H)) M (is_protected _ _ H) (ad_ramdisk _ _ _ _ A) (is_tame _ _ H)).
  - intros i p Hi Hb Hne. pose proof (ad_blocked _ _ _ _ A i p Hi Hb Hne) as Hr. split; [exact Hr|]. intros va Hva.
    assert (Hl : live p) by (unfold live; congruence).
    apply (cf_user _ _ _ _ _ _ _ M); [apply elem_spaces; eauto| | |exact Hva].
    + apply elem_spaces. destruct Hr as [Hr|[_ Hr]]; [exists i, p; auto|]. exists i, (set_state PROCESS_RUNNING p). split; [exact Hr|]. split; [discriminate|reflexivity].
    + intros Hin. apply list_elem_of_singleton in Hin. destruct (is_this k l H) as (q & Hq & Hlq & Hc).
      apply Hne, (is_own _ _ H i _ p q Hi Hq Hl Hlq). congruence.
Qed.

(** ** Calls that change the record and the memory of the caller *)

Section Held.
Context (k0 : kernel) (l : list Z) (Hk0 : isolated k0 l).
Let roots := spaces (processes k0).
Let me := cr3_register (k_mm k0).

(** A state in the middle of a call of [k0]. *)
Record held (k : kernel) : Prop := {
  hd_sound : sound k;
  hd_ramdisk : k_ramdisk k = k_ramdisk k0;
  hd_current : current_process k = current_process k0;
  hd_table : Forall2 same_spaces (processes k0) (processes k);
  hd_cr3 : cr3_register (k_mm k) = me;
  hd_mm : confined [me] roots roots l l (k_mm k0) (k_mm k);
}.

Lemma held_start : held k0.
Proof using Hk0. split; try reflexivity; [apply Hk0|apply same_spaces_refl|apply confined_refl, Hk0]. Qed.

#[local] Instance held_invariant : HandlerInvariant held.
Proof using Hk0.
  assert (Hme : me ∈ roots) by exact (current_space k0 l Hk0). split; [split|].
  - intros k H. apply H.
  - intros k k' Em Er Ep Ec [H1 H2 H3 H4 H5 H6]. split; try congruence. exact (sound_table k k' Ep Ec Er H1).
  - intros va v Hva k H.
    assert (Hr : running k roots l me) by (split; [apply H|split; [exact Hme|apply H]]).
    destruct (node (k_mm k) me (path va)) as [f|] eqn:En.
    + destruct (user_store_ok k roots l me va v Hr Hva ltac:(exists f; exact En)) as (s' & -> & Hst). split; [|exact I].
      destruct H as [H1 H2 H3 H4 H5 H6]. split; try assumption.
      * revert H1. apply sound_table; reflexivity.
      * rewrite <- H5. apply Hst.
      * refine (confined_trans _ _ _ _ _ _ _ _ _ _ _ H6 (confined_stored _ _ _ _ _ _ _ Hme Hst)). auto.
    + unfold user_store. rewrite run_bind. cbn [get_kernel]. rewrite (mmu_node k roots l me va Hr Hva), En. discriminate.
  - intros k p fs [H1 H2 H3 H4 H5 H6] Hp Ho. split; try assumption.
    + exact (sound_insert k _ _ H1 Ho).
    + cbn [with_processes processes]. destruct (Forall2_lookup_r _ _ _ _ _ H4 Hp) as (q & Hq & Hs).
      exact (same_spaces_insert _ _ _ (set_fds fs p) q H4 Hq Hs).
Qed.

(** A handler that keeps the invariant of the middle advances the system. *)
Lemma held_advances {A} (c : K A) Q a k' : safe held c Q -> keeps c -> c k0 = inl (a, k') -> advances k0 k' l l.
Proof using Hk0.
  intros Hc Hkeep E. pose proof (Hc k0 held_start) as H. rewrite E in H. destruct H as [[H1 H2 H3 H4 H5 H6] _].
  pose proof (Hkeep k0 a k' E) as Ho. split.
  - rewrite (spaces_same _ _ H4). exact H6.
  - exact H2.
  - exact (own_same _ _ H4 (is_own _ _ Hk0)).
  - destruct (is_this _ _ Hk0) as (p0 & Hp0 & Lp & Cp). destruct (Forall2_lookup_l _ _ _ _ _ H4 Hp0) as (p & Hp & Sp & Cc & _).
    exists p. rewrite H3. split; [exact Hp|]. split; [apply Sp, Lp|]. unfold me in H5. congruence.
  - intros i p Hp. destruct (Forall2_lookup_r _ _ _ _ _ H4 Hp) as (p0 & Hp0 & (_ & _ & <-)). exact (is_brk _ _ Hk0 i p0 Hp0).
  - intros i p Hp _ Hne. left. rewrite (oc_others _ _ Ho i Hne). exact Hp.
Qed.
End Held.

(** ** Calls that give the caller another record *)

Lemma spaces_insert ps i p q r : own_space ps -> ps !! i = Some p ->
  r ∈ spaces (<[i := q]> ps) <-> live q /\ r = cr3 q \/ r ∈ spaces ps /\ ~ (live p /\ r = cr3 p).
Proof.
  intros Hown Hi. rewrite !elem_spaces. split.
  - intros (j & x & Hj & Hx & <-). apply list_lookup_insert_Some in Hj as [(<- & <- & _)|[Hne Hj]]; [auto|].
    right. split; [eauto|]. intros [Hp Hc]. apply Hne. exact (Hown i j p x Hi Hj Hp Hx (eq_sym Hc)).
  - intros [[Hq ->]|[(j & x & Hj & Hx & <-) Hne]].
    + exists i, q. split; [apply list_lookup_insert_eq, (lookup_lt_Some _ _ _ Hi)|]. auto.
    + exists j, x. split; [|auto]. rewrite list_lookup_insert_ne; [exact Hj|]. intros ->. apply Hne. rewrite Hi in Hj. injection Hj as ->. auto.
Qed.

Lemma own_insert ps i q : own_space ps -> (forall j p, j <> i -> ps !! j = Some p -> live p -> live q -> cr3 p <> cr3 q) -> own_space (<[i := q]> ps).
Proof.
  intros Hown Hq j1 j2 p1 p2 H1 H2 L1 L2 Hc.
  apply list_lookup_insert_Some in H1 as [(<- & <- & _)|[N1 H1]]; apply list_lookup_insert_Some in H2 as [(<- & <- & _)|[N2 H2]].
  - reflexivity.
  - exfalso. apply (Hq j2 p2); congruence.
  - exfalso. apply (Hq j1 p1); congruence.
  - exact (Hown j1 j2 p1 p2 H1 H2 L1 L2 Hc).
Qed.

Lemma own_fresh ps i q : own_space ps -> cr3 q ∉ spaces ps -> own_space (<[i := q]> ps).
Proof. intros Hown Hq. apply own_insert; [exact Hown|]. intros j p _ Hj Hp _ Hc. apply Hq. rewrite <- Hc. apply elem_spaces. eauto. Qed.

(** A new record in the slot of the caller, with the same address space or a fresh one. *)
Lemma advances_own k k' l l' p q roots' :
  isolated k l -> processes k !! current_process k = Some p -> live p ->
  processes k' = <[current_process k := q]> (processes k) -> current_process k' = current_process k -> k_ramdisk k' = k_ramdisk k ->
  state q = state p -> 0 <= brk q -> cr3 q = cr3 p \/ cr3 q ∉ spaces (processes k) -> cr3_register (k_mm k') = cr3 q ->
  (forall r, r ∈ roots' <-> r = cr3 q \/ r ∈ spaces (processes k) /\ r <> cr3 p) ->
  confined [cr3_register (k_mm k)] (spaces (processes k)) roots' l l' (k_mm k) (k_mm k') ->
  advances k k' l l'.
Proof.
  intros H Hp Lp Eps Ec Er Hs Hb Hc Hreg Hroots M. assert (Lq : live q) by (unfold live in *; congruence).
  pose proof (is_own _ _ H) as Hown. split.
  - refine (confined_ext _ _ _ _ _ _ _ _ _ _ _ M); [reflexivity|]. intros r. rewrite Eps, Hroots.
    rewrite (spaces_insert _ _ _ _ _ Hown Hp). tauto.
  - exact Er.
  - rewrite Eps. destruct Hc as [Hc|Hc]; [|exact (own_fresh _ _ _ Hown Hc)].
    apply own_insert; [exact Hown|]. intros j x Hne Hj Lx _ Hx. apply Hne. apply (Hown _ _ x p Hj Hp Lx Lp). congruence.
  - exists q. rewrite Eps, Ec. split; [apply list_lookup_insert_eq, (lookup_lt_Some _ _ _ Hp)|]. auto.
  - intros i x Hx. rewrite Eps in Hx. apply list_lookup_insert_Some in Hx as [(_ & <- & _)|[_ Hx]]; [exact Hb|exact (is_brk _ _ H i x Hx)].
  - intros i x Hx _ Hne. left. rewrite Eps, list_lookup_insert_ne by congruence. exact Hx.
Qed.

(** Nothing but the memory of the caller has changed. *)
Lemma advances_mm k s l l' : isolated k l -> cr3_register s = cr3_register (k_mm k) ->
  confined [cr3_register (k_mm k)] (spaces (processes k)) (spaces (processes k)) l l' (k_mm k) s -> advances k (with_mm k s) l l'.
Proof.
  intros H Hc M. split; [exact M|reflexivity|apply H| |apply H|auto].
  destruct (is_this _ _ H) as (p & Hp & Lp & Ep). exists p. split; [exact Hp|]. split; [exact Lp|]. cbn. congruence.
Qed.

Lemma advances_refl k l : isolated k l -> advances k k l l.
Proof.
  intros H. assert (E : k = with_mm k (k_mm k)) by (destruct k; reflexivity). rewrite E at 2.
  apply advances_mm; [exact H|reflexivity|apply confined_refl, H].
Qed.

Lemma isolated_this k l : isolated k l -> exists p, processes k !! current_process k = Some p /\ live p /\ cr3_register (k_mm k) = cr3 p /\ 0 <= brk p.
Proof. intros H. destruct (is_this _ _ H) as (p & Hp & Lp & Ep). exists p. repeat split; try assumption. exact (is_brk _ _ H _ p Hp). Qed.

(** *** brk *)

Lemma brk_loop_reshapes s roots l r old new :
  space s roots l -> r ∈ roots -> 0 <= old -> old <= new -> old mod 4096 = 0 -> new mod 4096 = 0 -> new <= 2 ^ 47 ->
  reshapes roots r l s (snd (brk_loop (Z.to_nat ((new - old) / XBKS_PAGE_SIZE)) s r old new)).
Proof.
  intros Hsp Hr H0 Hle Ho Hn Htop. rewrite brk_loop_range. set (n := Z.to_nat _).
  pose proof (map_range_loop_spec n roots r XBKS_PAGE_WRITABLE s l old new Hsp Hr H0 Ho (page_count _ _ Ho Hn Hle) Htop ltac:(unfold XBKS_PAGE_WRITABLE; lia)) as M.
  destruct (map_range_loop n s r old new XBKS_PAGE_WRITABLE) as [[|] s']; cbn [snd].
  - destruct M as (_ & l' & _ & M). exact (reshapes_refilled _ _ _ _ _ _ _ Hr M).
  - destruct M as (mid & l' & _ & _ & M & _). exact (reshapes_refilled _ _ _ _ _ _ _ Hr M).
Qed.

Lemma brk_advances k l req a k' : isolated k l -> in_u64 req -> syscall_brk req k = inl (a, k') -> exists l', advances k k' l l'.
Proof.
  intros H Hreq. destruct (isolated_this k l H) as (p & Hp & Lp & Ep & Hb). unfold in_u64 in Hreq.
  unfold syscall_brk. rewrite run_bind, run_this_process, Hp.
  destruct (req =? 0); [intros [= _ <-]; exists l; exact (advances_refl k l H)|].
  destruct (_ || _) eqn:Er; [intros [= _ <-]; exists l; exact (advances_refl k l H)|]. apply orb_false_iff in Er as [E1 E2].
  apply Z.ltb_ge in E1. apply Z.leb_gt in E2. rewrite !align_up_page_up by lia. rewrite run_bind, run_on_mm.
  assert (Hr : cr3 p ∈ spaces (processes k)) by (rewrite <- Ep; exact (current_space k l H)).
  pose proof (brk_loop_reshapes (k_mm k) _ l (cr3 p) (page_up (brk p)) (page_up req) (is_space _ _ H) Hr) as R.
  specialize (R ltac:(pose proof (page_up_ge (brk p)); lia) ltac:(apply page_up_mono; lia) (page_up_ok _) (page_up_ok _) ltac:(apply page_up_top; lia)).
  destruct (brk_loop _ _ _ _ _) as [[|] s']; cbn [fst snd] in *; destruct R as [C [l' R]]; rewrite <- Ep in R.
  - rewrite run_bind, run_update_this. cbn [with_mm processes current_process]. rewrite Hp. intros [= _ <-]. exists l'.
    apply (advances_own _ _ _ _ p (set_brk req p) (spaces (processes k)) H Hp Lp); try reflexivity; [cbn; lia|left; reflexivity| | |exact R].
    + cbn. rewrite (proj2 (proj2 C)). exact Ep.
    + intros r. cbn [set_brk cr3]. split; [|intros [->|[Hin _]]; assumption]. destruct (decide (r = cr3 p)); auto.
  - intros [= _ <-]. exists l'. apply advances_mm; [exact H|exact (proj2 (proj2 C))|exact R].
Qed.

(** *** execve *)

Lemma execve_advances k l frame a k' : isolated k l -> syscall_execve frame k = inl (a, k') -> exists l', advances k k' l l'.
Proof.
  intros H. destruct (isolated_this k l H) as (p & Hp & Lp & Ep & Hb). assert (Hsame : exists l', advances k k l l') by (exists l; exact (advances_refl k l H)).
  unfold syscall_execve. rewrite run_bind. pose proof (safe_copy_user_string (eq k) (rdi frame) k eq_refl) as S1.
  destruct (copy_user_string _ _ _ k) as [[[ok path] k1]|]; [destruct S1 as [<- S1]|discriminate]. destruct ok; cbn [negb]; [|intros [= _ <-]; exact Hsame].
  rewrite run_bind. pose proof (safe_copy_vector (eq k) (MAX_ARGS - 1) (rsi frame) k eq_refl) as S2.
  destruct (copy_user_string_array _ _ k) as [[[argv|] k2]|]; [destruct S2 as [<- S2]|destruct S2 as [<- _]; intros [= _ <-]; exact Hsame|discriminate].
  rewrite run_bind. pose proof (safe_copy_vector (eq k) (MAX_ENV - 1) (rdx frame) k eq_refl) as S3.
  destruct (copy_user_string_array _ _ k) as [[[envp|] k3]|]; [destruct S3 as [<- S3]|destruct S3 as [<- _]; intros [= _ <-]; exact Hsame|discriminate].
  rewrite run_bind, run_this_process, Hp, run_bind.
  set (p0 := set_image 0 (entry p) (stack p) (brk p) p).
  destruct (load_program_confined k (spaces (processes k)) l (is_space _ _ H) (is_protected _ _ H) (so_archive _ (is_sound _ _ H)) (is_tame _ _ H) p0 path argv envp
    (S1 eq_refl) (S2 argv eq_refl) (S3 envp eq_refl)) as (b & q & s & E & (c & e & st & br & -> & Hbr) & C & l1 & M).
  rewrite E. destruct b; cbn [negb].
  2: { intros [= _ <-]. exists l1. apply advances_mm; [exact H|exact C|]. refine (confined_mono _ _ _ _ _ _ _ _ _ M). intros r _ _ Hin. inversion Hin. }
  destruct M as [Hf M]. cbn [set_image cr3 entry stack brk p0] in *.
  assert (Hme : cr3 p ∈ spaces (processes k)) by (rewrite <- Ep; exact (current_space k l H)).
  rewrite run_bind, run_update_this. cbn [with_mm processes current_process]. rewrite Hp.
  rewrite run_bind, run_on_mm. cbn [fst snd with_mm with_processes k_mm processes]. rewrite run_bind, run_on_mm. cbn [fst snd with_mm with_processes k_mm processes].
  destruct (confined_destroy (xbks_write_cr3 s c) (c :: spaces (processes k)) l1 (cr3 p)) as (l2 & M2 & C2);
    [apply space_write_cr3, M|right; exact Hme|].
  intros [= _ <-]. exists l2.
  apply (advances_own _ _ _ _ p (set_image c e st br p) (filter (fun x => x <> cr3 p) (c :: spaces (processes k))) H Hp Lp); try reflexivity.
  - cbn. lia.
  - right. exact Hf.
  - cbn. rewrite (proj2 (proj2 C2)). reflexivity.
  - intros r. rewrite list_elem_of_filter, elem_of_cons. cbn [set_image cr3]. split; [tauto|]. intros [->|[? ?]]; [|tauto]. split; [|tauto]. intros ->. contradiction.
  - apply (confined_mono []); [intros r _ _ Hin; inversion Hin|]. cbn [k_mm with_mm with_processes].
    refine (confined_trans _ _ _ _ _ _ _ _ _ _ _ M (confined_trans _ _ _ _ _ _ _ _ _ _ _ (confined_cr3 [] _ _ _ c (cf_space _ _ _ _ _ _ _ M)) M2)).
    + intros r Hr _ _. right. exact Hr.
    + auto.
Qed.

(** ** Calls that move processes through the table *)

(** A slot other than the caller's is cleared; its space is gone, if it had one. *)
Lemma advances_freed k k' l l' i p roots' :
  isolated k l -> processes k !! i = Some p -> i <> current_process k -> state p <> PROCESS_BLOCKED ->
  processes k' = <[i := zero_process]> (processes k) -> current_process k' = current_process k -> k_ramdisk k' = k_ramdisk k ->
  cr3_register (k_mm k') = cr3_register (k_mm k) ->
  (forall r, r ∈ roots' <-> r ∈ spaces (processes k) /\ ~ (live p /\ r = cr3 p)) ->
  confined [cr3_register (k_mm k)] (spaces (processes k)) roots' l l' (k_mm k) (k_mm k') ->
  advances k k' l l'.
Proof.
  intros H Hi Hne Hb Eps Ec Er Hreg Hroots M. pose proof (is_own _ _ H) as Hown.
  assert (Hz : ~ live zero_process) by (intros Hz; apply Hz; reflexivity). split.
  - refine (confined_ext _ _ _ _ _ _ _ _ _ _ _ M); [reflexivity|]. intros r. rewrite Eps, Hroots, (spaces_insert _ _ _ _ _ Hown Hi). tauto.
  - exact Er.
  - rewrite Eps. apply own_insert; [exact Hown|]. intros j x _ _ _ Hq. contradiction.
  - destruct (is_this _ _ H) as (q & Hq & Lq & Eq). exists q. rewrite Eps, Ec, list_lookup_insert_ne by congruence.
    split; [exact Hq|]. split; [exact Lq|congruence].
  - intros j x Hx. rewrite Eps in Hx. apply list_lookup_insert_Some in Hx as [(_ & <- & _)|[_ Hx]]; [apply Z.le_refl|exact (is_brk _ _ H j x Hx)].
  - intros j x Hx Hbx _. left. rewrite Eps, list_lookup_insert_ne by congruence. exact Hx.
Qed.

(** *** vfork *)

(** What vfork does to the memory manager's state. *)
Lemma vfork_memory k l frame r k' : isolated k l -> lifecycle k -> syscall_vfork frame k = inl (r, k') ->
  k_ramdisk k' = k_ramdisk k /\ exists l',
  (r <> 0 /\ cr3_register (k_mm k') = cr3_register (k_mm k) /\ confined [] (spaces (processes k)) (spaces (processes k)) l l' (k_mm k) (k_mm k') \/
   r = 0 /\ exists f, (f ∉ spaces (processes k)) /\ cr3_register (k_mm k') = f /\
     confined [] (spaces (processes k)) (f :: spaces (processes k)) l l' (k_mm k) (k_mm k')).
Proof.
  intros H Hk. pose proof (is_space _ _ H) as Hsp. pose proof (is_protected _ _ H) as Hprot.
  destruct (isolated_this k l H) as (me & Hme & Lme & Ereg & _). destruct (lifecycle_current k Hk) as (me' & Hme' & Hrun & _). rewrite Hme in Hme'. injection Hme' as <-.
  unfold syscall_vfork, allocate_process. rewrite run_bind, run_bind. cbn [get_kernel].
  pose proof (first_unused_spec (processes k) 0) as Hf. destruct (first_unused _ _) as [i|].
  2: { rewrite run_ret. intros [= <- <-]. split; [reflexivity|]. exists l. left. split; [discriminate|]. split; [reflexivity|apply confined_refl, Hsp]. }
  destruct Hf as (_ & p & Hi & Hp). rewrite Nat.sub_0_r in Hi. assert (Hne : i <> current_process k) by (intros ->; congruence).
  rewrite run_bind, run_put_process, run_bind. cbn [bump_pid]. rewrite run_ret, run_bind. cbn [get_kernel]. rewrite run_bind, run_this_process.
  cbn [with_processes processes current_process]. rewrite list_lookup_insert_ne, Hme by congruence. rewrite run_bind, run_get_process.
  cbn [with_processes processes]. rewrite list_lookup_insert_eq by exact (lookup_lt_Some _ _ _ Hi). rewrite run_bind, run_on_mm. cbn [with_processes k_mm].
  assert (Hl : l = [] \/ exists f l0, l = f :: l0) by (destruct l; eauto). destruct Hl as [->|(f & l0 & ->)].
  { unfold xbks_create_kernel_mapped_pml4. rewrite (fp_empty _ (sp_pool _ _ _ Hsp)). cbn [Z.eqb fst snd]. rewrite run_bind, run_ret. cbn [negb].
    rewrite run_bind, run_ret, run_bind, run_put_process, run_ret. intros [= <- <-]. split; [reflexivity|]. exists []. left. split; [discriminate|].
    split; [reflexivity|]. apply confined_refl, Hsp. }
  destruct (confined_created [] (k_mm k) _ l0 f Hsp (pt_root _ _ _ _ Hprot)) as (s1 & -> & H1 & C1 & Hempty & Hf0 & Hf).
  { intros Hx. apply (pt_reserved _ _ _ _ Hprot). rewrite Hx. left. left. }
  cbn [fst snd]. rewrite run_bind. destruct (Z.eqb_spec f 0); [contradiction|]. rewrite run_on_mm. cbn [with_mm k_mm].
  assert (Hin : cr3 me ∈ spaces (processes k)) by (rewrite <- Ereg; exact (current_space k _ H)).
  destruct (confined_clone s1 (f :: spaces (processes k)) l0 (cr3 me) f (cf_space _ _ _ _ _ _ _ H1)) as (b & s2 & l2 & -> & H2 & C2);
    [right; exact Hin|left|intros Ef; apply Hf; rewrite <- Ef; exact Hin|exact Hempty|].
  cbn [fst snd]. destruct b; cbn [negb].
  - rewrite run_bind, run_put_process, run_bind, run_update_this. cbn [with_mm with_processes processes current_process].
    rewrite list_insert_insert_eq, list_lookup_insert_ne, Hme by congruence. rewrite run_bind. cbn [set_current]. rewrite run_bind, run_on_mm. cbn [fst snd].
    rewrite run_ret. intros [= <- <-]. split; [reflexivity|]. exists l2. right. split; [reflexivity|]. exists f. split; [exact Hf|]. split; [reflexivity|].
    cbn [k_mm with_mm with_processes].
    apply (confined_mono [f]); [intros r Hr _ Hfr; apply list_elem_of_singleton in Hfr as ->; contradiction|].
    refine (confined_trans _ _ _ _ _ _ _ _ _ _ _ (confined_mono _ _ _ _ _ _ _ _ _ H1) (confined_trans _ _ _ _ _ _ _ _ _ _ _ H2 (confined_cr3 _ _ _ _ _ (cf_space _ _ _ _ _ _ _ H2)))).
    + intros r Hr _ _. right. exact Hr.
    + intros r _ _ Hr. inversion Hr.
    + auto.
  - rewrite run_bind, run_on_mm. cbn [fst snd]. rewrite run_bind, run_put_process, run_ret. intros [= <- <-]. split; [reflexivity|].
    destruct (space_undone f _ _ l0 (k_mm k) s1 s2 H1 Hf) as [C3 [l3 H3]]; [split; [exact C2|exists l2; exact H2]|].
    exists l3. left. split; [discriminate|]. split; [|exact H3]. cbn [k_mm with_mm with_processes]. rewrite C3. apply C1.
Qed.

Lemma vfork_advances k l frame r k' : isolated k l -> lifecycle k -> syscall_vfork frame k = inl (r, k') -> exists l', advances k k' l l'.
Proof.
  intros H Hk E. destruct (vfork_memory k l frame r k' H Hk E) as [Er [l' M]]. exists l'.
  pose proof (is_own _ _ H) as Hown. destruct (isolated_this k l H) as (me & Hme & Lme & Ereg & Hb).
  destruct (vfork_runs frame k r k' Hk E) as [Hfull|i p k' Hi Hp Eps Ec _|i p me' pml4 k' Hi Hp Hme' Hpml Hreg Eps Ec _].
  - assert (Hd : l' = l' /\ confined [cr3_register (k_mm k)] (spaces (processes k)) (spaces (processes k)) l l' (k_mm k) (k_mm k)).
    { split; [reflexivity|]. destruct M as [(_ & _ & M)|[M _]]; [|discriminate M]. refine (confined_mono _ _ _ _ _ _ _ _ _ M). intros r _ _ Hr. inversion Hr. }
    assert (Ek : k = with_mm k (k_mm k)) by (destruct k; reflexivity). rewrite Ek at 2. apply advances_mm; [exact H|reflexivity|apply Hd].
  - destruct M as [(_ & Hreg & M)|[M _]]; [|discriminate M].
    assert (Lp : ~ live p) by (unfold live; tauto).
    apply (advances_freed k k' l l' i p (spaces (processes k)) H Hi); try assumption; [|congruence|tauto|].
    + intros ->. rewrite Hme in Hi. injection Hi as <-. contradiction.
    + refine (confined_mono _ _ _ _ _ _ _ _ _ M). intros r _ _ Hr. inversion Hr.
  - destruct M as [[M _]|(_ & f & Hf & Hreg' & M)]; [contradiction|]. rewrite Hme in Hme'. injection Hme' as <-.
    assert (Ef : f = pml4) by congruence. rewrite Ef in M, Hf. clear f Hreg' Ef. set (child := vfork_child k frame pml4 me) in *.
    assert (Lc : live child) by (unfold live; discriminate). assert (Lp : ~ live p) by (unfold live; tauto).
    assert (Hne : current_process k <> i) by (intros <-; congruence).
    assert (S : Forall2 same_spaces (<[i := child]> (processes k)) (processes k')).
    { rewrite Eps. apply (same_spaces_insert _ _ _ _ me); [apply same_spaces_refl|rewrite list_lookup_insert_ne by congruence; exact Hme|].
      apply same_spaces_live; [exact Lme|unfold live; discriminate|reflexivity..]. }
    split.
    + apply (confined_mono []); [intros x _ _ Hx; inversion Hx|]. refine (confined_ext _ _ _ _ _ _ _ _ _ _ _ M); [reflexivity|].
      intros x. rewrite (spaces_same _ _ S), (spaces_insert _ _ _ _ _ Hown Hi), elem_of_cons. change (cr3 child) with pml4. tauto.
    + exact Er.
    + apply (own_same _ _ S). apply own_fresh; [exact Hown|exact Hf].
    + exists child. rewrite Ec, Eps, list_lookup_insert_ne, list_lookup_insert_eq by (congruence || exact (lookup_lt_Some _ _ _ Hi)). auto.
    + intros j x Hx. destruct (Forall2_lookup_r _ _ _ _ _ S Hx) as (y & Hy & _ & _ & <-).
      apply list_lookup_insert_Some in Hy as [(_ & <- & _)|[_ Hy]]; [exact Hb|exact (is_brk _ _ H j y Hy)].
    + intros j x Hx Hbx Hj. left. rewrite Eps, !list_lookup_insert_ne by congruence. exact Hx.
Qed.

(** *** exit *)

Lemma exit_memory k frame status r k' : syscall_exit frame status k = inl (r, k') -> exists c, k_mm k' = xbks_write_cr3 (k_mm k) c /\ k_ramdisk k' = k_ramdisk k.
Proof.
  unfold syscall_exit. rewrite run_bind, run_update_this. destruct (processes k !! current_process k) as [p|]; [|discriminate].
  rewrite run_bind, run_this_process. destruct (_ !! _) as [q|]; [|discriminate]. destruct (vfork_parent q) as [i|]; [|discriminate].
  rewrite run_bind, run_get_process. destruct (_ !! _) as [u|]; [|discriminate]. rewrite run_bind, run_put_process, run_bind. cbn [set_current].
  rewrite run_bind, run_on_mm. intros [= _ <-]. exists (cr3 u). split; reflexivity.
Qed.

Lemma exit_advances k l frame status r k' : isolated k l -> lifecycle k -> syscall_exit frame status k = inl (r, k') -> exists l', advances k k' l l'.
Proof.
  intros H Hk E. destruct (exit_runs frame status k r k' Hk E) as (me & i & p & Hme & _ & Hi & Hne & Hb & _ & Eps & Ec & _ & Hreg).
  destruct (exit_memory k frame status r k' E) as (c & Em & Er). exists l. destruct (isolated_this k l H) as (me' & Hme' & Lme & Ereg & _).
  rewrite Hme in Hme'. injection Hme' as <-.
  set (z := set_state PROCESS_ZOMBIE (set_exit (status & 255) me)) in *.
  assert (S : Forall2 same_spaces (processes k) (processes k')).
  { rewrite Eps. apply (same_spaces_insert _ _ _ _ p); [apply (same_spaces_insert _ _ _ _ me); [apply same_spaces_refl|exact Hme|]|exact Hi|];
      (apply same_spaces_live; [exact Lme || (unfold live; congruence)|unfold live; discriminate|reflexivity..]). }
  split.
  - rewrite (spaces_same _ _ S), Em. apply confined_cr3, H.
  - exact Er.
  - exact (own_same _ _ S (is_own _ _ H)).
  - exists (set_state PROCESS_RUNNING p). rewrite Ec, Eps. split; [|split; [unfold live; discriminate|exact Hreg]].
    apply list_lookup_insert_eq. rewrite length_insert. exact (lookup_lt_Some _ _ _ Hi).
  - intros j x Hx. destruct (Forall2_lookup_r _ _ _ _ _ S Hx) as (y & Hy & _ & _ & <-). exact (is_brk _ _ H j y Hy).
  - intros j x Hx _ Hj. rewrite Ec, Eps. destruct (decide (j = i)) as [->|Hji].
    + right. split; [reflexivity|]. rewrite Hi in Hx. injection Hx as <-. apply list_lookup_insert_eq. rewrite length_insert. exact (lookup_lt_Some _ _ _ Hi).
    + left. rewrite !list_lookup_insert_ne by congruence. exact Hx.
Qed.

(** *** wait4 *)

Lemma spared_trans k k1 k' : current_process k1 = current_process k -> spared k k1 -> spared k1 k' -> spared k k'.
Proof.
  intros Hc H1 H2 i p Hi Hb Hne. destruct (H1 i p Hi Hb Hne) as [Hr Hu]. destruct Hr as [Hr|[He _]]; [|congruence].
  destruct (H2 i p Hr Hb) as [Hr' Hu']; [congruence|]. split; [exact Hr'|]. intros va Hva. rewrite Hu', Hu by exact Hva. reflexivity.
Qed.

Lemma wait4_proceeds k l wanted address r k' : isolated k l -> lifecycle k -> in_u64 address -> sound k' ->
  syscall_wait4 wanted address k = inl (r, k') -> exists l', isolated k' l' /\ spared k k'.
Proof.
  intros H Hk Ha Hs. assert (Hsame : exists l', isolated k l' /\ spared k k).
  { exists l. exact (advances_isolated _ _ _ _ H (is_sound _ _ H) (advances_refl k l H)). }
  unfold syscall_wait4. rewrite run_bind. cbn [get_kernel].
  pose proof (first_zombie_spec (current_process k) wanted (processes k) 0) as Hz.
  destruct (first_zombie _ _ _ _) as [i|]; [|intros [= _ <-]; exact Hsame].
  destruct Hz as (_ & child & Hi & Hreap). rewrite Nat.sub_0_r in Hi. rewrite run_bind, run_get_process, Hi.
  destruct (negb (address =? 0) && negb (user_range_is_valid address 4)) eqn:Ev; [intros [= _ <-]; exact Hsame|].
  rewrite run_bind. set (c := if negb (address =? 0) then _ else _).
  assert (Hkeep : keeps c) by (unfold c; keeps).
  assert (Hsafe : safe (held k l) c any).
  { pose proof (held_invariant k l H) as HI. unfold c. destruct (negb (address =? 0)); [|safe_done].
    apply safe_store_le; [exact _|exact (status_area address Ha Ev)]. }
  pose proof (Hsafe k (held_start k l H)) as Hh. destruct (c k) as [[[] k1]|] eqn:E1; [|discriminate]. destruct Hh as [Hh _].
  pose proof (Hkeep k _ k1 E1) as Ho.
  destruct (advances_isolated _ _ _ _ H (hd_sound _ _ _ Hh) (held_advances k l H c any tt k1 Hsafe Hkeep E1)) as [H1 S1].
  unfold reaped_by in Hreap. apply andb_true_iff in Hreap as [Hreap _]. apply andb_true_iff in Hreap as [Hzs _]. apply bool_decide_eq_true_1 in Hzs.
  destruct (lifecycle_current k Hk) as (me & Hme & Hrun & _). assert (Hne : i <> current_process k) by (intros ->; congruence).
  assert (Hi1 : processes k1 !! i = Some child) by (rewrite (oc_others _ _ Ho i Hne); exact Hi).
  assert (Lc : live child) by (unfold live; congruence).
  rewrite run_bind, run_on_mm. cbn [fst snd]. rewrite run_bind, run_put_process. intros [= _ <-].
  destruct (confined_destroy (k_mm k1) (spaces (processes k1)) l (cr3 child) (is_space _ _ H1)) as (l2 & M & C); [apply elem_spaces; eauto|].
  exists l2. assert (A : advances k1 (with_processes (with_mm k1 (xbks_vmm_destroy_user_space (k_mm k1) (cr3 child) XBKS_USER_TOP)) (<[i := zero_process]> (processes k1))) l l2).
  { apply (advances_freed _ _ _ _ i child (filter (fun x => x <> cr3 child) (spaces (processes k1))) H1 Hi1); try reflexivity.
    - rewrite (hd_current _ _ _ Hh). exact Hne.
    - congruence.
    - exact (proj2 (proj2 C)).
    - intros x. rewrite list_elem_of_filter. tauto.
    - refine (confined_mono _ _ _ _ _ _ _ _ _ M). intros x _ _ Hx. inversion Hx. }
  destruct (advances_isolated _ _ _ _ H1 Hs A) as [H2 S2]. split; [exact H2|].
  exact (spared_trans _ _ _ (hd_current _ _ _ Hh) S1 S2).
Qed.

(** ** Every system call *)

Lemma dispatch_proceeds k l frame a k' : isolated k l -> lifecycle k -> argument_words frame ->
  xbks_process_syscall_dispatch frame k = inl (a, k') -> exists l', isolated k' l' /\ spared k k'.
Proof.
  intros H Hk Hw E. pose proof (safe_dispatch frame Hw k (is_sound _ _ H)) as Hs. rewrite E in Hs. destruct Hs as [Hs _].
  assert (Hdone : (exists l', advances k k' l l') -> exists l', isolated k' l' /\ spared k k').
  { intros [l' A]. exists l'. exact (advances_isolated _ _ _ _ H Hs A). }
  pose proof (held_invariant k l H) as HI. destruct Hw as (W1 & W2 & W3). revert E. unfold xbks_process_syscall_dispatch.
  repeat match goal with |- (if ?b then _ else _) _ = _ -> _ => destruct b end; intros E;
    try (apply with_frame_runs in E as (v & E & _);
         solve [ apply Hdone; exists l; apply (held_advances k l H _ any v k') in E;
                   [exact E|first [solve [eauto 3 with safe]|safe_done|safe_next; intros; safe_done]|solve [keeps]] ]).
  - apply with_frame_runs in E as (v & E & _). exact (Hdone (brk_advances k l _ v k' H W1 E)).
  - apply with_frame_runs in E as (v & E & _). exact (Hdone (vfork_advances k l frame v k' H Hk E)).
  - exact (Hdone (execve_advances k l frame a k' H E)).
  - apply with_frame_runs in E as (v & E & _). exact (wait4_proceeds k l _ _ v k' H Hk W2 Hs E).
  - exact (Hdone (exit_advances k l frame _ a k' H Hk E)).
Qed.

(** ** The system at work *)

(** One step: a system call the kernel returns from (with the pid counter still in the range
    of [int]), a store by the program that runs, or new answers of the devices. *)
Inductive moves (k : kernel) : kernel -> Prop :=
| moves_call frame a k' :
    argument_words frame -> next_pid k < 2 ^ 31 - 1 -> xbks_process_syscall_dispatch frame k = inl (a, k') -> moves k k'
| moves_store va v k' : user_va va -> user_store va v k = inl (tt, k') -> moves k k'
| moves_devices shift polls console :
    moves k (Kernel (k_mm k) (k_ramdisk k) (processes k) (current_process k) (next_pid k) shift polls console).

Definition separated (k : kernel) : Prop := lifecycle k /\ exists l, isolated k l.

Lemma moves_separated k k' : separated k -> moves k k' -> separated k' /\ spared k k'.
Proof.
  intros [Hk [l H]] Hm.
  assert (Hdone : lifecycle k' -> (exists l', isolated k' l' /\ spared k k') -> separated k' /\ spared k k').
  { intros Hk' (l' & H' & S). split; [split; [exact Hk'|exists l'; exact H']|exact S]. }
  destruct Hm as [frame a k' Hw Hmax E|va v k' Hva E|shift polls console].
  - exact (Hdone (dispatch_lifecycle frame k a k' Hk Hmax E) (dispatch_proceeds k l frame a k' H Hk Hw E)).
  - pose proof (held_invariant k l H) as HI. pose proof (inv_store (J := held k l) va v Hva) as Hst.
    pose proof (Hst k (held_start k l H)) as Hh. rewrite E in Hh. destruct Hh as [Hh _].
    pose proof (keeps_user_store va v k tt k' E) as Ho. apply Hdone; [exact (lifecycle_same k k' Ho Hk)|]. exists l.
    exact (advances_isolated _ _ _ _ H (hd_sound _ _ _ Hh) (held_advances k l H _ any tt k' Hst (keeps_user_store va v) E)).
  - apply Hdone; [apply (lifecycle_same k); [|exact Hk]; constructor; [apply same_processes_refl|reflexivity..]|]. exists l.
    apply (advances_isolated k _ l l H); [apply (sound_table k); [reflexivity..|apply H]|].
    split; [apply confined_refl, H|reflexivity|apply H|apply H|apply H|auto].
Qed.

(** *** The start *)

Definition with_ramdisk (k : kernel) (rd : ramdisk_state) : kernel :=
  Kernel (k_mm k) rd (processes k) (current_process k) (next_pid k) (k_shift k) (k_polls k) (k_console k).

(** A booted kernel with the free frames [l] and the archive [rd]: no program of the archive
    has a header whose sums wrap, and neither the archive nor the kernel's page tables are
    in a free frame. *)
Record starts (modules : option (list (option limine_file))) (rd : ramdisk_state) (l : list Z) (k : kernel) : Prop := {
  sr_booted : booted k;
  sr_current : current_process k = 0%nat;
  sr_space : space (k_mm k) [] l;
  sr_mount : xbks_ramdisk_init modules = Some (true, rd);
  sr_size : 0 <= rd_size rd < 2 ^ 62;
  sr_protected : protected (k_mm k) [] l rd;
  sr_tame : tame (with_ramdisk k rd);
}.

Lemma spaces_zero n : spaces (replicate n zero_process) = [].
Proof.
  unfold spaces. induction n as [|n IH]; [reflexivity|]. cbn [replicate]. rewrite filter_cons_False; [exact IH|]. intros H. apply H. reflexivity.
Qed.

(** Only the first slot is in use. *)
Lemma only_init p : live p -> let ps := <[0%nat := p]> (replicate MAX_PROCESSES zero_process) in
  spaces ps = [cr3 p] /\ own_space ps /\ forall i q, ps !! i = Some q -> q = p \/ q = zero_process.
Proof.
  intros Hp ps. unfold ps, MAX_PROCESSES. cbn [replicate insert list_insert]. split; [|split].
  - unfold spaces. rewrite filter_cons_True by exact Hp. change (cr3 p :: spaces (replicate 15 zero_process) = [cr3 p]). rewrite spaces_zero. reflexivity.
  - assert (H0 : forall i q, (p :: replicate 15 zero_process) !! i = Some q -> live q -> i = 0%nat).
    { intros [|i] q Hq Lq; [reflexivity|]. apply (lookup_replicate 15 zero_process) in Hq as [-> _]. exfalso. apply Lq. reflexivity. }
    intros i j q r Hq Hr Lq Lr _. rewrite (H0 i q Hq Lq), (H0 j r Hr Lr). reflexivity.
  - intros [|i] q Hq; [injection Hq as <-; left; reflexivity|]. apply (lookup_replicate 15 zero_process) in Hq as [-> _]. right. reflexivity.
Qed.

Lemma start_isolated modules rd l es k k' :
  starts modules rd l k -> xbks_process_start_init modules k = inl (Some es, k') -> separated k'.
Proof.
  intros [Hb Hcur Hsp Hrd Hsz Hprot Htame] E. split; [exact (start_init_lifecycle modules es k k' Hb E)|].
  assert (Hsound : sound k'). { apply (start_sound modules es k k' Hb Hcur); [|exact E]. intros rd' Hrd'. rewrite Hrd in Hrd'. injection Hrd' as <-. exact Hsz. }
  destruct Hb as [Hps Hpid]. revert E. unfold xbks_process_start_init. rewrite run_bind, Hrd. cbn [in_object]. rewrite run_ret.
  rewrite run_bind. cbn [set_ramdisk negb]. unfold allocate_process. rewrite run_bind, run_bind. cbn [get_kernel processes]. rewrite Hps.
  cbn [first_unused replicate MAX_PROCESSES]. rewrite bool_decide_eq_true_2 by reflexivity. rewrite run_bind, run_put_process, run_bind. cbn [bump_pid]. rewrite run_ret.
  rewrite run_bind, run_get_process. cbn [with_processes processes next_pid current_process].
  cbn [lookup list_lookup insert list_insert replicate MAX_PROCESSES]. rewrite run_bind.
  match goal with |- context [load_program ?a ?b ?c ?d ?k0] => set (k1 := k0) end.
  destruct (load_program_confined k1 [] l Hsp Hprot Hsz Htame (fresh_process (next_pid k)) (lit "/bin/xsh") [lit "xsh"] [lit "PATH=/bin:/sbin:/usr/bin"])
    as (b & q & s & E & (c & e & st & br & -> & Hbr) & C & l1 & M);
    [apply literal_terminated; reflexivity|constructor; [apply literal_terminated; reflexivity|constructor]..|].
  rewrite E. destruct b; cbn [negb]; [|rewrite run_bind, run_put_process, run_ret; discriminate]. destruct M as [Hf M].
  rewrite run_bind, run_put_process, run_bind. cbn [set_current]. rewrite run_bind. cbn [keyboard_reset]. rewrite run_bind, run_on_mm. cbn [fst snd].
  rewrite run_ret. intros [= _ <-]. exists l1.
  set (p := set_image c e st br (fresh_process (next_pid k))) in *. assert (Lp : live p) by (unfold live; discriminate).
  destruct (only_init p Lp) as (Hone & Hown & Hslots). cbn [insert list_insert replicate MAX_PROCESSES] in Hone, Hown, Hslots.
  assert (M' : confined [] [] [cr3 p] l l1 (k_mm k1) (xbks_write_cr3 s c)).
  { refine (confined_trans _ _ _ _ _ _ _ _ _ _ _ M (confined_cr3 _ _ _ _ _ (cf_space _ _ _ _ _ _ _ M))). intros r Hr. inversion Hr. }
  split; cbn [with_mm k_mm processes current_process k_ramdisk]; rewrite ?Hone.
  - exact Hsound.
  - apply M'.
  - exact Hown.
  - exists p. split; [reflexivity|]. split; [exact Lp|reflexivity].
  - intros i q Hq. destruct (Hslots i q Hq) as [->| ->]; [|apply Z.le_refl]. destruct Hbr as [Hbr|Hbr]; cbn in Hbr |- *; lia.
  - exact (protected_confined _ _ _ _ _ _ _ _ M' Hprot).
  - apply (tame_confined [] [] [cr3 p] l l1 k1); [exact Hsz|exact M'|exact Hprot|reflexivity|exact Htame].
Qed.

(** The states of a kernel at work. *)
Inductive working : kernel -> Prop :=
| working_start modules rd l es k k' : starts modules rd l k -> xbks_process_start_init modules k = inl (Some es, k') -> working k'
| working_moves k k' : working k -> moves k k' -> working k'.

Lemma working_separated k : working k -> separated k.
Proof.
  induction 1 as [modules rd l es k k' Hs E|k k' _ IH Hm]; [exact (start_isolated modules rd l es k k' Hs E)|exact (proj1 (moves_separated k k' IH Hm))].
Qed.

(** Any steps during which the process of slot [i] does not run. *)
Definition meanwhile (i : nat) : kernel -> kernel -> Prop := rtc (fun k k' => current_process k <> i /\ moves k k').

Lemma meanwhile_spared i k k' p : separated k -> processes k !! i = Some p -> state p = PROCESS_BLOCKED -> meanwhile i k k' ->
  separated k' /\ (processes k' !! i = Some p \/ current_process k' = i /\ processes k' !! i = Some (set_state PROCESS_RUNNING p)) /\
  forall va, user_va va -> user_byte (k_mm k') (cr3 p) va = user_byte (k_mm k) (cr3 p) va.
Proof.
  intros Hs Hi Hb H. induction H as [k|k k1 k' [Hne Hm] Hrest IH]; [auto|]. destruct (moves_separated k k1 Hs Hm) as [Hs1 S].
  destruct (S i p Hi Hb ltac:(congruence)) as [[Hr|[Hc Hr]] Hu].
  - destruct (IH Hs1 Hr) as (Hs' & Hp & Hu'). split; [exact Hs'|]. split; [exact Hp|]. intros va Hva. rewrite Hu', Hu by exact Hva. reflexivity.
  - inversion Hrest as [k2|k2 k3 k4 [Hne1 _] _]; subst; [|congruence]. split; [exact Hs1|]. split; [right; auto|exact Hu].
Qed.

(** Live processes share no physical address. *)
Lemma separated_pages k i j p q va vb a : separated k -> i <> j -> processes k !! i = Some p -> processes k !! j = Some q -> live p -> live q ->
  user_va va -> user_va vb -> xbks_vmm_translate (k_mm k) (cr3 p) va = Some a -> xbks_vmm_translate (k_mm k) (cr3 q) vb = Some a -> False.
Proof.
  intros [_ [l H]] Hne Hi Hj Lp Lq Ha Hb. pose proof (is_space _ _ H) as Hsp.
  assert (Hp : cr3 p ∈ spaces (processes k)) by (apply elem_spaces; eauto). assert (Hq : cr3 q ∈ spaces (processes k)) by (apply elem_spaces; eauto).
  rewrite (translate_node _ _ _ _ _ Hsp Hp Ha), (translate_node _ _ _ _ _ Hsp Hq Hb). pose proof (upath_path va Ha) as Ua. pose proof (upath_path vb Hb) as Ub.
  destruct (node (k_mm k) (cr3 p) (path va)) as [f|] eqn:Ef; [|discriminate]. destruct (node (k_mm k) (cr3 q) (path vb)) as [g|] eqn:Eg; [|discriminate].
  intros [= <-] [= E]. destruct (sp_frame _ _ _ Hsp _ _ _ Hp Ua Ef) as [(_ & _ & Fa & _) _], (sp_frame _ _ _ Hsp _ _ _ Hq Ub Eg) as [(_ & _ & Fb & _) _].
  assert (Efg : g = f). { pose proof (Z.mod_pos_bound va 4096). pose proof (Z.mod_pos_bound vb 4096). pose proof (Z.div_mod f 4096). pose proof (Z.div_mod g 4096). lia. }
  subst g. destruct (sp_inj _ _ _ Hsp _ _ _ _ _ Hp Hq Ua Ub Ef Eg) as [Ec _]. exact (Hne (is_own _ _ H i j p q Hi Hj Lp Lq Ec)).
Qed.

(** C4. No process can touch the memory of a blocked one.  From its start, on an archive
    without wrapping program headers, and after any system calls, stores by the programs
    and input, the kernel keeps the processes separate ([separated]: address spaces of
    their own, and an archive and kernel tables outside all of them).  From there, let the
    process in slot [i] be blocked by its vfork, and let the others do what they like as
    long as it does not run: system calls with any arguments, stores to any address they
    have mapped.  Then its record is the same, except that it may have just been made to
    run again; every address of its user half holds the byte it held, or is still
    unmapped; and no process in use can reach any physical address of it. *)
Theorem blocked_memory_untouched :
  (forall k, working k -> separated k) /\
  forall k k' i p, separated k -> processes k !! i = Some p -> state p = PROCESS_BLOCKED -> meanwhile i k k' ->
  separated k' /\
  (processes k' !! i = Some p \/ current_process k' = i /\ processes k' !! i = Some (set_state PROCESS_RUNNING p)) /\
  (forall va, user_va va -> user_byte (k_mm k') (cr3 p) va = user_byte (k_mm k) (cr3 p) va) /\
  (forall j q va vb a, j <> i -> processes k' !! j = Some q -> state q <> PROCESS_UNUSED -> user_va va -> user_va vb ->
     xbks_vmm_translate (k_mm k') (cr3 p) va = Some a -> xbks_vmm_translate (k_mm k') (cr3 q) vb <> Some a).
Proof.
  split; [exact working_separated|]. intros k k' i p Hk Hi Hb Hm.
  destruct (meanwhile_spared i k k' p Hk Hi Hb Hm) as (Hs & Hr & Hu).
  split; [exact Hs|]. split; [exact Hr|]. split; [exact Hu|]. intros j q va vb a Hj Hq Lq Ha Hvb E1 E2.
  assert (Hp : exists p', processes k' !! i = Some p' /\ live p' /\ cr3 p' = cr3 p).
  { destruct Hr as [Hr|[_ Hr]]; eexists; (split; [exact Hr|]); (split; [unfold live; (discriminate || congruence)|reflexivity]). }
  destruct Hp as (p' & Hp & Lp & Ec). rewrite <- Ec in E1. exact (separated_pages k' i j p' q va vb a Hs (not_eq_sym Hj) Hp Hq Lp Lq Ha Hvb E1 E2).
Qed.

(** *** The demonstration machine starts *)

Definition demo_archive : ramdisk_state := RamdiskState demo_ramdisk_address (Z.of_nat (length demo_ramdisk)) true.
Definition demo_start_frames : list Z := rev (usable_pages 4096 245760).

Lemma demo_start_low g : g ∈ demo_start_frames -> g <= 245760.
Proof.
  intros Hg. assert (H : forallb (fun g => g <=? 245760) demo_start_frames = true) by (vm_compute; reflexivity).
  rewrite forallb_forall in H. apply Z.leb_le, H, list_elem_of_In, Hg.
Qed.

Lemma demo_kernel_space :
  space (k_mm demo_kernel) [] demo_start_frames /\ hhdm_offset_value (k_mm demo_kernel) = demo_hhdm /\ kernel_cr3_value (k_mm demo_kernel) = 1048576.
Proof.
  destruct (add_usable_range_pool demo_boot [] 4096 245760 demo_boot_pool) as (s0 & E & Hp & Hc & _).
  { vm_compute. intuition discriminate. }
  { intros f _ H. inversion H. }
  unfold demo_kernel. rewrite E. cbn [default k_mm]. rewrite app_nil_r in Hp.
  split; [|split; [exact (proj1 Hc)|exact (proj1 (proj2 Hc))]].
  split; [|intros r p f H; inversion H|intros r r' p p' f H; inversion H].
  apply pool_set_ram; [exact Hp|]. intros g a Hg Ha. apply rd8_store_bytes_out. left.
  pose proof (demo_start_low g Hg).
  unfold in_page, demo_ramdisk_address in *. unfold id in Ha. rewrite (proj1 Hc) in Ha. change (hhdm_offset_value demo_boot) with demo_hhdm in Ha. lia.
Qed.

Lemma demo_kernel_archive : ramdisk_image (with_ramdisk demo_kernel demo_archive) = demo_ramdisk.
Proof.
  unfold ramdisk_image, demo_kernel, with_ramdisk, demo_archive. cbn [k_mm k_ramdisk rd_data rd_size ram set_ram]. rewrite Nat2Z.id.
  apply bytes_at_store_bytes, demo_ramdisk_bytes.
Qed.

Lemma demo_archive_entries e : In e (archive demo_ramdisk) -> te_offset e = 0%nat.
Proof.
  assert (H : forallb (fun e => te_offset e =? 0)%nat (archive demo_ramdisk) = true) by (vm_compute; reflexivity).
  rewrite forallb_forall in H. intros He. apply Nat.eqb_eq, H, He.
Qed.

(** The only program of its archive is tame. *)
Lemma demo_kernel_tame : tame (with_ramdisk demo_kernel demo_archive).
Proof.
  intros f (path & (_ & s & t & -> & Ht) & E). change (k_ramdisk (with_ramdisk demo_kernel demo_archive)) with demo_archive in E.
  change (rd_available demo_archive) with true in E. rewrite demo_kernel_archive in E.
  destruct (find_ok (rd_data demo_archive) demo_ramdisk demo_ramdisk_bytes ltac:(rewrite demo_ramdisk_length; lia) s t Ht) as (o & E' & Ho).
  rewrite E in E'. injection E' as <-. destruct Ho as [(e & _ & He & _ & (_ & Hd & _))|[_ (_ & _ & _ & Hdir & _)]].
  2: { intros Hv. unfold validate_elf in Hv. rewrite Hdir in Hv. contradiction. }
  apply List.find_some in He as [He _]. rewrite (demo_archive_entries e He) in Hd.
  intros _ i Hi. rewrite Hd in Hi |- *. change (rd_data demo_archive + Z.of_nat (0 + 512)) with (demo_ramdisk_address + 512) in *.
  change (k_mm (with_ramdisk demo_kernel demo_archive)) with (k_mm demo_kernel) in *.
  assert (En : e_phnum (ram (k_mm demo_kernel)) (demo_ramdisk_address + 512) = 1) by (vm_compute; reflexivity). rewrite En in Hi.
  replace i with 0 by lia. split; vm_compute; reflexivity.
Qed.

Lemma demo_kernel_starts : starts demo_modules demo_archive demo_start_frames demo_kernel.
Proof.
  destruct demo_kernel_space as (Hsp & Hh & Hk). pose proof demo_ramdisk_length as Hlen.
  assert (Ho : forall f, occupied (k_mm demo_kernel) [] demo_start_frames f -> f <= 245760).
  { intros f [Hf|(r & _ & Hr & _)]; [exact (demo_start_low f Hf)|inversion Hr]. }
  split; [split; reflexivity|reflexivity|exact Hsp|vm_compute; reflexivity|unfold demo_archive; cbn [rd_size]; lia| |exact demo_kernel_tame].
  split.
  - rewrite Hh, Hk. vm_compute. intuition discriminate.
  - rewrite Hk. intros Hf. apply Ho in Hf. lia.
  - intros i Hi f Hf. apply Ho in Hf. rewrite Hh. unfold demo_archive, in_page, demo_ramdisk_address in *. cbn [rd_size rd_data] in *. lia.
Qed.

(** *** A parent with one page *)

(** The parent of LifecycleProps with the memory [s]. *)
Definition demo_paged (s : mm) : kernel := with_mm demo_parent (xbks_write_cr3 s 36864).

Lemma demo_paged_separated s l : space s [36864] l -> fresh_frame s [36864] l (kernel_cr3_value s) -> separated (demo_paged s).
Proof.
  intros Hsp (Hf1 & Hf2 & Hf3). split; [apply (lifecycle_same demo_parent); [apply same_with_mm|exact demo_parent_lifecycle]|]. exists l.
  destruct (only_init (set_image 36864 0 0 0 (fresh_process 1)) ltac:(unfold live; discriminate)) as (Hone & Hown & Hslots).
  change (<[0%nat := set_image 36864 0 0 0 (fresh_process 1)]> (replicate MAX_PROCESSES zero_process)) with (processes (demo_paged s)) in *.
  split; rewrite ?Hone.
  - split; [reflexivity|unfold demo_paged, demo_parent, MAX_PROCESSES; cbn; lia| |unfold archive_placed; cbn; lia].
    apply Forall_lookup_2. intros i q Hq. destruct (Hslots i q Hq) as [->| ->]; [|apply zero_process_ok].
    apply (process_ok_same (fresh_process 1)); [reflexivity..|apply fresh_process_ok].
  - apply space_write_cr3, Hsp.
  - exact Hown.
  - exists (set_image 36864 0 0 0 (fresh_process 1)). split; [reflexivity|]. split; [unfold live; discriminate|reflexivity].
  - intros i q Hq. destruct (Hslots i q Hq) as [->| ->]; apply Z.le_refl.
  - split.
    + exact Hf1.
    + intros [Hf|(r & q & Hr & Hq & Hf)]; [exact (Hf2 Hf)|].
      apply (Hf3 r q Hr Hq). rewrite <- (node_write_cr3 s 36864). exact Hf.
    + intros i Hi. cbn in Hi. lia.
  - intros f (path & _ & E). change (rd_available (k_ramdisk (demo_paged s))) with false in E. discriminate E.
Qed.

Lemma demo_one_separated : separated (demo_paged demo_one).
Proof.
  destruct demo_map_page as [s E]. destruct (demo_mapped_fresh s E) as (l & Hsp & _ & Hfr).
  assert (Es : s = demo_one) by (unfold demo_one; rewrite E; reflexivity). rewrite <- Es. apply (demo_paged_separated s l Hsp).
  assert (Hk : kernel_cr3_value demo_one = 1048576) by (vm_compute; reflexivity). rewrite Es, Hk in *.
  apply Hfr; [vm_compute; intuition discriminate|apply (bool_decide_unpack _); vm_compute; exact I|discriminate].
Qed.

Definition call_frame (number : Z) : xbks_syscall_frame := SyscallFrame 0 0 0 0 0 0 0 0 0 0 0 0 0 0 number 0 0 0.

Definition waits (i : nat) (k : kernel) : bool :=
  match processes k !! i with Some p => bool_decide (state p = PROCESS_BLOCKED) | None => false end && negb (current_process k =? i)%nat.

(** The parent forks, the child writes over its page and exits; in between the parent waits. *)
Definition family_life : K bool :=
  _ ← xbks_process_syscall_dispatch (call_frame XBKS_SYS_VFORK);
  k ← get_kernel;
  _ ← user_store 4194304 7;
  k1 ← get_kernel;
  _ ← xbks_process_syscall_dispatch (call_frame XBKS_SYS_EXIT);
  mret (waits 0 k && waits 0 k1 && (next_pid k1 <? 1000)).

Lemma demo_family_lives : ran (family_life (demo_paged demo_one)) = Some true.
Proof. vm_compute. reflexivity. Qed.

Lemma call_frame_words n : argument_words (call_frame n).
Proof. unfold argument_words, in_u64, call_frame. cbn. lia. Qed.

Lemma family_meanwhile k0 : separated k0 -> next_pid k0 < 1000 -> ran (family_life k0) = Some true ->
  exists k k1 k' p, separated k /\ processes k !! 0%nat = Some p /\ state p = PROCESS_BLOCKED /\
    user_store 4194304 7 k = inl (tt, k1) /\ meanwhile 0 k1 k' /\ meanwhile 0 k k'.
Proof.
  intros Hk0 Hn H. unfold family_life in H. rewrite run_bind in H.
  destruct (xbks_process_syscall_dispatch (call_frame XBKS_SYS_VFORK) k0) as [[a k]|] eqn:E1; [|discriminate].
  rewrite run_bind in H. cbn [get_kernel] in H. rewrite run_bind in H. destruct (user_store 4194304 7 k) as [[[] k1]|] eqn:E2; [|discriminate].
  rewrite run_bind in H. cbn [get_kernel] in H. rewrite run_bind in H.
  destruct (xbks_process_syscall_dispatch (call_frame XBKS_SYS_EXIT) k1) as [[b k']|] eqn:E3; [|discriminate].
  rewrite run_ret in H. cbn [ran] in H. injection H as H. apply andb_prop in H as [H H4]. apply andb_prop in H as [H2 H3].
  unfold waits in *. apply Z.ltb_lt in H4. apply andb_prop in H2 as [H2 N2], H3 as [_ N3]. apply negb_true_iff, Nat.eqb_neq in N2, N3.
  destruct (processes k !! 0%nat) as [p|] eqn:Hp; [|discriminate]. apply bool_decide_eq_true_1 in H2.
  assert (Hrest : meanwhile 0 k1 k').
  { eapply rtc_l; [split; [exact N3|apply (moves_call _ (call_frame XBKS_SYS_EXIT) b); [apply call_frame_words|lia|exact E3]]|]. apply rtc_refl. }
  exists k, k1, k', p. split; [|do 4 (split; [assumption|])].
  - apply (moves_separated k0); [exact Hk0|]. apply (moves_call _ (call_frame XBKS_SYS_VFORK) a); [apply call_frame_words|lia|exact E1].
  - eapply rtc_l; [split; [exact N2|apply (moves_store _ 4194304 7 k1); [split; lia|exact E2]]|exact Hrest].
Qed.

(** The machine of the archive starts separated; the child of the other one writes 7 at
    0x400000, and its parent never sees it. *)
Lemma blocked_memory_untouched_witness :
  (exists k, xbks_process_start_init demo_modules demo_kernel = inl (Some (4194304, 140737488347064), k) /\ separated k) /\
  exists k k1 k' p, processes k !! 0%nat = Some p /\ user_store 4194304 7 k = inl (tt, k1) /\ meanwhile 0 k1 k' /\
    user_byte (k_mm k') (cr3 p) 4194304 = user_byte (k_mm k) (cr3 p) 4194304.
Proof.
  destruct blocked_memory_untouched as [Hw Hm]. split.
  - destruct demo_started as [k E]. exists k. split; [exact E|]. apply Hw. exact (working_start _ _ _ _ _ _ demo_kernel_starts E).
  - destruct (family_meanwhile _ demo_one_separated eq_refl demo_family_lives) as (k & k1 & k' & p & Hk & Hp & Hb & E & Hrest & Hall).
    exists k, k1, k', p. split; [exact Hp|]. split; [exact E|]. split; [exact Hrest|].
    refine (proj1 (proj2 (proj2 (Hm k k' 0%nat p Hk Hp Hb Hall))) 4194304 _). split; lia.
Defined.
